(* ===== verification/_CoqProject ===== *)
-Q . S2P
Prelude.v
Rng.v
PriorityQueue.v
Heap.v
Events.v
Machine.v
Engine.v
Experiments.v
Refinement.v
Correctness.v
Termination.v
Feedback.v
Independence.v
Replay.v
Timestamps.v
Fifo.v
Chains.v
Visits.v
Identities.v
Order.v
Cost.v
Flow.v
Whereabouts.v
Lindley.v
Draws.v
Numpy.v
Metrics.v
SystemTime.v
Sojourn.v
Means.v
Samples.v
Controller.v
Divergence.v
Replications.v
Estimates.v
Regression.v
Analysis.v
Tabulate.v
Notebook.v
Traffic.v
