(* ===== verification/Prelude.v ===== *)
(** * Verification of the tandem-queue discrete-event simulator

    The program is two Jupyter notebooks.  [src/sim.ipynb] simulates [n]
    service stations in series, with an optional return of a client to an
    earlier station ("retroceso"): [servers_simulation] runs one
    simulation as a loop over a priority queue of events,
    [metrics_by_simulation] reduces the tables of a run to waiting,
    service and system times, [run_simulation] repeats runs until the
    estimate settles, six cells run it on six configurations, and a
    closing section compares the tables with an M/M/1 model.
    [src/servers_regression.ipynb] is an earlier version: three generators
    of random variates and a simulation without feedback.

    ** The files and the parts they model

    - [Prelude] (this file): what every component shares.  Exceptions as
      values ([exn], [result], stdpp's monad notation), list subscripts
      that raise [IndexError] ([py_index]), [dict.get] ([dict_get]), the
      three kinds of loop of the notebooks with their proof rules
      ([while_loop] for [while cond], [do_loop] for [while True] with
      [break], [iterate_body] for a fixed number of its iterations,
      [for_loop] for [for x in l]), two computations in lockstep
      ([result_rel], [while_loop_rel]), counting ([count_if]), the
      hint databases [sim] and [sim_rw] and the tactics of the
      development.
    - [Rng]: the [random] module as an oracle indexed by the number of
      draws ([RandomSource]), what the simulator may assume of the draws
      ([RandomSourceLaws]), two executable oracles.
    - [PriorityQueue]: [queue.PriorityQueue] as an interface
      ([PriorityQueue]) with its contract ([PriorityQueueLaws]) and two
      implementations proved against the contract, a sorted list and an
      unsorted list.
    - [Heap]: the binary heap of [heapq] on which CPython's
      [queue.PriorityQueue] runs ([heappush], [heappop], [_siftdown],
      [_siftup] as the library writes them), proved against the same
      contract.
    - [Events]: the enum [EventType], the event tuples and Python's order
      on them ([event_lt]), a strict total order.
    - [Machine]: the specification of the engine, a labelled transition
      system [mstep] on the state variables, in which the pending events
      are a list up to permutation and a step takes a least event.  Its
      invariant [minv] (shape of the tables, one pending service event per
      busy station and for the head of its queue, tables that count the
      visits, no pending event in the past, conservation of clients) is
      proved by inversion of the rules.  Its measure [weight] (of the
      pending events and the waiting clients) decreases at every step
      that schedules its next arrival later and sends no client back
      ([mstep_weight]).
    - [Engine]: [servers_simulation] as it is written: [config] for the
      arguments, [state] for the local variables, [init_state],
      [on_asigned], [on_arrival], [on_finish] with [next_server],
      [loop_cond], [loop_body], [run], and the loop as a transition system
      ([step], [reachable]).
    - [Experiments]: the arguments of the six calls of the notebook.
    - [Refinement]: every iteration of the loop of [Engine] is a step of
      [Machine] ([loop_body_refines]), a run of the loop is a run of the
      machine ([run_refines]), and no handler fails in a state of the
      right shape ([loop_body_safe]).
    - [Correctness]: the theorems on [servers_simulation] as it is called:
      it raises nothing on a valid configuration, a call that returns is
      a run of the machine, and the invariants of the machine hold of the
      tuple returned; what it does outside the valid configurations; the
      routing of [next_server].
    - [Termination]: [servers_simulation] returns when every arrival gap
      is at least one tick ([positive_gaps]) and no draw sends a client
      back ([forward_only]: every uniform draw is above the probability
      of every station that routes with one, [routes_from]; the
      probabilities of the first and of the last station are never read
      and are left free), and with [finish] set it returns with every
      admitted client departed.
    - [Feedback]: [servers_simulation] returns when only finitely many
      draws send a client back ([bounded_feedback]): the measure of
      [Machine] is extended by the draws that may still do so.
    - [Divergence]: with [finish] set and a feedback probability of 1 at
      a station that is neither the first nor the last,
      [servers_simulation] does not return: no event is ever pending for
      a later station ([held]), so no client leaves and the event clock
      never empties.
    - [Independence]: two runs of [servers_simulation] on two
      implementations of the queue go through the same states and return
      the same value; the run on the heap is the run on the sorted list.
    - [Replay]: the tuple a run returns, rebuilt from the labels of its
      steps: the labels determine the time, the counters and the tables.
    - [Timestamps]: the times recorded for a visit are in order (entry
      in the queue, start of service, completion) and not after the
      clock, in every state of the machine and in the tables returned.
    - [Fifo]: every station serves its queue first come, first served:
      the completions at a station are an initial part of the entries.
    - [Chains]: the pending arrivals at the first station are at most one
      more than the clients sent back there; a client sent back starts an
      arrival chain of its own.
    - [Visits]: when no client is sent back, a client visits every
      station once, in order; the tables of a drained run hold exactly one
      time per client, station and table.
    - [Identities]: the identities in use are those below [n_a], with or
      without feedback: each has one entry time at the first station, and
      no queue, table or pending event names another.
    - [Order]: at most one client is between two stations at any time;
      when no client is sent back, clients join every queue and leave
      every station in the order of their identities, so the clients that
      left are the identities below [n_d], in a drained run and in a run
      cut at the horizon.
    - [Cost]: the calls of the generator: the cursor a call returns is
      the cursor it starts with plus one plus the draws of its
      iterations, with or without feedback; a drained run without
      feedback of [n_a] clients through [n] stations makes exactly
      [1 + n_a * (1 + n + (n - 2))] draws.
    - [Flow]: the traffic of a drained run in numbers of clients, with
      or without feedback: the entries and completions the tables hold
      for a station are the clients the labels of the run send to it and
      from it ([moved]).
    - [Whereabouts]: the conservation of clients identity by identity,
      with or without feedback ([where_ok]): an identity that was given
      is in one queue or on its way to one station, or it has left once,
      or it was sent back to the first station once, where the client
      goes on under the next identity.  No identity has two completion
      times at the last station, and the identities below [n_d] that
      have none are as many as the identities from [n_d] on that have
      one.
    - [Lindley]: when no client is sent back, the tables satisfy the
      recursion of a tandem of first-come-first-served stations: a
      client starts service at the later of its entry in the queue and
      the completion of the client before it, and enters the next queue
      when it completes service.
    - [Draws]: when no client is sent back, the times between the
      events are the draws of the generator: a completion is the service
      start plus a draw with the rate of the station, an admission is the
      admission before it plus a draw with the arrival rate.
    - [Numpy]: [np.mean], [np.var] and the test on [np.std], on floats
      that are rationals or [nan].
    - [Metrics]: the class [Metrics] and [metrics_by_simulation], with
      both loops and every local variable; it does not raise, returns
      lists of the right lengths, and reports mean waiting and service
      times that are not negative.
    - [SystemTime]: the value the two loops leave in [system_time[c]]
      as a function of the tables, on every branch and for every tuple
      ([metrics_of_output_sys_after]).  For a run in which no client is
      sent back, drained or cut at the horizon, the time in the system
      that [metrics_by_simulation] reports for a client that left is its
      completion time at the last station minus its entry time at the
      first, and for a client still in the network it is [0].
    - [Sojourn]: the time in the system reported on every run, with or
      without feedback: [0] for an identity that is not below [n_d],
      also when it has left, and the negative of the entry time for an
      identity below [n_d] that has not left
      ([metrics_by_simulation_system_time_feedback]).
    - [Means]: the mean waiting and service times of a station as
      functions of the tables: [wait_sample] and [use_sample] are what
      one client contributes, [station_wait] and [station_use] their
      means, and the two loops compute exactly these; in a drained run
      without feedback every client contributes its waiting time and its
      service time at the station.
    - [Samples]: what the means are means of, in a drained run without
      feedback: the mean service time of a station is the sample mean of
      one draw of [random.expovariate] per client admitted, with the rate
      of the station, the draws pairwise distinct; the mean waiting time
      is the mean of the waiting times of Lindley's recursion; at the
      first station the waits satisfy Lindley's equation in the draws;
      the time in the system of a client is the sum of its waits and
      services.
    - [Controller]: [run_simulation]: the bounds on its iterations, the
      run it stops at (the first after which the stopping rule holds), its
      termination under the hypotheses of [Termination], its result when no
      client is admitted.
    - [Replications]: what [run_simulation] accumulates: the chain of
      its runs ([replications]), each starting with the generator as the
      run before left it, and the three lists as a function of the chain
      ([accumulate]); the blocks of draws of two runs do not overlap.
    - [Estimates]: the variances and means [run_simulation] reports are
      [nan] or not negative.
    - [Regression]: the second notebook: the generators and [simulation],
      which raises [TypeError] in its first iteration, and what the one
      generator returns that calls the library as it must be called
      ([generate_poisson_spec]).
    - [Analysis]: beside the development, the formulas of the markdown
      cells on the model, the tables the notebook records, and the
      arithmetic of their comparison.  They are prose and recorded
      output, not code: no theorem on the program depends on them.
    - [Tabulate]: the call [print(tabulate(rows, headers, tablefmt="grid"))]
      that ends every experiment: the general format of a float
      ([format_g]), the columns and the grid of [tabulate]
      ([tabulate_grid]), modelled from the documented behaviour of the
      library; the six tables as the notebook records them
      ([printed_1] to [printed_6]) are printed by the model character by
      character ([print_table_observed]), which tests the model and
      states nothing of the program.
    - [Notebook]: the code cell of an experiment ([experiment_cell]: the
      call of [run_simulation], the rows and the table printed), the six
      cells and their run in the order of the notebook on one generator
      ([notebook]); the cells raise nothing, and under the hypotheses of
      [Feedback] on the draws they print six tables of nine lines
      ([notebook_prints]).
    - [Traffic]: beside the development, the traffic equations of the
      markdown cell on the model with feedback ([traffic]), solved from
      the last station backward ([traffic_rates]), and the time in the
      system they give ([feedback_W]); prose, as [Analysis].

    ** Modelling conventions

    - Simulation time is a Python float; in [Engine] it is an integer
      number of ticks ([Z]).  The engine only adds times and compares
      them; rounding is not modelled.  Rates and probabilities are
      rationals ([Q]); the engine only compares them.  In [Regression]
      times are rationals.
    - A Python exception is a value [Raise e] of [result]; a call that
      never returns (a blocking [get] on an empty queue) is
      [Raise Blocked].
    - The random generator is a parameter: a theorem holds for every
      sequence of draws that satisfies [RandomSourceLaws] (draws of
      [expovariate] are not negative, draws of [uniform] lie between the
      bounds, [choice] picks an index of the sequence).  The cursor of the
      generator is threaded through the states, so the order of the draws
      is part of the model.
    - The priority queue is a parameter: the engine is proved against the
      contract, for every implementation that meets it.
    - A valid configuration ([valid_config]) has at least one station, a
      positive arrival rate, one positive service rate and one
      probability in [[0, 1]] per station.

    ** Fuel

    A loop takes a fuel argument that bounds the number of executions of
    its body; [OutOfFuel] is distinct from every result of the program, so
    a theorem "the loop returns [s]" is never satisfied by a run that was
    cut short.  The safety theorems hold for every fuel.  The theorems on
    the result of a call state what holds when the call returns within the
    fuel.  The loop of [servers_simulation] does not terminate for every
    lawful sequence of draws (arrival gaps of zero before the horizon, or
    feedback at every completion, keep it running), so its termination is
    proved under two hypotheses on the draws: every arrival gap is at
    least one tick and no draw sends a client back (the uniform draws
    are above the probabilities of the stations that route with one).  Then a fuel of
    [enough_fuel cfg = (time + 1) * 3 * n] is enough: a client costs at
    most three iterations per station (assignment, service start,
    completion), and at most one client is admitted per tick before the
    horizon, besides the first; every larger fuel gives the same result.
    When the draws of a list [ks] may send a client back, each of them
    costs at most the weight of an initial state (a client sent back to
    the first station starts a chain of arrivals), and a fuel of
    [feedback_fuel cfg ks = enough_fuel cfg * (1 + length ks)] is
    enough.  For the six experiments (time 5000, three stations at most)
    this is at most [45009 * (1 + length ks)] per run, the fuel of
    [notebook_prints]; the loop of [run_simulation] takes 5000, its
    [max_iterations].
    The loops of [heapq] move a position towards the root or towards a
    leaf; their fuel is the position, respectively the length of the
    list, and their specifications are proved for every fuel that covers
    the distance.
    Under the same hypotheses [run_simulation] returns within
    [max_iterations] iterations of its own loop.  Without them
    [servers_simulation] is proved to return without entering its loop
    when [finish] is unset and the horizon is not positive.  The concrete
    runs with feedback use a fuel of 200 or 300 iterations for horizons of
    6 and 60 time units, which the evaluation shows to be enough.

    ** What the proofs show of the code

    The engine is safe, refines the machine, keeps the station
    discipline, the order of the recorded times and the
    first-come-first-served order, lets at most one client travel
    between two stations, and does not depend on the queue
    implementation: what is evaluated on the sorted list is what the
    code computes on the heap of [heapq].  The tuple it returns is a
    function of the labels of its steps.  Without feedback the tables
    are those of the recursion of a tandem of queues
    ([servers_simulation_lindley]) fed with the draws of the generator
    ([servers_simulation_draws]): the two determine every time of the
    tables, so the event loop computes what the model of the notebook
    describes.  The means [metrics_by_simulation] reports are then
    sample means of the service distribution and of the waiting times of
    the recursion ([metrics_by_simulation_service_draws],
    [metrics_by_simulation_lindley_wait]); [run_simulation] averages
    one such mean per replication, and no draw enters two replications
    ([run_simulation_replications], [replication_service_draws]).
    Where the code differs from
    what it is meant to do, a theorem states what it does instead:

    - a client sent back to station 0 is admitted as a new client and
      starts a second chain of arrivals
      ([servers_simulation_drained], [reachable_chains],
      [recycle_second_chain]);
    - the time in the system is computed as if the identities below
      [n_d] were the clients that left, which holds without feedback
      ([servers_simulation_departure_order],
      [metrics_by_simulation_system_time]) and fails with it: an
      identity below [n_d] that was sent back is reported with the
      negative of its entry time, and for each of them an identity that
      left is reported with [0]
      ([metrics_by_simulation_system_time_feedback],
      [servers_simulation_whereabouts]);
    - a client still in the network when the run is cut at the horizon
      is reported with a time in the system of [0], which the mean of
      [run_simulation] then includes
      ([metrics_by_simulation_system_time]);
    - the service time of a client at a station is the sum of its
      completed services divided by the number of its service starts,
      which is one too many while a later visit is in service
      ([metrics_by_simulation_means_spec]; [metrics_use_time_second_visit]
      is such a run); this needs four stations and a run cut at the
      horizon;
    - a feedback probability of 0 still sends a client back on a draw of
      exactly 0 ([next_server_zero_probability]);
    - the configuration is not validated ([servers_simulation_no_station],
      [servers_simulation_zero_rate]);
    - a feedback probability of 1 in the middle of the network, a valid
      argument, makes a draining run loop for ever
      ([servers_simulation_never_drains]);
    - the traffic equations of the notebook's model give a station the
      whole traffic of the station before it and a share of that of
      every later station, where the code takes the clients sent back
      away from the next station and sends each to one station
      ([servers_simulation_flow]);
    - a run that admits nobody makes [run_simulation] run
      [max_iterations] times, reading the generator once per run, and
      return [nan] ([run_simulation_no_admission]);
    - two generators of the second notebook call [random.uniform]
      without its bounds, so [simulation] raises [TypeError]
      ([simulation_TypeError]); [generate_poisson] calls it with them,
      and does not return when the products of the draws stay above
      [exp(-lambd)] ([generate_poisson_runs_on]).

    ** What is not modelled

    Floating-point rounding; the probability distributions of the draws
    (only their ranges); the evaluation of the six experiments at the
    notebook's horizon with the notebook's generator (the generator of
    Python is not modelled, so the tables are taken as the notebook
    records them); of [tabulate], tables whose rows differ in length,
    text that reads as a number and text with spaces at its ends; the
    prose of the notebooks: the formulas and numbers it states are kept
    in [Analysis] and [Traffic] for comparison, and are no part of the
    model of the program.

    ** What is left to prove

    Termination when infinitely many draws may send a client back: with
    probabilities below 1 it holds with probability one, not for every
    sequence of draws; it is proved for finitely many such draws
    ([Feedback]) and refuted for a probability of 1 ([Divergence]).  The
    number of visits of a client to a station other than the last when
    clients are sent back (an identity visits the last station at most
    once, [Whereabouts]; with three stations it visits every station at
    most once, since a client sent back re-enters at station 0 under a
    new identity).  The laws of the mean waiting and service times with
    feedback, for which [Lindley] and [Draws] have no counterpart. *)

From Stdlib Require Import ZArith QArith Lia.
From stdpp Require Import gmap list.

Declare Scope sim_scope.
Delimit Scope sim_scope with sim.

(** ** Exceptions and fallible computations *)

(** The Python exceptions the program can raise, plus [Blocked] for a call
    that never returns. *)
Inductive exn : Set :=
  | IndexError
  | TypeError
  | ZeroDivisionError
  | ValueError
  | Blocked.

#[export] Instance exn_eq_dec : EqDecision exn.
Proof. solve_decision. Defined.

Inductive result (A : Type) : Type :=
  | Ok (a : A)
  | Raise (e : exn).
Arguments Ok {A} a.
Arguments Raise {A} e.

#[export] Instance result_ret : MRet result := @Ok.
#[export] Instance result_bind : MBind result := λ A B f m,
  match m with Ok a => f a | Raise e => Raise e end.
#[export] Instance result_fmap : FMap result := λ A B f m,
  match m with Ok a => Ok (f a) | Raise e => Raise e end.

Definition is_Ok {A} (r : result A) : Prop := ∃ a, r = Ok a.

#[export] Instance is_Ok_dec {A} (r : result A) : Decision (is_Ok r).
Proof.
  destruct r as [a|e]; [left; by exists a | right; by intros [? ?]].
Defined.

(** ** Python containers *)

(** [l[i]] for a non-negative index: [IndexError] out of range. *)
Definition py_index {A} (l : list A) (i : nat) : result A :=
  match l !! i with
  | Some x => Ok x
  | None => Raise IndexError
  end.

(** [d.get(k, dflt)]. *)
Definition dict_get `{Countable K} {V} (m : gmap K V) (k : K) (dflt : V) : V :=
  default dflt (m !! k).

Notation "l @[ i ]" := (py_index l i)
  (at level 1, i at level 200, left associativity, format "l @[ i ]") : sim_scope.

(** ** [for] loops *)

(** [for x in l: s = body(s, x)], stopped by the first exception. *)
Fixpoint for_loop {S A} (body : S → A → result S) (l : list A) (s : S) : result S :=
  match l with
  | [] => Ok s
  | x :: l' => s' ← body s x; for_loop body l' s'
  end.

(** ** Counting *)

(** The number of items of [l] that satisfy [P]. *)
Definition count_if {A} (P : A → Prop) `{∀ x, Decision (P x)} (l : list A) : nat :=
  length (filter P l).

(** ** Comparisons on rationals *)

(** [x < y] on [Q] as a boolean. *)
Definition Qltb (x y : Q) : bool := negb (Qle_bool y x).

(** ** While loops with fuel *)

Inductive loop_result (S : Type) : Type :=
  | Finished (s : S)
  | Failed (e : exn)
  | OutOfFuel.
Arguments Finished {S} s.
Arguments Failed {S} e.
Arguments OutOfFuel {S}.

#[export] Instance loop_result_ret : MRet loop_result := @Finished.
#[export] Instance loop_result_bind : MBind loop_result := λ A B f m,
  match m with Finished a => f a | Failed e => Failed e | OutOfFuel => OutOfFuel end.
#[export] Instance loop_result_fmap : FMap loop_result := λ A B f m,
  match m with Finished a => Finished (f a) | Failed e => Failed e | OutOfFuel => OutOfFuel end.

(** A computation without loops, as a step of a computation with loops. *)
Definition lift_result {A} (r : result A) : loop_result A :=
  match r with Ok a => Finished a | Raise e => Failed e end.

(** [while cond: body], running the body at most [fuel] times. *)
Fixpoint while_loop {S} (cond : S → bool) (body : S → result S)
    (fuel : nat) (s : S) : loop_result S :=
  if cond s then
    match fuel with
    | O => OutOfFuel
    | S fuel' =>
        match body s with
        | Ok s' => while_loop cond body fuel' s'
        | Raise e => Failed e
        end
    end
  else Finished s.

(** [while True: s = body(s); if stop: break]: the body returns the new
    state and whether a [break] was taken. *)
Fixpoint do_loop {S} (body : S → loop_result (S * bool)) (fuel : nat) (s : S) : loop_result S :=
  match fuel with
  | O => OutOfFuel
  | Datatypes.S fuel' =>
      match body s with
      | Finished (s', true) => Finished s'
      | Finished (s', false) => do_loop body fuel' s'
      | Failed e => Failed e
      | OutOfFuel => OutOfFuel
      end
  end.

(** The body of a [while True] loop run [j] times, whether it takes the
    [break] or not: the state after [j] iterations. *)
Fixpoint iterate_body {S} (body : S → loop_result (S * bool)) (j : nat) (s : S) :
    loop_result S :=
  match j with
  | O => Finished s
  | Datatypes.S j' =>
      match body s with
      | Finished (s', _) => iterate_body body j' s'
      | Failed e => Failed e
      | OutOfFuel => OutOfFuel
      end
  end.

(** ** Automation *)

(** Two computations, possibly on different types of state, that take the
    same course: both return, with related results, or both raise the same
    exception. *)
Definition result_rel {A B} (rel : A → B → Prop) (r1 : result A) (r2 : result B) : Prop :=
  match r1, r2 with
  | Ok a, Ok b => rel a b
  | Raise e1, Raise e2 => e1 = e2
  | _, _ => False
  end.

Definition loop_result_rel {A B} (rel : A → B → Prop)
    (r1 : loop_result A) (r2 : loop_result B) : Prop :=
  match r1, r2 with
  | Finished a, Finished b => rel a b
  | Failed e1, Failed e2 => e1 = e2
  | OutOfFuel, OutOfFuel => True
  | _, _ => False
  end.

Create HintDb sim discriminated.
Create Rewrite HintDb sim_rw.

(** Invert a monadic bind that is known to succeed. *)
Ltac inv_bind H :=
  lazymatch type of H with
  | mbind ?f ?m = Ok _ =>
      let E := fresh "E" in
      destruct m eqn:E; [simpl in H | discriminate H]
  end.

(** Case analysis on the scrutinee of the first [match]/[if] of the goal. *)
Ltac case_goal :=
  lazymatch goal with
  | |- context [match ?x with _ => _ end] => destruct x eqn:?
  end.

(** * Lemmas *)

Section result_lemmas.
Context {A B : Type}.
Implicit Types (m : result A) (f : A → result B).

Lemma bind_Ok m f b :
  m ≫= f = Ok b ↔ ∃ a, m = Ok a ∧ f a = Ok b.
Proof.
  destruct m as [a|e]; simpl; split.
  - intros Hf. by exists a.
  - by intros (a' & [= <-] & Hf).
  - done.
  - by intros (? & ? & ?).
Qed.

Lemma bind_Raise m f e :
  m ≫= f = Raise e ↔ m = Raise e ∨ ∃ a, m = Ok a ∧ f a = Raise e.
Proof.
  destruct m as [a|e']; simpl; split.
  - intros Hf. right. by exists a.
  - by intros [|(a' & [= <-] & Hf)].
  - intros [= ->]. by left.
  - by intros [[= ->]|(? & ? & ?)].
Qed.

Lemma is_Ok_bind m f :
  is_Ok (m ≫= f) ↔ ∃ a, m = Ok a ∧ is_Ok (f a).
Proof.
  unfold is_Ok. setoid_rewrite bind_Ok. naive_solver.
Qed.

Lemma fmap_Ok (g : A → B) m b :
  g <$> m = Ok b ↔ ∃ a, m = Ok a ∧ b = g a.
Proof.
  destruct m as [a|e]; simpl; split; try naive_solver.
Qed.
End result_lemmas.

(** Invert the successful run of a monadic computation in the hypotheses:
    binds, pattern-matching lets and tests on decidable propositions. *)
Ltac simplify_result :=
  repeat first
    [ progress simplify_eq/=
    | match goal with
      | H : mbind _ _ = Ok _ |- _ =>
          let a := fresh "a" in
          let E := fresh "E" in
          apply bind_Ok in H as (a & E & H)
      | H : (let '(_, _) := ?p in _) = Ok _ |- _ => destruct p
      | H : context [bool_decide ?P] |- _ => destruct (bool_decide_reflect P)
      end ].

Section loop_result_lemmas.
Context {A B : Type}.
Implicit Types (m : loop_result A) (f : A → loop_result B).

Lemma loop_bind_Finished m f b :
  m ≫= f = Finished b ↔ ∃ a, m = Finished a ∧ f a = Finished b.
Proof. destruct m; simpl; naive_solver. Qed.

Lemma loop_bind_Failed m f e :
  m ≫= f = Failed e ↔ m = Failed e ∨ ∃ a, m = Finished a ∧ f a = Failed e.
Proof. destruct m; simpl; naive_solver. Qed.

Lemma loop_fmap_Finished (g : A → B) m b :
  g <$> m = Finished b ↔ ∃ a, m = Finished a ∧ b = g a.
Proof. destruct m; simpl; naive_solver. Qed.

Lemma lift_result_Finished (r : result A) a : lift_result r = Finished a ↔ r = Ok a.
Proof. destruct r; simpl; naive_solver. Qed.

Lemma lift_result_Failed (r : result A) e : lift_result r = Failed e ↔ r = Raise e.
Proof. destruct r; simpl; naive_solver. Qed.
End loop_result_lemmas.

Section container_lemmas.
Context {A : Type}.
Implicit Types (l : list A) (i : nat).

Lemma py_index_Ok l i x : py_index l i = Ok x ↔ l !! i = Some x.
Proof. unfold py_index. destruct (l !! i); naive_solver. Qed.

Lemma py_index_Raise l i e :
  py_index l i = Raise e ↔ e = IndexError ∧ length l ≤ i.
Proof.
  unfold py_index. destruct (l !! i) eqn:E.
  - apply lookup_lt_Some in E. split; [done | lia].
  - apply lookup_ge_None in E. naive_solver.
Qed.

Lemma py_index_lt l i : i < length l → is_Ok (py_index l i).
Proof.
  intros [x Hx]%lookup_lt_is_Some. exists x. by apply py_index_Ok.
Qed.

Lemma py_index_is_Ok l i : is_Ok (py_index l i) ↔ i < length l.
Proof.
  split; [|apply py_index_lt].
  intros [x Hx%py_index_Ok]. by eapply lookup_lt_Some.
Qed.

Lemma dict_get_insert `{Countable K} (m : gmap K A) k k' x dflt :
  dict_get (<[k:=x]> m) k' dflt = if decide (k = k') then x else dict_get m k' dflt.
Proof.
  unfold dict_get. rewrite lookup_insert. by case_decide.
Qed.
End container_lemmas.

Section count_lemmas.
Context {A : Type} (P : A → Prop) `{∀ x, Decision (P x)}.
Implicit Types (l : list A).

Lemma count_if_nil : count_if P [] = 0.
Proof. done. Qed.

Lemma count_if_cons x l :
  count_if P (x :: l) = (if decide (P x) then 1 else 0) + count_if P l.
Proof. unfold count_if. rewrite filter_cons. by case_decide. Qed.

Lemma count_if_app l1 l2 : count_if P (l1 ++ l2) = count_if P l1 + count_if P l2.
Proof. unfold count_if. by rewrite filter_app, length_app. Qed.

#[export] Instance count_if_perm : Proper ((≡ₚ) ==> (=)) (count_if P).
Proof. intros l1 l2 Hl. unfold count_if. by rewrite Hl. Qed.

Lemma count_if_zero l : count_if P l = 0 ↔ Forall (λ x, ¬ P x) l.
Proof.
  induction l as [|x l IH]; [by rewrite Forall_nil|].
  rewrite count_if_cons, Forall_cons, <- IH. case_decide; naive_solver lia.
Qed.

Lemma count_if_le_length l : count_if P l ≤ length l.
Proof. apply length_filter. Qed.
End count_lemmas.

Section do_loop_lemmas.
Context {S : Type} (body : S → loop_result (S * bool)).

Lemma do_loop_stop fuel s s' :
  body s = Finished (s', true) → do_loop body (Datatypes.S fuel) s = Finished s'.
Proof. intros Hb. simpl. by rewrite Hb. Qed.

Lemma do_loop_continue fuel s s' :
  body s = Finished (s', false) →
  do_loop body (Datatypes.S fuel) s = do_loop body fuel s'.
Proof. intros Hb. simpl. by rewrite Hb. Qed.

(** What the breaking iteration establishes holds of the state the loop
    ends in, if the other iterations keep an invariant. *)
Lemma do_loop_inv (P Q : S → Prop) fuel s s' :
  (∀ s1 s2 stop, P s1 → body s1 = Finished (s2, stop) → if stop then Q s2 else P s2) →
  P s → do_loop body fuel s = Finished s' → Q s'.
Proof.
  intros Hbody. revert s. induction fuel as [|fuel IH]; intros s Hs; simpl; [done|].
  destruct (body s) as [[s1 []]|e|] eqn:Hb; try done.
  - intros [= <-]. apply (Hbody s s1 true Hs Hb).
  - apply IH, (Hbody s s1 false Hs Hb).
Qed.

(** A loop whose body does not fail does not fail. *)
Lemma do_loop_safe (P : S → Prop) fuel s e :
  (∀ s1 s2 stop, P s1 → body s1 = Finished (s2, stop) → P s2) →
  (∀ s1 e', P s1 → body s1 ≠ Failed e') →
  P s → do_loop body fuel s ≠ Failed e.
Proof.
  intros Hbody Hsafe. revert s. induction fuel as [|fuel IH]; intros s Hs; simpl; [done|].
  destruct (body s) as [[s1 []]|e'|] eqn:Hb; try done.
  - by eapply IH, Hbody.
  - by destruct (Hsafe s e' Hs).
Qed.

(** A loop whose body returns, and lowers a measure whenever it does not
    break, ends within the measure of its first state. *)
Lemma do_loop_terminates (P : S → Prop) (μ : S → nat) fuel s :
  (∀ s1, P s1 → ∃ s2 stop, body s1 = Finished (s2, stop) ∧
                            (stop = false → P s2 ∧ μ s2 < μ s1)) →
  P s → μ s < fuel → ∃ s', do_loop body fuel s = Finished s'.
Proof.
  intros Hbody. revert s. induction fuel as [|fuel IH]; intros s Hs Hμ; [lia|].
  destruct (Hbody s Hs) as (s1 & [] & Hb & Hlt).
  - exists s1. by apply do_loop_stop.
  - rewrite (do_loop_continue _ _ s1) by done.
    destruct (Hlt eq_refl). apply IH; [done|lia].
Qed.

Lemma iterate_body_cons j s :
  iterate_body body (Datatypes.S j) s =
  match body s with
  | Finished (s', _) => iterate_body body j s'
  | Failed e => Failed e
  | OutOfFuel => OutOfFuel
  end.
Proof. done. Qed.

Lemma iterate_body_S j s s' :
  iterate_body body (Datatypes.S j) s = Finished s' ↔
  ∃ s1 stop, iterate_body body j s = Finished s1 ∧ body s1 = Finished (s', stop).
Proof.
  revert s. induction j as [|j IH]; intros s; rewrite iterate_body_cons.
  - simpl. split.
    + destruct (body s) as [[s1 stop]|e|] eqn:Hb; try done. intros [= <-]. by exists s, stop.
    + by intros (s1 & stop & [= <-] & ->).
  - destruct (body s) as [[s1 stop]|e|] eqn:Hb.
    + rewrite IH. split; intros (s2 & stop' & Hit & Hb2); exists s2, stop'; (split; [|done]).
      * by rewrite iterate_body_cons, Hb.
      * by rewrite iterate_body_cons, Hb in Hit.
    + split; [done|]. intros (s2 & stop' & Hit & _). by rewrite iterate_body_cons, Hb in Hit.
    + split; [done|]. intros (s2 & stop' & Hit & _). by rewrite iterate_body_cons, Hb in Hit.
Qed.

(** The loop ends with the first iteration that takes the [break]: the
    state it returns is the state after [j + 1] iterations, and none of
    the first [j] iterations took the [break]. *)
Lemma do_loop_first fuel s s' :
  do_loop body fuel s = Finished s' →
  ∃ j s1, j < fuel ∧ iterate_body body j s = Finished s1 ∧ body s1 = Finished (s', true) ∧
    ∀ j' s2, j' < j → iterate_body body j' s = Finished s2 →
      ∃ s3, body s2 = Finished (s3, false).
Proof.
  revert s. induction fuel as [|fuel IH]; intros s; simpl; [done|].
  destruct (body s) as [[s1 []]|e|] eqn:Hb; try done.
  - intros [= <-]. exists 0, s. split_and!; [lia|done..|]. intros; lia.
  - intros (j & s2 & Hj & Hit & Hlast & Hfirst)%IH. exists (Datatypes.S j), s2.
    split_and!; [lia|by simpl; rewrite Hb|done|].
    intros [|j'] s3 Hj'; simpl; [intros [= <-]; eauto|]. rewrite Hb. apply Hfirst. lia.
Qed.
End do_loop_lemmas.

Section for_loop_lemmas.
Context {S A : Type} (body : S → A → result S).

Lemma for_loop_app l1 l2 s :
  for_loop body (l1 ++ l2) s = s' ← for_loop body l1 s; for_loop body l2 s'.
Proof.
  revert s. induction l1 as [|x l1 IH]; intros s; simpl; [done|].
  destruct (body s x); simpl; [apply IH|done].
Qed.

(** A loop whose body keeps an invariant of the items processed so far
    does not fail, and ends in a state that satisfies the invariant of the
    whole list. *)
Lemma for_loop_inv (P : list A → S → Prop) l s :
  P [] s →
  (∀ pre x s, P pre s → x ∈ l → ∃ s', body s x = Ok s' ∧ P (pre ++ [x]) s') →
  ∃ s', for_loop body l s = Ok s' ∧ P l s'.
Proof.
  intros Hs Hbody.
  cut (∀ l' pre s, P pre s → l' ⊆ l → ∃ s', for_loop body l' s = Ok s' ∧ P (pre ++ l') s').
  { intros H. by apply (H l [] s). }
  clear s Hs. induction l' as [|x l' IH]; intros pre s Hs Hl; simpl.
  - exists s. by rewrite app_nil_r.
  - destruct (Hbody pre x s Hs) as (s1 & -> & Hs1); [set_solver|]. simpl.
    rewrite cons_middle, app_assoc. apply IH; [done|set_solver].
Qed.

(** The same rule, for an invariant that needs the position of the item
    in the list. *)
Lemma for_loop_split (P : list A → S → Prop) l s :
  P [] s →
  (∀ pre x suf s, l = pre ++ x :: suf → P pre s → ∃ s', body s x = Ok s' ∧ P (pre ++ [x]) s') →
  ∃ s', for_loop body l s = Ok s' ∧ P l s'.
Proof.
  intros Hs Hbody.
  cut (∀ l' pre s, l = pre ++ l' → P pre s → ∃ s', for_loop body l' s = Ok s' ∧ P l s').
  { intros H. by apply (H l [] s). }
  clear s Hs. induction l' as [|x l' IH]; intros pre s Hl Hs; simpl.
  - exists s. by rewrite Hl, app_nil_r.
  - destruct (Hbody pre x l' s Hl Hs) as (s1 & -> & Hs1). simpl.
    apply (IH (pre ++ [x])); [by rewrite <- app_assoc|done].
Qed.

(** What every successful execution of the body keeps holds after the
    loop, if the loop succeeds. *)
Lemma for_loop_keeps (P : S → Prop) l s s' :
  (∀ x s1 s2, x ∈ l → P s1 → body s1 x = Ok s2 → P s2) →
  P s → for_loop body l s = Ok s' → P s'.
Proof.
  revert s. induction l as [|x l IH]; intros s Hbody Hs; simpl; [by intros [= <-]|].
  destruct (body s x) as [s1|] eqn:Hb; simpl; [|done].
  apply IH; [|by eapply Hbody; [left|..]]. intros ?????. eapply Hbody; [by right|done..].
Qed.
(** The rule of a loop that returned, by position: what holds of the
    items processed so far. *)
Lemma for_loop_fold (P : list A → S → Prop) l s s' :
  (∀ pre x s1 s2, P pre s1 → body s1 x = Ok s2 → P (pre ++ [x]) s2) →
  P [] s → for_loop body l s = Ok s' → P l s'.
Proof.
  intros Hbody. cut (∀ l' pre s, P pre s → for_loop body l' s = Ok s' → P (pre ++ l') s').
  { intros H. apply (H l []). }
  clear s. induction l' as [|x l' IH]; intros pre s Hs; simpl.
  - intros [= <-]. by rewrite app_nil_r.
  - destruct (body s x) as [s1|] eqn:Hb; simpl; [|done].
    rewrite cons_middle, app_assoc. apply IH. by eapply Hbody.
Qed.
End for_loop_lemmas.

Lemma Qltb_lt x y : Qltb x y = true ↔ (x < y)%Q.
Proof.
  unfold Qltb. rewrite negb_true_iff, <- not_true_iff_false, Qle_bool_iff.
  split; [apply Qnot_le_lt | apply Qlt_not_le].
Qed.

Lemma Qltb_ge x y : Qltb x y = false ↔ (y <= x)%Q.
Proof.
  unfold Qltb. by rewrite negb_false_iff, Qle_bool_iff.
Qed.

Section while_lemmas.
Context {S : Type} (cond : S → bool) (body : S → result S).

Lemma while_loop_exit s : cond s = false → ∀ fuel, while_loop cond body fuel s = Finished s.
Proof. intros Hc [|fuel]; simpl; by rewrite Hc. Qed.

Lemma while_loop_step fuel s s' :
  cond s = true → body s = Ok s' →
  while_loop cond body (Datatypes.S fuel) s = while_loop cond body fuel s'.
Proof. intros Hc Hb. simpl. by rewrite Hc, Hb. Qed.

Lemma while_loop_raise fuel s e :
  cond s = true → body s = Raise e →
  while_loop cond body (Datatypes.S fuel) s = Failed e.
Proof. intros Hc Hb. simpl. by rewrite Hc, Hb. Qed.

(** More fuel never changes a result that was reached. *)
Lemma while_loop_fuel_mono fuel fuel' s r :
  fuel ≤ fuel' → while_loop cond body fuel s = r → r ≠ OutOfFuel →
  while_loop cond body fuel' s = r.
Proof.
  revert fuel' s. induction fuel as [|fuel IH]; intros fuel' s Hle Hr Hne.
  - simpl in Hr. destruct (cond s) eqn:Hc; [congruence|].
    subst r. by apply while_loop_exit.
  - destruct fuel' as [|fuel']; [lia|]. simpl in *.
    destruct (cond s); [|done]. destruct (body s); [|done].
    apply IH; [lia|done..].
Qed.

(** The invariant rule: what holds initially and is kept by every
    successful execution of the body holds at exit, where the condition is
    false. *)
Lemma while_loop_inv (P : S → Prop) fuel s s' :
  (∀ s1 s2, P s1 → cond s1 = true → body s1 = Ok s2 → P s2) →
  P s → while_loop cond body fuel s = Finished s' →
  P s' ∧ cond s' = false.
Proof.
  intros Hstep. revert s. induction fuel as [|fuel IH]; intros s HP; simpl;
    destruct (cond s) eqn:Hc; try done; try (intros [= <-]; done).
  destruct (body s) eqn:Hb; [|done]. eauto.
Qed.

(** A loop whose body cannot fail under the invariant never fails. *)
Lemma while_loop_safe (P : S → Prop) fuel s e :
  (∀ s1 s2, P s1 → cond s1 = true → body s1 = Ok s2 → P s2) →
  (∀ s1, P s1 → cond s1 = true → is_Ok (body s1)) →
  P s → while_loop cond body fuel s ≠ Failed e.
Proof.
  intros Hstep Hsafe. revert s. induction fuel as [|fuel IH]; intros s HP; simpl;
    destruct (cond s) eqn:Hc; try done.
  destruct (Hsafe s HP Hc) as [s' Hb]. rewrite Hb. eauto.
Qed.

(** Termination by a variant: if every execution of the body under the
    invariant succeeds and decreases the measure, then fuel equal to the
    initial measure suffices. *)
Lemma while_loop_terminates (P : S → Prop) (μ : S → nat) s :
  (∀ s1 s2, P s1 → cond s1 = true → body s1 = Ok s2 → P s2 ∧ μ s2 < μ s1) →
  (∀ s1, P s1 → cond s1 = true → is_Ok (body s1)) →
  P s → ∃ s', while_loop cond body (μ s) s = Finished s'.
Proof.
  intros Hstep Hsafe HP.
  cut (∀ fuel s, P s → μ s ≤ fuel → ∃ s', while_loop cond body fuel s = Finished s').
  { intros Hcut. by apply Hcut. }
  clear s HP. intros fuel. induction fuel as [|fuel IH]; intros s HP Hle; simpl;
    destruct (cond s) eqn:Hc; eauto.
  - destruct (Hsafe s HP Hc) as [s' Hb].
    destruct (Hstep s s' HP Hc Hb). lia.
  - destruct (Hsafe s HP Hc) as [s' Hb]. rewrite Hb.
    destruct (Hstep s s' HP Hc Hb). apply IH; [done | lia].
Qed.
End while_lemmas.

(** Two loops in lockstep: when the conditions agree on related states and
    the bodies keep the states related, the loops end the same way, with
    related states, for every fuel. *)
Section relational_lemmas.
Context {S1 S2 : Type} (rel : S1 → S2 → Prop).

Lemma result_rel_bind {A1 A2} (rel' : A1 → A2 → Prop)
    (m1 : result A1) (m2 : result A2) (f1 : A1 → result S1) (f2 : A2 → result S2) :
  result_rel rel' m1 m2 → (∀ a1 a2, rel' a1 a2 → result_rel rel (f1 a1) (f2 a2)) →
  result_rel rel (m1 ≫= f1) (m2 ≫= f2).
Proof. destruct m1, m2; simpl; try done. auto. Qed.

Lemma while_loop_rel cond1 cond2 body1 body2 fuel s1 s2 :
  (∀ s1 s2, rel s1 s2 → cond1 s1 = cond2 s2) →
  (∀ s1 s2, rel s1 s2 → result_rel rel (body1 s1) (body2 s2)) →
  rel s1 s2 →
  loop_result_rel rel (while_loop cond1 body1 fuel s1) (while_loop cond2 body2 fuel s2).
Proof.
  intros Hcond Hbody. revert s1 s2. induction fuel as [|fuel IH]; intros s1 s2 Hrel;
    simpl; rewrite <- (Hcond _ _ Hrel); destruct (cond1 s1); try done.
  specialize (Hbody _ _ Hrel). destruct (body1 s1), (body2 s2); simpl in *; auto; done.
Qed.
End relational_lemmas.

#[export] Hint Resolve py_index_lt : sim.
#[export] Hint Rewrite @py_index_Ok @bind_Ok @fmap_Ok : sim_rw.
#[export] Hint Rewrite @count_if_nil @count_if_cons @count_if_app : sim_rw.
