(* ===== verification/Rng.v ===== *)
(** * Rng: Python's [random] module as an oracle

    The notebooks draw from one global generator ([random.expovariate],
    [random.uniform], [random.choice]).  The generator is modelled by an
    oracle [RandomSource] indexed by the number of calls made so far (the
    cursor, which the callers thread through their state), so that the
    order of the draws is part of the model.  [RandomSourceLaws] states
    what the simulator may assume of the draws; [mean_source] and
    [tape_source] are executable oracles that satisfy the laws. *)

From Stdlib Require Import ZArith QArith Qround Lia Lqa.
From stdpp Require Import gmap list.
From S2P Require Import Prelude.

(** The [k]-th call of the generator, by the function called. *)
Class RandomSource : Type := {
  (** the value of [random.expovariate(lambd)] *)
  rnd_expovariate : nat → Q → Z;
  (** the value of [random.uniform(a, b)] *)
  rnd_uniform : nat → Q → Q → Q;
  (** the index [random.choice] picks in a sequence of the given length *)
  rnd_below : nat → nat → nat;
}.

(** What the library guarantees of the draws. *)
Class RandomSourceLaws (R : RandomSource) : Prop := {
  rnd_expovariate_nonneg k lambd : (0 < lambd)%Q → (0 ≤ rnd_expovariate k lambd)%Z;
  rnd_uniform_range k a b : (a <= b)%Q → (a <= rnd_uniform k a b <= b)%Q;
  rnd_below_lt k n : 0 < n → rnd_below k n < n;
}.

Section calls.
Context {R : RandomSource}.

(** [random.expovariate(lambd)]: divides by [lambd]. *)
Definition random_expovariate (k : nat) (lambd : Q) : result (Z * nat) :=
  if Qeq_bool lambd 0 then Raise ZeroDivisionError
  else Ok (rnd_expovariate k lambd, S k).

(** [random.uniform] called with the positional arguments [args]: exactly
    two are accepted. *)
Definition random_uniform (k : nat) (args : list Q) : result (Q * nat) :=
  match args with
  | [a; b] => Ok (rnd_uniform k a b, S k)
  | _ => Raise TypeError
  end.

(** [random.choice(seq)]: [IndexError] on an empty sequence. *)
Definition random_choice {A} (k : nat) (seq : list A) : result (A * nat) :=
  match seq with
  | [] => Raise IndexError
  | _ => x ← py_index seq (rnd_below k (length seq)); Ok (x, S k)
  end.
End calls.

(** ** Executable oracles *)

(** Every draw is the mean of its distribution: [1/lambd] rounded up, the
    midpoint of the interval, the first element. *)
Definition mean_source : RandomSource := {|
  rnd_expovariate _ lambd := Qceiling (/ lambd);
  rnd_uniform _ a b := ((a + b) / 2)%Q;
  rnd_below _ _ := 0;
|}.

(** Draws scripted by tapes: the [k]-th call reads position [k] of the tape
    of its function (default: one tick, the upper bound, index [0]). *)
Definition tape_source (expo : list Z) (unif : list Q) (below : list nat) : RandomSource := {|
  rnd_expovariate k _ := default 1%Z (Z.abs <$> expo !! k);
  rnd_uniform k a b :=
    match unif !! k with
    | Some u => if Qle_bool a u && Qle_bool u b then u else b
    | None => b
    end;
  rnd_below k n := (below !!! k) `mod` n;
|}.

(** * Lemmas *)

#[export] Instance mean_source_laws : RandomSourceLaws mean_source.
Proof.
  split; simpl.
  - intros _ lambd Hl.
    assert (0 <= / lambd)%Q as Hinv by (apply Qlt_le_weak, Qinv_lt_0_compat, Hl).
    rewrite <- (Qceiling_Z 0). by apply Qceiling_resp_le.
  - intros _ a b Hab. split.
    + apply Qle_shift_div_l; [done|]. lra.
    + apply Qle_shift_div_r; [done|]. lra.
  - intros _ n Hn. done.
Qed.

#[export] Instance tape_source_laws expo unif below :
  RandomSourceLaws (tape_source expo unif below).
Proof.
  split; simpl.
  - intros k _ _. destruct (expo !! k); simpl; lia.
  - intros k a b Hab. destruct (unif !! k) as [u|]; [|split; [done|apply Qle_refl]].
    destruct (Qle_bool a u && Qle_bool u b) eqn:E.
    + apply andb_true_iff in E as [?%Qle_bool_iff ?%Qle_bool_iff]. done.
    + split; [done|apply Qle_refl].
  - intros k n Hn. apply Nat.mod_upper_bound. lia.
Qed.

Section call_lemmas.
Context {R : RandomSource}.

Lemma random_expovariate_Ok k lambd x k' :
  random_expovariate k lambd = Ok (x, k') ↔
  ¬ (lambd == 0)%Q ∧ x = rnd_expovariate k lambd ∧ k' = S k.
Proof.
  unfold random_expovariate. destruct (Qeq_bool lambd 0) eqn:E.
  - apply Qeq_bool_iff in E. naive_solver.
  - apply Qeq_bool_neq in E. naive_solver.
Qed.

Lemma random_expovariate_pos k lambd :
  (0 < lambd)%Q → random_expovariate k lambd = Ok (rnd_expovariate k lambd, S k).
Proof.
  intros Hl. apply random_expovariate_Ok. split; [|done].
  intros E. rewrite E in Hl. by apply Qlt_irrefl in Hl.
Qed.

Lemma random_expovariate_zero k lambd :
  (lambd == 0)%Q → random_expovariate k lambd = Raise ZeroDivisionError.
Proof.
  intros E%Qeq_bool_iff. unfold random_expovariate. by rewrite E.
Qed.

Lemma random_choice_Ok `{!RandomSourceLaws R} {A} k (seq : list A) :
  seq ≠ [] → ∃ x, random_choice k seq = Ok (x, S k) ∧ x ∈ seq.
Proof.
  intros Hne. destruct seq as [|y seq]; [done|]. unfold random_choice.
  destruct (py_index_lt (y :: seq) (rnd_below k (length (y :: seq)))) as [x Hx].
  { apply rnd_below_lt. simpl. lia. }
  exists x. rewrite Hx. split; [done|].
  apply py_index_Ok in Hx. by eapply list_elem_of_lookup_2.
Qed.
End call_lemmas.
