(* ===== verification/PriorityQueue.v ===== *)
(** * PriorityQueue: the event clock's container

    The notebooks keep pending events in a [queue.PriorityQueue] and use
    three of its methods: [put], [get] and [empty].  The library class is
    not part of the sources, so it is modelled by its contract:

    - [PriorityQueue] is the interface (the operations, the representation
      invariant [pq_wf] and the abstraction [pq_items] to the list of
      pending items);
    - [PriorityQueueLaws] is the contract relative to a boolean strict
      order [ltb]: [put] adds one item, [get] removes a least item and
      blocks on an empty queue, [empty] tests for no item;
    - [list_pq] is the reference implementation (a list kept sorted by
      insertion), proved to satisfy the contract for every strict total
      order ([TotalLtb]);
    - [bag_pq] is a second implementation (an unsorted list, [get]
      selects a least item), proved against the same contract.

    Clients are proved against the contract only.  [pq_get_deterministic]
    shows that the contract determines the item returned by [get], so the
    behaviour of a client does not depend on the implementation chosen. *)

From Stdlib Require Import Lia.
From stdpp Require Import list sorting.
From S2P Require Import Prelude.

(** ** Boolean strict total orders *)

Definition lt_of {A} (ltb : A → A → bool) : relation A := λ x y, ltb x y = true.
Definition le_of {A} (ltb : A → A → bool) : relation A := λ x y, ltb y x = false.

Class TotalLtb {A} (ltb : A → A → bool) : Prop := {
  ltb_irrefl x : ltb x x = false;
  ltb_trans x y z : ltb x y = true → ltb y z = true → ltb x z = true;
  ltb_total x y : ltb x y = false → ltb y x = false → x = y;
}.

(** [x] is below every item of [l]. *)
Definition is_least {A} (ltb : A → A → bool) (x : A) (l : list A) : Prop :=
  Forall (le_of ltb x) l.

(** ** The interface *)

Class PriorityQueue (A : Type) : Type := {
  pq : Type;
  (** [PriorityQueue()] *)
  pq_new : pq;
  (** [q.put(x)] *)
  pq_put : A → pq → pq;
  (** [q.get()]: blocks when the queue is empty *)
  pq_get : pq → result (A * pq);
  (** [q.empty()] *)
  pq_empty : pq → bool;
  (** the representation invariant *)
  pq_wf : pq → Prop;
  (** the pending items *)
  pq_items : pq → list A;
}.
Arguments pq {A} _.

Class PriorityQueueLaws {A} (ltb : A → A → bool) (Q : PriorityQueue A) : Prop := {
  pq_wf_new : pq_wf pq_new;
  pq_wf_put x q : pq_wf q → pq_wf (pq_put x q);
  pq_wf_get q x q' : pq_wf q → pq_get q = Ok (x, q') → pq_wf q';
  pq_items_new : pq_items pq_new = [];
  pq_items_put x q : pq_wf q → pq_items (pq_put x q) ≡ₚ x :: pq_items q;
  pq_empty_items q : pq_wf q → pq_empty q = true ↔ pq_items q = [];
  pq_get_blocks q : pq_wf q → pq_items q = [] → pq_get q = Raise Blocked;
  pq_get_least q : pq_wf q → pq_items q ≠ [] →
    ∃ x q', pq_get q = Ok (x, q') ∧ pq_items q ≡ₚ x :: pq_items q' ∧
            is_least ltb x (pq_items q');
}.

(** ** The reference implementation: a sorted list *)

Section list_pq.
Context {A : Type} (ltb : A → A → bool).

(** Insert [x] before the first item that is strictly above it. *)
Fixpoint sorted_insert (x : A) (q : list A) : list A :=
  match q with
  | [] => [x]
  | y :: q' => if ltb x y then x :: q else y :: sorted_insert x q'
  end.

Definition list_get (q : list A) : result (A * list A) :=
  match q with
  | [] => Raise Blocked
  | x :: q' => Ok (x, q')
  end.

Definition list_empty (q : list A) : bool :=
  match q with [] => true | _ => false end.

Definition list_pq : PriorityQueue A := {|
  pq := list A;
  pq_new := [];
  pq_put := sorted_insert;
  pq_get := list_get;
  pq_empty := list_empty;
  pq_wf := Sorted (le_of ltb);
  pq_items q := q;
|}.
End list_pq.

(** ** A second implementation: an unsorted list

    [put] adds the item in front; [get] selects a least item.  The two
    implementations keep the events in different orders and meet the same
    contract. *)

Section bag_pq.
Context {A : Type} (ltb : A → A → bool).

(** A least item among [x] and [l], and the other items. *)
Fixpoint extract_min (x : A) (l : list A) : A * list A :=
  match l with
  | [] => (x, [])
  | y :: l' =>
      let '(m, rest) := extract_min (if ltb y x then y else x) l' in
      (m, (if ltb y x then x else y) :: rest)
  end.

Definition bag_get (q : list A) : result (A * list A) :=
  match q with
  | [] => Raise Blocked
  | x :: q' => Ok (extract_min x q')
  end.

Definition bag_pq : PriorityQueue A := {|
  pq := list A;
  pq_new := [];
  pq_put := cons;
  pq_get := bag_get;
  pq_empty := list_empty;
  pq_wf q := True;
  pq_items q := q;
|}.
End bag_pq.

(** * Lemmas *)

Section order_lemmas.
Context {A : Type} (ltb : A → A → bool) `{!TotalLtb ltb}.

#[export] Instance lt_of_strict : StrictOrder (lt_of ltb).
Proof.
  split.
  - intros x Hx. unfold lt_of in Hx. by rewrite ltb_irrefl in Hx.
  - intros x y z. apply ltb_trans.
Qed.

Lemma ltb_asym x y : ltb x y = true → ltb y x = false.
Proof.
  intros Hxy. destruct (ltb y x) eqn:Hyx; [|done].
  pose proof (ltb_trans x y x Hxy Hyx) as Hxx. by rewrite ltb_irrefl in Hxx.
Qed.

#[export] Instance le_of_refl : Reflexive (le_of ltb).
Proof. intros x. apply ltb_irrefl. Qed.

#[export] Instance le_of_trans : Transitive (le_of ltb).
Proof.
  intros x y z Hxy Hyz. unfold le_of in *.
  destruct (ltb z x) eqn:Hzx; [|done].
  destruct (ltb y z) eqn:Hyz'.
  - by rewrite (ltb_trans y z x) in Hxy.
  - assert (z = y) as -> by by apply ltb_total. congruence.
Qed.

#[export] Instance le_of_antisym : AntiSymm (=) (le_of ltb).
Proof. intros x y Hxy Hyx. by apply ltb_total. Qed.

#[export] Instance le_of_total : Total (le_of ltb).
Proof.
  intros x y. unfold le_of. destruct (ltb y x) eqn:Hyx; [|by left].
  right. by apply ltb_asym.
Qed.

Lemma lt_of_le_of x y : lt_of ltb x y → le_of ltb x y.
Proof. apply ltb_asym. Qed.

Lemma is_least_cons x y l : is_least ltb x (y :: l) ↔ le_of ltb x y ∧ is_least ltb x l.
Proof. apply Forall_cons. Qed.

#[export] Instance is_least_perm x : Proper ((≡ₚ) ==> iff) (is_least ltb x).
Proof. intros l1 l2 Hl. unfold is_least. by rewrite Hl. Qed.

Lemma is_least_weaken x y l : le_of ltb x y → is_least ltb y l → is_least ltb x l.
Proof.
  intros Hxy Hl. eapply Forall_impl; [done|]. intros z Hyz. by trans y.
Qed.

(** A least item of a multiset is unique. *)
Lemma least_unique x1 l1 x2 l2 :
  x1 :: l1 ≡ₚ x2 :: l2 → is_least ltb x1 l1 → is_least ltb x2 l2 →
  x1 = x2 ∧ l1 ≡ₚ l2.
Proof.
  intros Hp H1 H2.
  assert (x1 = x2) as ->; [|split; [done|by eapply Permutation_cons_inv]].
  assert (x1 ∈ x2 :: l2) as Hx1 by (rewrite <- Hp; left).
  assert (x2 ∈ x1 :: l1) as Hx2 by (rewrite Hp; left).
  unfold is_least in *. rewrite Forall_forall in H1, H2.
  apply elem_of_cons in Hx1 as [->|Hx1]; [done|].
  apply elem_of_cons in Hx2 as [->|Hx2]; [done|].
  apply (anti_symm (le_of ltb)); auto.
Qed.
End order_lemmas.

Section list_pq_lemmas.
Context {A : Type} (ltb : A → A → bool).
Implicit Types (x y : A) (q : list A).

Lemma sorted_insert_perm x q : sorted_insert ltb x q ≡ₚ x :: q.
Proof.
  induction q as [|y q IH]; simpl; [done|].
  destruct (ltb x y); [done|]. by rewrite IH, Permutation_swap.
Qed.

Lemma sorted_insert_length x q : length (sorted_insert ltb x q) = S (length q).
Proof. by rewrite sorted_insert_perm. Qed.

Lemma sorted_insert_hd_rel x y q :
  le_of ltb y x → HdRel (le_of ltb) y q → HdRel (le_of ltb) y (sorted_insert ltb x q).
Proof.
  intros Hyx Hq. destruct q as [|z q]; simpl; [by constructor|].
  destruct (ltb x z); constructor; [done|]. by inv Hq.
Qed.

Context `{!TotalLtb ltb}.

Lemma sorted_insert_sorted x q :
  Sorted (le_of ltb) q → Sorted (le_of ltb) (sorted_insert ltb x q).
Proof.
  induction 1 as [|y q Hq IH Hy]; simpl; [by repeat constructor|].
  destruct (ltb x y) eqn:Hxy.
  - constructor; [by constructor|]. constructor. by apply lt_of_le_of.
  - constructor; [done|]. by apply sorted_insert_hd_rel.
Qed.

Lemma sorted_cons_least x q : Sorted (le_of ltb) (x :: q) → is_least ltb x q.
Proof.
  intros Hs%(Sorted_StronglySorted _). by apply StronglySorted_cons in Hs as [? _].
Qed.

(** Equal elements leave in insertion order: the new item goes behind
    every item that is not above it. *)
Lemma sorted_insert_stable x q1 q2 :
  Forall (λ y, ltb x y = false) q1 → (∀ z q2', q2 = z :: q2' → ltb x z = true) →
  sorted_insert ltb x (q1 ++ q2) = q1 ++ x :: q2.
Proof.
  intros Hq1 Hq2. induction Hq1 as [|y q1 Hy _ IH]; simpl.
  - destruct q2 as [|z q2]; [done|]. simpl. by rewrite (Hq2 z q2).
  - by rewrite Hy, IH.
Qed.

#[export] Instance list_pq_laws : PriorityQueueLaws ltb (list_pq ltb).
Proof.
  split; simpl.
  - constructor.
  - intros x q. apply sorted_insert_sorted.
  - intros [|y q] x q' Hq [= <- <-]. by inv Hq.
  - done.
  - intros x q _. apply sorted_insert_perm.
  - intros [|y q] _; naive_solver.
  - by intros q _ ->.
  - intros [|x q] Hq Hne; [done|]. exists x, q.
    split_and!; [done..|]. by apply sorted_cons_least.
Qed.
End list_pq_lemmas.

Section bag_pq_lemmas.
Context {A : Type} (ltb : A → A → bool) `{!TotalLtb ltb}.
Implicit Types (x y m : A) (l rest : list A).

Lemma extract_min_perm x l m rest : extract_min ltb x l = (m, rest) → x :: l ≡ₚ m :: rest.
Proof.
  revert x m rest. induction l as [|y l IH]; intros x m rest; simpl; [by intros [= <- <-]|].
  destruct (extract_min ltb _ l) as [m' rest'] eqn:He. intros [= <- <-].
  apply IH in He. rewrite (Permutation_swap _ m'), <- He.
  destruct (ltb y x); [done|apply Permutation_swap].
Qed.

(** The item selected is below the first item and below the items left. *)
Lemma extract_min_least x l m rest :
  extract_min ltb x l = (m, rest) → le_of ltb m x ∧ is_least ltb m rest.
Proof.
  revert x m rest. induction l as [|y l IH]; intros x m rest; simpl.
  { intros [= <- <-]. split; [done|constructor]. }
  destruct (extract_min ltb _ l) as [m' rest'] eqn:He. intros [= <- <-].
  apply IH in He as [Hm Hrest]. rewrite is_least_cons.
  destruct (ltb y x) eqn:Hyx; split_and!; try done.
  - trans y; [done|]. by apply lt_of_le_of.
  - trans y; [done|]. by apply lt_of_le_of.
  - by trans x.
Qed.

#[export] Instance bag_pq_laws : PriorityQueueLaws ltb (bag_pq ltb).
Proof.
  split; simpl; try done.
  - intros [|y q] _; naive_solver.
  - by intros q _ ->.
  - intros [|x q] _ Hne; [done|]. simpl.
    destruct (extract_min ltb x q) as [m rest] eqn:He. exists m, rest.
    split_and!; [done|by apply extract_min_perm|by eapply extract_min_least].
Qed.
End bag_pq_lemmas.

(** ** Consequences of the contract *)

Section contract.
Context {A : Type} (ltb : A → A → bool) `{!TotalLtb ltb}.
Context {Q : PriorityQueue A} `{!PriorityQueueLaws ltb Q}.
Implicit Types (q : pq Q).

Lemma pq_empty_false q : pq_wf q → pq_empty q = false ↔ pq_items q ≠ [].
Proof.
  intros Hq. rewrite <- (pq_empty_items (ltb:=ltb)) by done.
  by destruct (pq_empty q).
Qed.

Lemma pq_get_Ok q x q' :
  pq_wf q → pq_get q = Ok (x, q') →
  pq_items q ≡ₚ x :: pq_items q' ∧ is_least ltb x (pq_items q') ∧ pq_wf q'.
Proof.
  intros Hq Hget. destruct (decide (pq_items q = [])) as [He|Hne].
  - by rewrite (pq_get_blocks (ltb:=ltb)) in Hget.
  - destruct (pq_get_least (ltb:=ltb) q Hq Hne) as (x' & q'' & Hget' & ? & ?).
    rewrite Hget in Hget'. simplify_eq. split_and!; try done.
    by eapply (pq_wf_get (ltb:=ltb)).
Qed.

Lemma pq_get_nonempty q :
  pq_wf q → pq_empty q = false → ∃ x q', pq_get q = Ok (x, q').
Proof.
  intros Hq He%pq_empty_false; [|done].
  destruct (pq_get_least (ltb:=ltb) q Hq He) as (x & q' & ? & _). eauto.
Qed.
End contract.

(** Two queues, possibly of different implementations, that hold the same
    items return the same item and are left with the same items. *)
Lemma pq_get_deterministic {A} (ltb : A → A → bool) `{!TotalLtb ltb}
    (Q1 Q2 : PriorityQueue A)
    `{!PriorityQueueLaws ltb Q1, !PriorityQueueLaws ltb Q2}
    (q1 q1' : pq Q1) (q2 q2' : pq Q2) x1 x2 :
  pq_wf q1 → pq_wf q2 → pq_items q1 ≡ₚ pq_items q2 →
  pq_get q1 = Ok (x1, q1') → pq_get q2 = Ok (x2, q2') →
  x1 = x2 ∧ pq_items q1' ≡ₚ pq_items q2'.
Proof.
  intros Hw1 Hw2 Hp (Hp1 & Hl1 & _)%(pq_get_Ok ltb) (Hp2 & Hl2 & _)%(pq_get_Ok ltb);
    [|done..].
  eapply (least_unique ltb); [|done..]. by rewrite <- Hp1, <- Hp2.
Qed.
