(* ===== verification/Heap.v ===== *)
(** * Heap: the binary heap behind [queue.PriorityQueue]

    CPython's [queue.PriorityQueue] keeps its items in a list ordered as
    a binary heap and delegates [put] and [get] to [heapq.heappush] and
    [heapq.heappop].  This file models the two functions with their
    helpers [_siftdown] and [_siftup] as the library writes them: the
    item to place is held aside while the items on its path are moved
    into the free slot, and it is written once at the end.

    The loops run on fuel: the position of the free slot strictly
    decreases in [_siftdown] and strictly increases in [_siftup], so the
    position, respectively the length of the list, is enough fuel
    ([siftdown_loop_spec], [siftup_loop_spec] are proved for any fuel
    that covers the distance).

    [heap_ordered] is the heap order (no item is below its parent);
    [hole_ok] is the order of a heap with a free slot.  The two functions
    keep the heap order and the items ([heappush_spec], [heappop_spec]),
    so the heap meets the contract of [PriorityQueue]
    ([heap_pq_laws]). *)

From Stdlib Require Import Lia.
From stdpp Require Import list.
From S2P Require Import Prelude PriorityQueue.

Section heapq.
Context {A : Type} (ltb : A → A → bool).

(** [(pos - 1) >> 1] *)
Definition parent (pos : nat) : nat := Nat.div2 (pos - 1).

(** The loop of [_siftdown(heap, startpos, pos)]: the slot at [pos] is
    free and [newitem] is to be placed; returns the list and the slot
    where the loop stops. *)
Fixpoint siftdown_loop (fuel : nat) (heap : list A) (startpos pos : nat) (newitem : A) :
    list A * nat :=
  match fuel with
  | 0 => (heap, pos)
  | S fuel' =>
      if bool_decide (startpos < pos) then
        match heap !! parent pos with
        | Some parent_item =>
            if ltb newitem parent_item
            then siftdown_loop fuel' (<[pos := parent_item]> heap) startpos (parent pos) newitem
            else (heap, pos)
        | None => (heap, pos)
        end
      else (heap, pos)
  end.

(** [_siftdown(heap, startpos, pos)] *)
Definition siftdown (heap : list A) (startpos pos : nat) : list A :=
  match heap !! pos with
  | Some newitem =>
      let '(heap', pos') := siftdown_loop pos heap startpos pos newitem in
      <[pos' := newitem]> heap'
  | None => heap
  end.

(** [heappush(heap, item)] *)
Definition heappush (heap : list A) (item : A) : list A :=
  siftdown (heap ++ [item]) 0 (length heap).

(** The position of the smaller child:
    [if rightpos < endpos and not heap[childpos] < heap[rightpos]: childpos = rightpos] *)
Definition smaller_child (heap : list A) (endpos childpos : nat) : nat :=
  let rightpos := childpos + 1 in
  if bool_decide (rightpos < endpos) then
    match heap !! childpos, heap !! rightpos with
    | Some left_item, Some right_item => if ltb left_item right_item then childpos else rightpos
    | _, _ => childpos
    end
  else childpos.

(** The loop of [_siftup(heap, pos)]: the smaller child moves up into the
    free slot until the slot is a leaf; returns the list and the leaf. *)
Fixpoint siftup_loop (fuel : nat) (heap : list A) (endpos pos : nat) : list A * nat :=
  match fuel with
  | 0 => (heap, pos)
  | S fuel' =>
      let childpos := 2 * pos + 1 in
      if bool_decide (childpos < endpos) then
        let childpos := smaller_child heap endpos childpos in
        match heap !! childpos with
        | Some child_item => siftup_loop fuel' (<[pos := child_item]> heap) endpos childpos
        | None => (heap, pos)
        end
      else (heap, pos)
  end.

(** [_siftup(heap, pos)] *)
Definition siftup (heap : list A) (pos : nat) : list A :=
  match heap !! pos with
  | Some newitem =>
      let '(heap', pos') := siftup_loop (length heap) heap (length heap) pos in
      siftdown (<[pos' := newitem]> heap') pos pos'
  | None => heap
  end.

(** [heappop(heap)]: [heap.pop()] raises [IndexError] on the empty list. *)
Definition heappop (heap : list A) : result (A * list A) :=
  match last heap with
  | None => Raise IndexError
  | Some lastelt =>
      match take (length heap - 1) heap with
      | returnitem :: heap' => Ok (returnitem, siftup (lastelt :: heap') 0)
      | [] => Ok (lastelt, [])
      end
  end.

(** [PriorityQueue.get()]: waits while [not self._qsize()], then
    [heappop(self.queue)]. *)
Definition heap_get (heap : list A) : result (A * list A) :=
  if bool_decide (length heap = 0) then Raise Blocked else heappop heap.

(** [c] is a child of [p]. *)
Definition is_child (p c : nat) : Prop := c = 2 * p + 1 ∨ c = 2 * p + 2.

(** The heap order: no item is below its parent. *)
Definition heap_ordered (heap : list A) : Prop :=
  ∀ p c x y, is_child p c → heap !! p = Some x → heap !! c = Some y → le_of ltb x y.

(** The order of a heap whose slot [pos] is free: the other items are in
    heap order, and the children of the slot are not below its parent. *)
Definition hole_ok (heap : list A) (pos : nat) : Prop :=
  (∀ p c x y, is_child p c → p ≠ pos → c ≠ pos →
     heap !! p = Some x → heap !! c = Some y → le_of ltb x y) ∧
  (∀ g c x y, is_child g pos → is_child pos c →
     heap !! g = Some x → heap !! c = Some y → le_of ltb x y).

(** [x] is not above the children of the slot [pos]. *)
Definition children_ge (heap : list A) (pos : nat) (x : A) : Prop :=
  ∀ c y, is_child pos c → heap !! c = Some y → le_of ltb x y.

(** [x] is not below the parent of the slot [pos]. *)
Definition parent_le (heap : list A) (pos : nat) (x : A) : Prop :=
  ∀ g y, is_child g pos → heap !! g = Some y → le_of ltb y x.

(** [queue.PriorityQueue] on [heapq]. *)
Definition heap_pq : PriorityQueue A := {|
  pq := list A;
  pq_new := [];
  pq_put x q := heappush q x;
  pq_get := heap_get;
  pq_empty q := bool_decide (length q = 0);
  pq_wf := heap_ordered;
  pq_items q := q;
|}.
End heapq.

(** * Lemmas *)

(** ** Positions *)

Lemma parent_child pos : 0 < pos → is_child (parent pos) pos.
Proof.
  intros Hpos. unfold is_child, parent. pose proof (Nat.div2_odd (pos - 1)) as Hd.
  destruct (Nat.odd (pos - 1)); simpl in Hd; lia.
Qed.

Lemma child_parent p c : is_child p c → parent c = p ∧ 0 < c.
Proof.
  intros Hc. assert (0 < c) as Hpos by (destruct Hc; lia). split; [|done].
  pose proof (parent_child c Hpos) as Hp. unfold is_child in *. lia.
Qed.

(** Writing [z] at a position is removing the item there and adding [z]. *)
Lemma insert_delete_perm {A} (l : list A) n z : n < length l → <[n := z]> l ≡ₚ z :: delete n l.
Proof.
  revert n. induction l as [|a l IH]; intros [|n] Hn; simpl in *; try lia; [done|].
  rewrite (IH n) by lia. apply Permutation_swap.
Qed.

(** Moving the item at [j] to [i] and writing [x] at [j] gives the items
    of the list with [x] at [i]. *)
Lemma insert_move_perm {A} (l : list A) i j x y :
  i ≠ j → i < length l → l !! j = Some y → <[j := x]> (<[i := y]> l) ≡ₚ <[i := x]> l.
Proof.
  intros Hij Hi Hj. pose proof (lookup_lt_Some _ _ _ Hj) as Hlt.
  rewrite (insert_delete_perm (<[i:=y]> l) j x) by (by rewrite length_insert).
  rewrite (insert_delete_perm l i x) by done. f_equiv. apply (inj (y ::.)).
  rewrite <- (delete_Permutation (<[i:=y]> l) j y) by (by rewrite list_lookup_insert_ne).
  by apply insert_delete_perm.
Qed.

Section order.
Context {A : Type} (ltb : A → A → bool) `{!TotalLtb ltb}.
Implicit Types (h heap : list A) (x y z : A) (pos p c g : nat).

Lemma lt_le_trans x y z : lt_of ltb x y → le_of ltb y z → le_of ltb x z.
Proof.
  unfold lt_of, le_of. intros Hxy Hyz. destruct (ltb z x) eqn:Hzx; [|done].
  by rewrite (ltb_trans z x y) in Hyz.
Qed.

(** ** Heaps with a free slot *)

(** The order of a heap with a free slot does not depend on the slot's
    content. *)
Lemma hole_ok_insert h pos x : hole_ok ltb h pos → hole_ok ltb (<[pos := x]> h) pos.
Proof.
  intros [Hpairs Hgrand]. split.
  - intros p c a b Hc Hp Hcp. rewrite !list_lookup_insert_ne by done. by apply Hpairs.
  - intros g c a b Hg Hc. rewrite !list_lookup_insert_ne by (unfold is_child in *; lia).
    by apply Hgrand.
Qed.

(** Filling the slot with an item that fits gives a heap. *)
Lemma hole_fill h pos x :
  hole_ok ltb h pos → children_ge ltb h pos x → parent_le ltb h pos x →
  heap_ordered ltb (<[pos := x]> h).
Proof.
  intros [Hpairs _] Hch Hpa p c a b Hc
    [(<- & <- & _)|[Hp Ha]]%list_lookup_insert_Some
    [(<- & <- & _)|[Hcp Hb]]%list_lookup_insert_Some; eauto.
  unfold is_child in *; lia.
Qed.

(** One iteration of [_siftdown]: the parent moves into the slot. *)
Lemma hole_up h pos g x y :
  hole_ok ltb h pos → children_ge ltb h pos x → is_child g pos → pos < length h →
  h !! g = Some y → ltb x y = true →
  hole_ok ltb (<[pos := y]> h) g ∧ children_ge ltb (<[pos := y]> h) g x.
Proof.
  intros [Hpairs Hgrand] Hch Hg Hpos Hy Hxy.
  assert (∀ c b, is_child g c → c ≠ pos → h !! c = Some b → le_of ltb y b) as Hsib.
  { intros c b Hc Hne Hb. apply (Hpairs g c); unfold is_child in *; (done || lia). }
  split; [split|].
  - intros p c a b Hc Hp Hcg
      [(<- & <- & _)|[Hpp Ha]]%list_lookup_insert_Some
      [(<- & <- & _)|[Hcp Hb]]%list_lookup_insert_Some;
      eauto; exfalso; unfold is_child in *; lia.
  - intros gg c a b Hgg Hc [(<- & _)|[_ Ha]]%list_lookup_insert_Some;
      [unfold is_child in *; lia|].
    assert (le_of ltb a y) as Hay
      by (apply (Hpairs gg g); unfold is_child in *; (done || lia)).
    intros [(<- & <- & _)|[Hcp Hb]]%list_lookup_insert_Some; [done|].
    trans y; [done|]. by apply (Hsib c).
  - intros c b Hc [(<- & <- & _)|[Hcp Hb]]%list_lookup_insert_Some; [by apply lt_of_le_of|].
    eapply lt_le_trans; [done|]. by apply (Hsib c).
Qed.
(** One iteration of [_siftup]: the smaller child moves into the slot. *)
Lemma hole_down h pos c y :
  hole_ok ltb h pos → is_child pos c → h !! c = Some y → children_ge ltb h pos y →
  hole_ok ltb (<[pos := y]> h) c.
Proof.
  intros [Hpairs Hgrand] Hc Hy Hmin. split.
  - intros p c' a b Hc' Hp Hcc
      [(<- & <- & _)|[Hpp Ha]]%list_lookup_insert_Some
      [(<- & <- & _)|[Hcp Hb]]%list_lookup_insert_Some;
      eauto; exfalso; unfold is_child in *; lia.
  - intros g c' a b Hg Hc'. assert (g = pos) as -> by (unfold is_child in *; lia).
    intros [(_ & <- & _)|[? _]]%list_lookup_insert_Some; [|done].
    rewrite list_lookup_insert_ne by (unfold is_child in *; lia). intros Hb.
    apply (Hpairs c c'); unfold is_child in *; (done || lia).
Qed.

(** ** [_siftdown] *)

Lemma siftdown_loop_spec fuel h pos x h' pos' :
  pos ≤ fuel → pos < length h → hole_ok ltb h pos → children_ge ltb h pos x →
  siftdown_loop ltb fuel h 0 pos x = (h', pos') →
  heap_ordered ltb (<[pos' := x]> h') ∧ <[pos' := x]> h' ≡ₚ <[pos := x]> h.
Proof.
  revert h pos. induction fuel as [|fuel IH]; intros h pos Hfuel Hpos Hok Hch; simpl.
  { intros [= <- <-]. split; [|done]. apply hole_fill; [done..|].
    intros g y Hg. unfold is_child in Hg. lia. }
  case_bool_decide as H0; last first.
  { intros [= <- <-]. split; [|done]. apply hole_fill; [done..|].
    intros g y Hg. unfold is_child in Hg. lia. }
  pose proof (parent_child pos H0) as Hg.
  destruct (h !! parent pos) as [y|] eqn:Hy; last first.
  { apply lookup_ge_None in Hy. unfold is_child in Hg. lia. }
  destruct (ltb x y) eqn:Hxy; last first.
  { intros [= <- <-]. split; [|done]. apply hole_fill; [done..|].
    intros g z Hg'. assert (g = parent pos) as -> by (unfold is_child in *; lia).
    rewrite Hy. by intros [= <-]. }
  destruct (hole_up h pos (parent pos) x y) as [Hok' Hch']; [done..|].
  intros Hloop. apply IH in Hloop as [Hord Hperm]; [|unfold is_child in Hg; lia|
    rewrite length_insert; unfold is_child in Hg; lia|done..].
  split; [done|]. rewrite Hperm. apply insert_move_perm; [|done..].
  unfold is_child in Hg. lia.
Qed.

Lemma siftdown_spec h pos x :
  h !! pos = Some x → hole_ok ltb h pos → children_ge ltb h pos x →
  heap_ordered ltb (siftdown ltb h 0 pos) ∧ siftdown ltb h 0 pos ≡ₚ h.
Proof.
  intros Hx Hok Hch. unfold siftdown. rewrite Hx.
  destruct (siftdown_loop ltb pos h 0 pos x) as [h' pos'] eqn:Hloop.
  apply siftdown_loop_spec in Hloop as [Hord Hperm]; [|done|by eapply lookup_lt_Some|done..].
  split; [done|]. by rewrite Hperm, list_insert_id.
Qed.

(** A heap is a heap with a free slot after its last item. *)
Lemma hole_ok_snoc h x : heap_ordered ltb h → hole_ok ltb (h ++ [x]) (length h).
Proof.
  intros Hord. split.
  - intros p c a b Hc Hp Hcp Ha Hb.
    assert (p < length h ∧ c < length h) as [? ?].
    { apply lookup_lt_Some in Ha, Hb. rewrite length_app in *. simpl in *. lia. }
    rewrite lookup_app_l in Ha, Hb by done. by eapply Hord.
  - intros g c a b _ Hc _ Hb. apply lookup_lt_Some in Hb. rewrite length_app in Hb.
    simpl in Hb. unfold is_child in Hc. lia.
Qed.

Lemma heappush_spec h x :
  heap_ordered ltb h → heap_ordered ltb (heappush ltb h x) ∧ heappush ltb h x ≡ₚ x :: h.
Proof.
  intros Hord. unfold heappush.
  destruct (siftdown_spec (h ++ [x]) (length h) x) as [Hord' Hperm].
  - by apply list_lookup_middle.
  - by apply hole_ok_snoc.
  - intros c y Hc Hy. apply lookup_lt_Some in Hy. rewrite length_app in Hy. simpl in Hy.
    unfold is_child in Hc. lia.
  - split; [done|]. by rewrite Hperm, Permutation_app_comm.
Qed.
(** ** [_siftup] *)

(** The child chosen is a child of the slot, and no child is below it. *)
Lemma smaller_child_spec h pos :
  2 * pos + 1 < length h →
  ∃ y, is_child pos (smaller_child ltb h (length h) (2 * pos + 1)) ∧
       h !! smaller_child ltb h (length h) (2 * pos + 1) = Some y ∧
       children_ge ltb h pos y.
Proof.
  intros Hleft. unfold smaller_child, children_ge, is_child.
  destruct (lookup_lt_is_Some_2 h (2 * pos + 1) Hleft) as [a Ha]. rewrite Ha.
  case_bool_decide as Hright.
  - destruct (lookup_lt_is_Some_2 h (2 * pos + 1 + 1) Hright) as [b Hb]. rewrite Hb.
    destruct (ltb a b) eqn:Hab; [exists a|exists b]; (split_and!; [lia|done|]);
      intros c y [->| ->]; replace (2 * pos + 2) with (2 * pos + 1 + 1) by lia;
      rewrite ?Ha, ?Hb; intros [= <-]; try done; by apply lt_of_le_of.
  - exists a. split_and!; [lia|done|]. intros c y [->| ->]; [by rewrite Ha; intros [= <-]|].
    intros Hy%lookup_lt_Some. lia.
Qed.

Lemma siftup_loop_spec fuel h endpos pos h' pos' :
  endpos = length h → endpos ≤ pos + fuel → pos < endpos → hole_ok ltb h pos →
  siftup_loop ltb fuel h endpos pos = (h', pos') →
  hole_ok ltb h' pos' ∧ length h' = endpos ∧ pos' < endpos ∧ endpos ≤ 2 * pos' + 1 ∧
  ∀ x, <[pos' := x]> h' ≡ₚ <[pos := x]> h.
Proof.
  revert h pos. induction fuel as [|fuel IH]; intros h pos Hend Hfuel Hpos Hok;
    cbn [siftup_loop]; [lia|].
  case_bool_decide as Hleft; [|intros [= <- <-]; split_and!; (done || lia)].
  subst endpos. destruct (smaller_child_spec h pos Hleft) as (y & Hc & Hy & Hmin).
  rewrite Hy. pose proof (lookup_lt_Some _ _ _ Hy) as Hlt. intros Hloop.
  apply IH in Hloop as (Hok' & Hlen & Hpos' & Hleaf & Hperm);
    [|by rewrite length_insert|unfold is_child in Hc; lia|done|by apply hole_down].
  split_and!; [done..|]. intros x. rewrite Hperm. apply insert_move_perm; [|done..].
  unfold is_child in Hc. lia.
Qed.

Lemma siftup_spec h x :
  h !! 0 = Some x → hole_ok ltb h 0 →
  heap_ordered ltb (siftup ltb h 0) ∧ siftup ltb h 0 ≡ₚ h.
Proof.
  intros Hx Hok. unfold siftup. rewrite Hx. pose proof (lookup_lt_Some _ _ _ Hx) as Hlt.
  destruct (siftup_loop ltb (length h) h (length h) 0) as [h' pos'] eqn:Hloop.
  apply siftup_loop_spec in Hloop as (Hok' & Hlen & Hpos' & Hleaf & Hperm); [|done||lia..].
  destruct (siftdown_spec (<[pos' := x]> h') pos' x) as [Hord Hperm'].
  - apply list_lookup_insert_eq. lia.
  - by apply hole_ok_insert.
  - intros c y Hc Hy%lookup_lt_Some. rewrite length_insert in Hy. unfold is_child in Hc. lia.
  - split; [done|]. by rewrite Hperm', Hperm, list_insert_id.
Qed.

(** ** [heappop] *)

(** The first item of a heap is a least item. *)
Lemma root_minimal h r : heap_ordered ltb h → h !! 0 = Some r → is_least ltb r h.
Proof.
  intros Hord Hr. apply Forall_lookup. intros i.
  induction (lt_wf i) as [i _ IH]. intros y Hy.
  destruct (decide (i = 0)) as [->|Hi]; [by simplify_eq|].
  pose proof (parent_child i ltac:(lia)) as Hg.
  destruct (lookup_lt_is_Some_2 h (parent i)) as [z Hz].
  { apply lookup_lt_Some in Hy. unfold is_child in Hg. lia. }
  trans z; [apply (IH (parent i)); [unfold is_child in Hg; lia|done]|by eapply Hord].
Qed.

(** An initial part of a heap is a heap. *)
Lemma heap_ordered_app h k : heap_ordered ltb (h ++ k) → heap_ordered ltb h.
Proof.
  intros Hord p c a b Hc Ha Hb. apply (Hord p c); [done|by apply lookup_app_l_Some..].
Qed.

Lemma heappop_spec h :
  heap_ordered ltb h → h ≠ [] →
  ∃ x h', heappop ltb h = Ok (x, h') ∧ h ≡ₚ x :: h' ∧ is_least ltb x h' ∧
          heap_ordered ltb h'.
Proof.
  intros Hord Hne. unfold heappop.
  destruct (last h) as [lastelt|] eqn:Hlast; [|by apply last_None in Hlast].
  apply last_Some in Hlast as [init ->].
  rewrite length_app, Nat.add_sub, take_app_length. destruct init as [|r init]; simpl.
  { exists lastelt, []. split_and!; [done..|constructor|by intros ? ? ? ? ? [=]]. }
  destruct (siftup_spec (lastelt :: init) lastelt) as [Hord' Hperm]; [done|..].
  { split; [|intros g c a b Hg; unfold is_child in Hg; lia].
    intros p c a b Hc Hp Hcp Ha Hb. destruct p as [|p], c as [|c]; try done.
    apply (heap_ordered_app (r :: init) [lastelt] Hord (S p) (S c)); done. }
  exists r, (siftup ltb (lastelt :: init) 0).
  assert (r :: init ++ [lastelt] ≡ₚ r :: siftup ltb (lastelt :: init) 0) as Hitems
    by (by rewrite Hperm, <- Permutation_cons_append).
  split_and!; [done..| |done].
  pose proof (root_minimal _ r Hord eq_refl) as Hleast. unfold is_least in *.
  rewrite Hitems in Hleast. by apply Forall_cons in Hleast as [_ ?].
Qed.

(** ** The contract *)

#[export] Instance heap_pq_laws : PriorityQueueLaws ltb (heap_pq ltb).
Proof.
  split; simpl.
  - by intros ? ? ? ? ? [=].
  - intros x q Hq. by apply heappush_spec.
  - intros q x q' Hq. unfold heap_get. case_bool_decide as He; [done|].
    destruct (heappop_spec q Hq) as (y & h' & -> & _ & _ & Hord); [by intros ->|].
    by intros [= <- <-].
  - done.
  - intros x q Hq. by apply heappush_spec.
  - intros q _. rewrite bool_decide_eq_true. by destruct q.
  - intros q _ ->. done.
  - intros q Hq Hne. unfold heap_get. rewrite bool_decide_false by (by destruct q).
    destruct (heappop_spec q Hq Hne) as (x & h' & -> & Hperm & Hleast & _). by exists x, h'.
Qed.
End order.
