(* ===== verification/Events.v ===== *)
(** * Events: event kinds and the order of the event clock

    [src/sim.ipynb] declares the enum [EventType] with an [__lt__] that
    compares the members' values, and schedules events as nested tuples
    [(t, (e, c, i))]: time, kind, client, station.  The priority queue
    orders them by Python's tuple comparison, which is lexicographic: the
    first component that differs decides.  [event_lt] is that comparison;
    it is a strict total order ([event_lt_total]), so the event clock is an
    instance of the contract of [PriorityQueue]. *)

From Stdlib Require Import ZArith Lia.
From stdpp Require Import list.
From S2P Require Import Prelude PriorityQueue.

(** [class EventType(Enum)] *)
Inductive EventType : Set :=
  | ASIGNED
  | ARRIVAL
  | FINISH.

#[export] Instance EventType_eq_dec : EqDecision EventType.
Proof. solve_decision. Defined.

(** The members' values, assigned by [auto()] in declaration order. *)
Definition EventType_value (e : EventType) : Z :=
  match e with
  | ASIGNED => 1
  | ARRIVAL => 2
  | FINISH => 3
  end.

(** [EventType.__lt__] *)
Definition EventType_lt (self other : EventType) : bool :=
  (EventType_value self <? EventType_value other)%Z.

(** An event [(t, (e, c, i))]. *)
Abbreviation event := (Z * (EventType * nat * nat))%type.

Definition ev_time (x : event) : Z := x.1.
Definition ev_type (x : event) : EventType := x.2.1.1.
Definition ev_client (x : event) : nat := x.2.1.2.
Definition ev_server (x : event) : nat := x.2.2.

(** Python's [<] on the tuples [(e, c, i)]. *)
Definition key_lt (k1 k2 : EventType * nat * nat) : bool :=
  let '(e1, c1, i1) := k1 in
  let '(e2, c2, i2) := k2 in
  if bool_decide (e1 ≠ e2) then EventType_lt e1 e2
  else if bool_decide (c1 ≠ c2) then c1 <? c2
  else i1 <? i2.

(** Python's [<] on the tuples [(t, (e, c, i))]. *)
Definition event_lt (x y : event) : bool :=
  let '(t1, k1) := x in
  let '(t2, k2) := y in
  if bool_decide (t1 ≠ t2) then (t1 <? t2)%Z
  else key_lt k1 k2.

(** * Lemmas *)

Lemma EventType_value_inj e1 e2 : EventType_value e1 = EventType_value e2 → e1 = e2.
Proof. by destruct e1, e2. Qed.

Lemma EventType_value_ne e1 e2 : e1 ≠ e2 → EventType_value e1 ≠ EventType_value e2.
Proof. intros Hne Hv. by apply Hne, EventType_value_inj. Qed.

(** Turn disequalities of kinds into disequalities of their values. *)
Ltac kinds_to_values :=
  repeat match goal with
  | H : @eq EventType _ _ → False |- _ => apply EventType_value_ne in H
  | H : not (@eq EventType _ _) |- _ => apply EventType_value_ne in H
  end.

Lemma EventType_lt_spec e1 e2 :
  EventType_lt e1 e2 = true ↔ (EventType_value e1 < EventType_value e2)%Z.
Proof. unfold EventType_lt. apply Z.ltb_lt. Qed.

(** The kinds at equal time: assignments, then service starts, then
    service completions. *)
Lemma EventType_lt_chain :
  EventType_lt ASIGNED ARRIVAL = true ∧ EventType_lt ARRIVAL FINISH = true ∧
  EventType_lt ASIGNED FINISH = true.
Proof. done. Qed.

(** [event_lt] as a proposition: the lexicographic order on
    (time, value of the kind, client, station). *)
Lemma event_lt_spec t1 e1 c1 i1 t2 e2 c2 i2 :
  event_lt (t1, (e1, c1, i1)) (t2, (e2, c2, i2)) = true ↔
  (t1 < t2)%Z ∨
  t1 = t2 ∧ ((EventType_value e1 < EventType_value e2)%Z ∨
             e1 = e2 ∧ (c1 < c2 ∨ c1 = c2 ∧ i1 < i2)).
Proof.
  unfold event_lt, key_lt, EventType_lt.
  repeat case_bool_decide; rewrite ?Z.ltb_lt, ?Nat.ltb_lt;
    kinds_to_values; naive_solver lia.
Qed.

Lemma event_lt_false t1 e1 c1 i1 t2 e2 c2 i2 :
  event_lt (t1, (e1, c1, i1)) (t2, (e2, c2, i2)) = false ↔
  (t2 < t1)%Z ∨
  t1 = t2 ∧ ((EventType_value e2 < EventType_value e1)%Z ∨
             e1 = e2 ∧ (c2 < c1 ∨ c1 = c2 ∧ i2 ≤ i1)).
Proof.
  unfold event_lt, key_lt, EventType_lt.
  repeat case_bool_decide; rewrite ?Z.ltb_ge, ?Nat.ltb_ge;
    kinds_to_values; naive_solver lia.
Qed.

#[export] Instance event_lt_total : TotalLtb event_lt.
Proof.
  split.
  - intros [t [[e c] i]]. apply event_lt_false. naive_solver lia.
  - intros [t1 [[e1 c1] i1]] [t2 [[e2 c2] i2]] [t3 [[e3 c3] i3]].
    rewrite !event_lt_spec. naive_solver lia.
  - intros [t1 [[e1 c1] i1]] [t2 [[e2 c2] i2]].
    rewrite !event_lt_false.
    intros [?|[? [?|[? ?]]]] [?|[? [?|[? ?]]]]; simplify_eq; try lia.
    repeat f_equal; lia.
Qed.

(** An event is not below another one that is earlier. *)
Lemma le_of_event_time (x y : event) : le_of event_lt x y → (ev_time x ≤ ev_time y)%Z.
Proof.
  destruct x as [t1 [[e1 c1] i1]], y as [t2 [[e2 c2] i2]].
  unfold le_of. rewrite event_lt_false. simpl. lia.
Qed.

Lemma is_least_event_time (x : event) l :
  is_least event_lt x l → Forall (λ y, (ev_time x ≤ ev_time y)%Z) l.
Proof. intros Hl. eapply Forall_impl; [done|]. intros y. apply le_of_event_time. Qed.

(** C31: Python's order on the event tuples [(t, (e, c, i))] is a strict
    total order: no event is below itself, the order is transitive, and two
    events neither of which is below the other are the same event.  Events
    at the same time are ordered by kind (assignments, service starts,
    completions), then by client and station, not by insertion. *)
Theorem event_lt_strict_total :
  (∀ x, event_lt x x = false) ∧
  (∀ x y z, event_lt x y = true → event_lt y z = true → event_lt x z = true) ∧
  (∀ x y, event_lt x y = false → event_lt y x = false → x = y) ∧
  (∀ t c1 i1 c2 i2, event_lt (t, (ASIGNED, c1, i1)) (t, (FINISH, c2, i2)) = true).
Proof.
  split_and!; [apply ltb_irrefl|apply ltb_trans|apply ltb_total|].
  intros. apply event_lt_spec. naive_solver.
Qed.
