(* ===== verification/Machine.v ===== *)
(** * Machine: the simulation as a labelled transition system

    The abstract specification of one run.  A state [mstate] holds what the
    loop of [servers_simulation] keeps (clock, counters, the three
    timestamp tables, the station queues) and the pending events as a list
    that is read up to permutation.  The rules of [mstep] are the branches
    of the loop: the event taken is a least pending event, and the random
    draws (inter-arrival gap, service duration, next station) are chosen
    freely within what the random source guarantees.  A label records the
    event processed, the routing decision and, for an external arrival,
    the time of the next arrival it schedules.

    A measure [weight] bounds the steps left: an external arrival pending
    at time [t] weighs every admission still possible before the horizon,
    any other pending event and any waiting client the events it still
    causes downstream.  A step whose label makes progress
    ([progress_label]: its next arrival is later, and it sends no client
    back) lowers the weight ([mstep_weight]).

    The invariants of a run are proved here by induction on [mreachable];
    [Refinement] shows that every step of the code model is a step of this
    machine, whatever priority queue and random source are plugged in. *)

From Stdlib Require Import ZArith Lia.
From stdpp Require Import gmap list.
From S2P Require Import Prelude PriorityQueue Events.

(** The three timestamp tables [q], [a], [d]: per station, client id to
    the list of recorded times. *)
Abbreviation trace := (list (gmap nat (list Z))).

(** [x[i][c]] with [[]] for a client that has no entry. *)
Definition trace_get (x : trace) (i c : nat) : list Z :=
  match x !! i with
  | Some x_i => dict_get x_i c []
  | None => []
  end.

(** Append [t] to [x[i][c]]. *)
Definition add_time (x : trace) (i c : nat) (t : Z) : trace :=
  alter (λ x_i, <[c := dict_get x_i c [] ++ [t]]> x_i) i x.

(** The service start scheduled when [c] joins the queue [queue_i] of
    station [i]: only if the station is idle. *)
Definition start_if_idle (t : Z) (c i : nat) (queue_i : list nat) : list event :=
  match queue_i with
  | [] => [(t, (ARRIVAL, c, i))]
  | _ :: _ => []
  end.

(** The service start scheduled when station [i] is left with [queue_i]. *)
Definition start_next (t : Z) (i : nat) (queue_i : list nat) : list event :=
  match queue_i with
  | c' :: _ => [(t, (ARRIVAL, c', i))]
  | [] => []
  end.

Record mstate : Type := MState {
  m_t : Z;
  m_pending : list event;
  m_n_a : nat;
  m_n_d : nat;
  m_q : trace;
  m_a : trace;
  m_d : trace;
  m_queue : list (list nat);
}.

(** What a step does: the client [c] is admitted to the queue of station
    [i] (and the external arrival after it is scheduled at [next_arrival],
    if one is), starts service there, or ends service there and is routed
    to [next] ([None]: it leaves the network). *)
Inductive label : Type :=
  | Asigned (t : Z) (c i : nat) (next_arrival : option Z)
  | Arrival (t : Z) (c i : nat)
  | Finish (t : Z) (c i : nat) (next : option nat).

(** The station a completion routes its client to. *)
Definition label_next (l : label) : option nat :=
  match l with
  | Finish _ _ _ next => next
  | _ => None
  end.

(** A completion that sends its client back to the first station. *)
Definition is_recycle (l : label) : Prop := label_next l = Some 0.

#[export] Instance is_recycle_dec l : Decision (is_recycle l).
Proof. unfold is_recycle. apply _. Defined.

(** A pending service event (start or completion) of station [i]. *)
Definition is_service (i : nat) (x : event) : Prop :=
  ev_server x = i ∧ ev_type x ≠ ASIGNED.

#[export] Instance is_service_dec i x : Decision (is_service i x).
Proof. unfold is_service. apply _. Defined.

(** A pending completion of the service of [c] at station [i]. *)
Definition is_finish_of (i c : nat) (x : event) : Prop :=
  ev_server x = i ∧ ev_type x = FINISH ∧ ev_client x = c.

#[export] Instance is_finish_of_dec i c x : Decision (is_finish_of i c x).
Proof. unfold is_finish_of. apply _. Defined.

(** A client on its way to a station other than the first. *)
Definition is_transit (x : event) : Prop :=
  ev_type x = ASIGNED ∧ ev_server x ≠ 0.

#[export] Instance is_transit_dec x : Decision (is_transit x).
Proof. unfold is_transit. apply _. Defined.

(** The pending service events of station [i]. *)
Definition service_events (i : nat) (l : list event) : list event :=
  filter (is_service i) l.

(** The service discipline at station [i]: no service event is pending
    when the queue is empty; otherwise exactly one is, and it concerns the
    client at the head of the queue. *)
Definition station_ok (pend : list event) (i : nat) (queue_i : list nat) : Prop :=
  match head queue_i with
  | None => service_events i pend = []
  | Some c => ∃ x, service_events i pend = [x] ∧ ev_client x = c
  end.

Section machine.
(** The number of stations and the horizon of admissions. *)
Context (n : nat) (horizon : Z).

Definition minit (gap : Z) : mstate :=
  {| m_t := 0; m_pending := [((0 + gap)%Z, (ASIGNED, 0, 0))];
     m_n_a := 0; m_n_d := 0;
     m_q := replicate n ∅; m_a := replicate n ∅; m_d := replicate n ∅;
     m_queue := replicate n [] |}.

(** The event [x] is taken from the pending events of [s], leaving [rest]. *)
Definition takes (s : mstate) (x : event) (rest : list event) : Prop :=
  m_pending s ≡ₚ x :: rest ∧ is_least event_lt x rest.

Inductive mstep : label → mstate → mstate → Prop :=
  (** an external arrival: the client gets the next identity, and the
      arrival after it is scheduled if it falls before the horizon *)
  | mstep_external s t c rest queue_0 gap pend' :
      takes s (t, (ASIGNED, c, 0)) rest →
      m_queue s !! 0 = Some queue_0 →
      (0 ≤ gap)%Z →
      pend' ≡ₚ start_if_idle t (m_n_a s) 0 queue_0 ++
               (if decide (t + gap < horizon)%Z
                then [((t + gap)%Z, (ASIGNED, 0, 0))] else []) ++ rest →
      mstep (Asigned t (m_n_a s) 0
               (if decide (t + gap < horizon)%Z then Some (t + gap)%Z else None)) s
        {| m_t := t; m_pending := pend';
           m_n_a := m_n_a s + 1; m_n_d := m_n_d s;
           m_q := add_time (m_q s) 0 (m_n_a s) t; m_a := m_a s; m_d := m_d s;
           m_queue := <[0 := queue_0 ++ [m_n_a s]]> (m_queue s) |}
  (** a client routed to a station other than the first *)
  | mstep_internal s t c i rest queue_i pend' :
      takes s (t, (ASIGNED, c, i)) rest →
      i ≠ 0 →
      m_queue s !! i = Some queue_i →
      pend' ≡ₚ start_if_idle t c i queue_i ++ rest →
      mstep (Asigned t c i None) s
        {| m_t := t; m_pending := pend';
           m_n_a := m_n_a s; m_n_d := m_n_d s;
           m_q := add_time (m_q s) i c t; m_a := m_a s; m_d := m_d s;
           m_queue := <[i := queue_i ++ [c]]> (m_queue s) |}
  (** a service start: the completion is scheduled *)
  | mstep_arrival s t c i rest duration pend' :
      takes s (t, (ARRIVAL, c, i)) rest →
      (0 ≤ duration)%Z →
      pend' ≡ₚ ((t + duration)%Z, (FINISH, c, i)) :: rest →
      mstep (Arrival t c i) s
        {| m_t := t; m_pending := pend';
           m_n_a := m_n_a s; m_n_d := m_n_d s;
           m_q := m_q s; m_a := add_time (m_a s) i c t; m_d := m_d s;
           m_queue := m_queue s |}
  (** a service completion at the last station: the client leaves *)
  | mstep_last s t c i rest queue_i pend' :
      takes s (t, (FINISH, c, i)) rest →
      i + 1 = n →
      m_queue s !! i = Some queue_i →
      pend' ≡ₚ start_next t i (tail queue_i) ++ rest →
      mstep (Finish t c i None) s
        {| m_t := t; m_pending := pend';
           m_n_a := m_n_a s; m_n_d := m_n_d s + 1;
           m_q := m_q s; m_a := m_a s; m_d := add_time (m_d s) i c t;
           m_queue := <[i := tail queue_i]> (m_queue s) |}
  (** a service completion elsewhere: the client is routed forward, or
      backward from a station other than the first *)
  | mstep_route s t c i rest queue_i next pend' :
      takes s (t, (FINISH, c, i)) rest →
      i + 1 ≠ n →
      m_queue s !! i = Some queue_i →
      next = i + 1 ∨ (0 < i ∧ next < i) →
      pend' ≡ₚ start_next t i (tail queue_i) ++ (t, (ASIGNED, c, next)) :: rest →
      mstep (Finish t c i (Some next)) s
        {| m_t := t; m_pending := pend';
           m_n_a := m_n_a s; m_n_d := m_n_d s;
           m_q := m_q s; m_a := m_a s; m_d := add_time (m_d s) i c t;
           m_queue := <[i := tail queue_i]> (m_queue s) |}.

(** Runs: the labels of the steps from one state to another, oldest first. *)
Inductive mtrace : mstate → list label → mstate → Prop :=
  | mtrace_nil s : mtrace s [] s
  | mtrace_snoc s ls s' l s'' :
      mtrace s ls s' → mstep l s' s'' → mtrace s (ls ++ [l]) s''.

(** The states of the runs that start with the first arrival pending and
    their labels so far. *)
Definition mrun (ls : list label) (s : mstate) : Prop :=
  ∃ gap, (0 ≤ gap)%Z ∧ mtrace (minit gap) ls s.

Definition mreachable (s : mstate) : Prop := ∃ ls, mrun ls s.

(** ** Observations *)

(** The clients in the queues (waiting or in service). *)
Definition in_queues (s : mstate) : nat := sum_list (length <$> m_queue s).

(** The clients in the network: in a queue or between two stations. *)
Definition in_system (s : mstate) : nat :=
  in_queues s + count_if is_transit (m_pending s).

(** The completions that sent the client back to the first station. *)
Definition recycled (ls : list label) : nat := count_if is_recycle ls.

(** ** Invariants *)

(** The tables have one entry per station and every pending event is for a
    station of the network. *)
Record shape_ok (s : mstate) : Prop := {
  shape_q : length (m_q s) = n;
  shape_a : length (m_a s) = n;
  shape_d : length (m_d s) = n;
  shape_queue : length (m_queue s) = n;
  shape_servers : Forall (λ x, ev_server x < n) (m_pending s);
}.

Definition stations_ok (s : mstate) : Prop :=
  ∀ i queue_i, m_queue s !! i = Some queue_i → station_ok (m_pending s) i queue_i.

(** The bookkeeping of the timestamp tables: per station and client, one
    queue-entry time per visit (finished or in the queue), one
    service-start time per visit (finished or in service). *)
Definition tables_ok (s : mstate) : Prop :=
  ∀ i c,
    length (trace_get (m_q s) i c) =
      length (trace_get (m_d s) i c) + count_if (λ c', c' = c) (m_queue s !!! i) ∧
    length (trace_get (m_a s) i c) =
      length (trace_get (m_d s) i c) + count_if (is_finish_of i c) (m_pending s).

(** No pending event is in the past. *)
Definition clock_ok (s : mstate) : Prop :=
  Forall (λ x, (m_t s ≤ ev_time x)%Z) (m_pending s).

(** Conservation of clients: every client that entered has left, is in
    the network, or was sent back to the first station, where it is
    admitted again as a new client. *)
Definition conserved (ls : list label) (s : mstate) : Prop :=
  m_n_a s = m_n_d s + in_system s + recycled ls.

(** The invariant of a run. *)
Record minv (ls : list label) (s : mstate) : Prop := {
  minv_shape : shape_ok s;
  minv_stations : stations_ok s;
  minv_tables : tables_ok s;
  minv_clock : clock_ok s;
  minv_conserved : conserved ls s;
}.
(** ** The measure of termination *)

(** The weight of a state bounds the steps that remain when no client is
    sent back: three events per station a client has still to visit, and
    one admission per time unit before the horizon. *)

(** The events a client still causes from its assignment to station [i]
    to its departure: three per station. *)
Definition station_weight (i : nat) : nat := 3 * (n - i).

Definition event_weight (x : event) : nat :=
  let '(t, (e, c, i)) := x in
  match e with
  | ASIGNED =>
      if bool_decide (i = 0) then (Z.to_nat (horizon - t) + 1) * station_weight 0
      else station_weight i
  | ARRIVAL => station_weight i - 1
  | FINISH => station_weight i - 2
  end.

(** The clients that wait behind the head of the queue of station [i]. *)
Definition queue_weight (i : nat) (queue_i : list nat) : nat :=
  (length queue_i - 1) * (station_weight i - 1).

Definition pending_weight (l : list event) : nat := sum_list_with event_weight l.

Definition queues_weight (queue : list (list nat)) : nat := sum_list (imap queue_weight queue).

Definition weight (s : mstate) : nat :=
  pending_weight (m_pending s) + queues_weight (m_queue s).

(** A step that makes progress: an arrival scheduled after an admission
    is strictly later, and a completion routes its client forward. *)
Definition progress_label (l : label) : Prop :=
  match l with
  | Asigned t _ _ (Some t') => (t < t')%Z
  | Finish _ _ i (Some next) => next = i + 1
  | _ => True
  end.

(** A step that sends no client back. *)
Definition forward_label (l : label) : Prop :=
  match l with
  | Finish _ _ i (Some next) => next = i + 1
  | _ => True
  end.

End machine.

(** * Lemmas *)

(** Unfold the projections of events. *)
Ltac ev_simpl := unfold ev_time, ev_type, ev_client, ev_server in *; simpl in *.

(** Case analysis on the rule of a step. *)
Ltac inv_mstep H := inversion H; subst; clear H; simpl in *.

(** With no event pending every station is idle. *)
Lemma stations_ok_nil s i queue_i :
  stations_ok s → m_pending s = [] → m_queue s !! i = Some queue_i → queue_i = [].
Proof.
  intros Hok Hnil Hq. specialize (Hok i queue_i Hq). unfold station_ok in Hok.
  rewrite Hnil in Hok. destruct queue_i; [done|]. by destruct Hok as (x & ? & _).
Qed.

Lemma progress_forward l : progress_label l → forward_label l.
Proof. by destruct l as [| |t c i [next|]]. Qed.

Lemma length_add_time x i c t : length (add_time x i c t) = length x.
Proof. apply length_alter. Qed.

Lemma trace_get_add_time x i c t i' c' :
  trace_get (add_time x i c t) i' c' =
  if decide (i = i' ∧ c = c' ∧ i < length x) then trace_get x i c ++ [t]
  else trace_get x i' c'.
Proof.
  unfold trace_get, add_time. rewrite list_lookup_alter.
  destruct (decide (i = i')) as [<-|Hi]; [|case_decide; naive_solver].
  destruct (x !! i) as [x_i|] eqn:E; simpl.
  - apply lookup_lt_Some in E. rewrite dict_get_insert.
    repeat case_decide; naive_solver.
  - apply lookup_ge_None in E. case_decide; [lia|done].
Qed.

Section machine_lemmas.
Context (n : nat) (horizon : Z).
Implicit Types (s : mstate) (x : event) (l : label).

Lemma takes_Forall (P : event → Prop) s x rest :
  takes s x rest → Forall P (m_pending s) → P x ∧ Forall P rest.
Proof. intros [Hp _] Hall. rewrite Hp in Hall. by apply Forall_cons. Qed.

Lemma mrun_ind_inv (P : list label → mstate → Prop) :
  (∀ gap, (0 ≤ gap)%Z → P [] (minit n gap)) →
  (∀ ls s l s', mrun n horizon ls s → P ls s → mstep n horizon l s s' → P (ls ++ [l]) s') →
  ∀ ls s, mrun n horizon ls s → P ls s.
Proof.
  intros Hinit Hstep ls s (gap & Hgap & Htr).
  remember (minit n gap) as s0 eqn:Hs0.
  induction Htr as [s|s ls s' l s'' Htr IH Hst]; subst; [by apply Hinit|].
  apply (Hstep ls s'); [by exists gap|by apply IH|done].
Qed.

(** A run extended at its start. *)
Lemma mtrace_cons l s s' ls s'' :
  mstep n horizon l s s' → mtrace n horizon s' ls s'' → mtrace n horizon s (l :: ls) s''.
Proof.
  intros Hst Htr. induction Htr as [s'|s' ls s1 l1 s2 Htr IH Hst1].
  - apply (mtrace_snoc _ _ s [] s); [constructor|done].
  - apply (mtrace_snoc _ _ s (l :: ls) s1); [by apply IH|done].
Qed.

Lemma mreachable_ind_inv (P : mstate → Prop) :
  (∀ gap, (0 ≤ gap)%Z → P (minit n gap)) →
  (∀ s l s', mreachable n horizon s → P s → mstep n horizon l s s' → P s') →
  ∀ s, mreachable n horizon s → P s.
Proof.
  intros Hinit Hstep s [ls Hrun]. revert ls s Hrun.
  apply (mrun_ind_inv (λ _ s, P s)); [done|].
  intros ls s l s' Hrun. apply Hstep. by exists ls.
Qed.

Lemma start_if_idle_server t c i queue_i :
  Forall (λ x, ev_server x = i) (start_if_idle t c i queue_i).
Proof. destruct queue_i; repeat constructor. Qed.

Lemma start_next_server t i queue_i :
  Forall (λ x, ev_server x = i) (start_next t i queue_i).
Proof. destruct queue_i; repeat constructor. Qed.

Context (Hn : 0 < n).

Lemma minit_shape gap : shape_ok n (minit n gap).
Proof.
  split; simpl; rewrite ?length_replicate; try done. by repeat constructor.
Qed.

Lemma mstep_shape l s s' : shape_ok n s → mstep n horizon l s s' → shape_ok n s'.
Proof.
  intros Hs Hst. inv_mstep Hst; destruct Hs as [Hq Ha Hd Hqu Hsv];
    match goal with Ht : takes _ _ _ |- _ =>
      destruct (takes_Forall _ _ _ _ Ht Hsv) as [Hx Hrest] end;
    split; simpl; rewrite ?length_add_time, ?length_insert; try done;
    match goal with Hp : _ ≡ₚ _ |- _ => rewrite Hp end;
    rewrite ?Forall_app, ?Forall_cons; split_and?; try done; ev_simpl; try lia;
    try case_decide; repeat constructor; try done;
    (eapply Forall_impl; [apply start_if_idle_server || apply start_next_server|]);
    ev_simpl; intros; lia.
Qed.
End machine_lemmas.

(** ** The service discipline *)

Section station.
Implicit Types (x y : event) (l pend rest : list event) (q : list nat).

#[export] Instance service_events_perm i : Proper ((≡ₚ) ==> (≡ₚ)) (service_events i).
Proof. intros l1 l2 Hl. unfold service_events. by rewrite Hl. Qed.

#[export] Instance station_ok_perm : Proper ((≡ₚ) ==> (=) ==> (=) ==> iff) station_ok.
Proof.
  intros l1 l2 Hl i ? <- q ? <-. unfold station_ok.
  apply (service_events_perm i) in Hl.
  destruct (head q).
  - split; intros (x & Hx & Hc); exists x; split; try done.
    + rewrite Hx in Hl. by apply Permutation_singleton_l in Hl.
    + rewrite Hx in Hl. by apply Permutation_singleton_r in Hl.
  - split; intros Hx; rewrite Hx in Hl.
    + by apply Permutation_nil_l in Hl.
    + by apply Permutation_nil_r in Hl.
Qed.

Lemma service_events_cons i x l :
  service_events i (x :: l) =
  if decide (is_service i x) then x :: service_events i l else service_events i l.
Proof. apply filter_cons. Qed.

Lemma service_events_app i l1 l2 :
  service_events i (l1 ++ l2) = service_events i l1 ++ service_events i l2.
Proof. apply filter_app. Qed.

Lemma service_events_none i l :
  Forall (λ y, ¬ is_service i y) l → service_events i l = [].
Proof.
  intros Hl. unfold service_events.
  induction Hl as [|y l Hy _ IH]; [done|]. rewrite filter_cons. by rewrite decide_False.
Qed.

Lemma station_take_service pend x rest i q :
  pend ≡ₚ x :: rest → is_service i x → station_ok pend i q →
  head q = Some (ev_client x) ∧ service_events i rest = [].
Proof.
  intros -> Hx. unfold station_ok. rewrite service_events_cons, decide_True by done.
  destruct (head q); [|done]. by intros (y & [= <- ->] & <-).
Qed.

Lemma station_take_here pend t e c i rest q :
  pend ≡ₚ (t, (e, c, i)) :: rest → e ≠ ASIGNED → station_ok pend i q →
  head q = Some c ∧ service_events i rest = [].
Proof. intros Hp He Hs. by apply (station_take_service pend (t, (e, c, i))). Qed.

Lemma station_take_other pend x rest i q :
  pend ≡ₚ x :: rest → ¬ is_service i x → station_ok pend i q → station_ok rest i q.
Proof.
  intros -> Hx. unfold station_ok. by rewrite service_events_cons, decide_False by done.
Qed.

Lemma station_add_others news rest i q :
  Forall (λ y, ¬ is_service i y) news → station_ok rest i q → station_ok (news ++ rest) i q.
Proof.
  intros Hn. unfold station_ok. by rewrite service_events_app, (service_events_none i news).
Qed.

Lemma station_serve t e c i rest q :
  e ≠ ASIGNED → head q = Some c → service_events i rest = [] →
  station_ok ((t, (e, c, i)) :: rest) i q.
Proof.
  intros He Hq Hr. unfold station_ok. rewrite Hq, service_events_cons, decide_True, Hr by done.
  by eexists.
Qed.

Lemma station_start_next t i extra rest q :
  Forall (λ y, ¬ is_service i y) extra → service_events i rest = [] →
  station_ok (start_next t i q ++ extra ++ rest) i q.
Proof.
  intros He Hr.
  assert (service_events i (extra ++ rest) = []) as Her
    by by rewrite service_events_app, Hr, service_events_none.
  destruct q as [|c q]; simpl; [done|]. by apply station_serve.
Qed.

Lemma station_join t c i extra rest q :
  Forall (λ y, ¬ is_service i y) extra → station_ok rest i q →
  station_ok (start_if_idle t c i q ++ extra ++ rest) i (q ++ [c]).
Proof.
  intros He Hr%(station_add_others extra); [|done].
  destruct q as [|c0 q]; simpl; [|done]. by apply station_serve.
Qed.

Lemma station_step_other pend x rest news j q :
  pend ≡ₚ x :: rest →
  ¬ is_service j x → Forall (λ y, ¬ is_service j y) news →
  station_ok pend j q → station_ok (news ++ rest) j q.
Proof.
  intros Hp Hx Hn Hs. eapply station_add_others, station_take_other; done.
Qed.

Lemma start_if_idle_service t c i q j :
  i ≠ j → Forall (λ y, ¬ is_service j y) (start_if_idle t c i q).
Proof. intros Hij. destruct q; repeat constructor. by intros [? _]. Qed.

Lemma start_next_service t i q j :
  i ≠ j → Forall (λ y, ¬ is_service j y) (start_next t i q).
Proof. intros Hij. destruct q; repeat constructor. by intros [? _]. Qed.

Lemma asigned_not_service t c i j : ¬ is_service j (t, (ASIGNED, c, i)).
Proof. by intros [_ ?]. Qed.

Lemma other_not_service t e c i j : i ≠ j → ¬ is_service j (t, (e, c, i)).
Proof. by intros ? [? _]. Qed.

Lemma is_service_here t e c i : e ≠ ASIGNED → is_service i (t, (e, c, i)).
Proof. done. Qed.
End station.

#[export] Hint Resolve asigned_not_service other_not_service start_if_idle_service
  start_next_service is_service_here : sim.

Section stations.
Context (n : nat) (horizon : Z).

Lemma minit_stations gap : stations_ok (minit n gap).
Proof.
  intros i queue_i [-> _]%lookup_replicate.
  apply service_events_none. repeat constructor. auto with sim.
Qed.

Lemma mstep_stations l s s' : stations_ok s → mstep n horizon l s s' → stations_ok s'.
Proof.
  intros Hs Hst j queue_j Hj. inv_mstep Hst;
    match goal with Ht : takes _ _ _ |- _ => destruct Ht as [Hp _] end;
    match goal with Hp' : ?p ≡ₚ _ |- station_ok ?p _ _ => rewrite Hp'; clear Hp' end;
    try (apply list_lookup_insert_Some in Hj as [(<- & <- & _)|[Hne Hj]]);
    try match goal with Hq : m_queue _ !! _ = Some _ |- _ => pose proof (Hs _ _ Hq) as Hi end.
  - eapply station_join, station_take_other; [|done| |done]; auto with sim.
    case_decide; repeat constructor; auto with sim.
  - rewrite app_assoc. eapply station_step_other; [done| | |by apply Hs]; auto with sim.
    rewrite Forall_app. split; [auto with sim|].
    case_decide; repeat constructor; auto with sim.
  - apply (station_join _ _ _ []), (station_take_other _ _ _ _ _ Hp); auto with sim.
  - eapply station_step_other; [done| | |by apply Hs]; auto with sim.
  - destruct (decide (i = j)) as [<-|Hne].
    + destruct (station_take_here _ _ _ _ _ _ _ Hp ltac:(done) Hi).
      by apply station_serve.
    + eapply (station_step_other _ _ _ [_]); [done| | |by apply Hs];
        repeat constructor; auto with sim.
  - destruct (station_take_here _ _ _ _ _ _ _ Hp ltac:(done) Hi).
    by apply (station_start_next _ _ []).
  - eapply station_step_other; [done| | |by apply Hs]; auto with sim.
  - destruct (station_take_here _ _ _ _ _ _ _ Hp ltac:(done) Hi).
    apply (station_start_next _ _ [_]); [|done]. repeat constructor; auto with sim.
  - rewrite cons_middle, app_assoc.
    eapply station_step_other; [done| | |by apply Hs]; auto with sim.
    rewrite Forall_app. split; [auto with sim|]. repeat constructor; auto with sim.
Qed.
End stations.

(** ** Conservation of clients *)

Lemma sum_lengths_insert {A} (l : list (list A)) i q q' :
  l !! i = Some q →
  sum_list (length <$> <[i:=q']> l) + length q = sum_list (length <$> l) + length q'.
Proof.
  revert i. induction l as [|q0 l IH]; intros [|i] Hi; simplify_eq/=; [lia|].
  specialize (IH i Hi). lia.
Qed.

Lemma count_if_none {A} (P : A → Prop) `{∀ x, Decision (P x)} l :
  Forall (λ x, ¬ P x) l → count_if P l = 0.
Proof. apply count_if_zero. Qed.

Lemma start_if_idle_transit t c i q : count_if is_transit (start_if_idle t c i q) = 0.
Proof. by destruct q. Qed.

Lemma start_next_transit t i q : count_if is_transit (start_next t i q) = 0.
Proof. by destruct q. Qed.

Lemma recycled_snoc ls l :
  recycled (ls ++ [l]) = recycled ls + (if decide (is_recycle l) then 1 else 0).
Proof. unfold recycled. rewrite count_if_app, count_if_cons, count_if_nil. lia. Qed.

Section conservation.
Context (n : nat) (horizon : Z).

Lemma minit_conserved gap : conserved [] (minit n gap).
Proof.
  unfold conserved, in_system, in_queues. simpl.
  rewrite fmap_replicate. simpl.
  assert (sum_list (replicate n 0) = 0) as -> by (induction n; simpl; lia).
  done.
Qed.

Lemma mstep_conserved ls l s s' :
  stations_ok s → conserved ls s → mstep n horizon l s s' → conserved (ls ++ [l]) s'.
Proof.
  unfold conserved, in_system, in_queues. intros Hs Hc Hst. rewrite recycled_snoc.
  inv_mstep Hst;
    match goal with Ht : takes _ _ _ |- _ => destruct Ht as [Hp _] end;
    match goal with Hp' : ?p ≡ₚ _ |- context [?p] => rewrite Hp'; clear Hp' end;
    try match goal with Hq : m_queue _ !! _ = Some ?q |- context [<[_:=?q']> _] =>
      pose proof (sum_lengths_insert _ _ _ q' Hq) as Hsum;
      try (destruct (station_take_here _ _ _ _ _ _ _ Hp ltac:(done) (Hs _ _ Hq)) as [Hh _];
           destruct q; simplify_eq/=)
    end;
    rewrite Hp in Hc; autorewrite with sim_rw in *;
    rewrite ?start_if_idle_transit, ?start_next_transit, ?length_app in *;
    repeat case_decide; unfold is_transit, is_recycle in *; ev_simpl;
    try lia; naive_solver lia.
Qed.
End conservation.

(** ** The timestamp tables *)

Lemma lookup_total_insert_Some {A} `{Inhabited A} (l : list A) i j x y :
  l !! i = Some x → <[i:=y]> l !!! j = if decide (i = j) then y else l !!! j.
Proof.
  intros Hi%lookup_lt_Some. case_decide as Hij.
  - subst. by apply list_lookup_total_insert_eq.
  - by apply list_lookup_total_insert_ne.
Qed.

Lemma start_if_idle_finish t c i q j c' :
  count_if (is_finish_of j c') (start_if_idle t c i q) = 0.
Proof.
  destruct q; simpl; [|done]. rewrite count_if_cons, decide_False; [done|]. by intros (_ & ? & _).
Qed.

Lemma start_next_finish t i q j c' :
  count_if (is_finish_of j c') (start_next t i q) = 0.
Proof.
  destruct q; simpl; [done|]. rewrite count_if_cons, decide_False; [done|]. by intros (_ & ? & _).
Qed.

Section tables.
Context (n : nat) (horizon : Z).

Lemma replicate_nil_lookup_total {A} k i : (replicate k (@nil A)) !!! i = [].
Proof.
  rewrite list_lookup_total_alt. destruct (replicate k [] !! i) eqn:E; [|done].
  by apply lookup_replicate in E as [-> _].
Qed.

Lemma trace_get_replicate k i c : trace_get (replicate k ∅) i c = [].
Proof.
  unfold trace_get. destruct (replicate k ∅ !! i) eqn:E; [|done].
  by apply lookup_replicate in E as [-> _].
Qed.

Lemma minit_tables gap : tables_ok (minit n gap).
Proof.
  intros i c. simpl. rewrite !trace_get_replicate, replicate_nil_lookup_total.
  rewrite count_if_cons, decide_False; [done|]. by intros (_ & ? & _).
Qed.

Lemma is_finish_of_iff j c' t e c i :
  is_finish_of j c' (t, (e, c, i)) ↔ i = j ∧ e = FINISH ∧ c = c'.
Proof. done. Qed.

(** Decide the tests on events left by a case analysis. *)
Ltac decide_finish :=
  repeat match goal with
  | H : is_finish_of _ _ (_, _) |- _ => apply is_finish_of_iff in H
  | H : ¬ is_finish_of _ _ (_, _) |- _ => rewrite is_finish_of_iff in H
  end.

Lemma mstep_tables l s s' :
  shape_ok n s → stations_ok s → tables_ok s → mstep n horizon l s s' → tables_ok s'.
Proof.
  intros Hsh Hs Ht Hst j c'. specialize (Ht j c'). revert Ht.
  inv_mstep Hst; destruct Hsh as [Hlq Hla Hld Hlqu Hsv];
    match goal with Ht : takes _ _ _ |- _ =>
      destruct (takes_Forall _ _ _ _ Ht Hsv) as [Hx _]; destruct Ht as [Hp _] end;
    match goal with Hp' : ?p ≡ₚ _ |- _ => is_var p; rewrite Hp'; clear Hp' end;
    rewrite Hp, ?trace_get_add_time;
    try match goal with Hq : m_queue _ !! _ = Some ?q |- _ =>
      rewrite (lookup_total_insert_Some _ _ j _ _ Hq);
      pose proof (list_lookup_total_correct _ _ _ Hq) as Hqt;
      try (destruct (station_take_here _ _ _ _ _ _ _ Hp ltac:(done) (Hs _ _ Hq)) as [Hh _];
           destruct q; simplify_eq/=)
    end;
    autorewrite with sim_rw;
    rewrite ?start_if_idle_finish, ?start_next_finish;
    intros [Hq1 Ha1]; ev_simpl;
    repeat (case_decide; decide_finish; destruct_and?; simplify_eq);
    rewrite ?Hqt in *; rewrite ?length_app; autorewrite with sim_rw in *; simpl;
    repeat (case_decide; decide_finish; destruct_and?; simplify_eq);
    try (split; lia); try solve [naive_solver lia].
Qed.
End tables.

(** ** The clock *)

Section clock.
Context (n : nat) (horizon : Z).

Lemma minit_clock gap : (0 ≤ gap)%Z → clock_ok (minit n gap).
Proof. intros Hg. repeat constructor. ev_simpl. lia. Qed.

Lemma start_if_idle_time t c i q : Forall (λ x, ev_time x = t) (start_if_idle t c i q).
Proof. destruct q; repeat constructor. Qed.

Lemma start_next_time t i q : Forall (λ x, ev_time x = t) (start_next t i q).
Proof. destruct q; repeat constructor. Qed.

Lemma takes_time s t e c i rest :
  takes s (t, (e, c, i)) rest → Forall (λ y, (t ≤ ev_time y)%Z) rest.
Proof. intros [_ Hl]. by apply is_least_event_time in Hl. Qed.

(** After a step no pending event is in the past. *)
Lemma mstep_clock l s s' : mstep n horizon l s s' → clock_ok s'.
Proof.
  intros Hst. unfold clock_ok.
  inv_mstep Hst;
    match goal with Ht : takes _ _ _ |- _ => pose proof (takes_time _ _ _ _ _ _ Ht) as Hr end;
    match goal with Hp' : ?p ≡ₚ _ |- _ => is_var p; rewrite Hp'; clear Hp' end;
    rewrite ?Forall_app, ?Forall_cons; split_and?; try done; ev_simpl; try lia;
    try (case_decide; [apply Forall_singleton; simpl; lia | by apply Forall_nil]);
    (eapply Forall_impl; [apply start_if_idle_time || apply start_next_time|]);
    intros ? Hx; ev_simpl; lia.
Qed.

(** The clock never goes back. *)
Lemma mstep_clock_mono l s s' : clock_ok s → mstep n horizon l s s' → (m_t s ≤ m_t s')%Z.
Proof.
  intros Hc Hst.
  inv_mstep Hst;
    match goal with Ht : takes _ _ _ |- _ =>
      by destruct (takes_Forall _ _ _ _ Ht Hc) as [Hx _] end.
Qed.
End clock.

(** ** The invariant of a run and its consequences *)

Section run_invariants.
Context (n : nat) (horizon : Z) (Hn : 0 < n).

(** Every state of a run satisfies the invariant. *)
Lemma mrun_minv ls s : mrun n horizon ls s → minv n ls s.
Proof.
  revert ls s. apply mrun_ind_inv.
  - intros gap Hg. split.
    + by apply minit_shape.
    + apply minit_stations.
    + apply minit_tables.
    + by apply minit_clock.
    + apply minit_conserved.
  - intros ls s l s' _ [Hsh Hst Hta Hcl Hco] Hstep. split.
    + by eapply mstep_shape.
    + by eapply mstep_stations.
    + by eapply mstep_tables.
    + by eapply mstep_clock.
    + by eapply mstep_conserved.
Qed.

Lemma mrun_departures_le_arrivals ls s : mrun n horizon ls s → m_n_d s ≤ m_n_a s.
Proof. intros [_ _ _ _ Hc]%mrun_minv. unfold conserved in Hc. lia. Qed.
End run_invariants.

(** A station with a pending completion for [c] has [c] at the head of its queue,
    and it is the only pending completion there. *)
Lemma station_finish_count pend i q c :
  station_ok pend i q →
  count_if (is_finish_of i c) pend ≤ count_if (λ c', c' = c) q.
Proof.
  unfold station_ok.
  assert (count_if (is_finish_of i c) pend = count_if (is_finish_of i c) (service_events i pend)) as ->.
  { unfold count_if, service_events. f_equal.
    induction pend as [|x pend IH]; [done|]. rewrite !filter_cons.
    destruct (decide (is_finish_of i c x)) as [Hx|Hx].
    - rewrite decide_True; [|destruct Hx as (? & Hf & ?); split; [done|by rewrite Hf]].
      rewrite filter_cons, decide_True by done. by f_equal.
    - case_decide; [|done]. by rewrite filter_cons, decide_False. }
  destruct q as [|c0 q]; simpl.
  - by intros ->.
  - intros (x & -> & <-). rewrite !count_if_cons, count_if_nil.
    destruct (decide (is_finish_of i c x)) as [(_ & _ & Hx)|]; [|lia].
    rewrite decide_True by done. lia.
Qed.

(** An empty event clock means an empty network. *)
Lemma drained_in_system s :
  stations_ok s → m_pending s = [] → in_system s = 0.
Proof.
  intros Hs Hp. unfold in_system, in_queues. rewrite Hp, count_if_nil.
  assert (Forall (λ q, q = []) (m_queue s)) as Hq.
  { apply Forall_lookup. intros i q Hi. specialize (Hs i q Hi).
    unfold station_ok in Hs. rewrite Hp in Hs. destruct q; [done|].
    by destruct Hs as (? & ? & _). }
  assert (sum_list (length <$> m_queue s) = 0) as ->; [|done].
  induction Hq as [|q l -> _ IH]; [done|]. by rewrite fmap_cons.
Qed.

(** ** Consequences for the runs *)

Section run_consequences.
Context (n : nat) (horizon : Z).

Lemma mrun_init gap : (0 ≤ gap)%Z → mrun n horizon [] (minit n gap).
Proof. intros Hg. exists gap. split; [done|constructor]. Qed.

Lemma mrun_snoc ls s l s' :
  mrun n horizon ls s → mstep n horizon l s s' → mrun n horizon (ls ++ [l]) s'.
Proof. intros (gap & Hg & Htr) Hst. exists gap. split; [done|by econstructor]. Qed.

Lemma mtrace_app s ls s' ls' s'' :
  mtrace n horizon s ls s' → mtrace n horizon s' ls' s'' → mtrace n horizon s (ls ++ ls') s''.
Proof.
  intros Htr Htr'. induction Htr' as [|s1 ls' s2 l s3 _ IH Hst].
  - by rewrite app_nil_r.
  - rewrite app_assoc. econstructor; [by apply IH|done].
Qed.

Lemma mrun_app ls s ls' s' :
  mrun n horizon ls s → mtrace n horizon s ls' s' → mrun n horizon (ls ++ ls') s'.
Proof. intros (gap & Hg & Htr) Htr'. exists gap. split; [done|by eapply mtrace_app]. Qed.

(** The time of a run does not go back. *)
Lemma mrun_time_nonneg ls s : mrun n horizon ls s → (0 ≤ m_t s)%Z ∧ clock_ok s.
Proof.
  revert ls s. apply mrun_ind_inv.
  - intros gap Hg. split; [done|by apply minit_clock].
  - intros ls s l s' _ [Ht Hc] Hst. split; [|by eapply mstep_clock].
    pose proof (mstep_clock_mono _ _ _ _ _ Hc Hst). lia.
Qed.

(** A client is sent back to the first station only from a station that
    is neither the first nor the last. *)
Lemma mstep_recycle_station l s s' :
  shape_ok n s → mstep n horizon l s s' → is_recycle l → 3 ≤ n.
Proof.
  intros [_ _ _ _ Hsv] Hst Hl. unfold is_recycle in Hl.
  inv_mstep Hst; try done.
  match goal with Ht : takes _ _ _ |- _ =>
    destruct (takes_Forall _ _ _ _ Ht Hsv) as [Hi _] end.
  ev_simpl. simplify_eq. lia.
Qed.

Lemma mrun_no_recycle ls s : 0 < n → n ≤ 2 → mrun n horizon ls s → recycled ls = 0.
Proof.
  intros Hn Hn2. revert ls s. apply mrun_ind_inv; [done|].
  intros ls s l s' [Hsh _ _ _ _]%(mrun_minv n horizon Hn) IH Hst.
  rewrite recycled_snoc, IH. case_decide as Hl; [|done].
  pose proof (mstep_recycle_station _ _ _ Hsh Hst Hl). lia.
Qed.

(** Per station and client: no more completions than service starts, and
    no more service starts than entries in the queue. *)
Lemma tables_ordered ls s i c :
  minv n ls s →
  length (trace_get (m_d s) i c) ≤ length (trace_get (m_a s) i c) ∧
  length (trace_get (m_a s) i c) ≤ length (trace_get (m_q s) i c).
Proof.
  intros [[_ _ _ Hlq Hsv] Hst Hta _ _]. destruct (Hta i c) as [Hq Ha]. split; [lia|].
  destruct (m_queue s !! i) as [queue_i|] eqn:Hi.
  - pose proof (station_finish_count _ _ _ c (Hst _ _ Hi)).
    rewrite (list_lookup_total_correct _ _ _ Hi) in Hq. lia.
  - apply lookup_ge_None in Hi. rewrite count_if_none in Ha; [lia|].
    eapply Forall_impl; [done|]. intros x Hx [Hs _]. simpl in *. lia.
Qed.
End run_consequences.

(** ** Termination: the weight of a state *)

#[export] Instance pending_weight_perm n horizon :
  Proper ((≡ₚ) ==> (=)) (pending_weight n horizon).
Proof. apply sum_list_with_Permutation_proper. Qed.

Section weight.
Context (n : nat) (horizon : Z).
Implicit Types (x : event) (q : list nat).

Lemma pending_weight_cons x pend :
  pending_weight n horizon (x :: pend) =
  event_weight n horizon x + pending_weight n horizon pend.
Proof. done. Qed.

Lemma pending_weight_app pend1 pend2 :
  pending_weight n horizon (pend1 ++ pend2) =
  pending_weight n horizon pend1 + pending_weight n horizon pend2.
Proof. apply sum_list_with_app. Qed.

Lemma sum_imap_insert {A} (f : nat → A → nat) (k : list A) i (a b : A) :
  k !! i = Some a →
  sum_list (imap f (<[i:=b]> k)) + f i a = sum_list (imap f k) + f i b.
Proof.
  revert f i. induction k as [|a0 k IH]; intros f [|i] Hi; simplify_eq/=; [lia|].
  specialize (IH (f ∘ S) i Hi). simpl in IH. lia.
Qed.

Lemma queues_weight_insert queue i q q' :
  queue !! i = Some q →
  queues_weight n (<[i:=q']> queue) + queue_weight n i q =
  queues_weight n queue + queue_weight n i q'.
Proof. apply sum_imap_insert. Qed.

(** Joining a queue costs the weight of a service start, whether the
    service starts now or the client waits. *)
Lemma join_weight t c i q :
  pending_weight n horizon (start_if_idle t c i q) + queue_weight n i (q ++ [c]) =
  queue_weight n i q + (station_weight n i - 1).
Proof.
  unfold queue_weight, pending_weight. rewrite length_app.
  destruct q as [|c0 q]; simpl; generalize (station_weight n i - 1); intros w; lia.
Qed.

(** Leaving a queue is free: the wait of the next client becomes a service
    start. *)
Lemma leave_weight t i q :
  pending_weight n horizon (start_next t i (tail q)) + queue_weight n i (tail q) =
  queue_weight n i q.
Proof.
  unfold queue_weight, pending_weight.
  destruct q as [|c0 [|c1 q]]; simpl; generalize (station_weight n i - 1); intros w; lia.
Qed.

(** An admission weighs more than the service it starts and the arrival
    it schedules, when that arrival is later. *)
Lemma external_weight t gap :
  0 < n →
  progress_label
    (Asigned t 0 0 (if decide (t + gap < horizon)%Z then Some (t + gap)%Z else None)) →
  station_weight n 0 - 1 +
  pending_weight n horizon
    (if decide (t + gap < horizon)%Z then [((t + gap)%Z, (ASIGNED, 0, 0))] else [])
  < event_weight n horizon (t, (ASIGNED, 0, 0)).
Proof.
  intros Hn. unfold pending_weight, event_weight. simpl.
  assert (3 ≤ station_weight n 0) as Hw by (unfold station_weight; lia).
  case_decide; simpl; intros Ht; [|nia].
  assert (Z.to_nat (horizon - (t + gap)) + 1 ≤ Z.to_nat (horizon - t)) by lia. nia.
Qed.

End weight.

(** The change of the weight of the queues at a step that replaces one. *)
Ltac weigh_queue :=
  match goal with
  | Hq : m_queue _ !! _ = Some _ |- context [queues_weight ?n (<[_:=?q']> _)] =>
      pose proof (queues_weight_insert n _ _ _ q' Hq)
  end.

(** A step that makes progress lowers the weight. *)
Lemma mstep_weight n horizon l s s' :
  0 < n → shape_ok n s → mstep n horizon l s s' → progress_label l →
  weight n horizon s' < weight n horizon s.
Proof.
  intros Hn [_ _ _ _ Hsv] Hst Hl. unfold weight.
  inv_mstep Hst;
    match goal with Ht : takes _ _ _ |- _ =>
      destruct (takes_Forall _ _ _ _ Ht Hsv) as [Hi _]; destruct Ht as [Hp _] end;
    match goal with Hp' : ?p ≡ₚ _ |- context [?p] => is_var p; rewrite Hp'; clear Hp' end;
    rewrite Hp, ?pending_weight_app, ?pending_weight_cons; ev_simpl; try weigh_queue.
  - pose proof (join_weight n horizon t (m_n_a s) 0 queue_0).
    pose proof (external_weight n horizon t gap Hn Hl). simpl in *. lia.
  - pose proof (join_weight n horizon t c i queue_i).
    rewrite bool_decide_false by done. unfold station_weight in *. lia.
  - unfold station_weight. lia.
  - pose proof (leave_weight (i + 1) horizon t i queue_i). unfold station_weight in *. lia.
  - pose proof (leave_weight n horizon t i queue_i). subst next.
    rewrite bool_decide_false by lia. unfold station_weight in *. lia.
Qed.

Section initial_weight.
Context (n : nat) (horizon : Z).

Lemma queues_weight_replicate k : queues_weight n (replicate k []) = 0.
Proof.
  unfold queues_weight.
  assert (∀ i, queue_weight n i [] = 0) as Hf by done. revert Hf.
  generalize (queue_weight n).
  induction k as [|k IH]; intros f Hf; simpl; [done|].
  rewrite Hf, (IH (f ∘ S)); [done|]. intros i. apply Hf.
Qed.

(** The weight of the initial state: one admission per time unit of the
    horizon, and one more, each of three events per station. *)
Lemma minit_weight gap :
  (0 ≤ gap)%Z → weight n horizon (minit n gap) ≤ (Z.to_nat horizon + 1) * (3 * n).
Proof.
  intros Hg. unfold weight, minit, pending_weight. simpl.
  rewrite queues_weight_replicate. unfold station_weight. nia.
Qed.
End initial_weight.
