(* ===== verification/Engine.v ===== *)
(** * Engine: one run of the discrete-event simulation

    The model of [servers_simulation] of [src/sim.ipynb]: the local
    variables of the function are the fields of [state], the arguments are
    the fields of [config], each branch of the dispatch is a handler
    ([on_asigned], [on_arrival], [on_finish]), one iteration of the [while]
    loop is [loop_body] and its test is [loop_cond].  The random draws are
    taken from the oracle of [Rng] at the cursor [st_rng]; the pending
    events live in a queue that satisfies the contract of [PriorityQueue].

    [step] and [reachable] present the loop as a transition system; the
    invariants of the run are proved over [reachable] in [Correctness],
    through the refinement of [Refinement]. *)

From Stdlib Require Import ZArith QArith Lia.
From stdpp Require Import gmap list.
From S2P Require Import Prelude Rng PriorityQueue Events Machine.


(** The arguments of [servers_simulation]. *)
Record config : Type := Config {
  arg_time : Z;
  arg_n : Z;
  arg_lambda_arrival_time : Q;
  arg_mu_wait_time : list Q;
  arg_p : list Q;
  arg_finish : bool;
}.

(** [range(n)]: the stations of the network. *)
Abbreviation stations cfg := (Z.to_nat (arg_n cfg)).

Section engine.
Context {R : RandomSource} {PQ : PriorityQueue event}.

(** The local variables of [servers_simulation], and the cursor of the
    random generator. *)
Record state : Type := State {
  st_t : Z;
  st_events : pq PQ;
  st_n_a : nat;
  st_n_d : nat;
  st_a : trace;
  st_q : trace;
  st_d : trace;
  st_queue : list (list nat);
  st_rng : nat;
}.

(** The value returned: [(t, n, n_a, n_d, q, a, d)]. *)
Definition output : Type := Z * Z * nat * nat * trace * trace * trace.

(** [x_t = x[i].get(c, list()); x_t.append(t); x[i][c] = x_t] *)
Definition record_time (x : trace) (i c : nat) (t : Z) : result trace :=
  x_i ← py_index x i;
  let x_t := dict_get x_i c [] ++ [t] in
  Ok (<[i := <[c := x_t]> x_i]> x).

(** The initialisation, up to the arrival of the first client. *)
Definition init_state (cfg : config) (k : nat) : result state :=
  let t := 0%Z in
  let n := Z.to_nat (arg_n cfg) in
  '(gap, k') ← random_expovariate k (arg_lambda_arrival_time cfg);
  Ok {| st_t := t;
        st_events := pq_put ((t + gap)%Z, (ASIGNED, 0, 0)) pq_new;
        st_n_a := 0;
        st_n_d := 0;
        st_a := replicate n ∅;
        st_q := replicate n ∅;
        st_d := replicate n ∅;
        st_queue := replicate n [];
        st_rng := k' |}.

(** [e == EventType.ASIGNED]: client [c] joins the queue of station [i]. *)
Definition on_asigned (cfg : config) (st : state) (t : Z) (c i : nat) : result state :=
  let index := if bool_decide (i ≠ 0) then c else st_n_a st in
  q' ← record_time (st_q st) i index t;
  queue_i ← py_index (st_queue st) i;
  let events1 :=
    if bool_decide (length queue_i = 0)
    then pq_put (t, (ARRIVAL, index, i)) (st_events st)
    else st_events st in
  let queue' := <[i := queue_i ++ [index]]> (st_queue st) in
  if bool_decide (i = 0) then
    '(t_next_a, k') ← random_expovariate (st_rng st) (arg_lambda_arrival_time cfg);
    let events2 :=
      if bool_decide (t + t_next_a < arg_time cfg)%Z
      then pq_put ((t + t_next_a)%Z, (ASIGNED, 0, 0)) events1
      else events1 in
    Ok {| st_t := t; st_events := events2;
          st_n_a := st_n_a st + 1; st_n_d := st_n_d st;
          st_a := st_a st; st_q := q'; st_d := st_d st;
          st_queue := queue'; st_rng := k' |}
  else
    Ok {| st_t := t; st_events := events1;
          st_n_a := st_n_a st; st_n_d := st_n_d st;
          st_a := st_a st; st_q := q'; st_d := st_d st;
          st_queue := queue'; st_rng := st_rng st |}.

(** [e == EventType.ARRIVAL]: client [c] starts service at station [i]. *)
Definition on_arrival (cfg : config) (st : state) (t : Z) (c i : nat) : result state :=
  a' ← record_time (st_a st) i c t;
  mu ← py_index (arg_mu_wait_time cfg) i;
  '(duration, k') ← random_expovariate (st_rng st) mu;
  Ok {| st_t := t;
        st_events := pq_put ((t + duration)%Z, (FINISH, c, i)) (st_events st);
        st_n_a := st_n_a st; st_n_d := st_n_d st;
        st_a := a'; st_q := st_q st; st_d := st_d st;
        st_queue := st_queue st; st_rng := k' |}.

(** The station a client goes to after station [i]:
    [i+1 if i == 0 or random.uniform(0,1) > p[i] else random.choice(range(i))]. *)
Definition next_server (cfg : config) (k : nat) (i : nat) : result (nat * nat) :=
  if bool_decide (i = 0) then Ok (i + 1, k)
  else
    '(u, k1) ← random_uniform k [0%Q; 1%Q];
    p_i ← py_index (arg_p cfg) i;
    if Qltb p_i u then Ok (i + 1, k1)
    else random_choice k1 (seq 0 i).

(** [e == EventType.FINISH]: client [c] ends service at station [i]. *)
Definition on_finish (cfg : config) (st : state) (t : Z) (c i : nat) : result state :=
  queue_i ← py_index (st_queue st) i;
  let queue_i1 := if bool_decide (0 < length queue_i) then tail queue_i else queue_i in
  let queue' := <[i := queue_i1]> (st_queue st) in
  let events1 :=
    match queue_i1 with
    | c' :: _ => pq_put (t, (ARRIVAL, c', i)) (st_events st)
    | [] => st_events st
    end in
  d' ← record_time (st_d st) i c t;
  if bool_decide (Z.of_nat i = arg_n cfg - 1)%Z then
    Ok {| st_t := t; st_events := events1;
          st_n_a := st_n_a st; st_n_d := st_n_d st + 1;
          st_a := st_a st; st_q := st_q st; st_d := d';
          st_queue := queue'; st_rng := st_rng st |}
  else
    '(next, k') ← next_server cfg (st_rng st) i;
    Ok {| st_t := t; st_events := pq_put (t, (ASIGNED, c, next)) events1;
          st_n_a := st_n_a st; st_n_d := st_n_d st;
          st_a := st_a st; st_q := st_q st; st_d := d';
          st_queue := queue'; st_rng := k' |}.

(** The dispatch on the kind of the event. *)
Definition dispatch (cfg : config) (st : state) (x : event) : result state :=
  let '(t, (e, c, i)) := x in
  match e with
  | ASIGNED => on_asigned cfg st t c i
  | ARRIVAL => on_arrival cfg st t c i
  | FINISH => on_finish cfg st t c i
  end.

(** [(finish or t < time) and not events.empty()] *)
Definition loop_cond (cfg : config) (st : state) : bool :=
  (arg_finish cfg || bool_decide (st_t st < arg_time cfg)%Z) && negb (pq_empty (st_events st)).

(** [st] with the event clock replaced. *)
Definition with_events (st : state) (ev : pq PQ) : state :=
  {| st_t := st_t st; st_events := ev;
     st_n_a := st_n_a st; st_n_d := st_n_d st;
     st_a := st_a st; st_q := st_q st; st_d := st_d st;
     st_queue := st_queue st; st_rng := st_rng st |}.

(** One iteration: [(t, (e, c, i)) = events.get()], then the dispatch. *)
Definition loop_body (cfg : config) (st : state) : result state :=
  '(x, events') ← pq_get (st_events st);
  dispatch cfg (with_events st events') x.

Definition state_output (cfg : config) (st : state) : output :=
  (st_t st, arg_n cfg, st_n_a st, st_n_d st, st_q st, st_a st, st_d st).

(** The loop of [servers_simulation] from the state [st]. *)
Definition run (cfg : config) (fuel : nat) (st : state) : loop_result state :=
  while_loop (loop_cond cfg) (loop_body cfg) fuel st.

(** [servers_simulation(time, n, lambda_arrival_time, mu_wait_time, p, finish)],
    with the generator at draw [k]; returns the output and the cursor. *)
Definition servers_simulation (cfg : config) (k : nat) (fuel : nat) : loop_result (output * nat) :=
  st0 ← lift_result (init_state cfg k);
  st ← run cfg fuel st0;
  mret (state_output cfg st, st_rng st).

(** ** The run as a transition system *)

Inductive step (cfg : config) : state → state → Prop :=
  | step_event st st' :
      loop_cond cfg st = true → loop_body cfg st = Ok st' → step cfg st st'.

Inductive reachable (cfg : config) (k : nat) : state → Prop :=
  | reachable_init st :
      init_state cfg k = Ok st → reachable cfg k st
  | reachable_step st st' :
      reachable cfg k st → step cfg st st' → reachable cfg k st'.

(** ** Configurations the simulation accepts *)

(** At least one station, positive rates, one rate and one feedback
    probability in [[0,1]] per station. *)
Definition valid_config (cfg : config) : Prop :=
  (1 ≤ arg_n cfg)%Z ∧
  (0 < arg_lambda_arrival_time cfg)%Q ∧
  length (arg_mu_wait_time cfg) = Z.to_nat (arg_n cfg) ∧
  Forall (λ mu, 0 < mu)%Q (arg_mu_wait_time cfg) ∧
  length (arg_p cfg) = Z.to_nat (arg_n cfg) ∧
  Forall (λ p_i, 0 <= p_i <= 1)%Q (arg_p cfg).
End engine.

Arguments state {PQ}.
Arguments State {PQ}.
