(* ===== verification/Experiments.v ===== *)
(** * Experiments: the configurations the notebook runs

    The six experiments of [src/sim.ipynb] call [run_simulation] with the
    arguments below (the horizon is 5000 time units, the arrival rate 1/7,
    [finish] is set).  The rates and probabilities are the literals of the
    calls; the float [0.1] is the rational [1/10].  [at_horizon] is the
    same configuration with another horizon; the concrete runs of the
    development use it to keep the runs short. *)

From Stdlib Require Import ZArith QArith.
From stdpp Require Import list.
From S2P Require Import Prelude Engine.

(** [run_simulation(5000, 1, 1/7, [1/4], [0], True)] *)
Definition experiment_1 : config :=
  {| arg_time := 5000; arg_n := 1; arg_lambda_arrival_time := 1 # 7;
     arg_mu_wait_time := [1 # 4]%Q; arg_p := [0]%Q; arg_finish := true |}.

(** [run_simulation(5000, 1, 1/7, [1/2], [0], True)] *)
Definition experiment_2 : config :=
  {| arg_time := 5000; arg_n := 1; arg_lambda_arrival_time := 1 # 7;
     arg_mu_wait_time := [1 # 2]%Q; arg_p := [0]%Q; arg_finish := true |}.

(** [run_simulation(5000, 1, 1/7, [1], [0], True)] *)
Definition experiment_3 : config :=
  {| arg_time := 5000; arg_n := 1; arg_lambda_arrival_time := 1 # 7;
     arg_mu_wait_time := [1]%Q; arg_p := [0]%Q; arg_finish := true |}.

(** [run_simulation(5000, 3, 1/7, [1/4, 1/2, 1], [0, 0, 0], True)] *)
Definition experiment_4 : config :=
  {| arg_time := 5000; arg_n := 3; arg_lambda_arrival_time := 1 # 7;
     arg_mu_wait_time := [1 # 4; 1 # 2; 1]%Q; arg_p := [0; 0; 0]%Q;
     arg_finish := true |}.

(** [run_simulation(5000, 3, 1/7, [1, 1/2, 1/4], [0, 0, 0], True)] *)
Definition experiment_5 : config :=
  {| arg_time := 5000; arg_n := 3; arg_lambda_arrival_time := 1 # 7;
     arg_mu_wait_time := [1; 1 # 2; 1 # 4]%Q; arg_p := [0; 0; 0]%Q;
     arg_finish := true |}.

(** [run_simulation(5000, 3, 1/7, [1/4, 1/2, 1], [0, 0.1, 0.1], True)] *)
Definition experiment_6 : config :=
  {| arg_time := 5000; arg_n := 3; arg_lambda_arrival_time := 1 # 7;
     arg_mu_wait_time := [1 # 4; 1 # 2; 1]%Q; arg_p := [0; 1 # 10; 1 # 10]%Q;
     arg_finish := true |}.

Definition experiments : list config :=
  [experiment_1; experiment_2; experiment_3; experiment_4; experiment_5; experiment_6].

(** [cfg] with the horizon [time]. *)
Definition at_horizon (time : Z) (cfg : config) : config :=
  {| arg_time := time; arg_n := arg_n cfg;
     arg_lambda_arrival_time := arg_lambda_arrival_time cfg;
     arg_mu_wait_time := arg_mu_wait_time cfg; arg_p := arg_p cfg;
     arg_finish := arg_finish cfg |}.

(** * Lemmas *)

Lemma at_horizon_valid time cfg : valid_config cfg → valid_config (at_horizon time cfg).
Proof. done. Qed.

(** Every experiment runs a configuration the simulation accepts. *)
Lemma experiments_valid : Forall valid_config experiments.
Proof. repeat constructor; simpl; done. Qed.

Lemma experiment_1_valid time : valid_config (at_horizon time experiment_1).
Proof. repeat split; simpl; try done; repeat constructor; done. Qed.

Lemma experiment_6_valid time : valid_config (at_horizon time experiment_6).
Proof. repeat split; simpl; try done; repeat constructor; done. Qed.
