(* ===== verification/Refinement.v ===== *)
(** * Refinement: the loop of [servers_simulation] implements the machine

    [abs] maps a state of the engine to a state of the machine of
    [Machine]: the fields are kept, the event clock is abstracted to its
    items.  Under a valid configuration, lawful draws and a queue that
    meets the contract of [PriorityQueue]:

    - the initialisation produces the initial state of the machine
      ([init_state_refines]);
    - every iteration of the loop is a step of the machine
      ([on_asigned_refines], [on_arrival_refines], [on_finish_refines],
      [loop_body_refines]), labelled by [step_label];
    - a run of the loop is a run of the machine with the labels
      [run_labels] ([run_refines]);
    - no handler fails in a state of the right shape ([loop_body_safe]).

    [event_label], [step_label], [run_labels] and [simulation_labels] are
    the observation of a run: they compute, from the states of the engine,
    what each iteration did.  They do not model code. *)

From Stdlib Require Import ZArith QArith Lia.
From stdpp Require Import gmap list.
From S2P Require Import Prelude Rng PriorityQueue Events Machine Engine.

(** * The abstraction and the observation of a run *)

Section observation.
Context {R : RandomSource} {PQ : PriorityQueue event}.

(** The abstraction: the fields of the state, and the items of the event
    clock as the pending events. *)
Definition abs (st : state) : mstate :=
  {| m_t := st_t st; m_pending := pq_items (st_events st);
     m_n_a := st_n_a st; m_n_d := st_n_d st;
     m_q := st_q st; m_a := st_a st; m_d := st_d st;
     m_queue := st_queue st |}.

(** The label of the step that processes the event [x] in the state [st]. *)
Definition event_label (cfg : config) (st : state) (x : event) : result label :=
  let '(t, (e, c, i)) := x in
  match e with
  | ASIGNED =>
      if bool_decide (i = 0) then
        '(gap, _) ← random_expovariate (st_rng st) (arg_lambda_arrival_time cfg);
        Ok (Asigned t (st_n_a st) i
              (if decide (t + gap < arg_time cfg)%Z then Some (t + gap)%Z else None))
      else Ok (Asigned t c i None)
  | ARRIVAL => Ok (Arrival t c i)
  | FINISH =>
      if bool_decide (Z.of_nat i = arg_n cfg - 1)%Z then Ok (Finish t c i None)
      else '(next, _) ← next_server cfg (st_rng st) i; Ok (Finish t c i (Some next))
  end.

(** The label of the iteration the loop runs from [st]. *)
Definition step_label (cfg : config) (st : state) : result label :=
  '(x, _) ← pq_get (st_events st);
  event_label cfg st x.

(** The labels of the iterations of [run]. *)
Fixpoint run_labels (cfg : config) (fuel : nat) (st : state) : list label :=
  if loop_cond cfg st then
    match fuel with
    | O => []
    | S fuel' =>
        match loop_body cfg st, step_label cfg st with
        | Ok st', Ok l => l :: run_labels cfg fuel' st'
        | _, _ => []
        end
    end
  else [].

(** The labels of the iterations of [servers_simulation]. *)
Definition simulation_labels (cfg : config) (k fuel : nat) : list label :=
  match init_state cfg k with
  | Ok st0 => run_labels cfg fuel st0
  | Raise _ => []
  end.
End observation.

(** * Lemmas on the tables *)

Lemma record_time_Ok x i c t x' :
  record_time x i c t = Ok x' ↔ i < length x ∧ x' = add_time x i c t.
Proof.
  unfold record_time, add_time. rewrite bind_Ok. setoid_rewrite py_index_Ok.
  split.
  - intros (x_i & Hi & [= <-]). split; [by eapply lookup_lt_Some|].
    rewrite list_insert_alter. by apply list_alter_ext; [intros ? [= <-]%(eq_trans (eq_sym Hi))|].
  - intros [[x_i Hi]%lookup_lt_is_Some ->]. exists x_i. split; [done|]. f_equal.
    rewrite list_insert_alter. by apply list_alter_ext; [intros ? [= <-]%(eq_trans (eq_sym Hi))|].
Qed.

Lemma record_time_is_Ok x i c t : i < length x → is_Ok (record_time x i c t).
Proof. intros Hi. exists (add_time x i c t). by apply record_time_Ok. Qed.

Section refinement.
Context {R : RandomSource} `{!RandomSourceLaws R}.
Context {PQ : PriorityQueue event} `{!PriorityQueueLaws event_lt PQ}.

Lemma next_server_range cfg k i next k' :
  next_server cfg k i = Ok (next, k') → next = i + 1 ∨ (0 < i ∧ next < i).
Proof.
  unfold next_server, random_uniform, random_choice. intros H.
  case_bool_decide; [simplify_eq; by left|].
  simplify_result. destruct (Qltb _ _); [simplify_eq; by left|].
  destruct (seq 0 i) eqn:Hs; [done|]. rewrite <- Hs in *.
  simplify_result. right. split; [lia|].
  match goal with H : py_index _ _ = Ok _ |- _ => apply py_index_Ok, lookup_seq in H end. lia.
Qed.

Lemma items_put_if (b : bool) x ev :
  pq_wf ev →
  pq_wf (if b then pq_put x ev else ev) ∧
  pq_items (if b then pq_put x ev else ev) ≡ₚ (if b then [x] else []) ++ pq_items ev.
Proof.
  intros Hwf. destruct b; [|done].
  split; [by apply (pq_wf_put (ltb:=event_lt))|by apply (pq_items_put (ltb:=event_lt))].
Qed.

Lemma start_if_idle_if t c i (queue_i : list nat) :
  start_if_idle t c i queue_i =
  if bool_decide (length queue_i = 0) then [(t, (ARRIVAL, c, i))] else [].
Proof. by destruct queue_i. Qed.

Section handlers.
Context (cfg : config) (Hcfg : valid_config cfg).

Lemma last_station i : (Z.of_nat i = arg_n cfg - 1)%Z ↔ i + 1 = stations cfg.
Proof. destruct Hcfg as [? _]. lia. Qed.

Lemma lambda_gap k gap k' :
  random_expovariate k (arg_lambda_arrival_time cfg) = Ok (gap, k') → (0 ≤ gap)%Z.
Proof.
  intros (_ & -> & _)%random_expovariate_Ok.
  apply rnd_expovariate_nonneg, Hcfg.
Qed.

Lemma mu_duration i mu k duration k' :
  arg_mu_wait_time cfg !! i = Some mu →
  random_expovariate k mu = Ok (duration, k') → (0 ≤ duration)%Z.
Proof.
  destruct Hcfg as (_ & _ & _ & Hmu & _). rewrite Forall_lookup in Hmu.
  intros Hi%Hmu (_ & -> & _)%random_expovariate_Ok. by apply rnd_expovariate_nonneg.
Qed.

Lemma on_asigned_refines st ev t c i st' :
  pq_wf ev → takes (abs st) (t, (ASIGNED, c, i)) (pq_items ev) →
  on_asigned cfg (with_events st ev) t c i = Ok st' →
  ∃ l, event_label cfg st (t, (ASIGNED, c, i)) = Ok l ∧
       mstep (stations cfg) (arg_time cfg) l (abs st) (abs st') ∧ pq_wf (st_events st').
Proof.
  intros Hwf Ht Hon. unfold on_asigned in Hon; simpl in Hon.
  apply bind_Ok in Hon as (q' & [Hi ->]%record_time_Ok & Hon).
  apply bind_Ok in Hon as (queue_i & Hq%py_index_Ok & Hon).
  unfold event_label. destruct (decide (i = 0)) as [->|Hne].
  - rewrite (bool_decide_false (0 ≠ 0)), (bool_decide_true (0 = 0)) in * by naive_solver.
    apply bind_Ok in Hon as ([gap k'] & Hgap & [= <-]). rewrite Hgap. simpl.
    destruct (items_put_if (bool_decide (length queue_i = 0)) (t, (ARRIVAL, st_n_a st, 0)) ev Hwf)
      as [Hwf1 Hp1].
    destruct (items_put_if (bool_decide (t + gap < arg_time cfg)%Z)
                ((t + gap)%Z, (ASIGNED, 0, 0)) _ Hwf1) as [Hwf2 Hp2].
    eexists. split; [done|]. split; [|done].
    apply (mstep_external (stations cfg) (arg_time cfg) (abs st) t c (pq_items ev) queue_i gap);
      [done|done|by eapply lambda_gap|]. simpl.
    rewrite Hp2, Hp1, start_if_idle_if.
    repeat case_bool_decide; case_decide; try done; apply Permutation_swap.
  - rewrite (bool_decide_true (i ≠ 0)), (bool_decide_false (i = 0)) in * by done. simplify_eq.
    destruct (items_put_if (bool_decide (length queue_i = 0)) (t, (ARRIVAL, c, i)) ev Hwf)
      as [Hwf1 Hp1].
    eexists. split; [done|]. split; [|done].
    apply (mstep_internal (stations cfg) (arg_time cfg) (abs st) t c i (pq_items ev) queue_i);
      [done..|].
    simpl. by rewrite Hp1, start_if_idle_if.
Qed.

Lemma on_arrival_refines st ev t c i st' :
  pq_wf ev → takes (abs st) (t, (ARRIVAL, c, i)) (pq_items ev) →
  on_arrival cfg (with_events st ev) t c i = Ok st' →
  ∃ l, event_label cfg st (t, (ARRIVAL, c, i)) = Ok l ∧
       mstep (stations cfg) (arg_time cfg) l (abs st) (abs st') ∧ pq_wf (st_events st').
Proof.
  intros Hwf Ht Hon. unfold on_arrival in Hon; simpl in Hon.
  apply bind_Ok in Hon as (a' & [Hi ->]%record_time_Ok & Hon).
  apply bind_Ok in Hon as (mu & Hmu%py_index_Ok & Hon).
  apply bind_Ok in Hon as ([duration k'] & Hd & [= <-]).
  eexists. split; [done|]. simpl.
  split; [|by apply (pq_wf_put (ltb:=event_lt))].
  apply (mstep_arrival (stations cfg) (arg_time cfg) (abs st) t c i (pq_items ev) duration);
    [done|by eapply mu_duration|].
  by apply (pq_items_put (ltb:=event_lt)).
Qed.

Lemma items_start_next ev t i (queue_i : list nat) :
  pq_wf ev →
  let ev1 := match queue_i with
             | c' :: _ => pq_put (t, (ARRIVAL, c', i)) ev
             | [] => ev
             end in
  pq_wf ev1 ∧ pq_items ev1 ≡ₚ start_next t i queue_i ++ pq_items ev.
Proof.
  intros Hwf. destruct queue_i as [|c' ?]; simpl; [done|].
  split; [by apply (pq_wf_put (ltb:=event_lt))|by apply (pq_items_put (ltb:=event_lt))].
Qed.

Lemma pop_tail (q : list nat) :
  (if bool_decide (0 < length q) then tail q else q) = tail q.
Proof. by destruct q. Qed.

Lemma on_finish_refines st ev t c i st' :
  pq_wf ev → takes (abs st) (t, (FINISH, c, i)) (pq_items ev) →
  on_finish cfg (with_events st ev) t c i = Ok st' →
  ∃ l, event_label cfg st (t, (FINISH, c, i)) = Ok l ∧
       mstep (stations cfg) (arg_time cfg) l (abs st) (abs st') ∧ pq_wf (st_events st').
Proof.
  intros Hwf Ht Hon. unfold on_finish in Hon; simpl in Hon.
  apply bind_Ok in Hon as (queue_i & Hq%py_index_Ok & Hon). rewrite !pop_tail in Hon.
  apply bind_Ok in Hon as (d' & [Hi ->]%record_time_Ok & Hon).
  destruct (items_start_next ev t i (tail queue_i) Hwf) as [Hwf1 Hp1].
  unfold event_label. case_bool_decide as Hlast.
  - simplify_eq. eexists. split; [done|]. split; [|done].
    apply (mstep_last (stations cfg) (arg_time cfg) (abs st) t c i (pq_items ev) queue_i); [done|by apply last_station|done..].
  - apply bind_Ok in Hon as ([next k'] & Hnext & [= <-]). rewrite Hnext. simpl.
    eexists. split; [done|]. simpl. split; [|by apply (pq_wf_put (ltb:=event_lt))].
    apply (mstep_route (stations cfg) (arg_time cfg) (abs st) t c i (pq_items ev) queue_i next);
      [done|by rewrite <- last_station|done|by eapply next_server_range|].
    simpl. rewrite (pq_items_put (ltb:=event_lt)), Hp1 by done. apply Permutation_middle.
Qed.

Lemma dispatch_refines st ev x st' :
  pq_wf ev → takes (abs st) x (pq_items ev) →
  dispatch cfg (with_events st ev) x = Ok st' →
  ∃ l, event_label cfg st x = Ok l ∧
       mstep (stations cfg) (arg_time cfg) l (abs st) (abs st') ∧ pq_wf (st_events st').
Proof.
  destruct x as [t [[[] c] i]]; simpl;
    [apply on_asigned_refines|apply on_arrival_refines|apply on_finish_refines].
Qed.

Lemma loop_body_refines st st' :
  pq_wf (st_events st) → loop_body cfg st = Ok st' →
  ∃ l, step_label cfg st = Ok l ∧
       mstep (stations cfg) (arg_time cfg) l (abs st) (abs st') ∧ pq_wf (st_events st').
Proof.
  intros Hwf ([x ev] & Hget & Hd)%bind_Ok.
  destruct (pq_get_Ok event_lt _ _ _ Hwf Hget) as (Hp & Hl & Hwf').
  destruct (dispatch_refines st ev x st') as (l & Hl' & Hst); [done..|].
  exists l. split; [|done]. unfold step_label. by rewrite Hget.
Qed.

Lemma init_state_refines k st :
  init_state cfg k = Ok st →
  ∃ gap, (0 ≤ gap)%Z ∧ abs st = minit (stations cfg) gap ∧ pq_wf (st_events st).
Proof.
  intros ([gap k'] & Hgap & [= <-])%bind_Ok. exists gap.
  pose proof (pq_wf_new (ltb:=event_lt)) as Hnew.
  split; [by eapply lambda_gap|]. split; [|by apply (pq_wf_put (ltb:=event_lt))].
  unfold abs, minit. simpl. f_equal. symmetry. apply Permutation_singleton_l.
  by rewrite (pq_items_put (ltb:=event_lt)), (pq_items_new (ltb:=event_lt)).
Qed.

Lemma run_refines fuel st st' :
  pq_wf (st_events st) → run cfg fuel st = Finished st' →
  mtrace (stations cfg) (arg_time cfg) (abs st) (run_labels cfg fuel st) (abs st') ∧
  pq_wf (st_events st') ∧ loop_cond cfg st' = false.
Proof.
  revert st. induction fuel as [|fuel IH]; intros st Hwf; unfold run; simpl;
    destruct (loop_cond cfg st) eqn:Hc; try done;
    try (intros [= <-]; split; [constructor|done]).
  destruct (loop_body cfg st) as [st1|] eqn:Hb; [|done].
  destruct (loop_body_refines st st1) as (l & -> & Hst & Hwf1); [done..|].
  intros (Htr & ?)%IH; [|done]. split; [|done]. by eapply mtrace_cons.
Qed.

(** ** The handlers do not fail *)

Lemma on_asigned_safe st t c i :
  i < length (st_q st) → i < length (st_queue st) → is_Ok (on_asigned cfg st t c i).
Proof.
  intros [q' Hq]%(record_time_is_Ok _ _ (if bool_decide (i ≠ 0) then c else st_n_a st) t).
  intros [queue_i Hi]%py_index_lt.
  unfold on_asigned. rewrite Hq, Hi. simpl.
  destruct (bool_decide (i = 0)); [|by eexists].
  rewrite random_expovariate_pos by apply Hcfg. by eexists.
Qed.

Lemma on_arrival_safe st t c i :
  i < length (st_a st) → i < stations cfg → is_Ok (on_arrival cfg st t c i).
Proof.
  destruct Hcfg as (_ & _ & Hlen & Hmu & _). rewrite Forall_lookup in Hmu.
  intros [a' Ha]%(record_time_is_Ok _ _ c t). rewrite <- Hlen.
  intros [mu Hi]%lookup_lt_is_Some.
  unfold on_arrival. rewrite Ha. simpl. rewrite (proj2 (py_index_Ok _ _ _) Hi). simpl.
  rewrite random_expovariate_pos by by eapply Hmu. by eexists.
Qed.

Lemma next_server_safe k i : i < stations cfg → is_Ok (next_server cfg k i).
Proof.
  destruct Hcfg as (_ & _ & _ & _ & Hlen & _). rewrite <- Hlen.
  intros [p_i Hi]%lookup_lt_is_Some. unfold next_server.
  destruct (decide (i = 0)) as [->|Hne]; [by eexists|]. rewrite bool_decide_false by done.
  simpl. rewrite (proj2 (py_index_Ok _ _ _) Hi). simpl.
  destruct (Qltb _ _); [by eexists|].
  destruct (random_choice_Ok (S k) (seq 0 i)) as (x & -> & _); [by destruct i|by eexists].
Qed.

Lemma on_finish_safe st t c i :
  i < length (st_d st) → i < length (st_queue st) → i < stations cfg → is_Ok (on_finish cfg st t c i).
Proof.
  intros [d' Hd]%(record_time_is_Ok _ _ c t) [queue_i Hi]%py_index_lt Hn.
  unfold on_finish. rewrite Hi. simpl. rewrite Hd. simpl.
  destruct (bool_decide (_ = _)%Z); [by eexists|].
  destruct (next_server_safe (st_rng st) i Hn) as [[next k'] ->]. by eexists.
Qed.

Lemma loop_body_safe st :
  pq_wf (st_events st) → shape_ok (stations cfg) (abs st) → loop_cond cfg st = true →
  is_Ok (loop_body cfg st).
Proof.
  intros Hwf [Hq Ha Hd Hqu Hsv] [_ He%negb_true_iff]%andb_true_iff. simpl in *.
  destruct (pq_get_nonempty event_lt _ Hwf He) as (x & ev & Hget).
  destruct (pq_get_Ok event_lt _ _ _ Hwf Hget) as (Hp & _).
  rewrite Hp, Forall_cons in Hsv. destruct Hsv as [Hx _].
  unfold loop_body. rewrite Hget. simpl.
  destruct x as [t [[[] c] i]]; ev_simpl;
    [apply on_asigned_safe|apply on_arrival_safe|apply on_finish_safe]; simpl; lia.
Qed.
End handlers.
End refinement.
