(* ===== verification/Correctness.v ===== *)
(** * Correctness: what a call of [servers_simulation] guarantees

    The theorems of this file are about the function of [Engine] as it is
    called: for a valid configuration, lawful draws and a queue that meets
    the contract, a call never raises ([servers_simulation_safe]), and a
    call that returns is a run of the machine of [Machine]
    ([servers_simulation_refines]), so the invariants of the machine hold
    of the tuple returned: departures are at most admissions, the network
    is empty when [finish] is set, the tables are ordered and have one
    entry per station.  The section [errors] states what the function does
    outside the valid configurations.

    The concrete runs at the end evaluate the function with the oracles of
    [Rng] and the sorted-list queue on the configurations of
    [Experiments]. *)

From Stdlib Require Import ZArith QArith Lia.
From stdpp Require Import gmap list.
From S2P Require Import Prelude Rng PriorityQueue Events Machine Engine Experiments Refinement.

(** The invariant of the loop: the event clock is well formed and the
    state is a state of a run of the machine. *)
Definition loop_inv {R : RandomSource} {PQ : PriorityQueue event}
    (cfg : config) (st : state) : Prop :=
  pq_wf (st_events st) ∧ mreachable (Z.to_nat (arg_n cfg)) (arg_time cfg) (abs st).

(** Draws scripted so that the first completions at the second station send
    their client back. *)
Definition feedback_source : RandomSource := tape_source [] (replicate 12 0%Q) [].

(** * Lemmas *)

Section correctness.
Context {R : RandomSource} `{!RandomSourceLaws R}.
Context {PQ : PriorityQueue event} `{!PriorityQueueLaws event_lt PQ}.
Context (cfg : config) (Hcfg : valid_config cfg).

Lemma stations_pos : 0 < stations cfg.
Proof. destruct Hcfg as [? _]. lia. Qed.

Lemma init_state_inv k st : init_state cfg k = Ok st → loop_inv cfg st.
Proof.
  intros (gap & Hg & Habs & Hwf)%init_state_refines; [|done]. split; [done|].
  exists []. rewrite Habs. by apply mrun_init.
Qed.

Lemma loop_body_inv st st' : loop_inv cfg st → loop_body cfg st = Ok st' → loop_inv cfg st'.
Proof.
  intros [Hwf [ls Hrun]] Hb.
  destruct (loop_body_refines cfg Hcfg st st') as (l & _ & Hst & Hwf'); [done..|].
  split; [done|]. exists (ls ++ [l]). by eapply mrun_snoc.
Qed.

Lemma loop_inv_safe st :
  loop_inv cfg st → loop_cond cfg st = true → is_Ok (loop_body cfg st).
Proof.
  intros [Hwf [ls Hrun]] Hc. apply loop_body_safe; [done..| |done].
  by apply (mrun_minv (stations cfg) (arg_time cfg) stations_pos) in Hrun as [].
Qed.

(** The invariant holds in every state the loop reaches. *)
Lemma reachable_inv k st : reachable cfg k st → loop_inv cfg st.
Proof.
  induction 1 as [st Hi|st st' _ IH Hst]; [by eapply init_state_inv|].
  destruct Hst. by eapply loop_body_inv.
Qed.

(** C6: in every state the loop of [servers_simulation] reaches, the
    invariant of the machine holds of the abstraction of the state: the
    tables have one entry per station, every station with a queue has
    exactly one pending service event, for the client at the head of its
    queue, the tables count the visits, no pending event is in the past,
    and the clients are conserved. *)
Theorem reachable_minv k st :
  reachable cfg k st → ∃ ls, minv (stations cfg) ls (abs st).
Proof.
  intros [_ [ls Hrun]]%reachable_inv. exists ls.
  by apply (mrun_minv (stations cfg) (arg_time cfg) stations_pos).
Qed.

(** The simulated time does not go back: an iteration of the loop from
    a reachable state ends at a time that is not before the time it
    started at. *)
Theorem step_time_mono k st st' :
  reachable cfg k st → step cfg st st' → (st_t st ≤ st_t st')%Z.
Proof.
  intros Hr Hstep. destruct Hstep as [st st' _ Hb].
  apply reachable_inv in Hr as [Hwf [ls [_ _ _ Hcl _]%(mrun_minv _ _ stations_pos)]].
  destruct (loop_body_refines cfg Hcfg st st') as (l & _ & Hst & _); [done..|].
  apply (mstep_clock_mono _ _ _ _ _ Hcl Hst).
Qed.

(** The call does not raise. *)
Lemma servers_simulation_safe_any k fuel e : servers_simulation cfg k fuel = Failed e → False.
Proof.
  unfold servers_simulation.
  destruct (init_state cfg k) as [st0|e0] eqn:Hi.
  - simpl. intros [Hr|(st & _ & ?)]%loop_bind_Failed; [|done].
    revert Hr. apply (while_loop_safe _ _ (loop_inv cfg)).
    + intros s1 s2 ? _. by apply loop_body_inv.
    + apply loop_inv_safe.
    + by eapply init_state_inv.
  - unfold init_state in Hi. rewrite random_expovariate_pos in Hi by apply Hcfg. done.
Qed.

(** C1: for a valid configuration (at least one station, positive rates,
    one rate and one probability per station), lawful draws and a lawful
    queue, a call of [servers_simulation] raises no exception, whatever
    the number of iterations it is allowed. *)
Theorem servers_simulation_safe k fuel e : servers_simulation cfg k fuel ≠ Failed e.
Proof. intros Hs. by eapply servers_simulation_safe_any. Qed.

(** With [finish] set the loop ends on an empty event clock. *)
Lemma loop_cond_drained st :
  arg_finish cfg = true → loop_cond cfg st = false → pq_wf (st_events st) →
  m_pending (abs st) = [].
Proof.
  intros Hf Hc Hwf. unfold loop_cond in Hc. rewrite Hf in Hc. simpl in Hc.
  by apply negb_false_iff, (pq_empty_items (ltb:=event_lt)) in Hc.
Qed.

(** A call that returns is a finished run of the machine, and the
    invariant of the machine holds of its last state. *)
Lemma servers_simulation_run k fuel out k' :
  servers_simulation cfg k fuel = Finished (out, k') →
  ∃ st, (out, k') = (state_output cfg st, st_rng st) ∧ loop_cond cfg st = false ∧
        pq_wf (st_events st) ∧
        mrun (stations cfg) (arg_time cfg) (simulation_labels cfg k fuel) (abs st) ∧
        minv (stations cfg) (simulation_labels cfg k fuel) (abs st).
Proof.
  unfold servers_simulation, simulation_labels.
  intros (st0 & Hi%lift_result_Finished &
          (st & Hrun & [= <- <-])%loop_bind_Finished)%loop_bind_Finished.
  rewrite Hi. destruct (init_state_refines cfg Hcfg k st0 Hi) as (gap & Hg & Habs & Hwf).
  destruct (run_refines cfg Hcfg fuel st0 st Hwf Hrun) as (Htr & Hwf' & Hc).
  rewrite Habs in Htr.
  assert (mrun (stations cfg) (arg_time cfg) (run_labels cfg fuel st0) (abs st)) as Hm
    by by apply (mrun_app _ _ [] (minit (stations cfg) gap)); [apply mrun_init|].
  exists st. split_and!; try done. by apply (mrun_minv (stations cfg) (arg_time cfg) stations_pos).
Qed.

(** C5: a call of [servers_simulation] that returns is a finished run of
    the abstract machine: the tuple returned is read off a state whose
    abstraction the machine reaches from its initial state by the steps
    labelled [simulation_labels], and in which the loop test fails. *)
Theorem servers_simulation_refines k fuel out k' :
  servers_simulation cfg k fuel = Finished (out, k') →
  ∃ st, out = state_output cfg st ∧ k' = st_rng st ∧ loop_cond cfg st = false ∧
        pq_wf (st_events st) ∧
        mrun (stations cfg) (arg_time cfg) (simulation_labels cfg k fuel) (abs st).
Proof.
  intros (st & [= -> ->] & ? & ? & ? & _)%servers_simulation_run. by exists st.
Qed.

(** In the tuple a call returns, the departures [n_d] are at most the
    admissions [n_a]. *)
Theorem servers_simulation_departures k fuel t n' n_a n_d q a d k' :
  servers_simulation cfg k fuel = Finished ((t, n', n_a, n_d, q, a, d), k') → n_d ≤ n_a.
Proof.
  intros (st & [= -> -> -> -> -> -> -> _] & _ & _ & _ & [_ _ _ _ Hc])%servers_simulation_run.
  unfold conserved in Hc. simpl in Hc. lia.
Qed.

(** With [finish] set the loop ends on an empty event clock, and so on an
    empty network. *)
Lemma servers_simulation_empty k fuel out k' :
  arg_finish cfg = true →
  servers_simulation cfg k fuel = Finished (out, k') →
  ∃ st, out = state_output cfg st ∧
        mrun (stations cfg) (arg_time cfg) (simulation_labels cfg k fuel) (abs st) ∧
        st_n_a st = st_n_d st + recycled (simulation_labels cfg k fuel).
Proof.
  intros Hf (st & [= -> _] & Hc & Hwf & Hrun & [_ Hst _ _ Hco])%servers_simulation_run.
  exists st. split_and!; try done. apply (loop_cond_drained st Hf) in Hc; [|done].
  unfold conserved in Hco. rewrite drained_in_system in Hco by done. simpl in Hco. lia.
Qed.

(** C2: with [finish] set, a call returns with an empty network: every
    admission is a departure or a completion that sent its client back to
    the first station (where it was admitted again, as a new client). *)
Theorem servers_simulation_drained k fuel t n' n_a n_d q a d k' :
  arg_finish cfg = true →
  servers_simulation cfg k fuel = Finished ((t, n', n_a, n_d, q, a, d), k') →
  n_a = n_d + recycled (simulation_labels cfg k fuel).
Proof.
  by intros Hf (st & [= -> -> -> -> -> -> ->] & _ & ?)%servers_simulation_empty.
Qed.

(** In a network of one or two stations nobody is sent back, so a call
    with [finish] set returns as many departures as admissions. *)
Theorem servers_simulation_balanced k fuel t n' n_a n_d q a d k' :
  (arg_n cfg ≤ 2)%Z → arg_finish cfg = true →
  servers_simulation cfg k fuel = Finished ((t, n', n_a, n_d, q, a, d), k') →
  n_a = n_d.
Proof.
  intros Hn Hf (st & [= -> -> -> -> -> -> ->] & Hrun & ->)%servers_simulation_empty; [|done].
  rewrite (mrun_no_recycle (stations cfg) (arg_time cfg) _ (abs st)); [lia|apply stations_pos|lia|done].
Qed.

(** In the tables a call returns, per station and client, the
    completion times are at most as many as the service-start times, which
    are at most as many as the queue-entry times. *)
Theorem servers_simulation_tables k fuel t n' n_a n_d q a d k' i c :
  servers_simulation cfg k fuel = Finished ((t, n', n_a, n_d, q, a, d), k') →
  length (trace_get d i c) ≤ length (trace_get a i c) ∧
  length (trace_get a i c) ≤ length (trace_get q i c).
Proof.
  intros (st & [= -> -> -> -> -> -> -> _] & _ & _ & _ & Hinv)%servers_simulation_run.
  apply (tables_ordered _ _ _ i c Hinv).
Qed.

(** A call returns the number of stations it was given, a time that is
    not negative, and tables with one entry per station. *)
Theorem servers_simulation_shape k fuel t n' n_a n_d q a d k' :
  servers_simulation cfg k fuel = Finished ((t, n', n_a, n_d, q, a, d), k') →
  n' = arg_n cfg ∧ (0 ≤ t)%Z ∧ length q = (stations cfg) ∧ length a = (stations cfg) ∧ length d = stations cfg.
Proof.
  intros (st & [= -> -> -> -> -> -> -> _] & _ & _ & [Ht _]%mrun_time_nonneg &
          [[] _ _ _ _])%servers_simulation_run.
  by split_and!.
Qed.
End correctness.

(** ** Outside the valid configurations *)

Section errors.
Context {R : RandomSource} {PQ : PriorityQueue event} `{!PriorityQueueLaws event_lt PQ}.

Lemma random_expovariate_nonzero k lambd :
  ¬ (lambd == 0)%Q → random_expovariate k lambd = Ok (rnd_expovariate k lambd, S k).
Proof. intros Hl. by apply random_expovariate_Ok. Qed.

(** An arrival rate of zero makes the first draw divide by zero: the
    call raises [ZeroDivisionError] before the loop. *)
Theorem servers_simulation_zero_rate cfg k fuel :
  (arg_lambda_arrival_time cfg == 0)%Q →
  servers_simulation cfg k fuel = Failed ZeroDivisionError.
Proof.
  intros Hl. unfold servers_simulation, init_state.
  by rewrite random_expovariate_zero.
Qed.

(** With [finish] unset and a horizon that is not positive the loop is not
    entered: the call returns time 0, no admission, no departure and empty
    tables, after one draw. *)
Lemma servers_simulation_closed cfg k fuel :
  arg_finish cfg = false → (arg_time cfg ≤ 0)%Z →
  ¬ (arg_lambda_arrival_time cfg == 0)%Q →
  let tables := replicate (Z.to_nat (arg_n cfg)) ∅ in
  servers_simulation cfg k fuel =
  Finished ((0%Z, arg_n cfg, 0, 0, tables, tables, tables), S k).
Proof.
  intros Hf Ht Hl. unfold servers_simulation, init_state.
  rewrite random_expovariate_nonzero by done. simpl.
  unfold run. rewrite while_loop_exit; [done|].
  unfold loop_cond. simpl. rewrite Hf, bool_decide_false by lia. done.
Qed.

(** The event clock after the initialisation holds the first arrival, and
    [get] returns it. *)
Lemma first_event_get (x : event) :
  pq_empty (pq_put x pq_new) = false ∧ ∃ ev, pq_get (pq_put x pq_new) = Ok (x, ev).
Proof.
  pose proof (pq_wf_new (ltb:=event_lt)) as Hnew.
  assert (pq_wf (pq_put x pq_new)) as Hwf by by apply (pq_wf_put (ltb:=event_lt)).
  assert (pq_items (pq_put x pq_new) = [x]) as Hx.
  { symmetry. apply Permutation_singleton_l.
    by rewrite (pq_items_put (ltb:=event_lt)), (pq_items_new (ltb:=event_lt)). }
  assert (pq_empty (pq_put x pq_new) = false) as He
    by by apply (pq_empty_false event_lt); [|rewrite Hx].
  split; [done|].
  destruct (pq_get_nonempty event_lt _ Hwf He) as (y & ev & Hget).
  destruct (pq_get_Ok event_lt _ _ _ Hwf Hget) as (Hp & _).
  rewrite Hx in Hp. apply Permutation_singleton_l in Hp. injection Hp as <- _.
  by exists ev.
Qed.

(** C32: without stations (a number of stations that is not positive) the
    first iteration indexes an empty table: the call raises [IndexError]. *)
Theorem servers_simulation_no_station cfg k fuel :
  (arg_n cfg ≤ 0)%Z → ¬ (arg_lambda_arrival_time cfg == 0)%Q →
  arg_finish cfg = true ∨ (0 < arg_time cfg)%Z →
  servers_simulation cfg k (S fuel) = Failed IndexError.
Proof.
  intros Hn Hl Hf. unfold servers_simulation, init_state.
  rewrite random_expovariate_nonzero by done. simpl.
  set (x := ((0 + rnd_expovariate k (arg_lambda_arrival_time cfg))%Z, (ASIGNED, 0, 0))).
  destruct (first_event_get x) as (He & ev & Hget).
  unfold run. erewrite while_loop_raise; [done| |].
  - unfold loop_cond. simpl. rewrite He, andb_true_r.
    destruct Hf as [->|?]; [done|]. rewrite bool_decide_true by done. apply orb_true_r.
  - unfold loop_body. simpl. rewrite Hget. simpl. unfold on_asigned, record_time. simpl.
    by replace (Z.to_nat (arg_n cfg)) with 0 by lia.
Qed.
End errors.

(** ** Routing *)

Section routing.
Context {R : RandomSource} `{!RandomSourceLaws R}.

(** A client that ends service at the first station always moves to
    the second, and no draw is made. *)
Theorem next_server_first cfg k : next_server cfg k 0 = Ok (1, k).
Proof. done. Qed.

(** C33: at a station other than the first, a feedback probability of zero
    does not exclude feedback: a draw of exactly zero is not above it, and
    the client is sent to an earlier station. *)
Theorem next_server_zero_probability cfg k i :
  0 < i → arg_p cfg !! i = Some 0%Q → Qle_bool (rnd_uniform k 0 1) 0 = true →
  ∃ next, next_server cfg k i = Ok (next, S (S k)) ∧ next < i.
Proof.
  intros Hi Hp Hu. unfold next_server. rewrite bool_decide_false by lia. simpl.
  rewrite (proj2 (py_index_Ok _ _ _) Hp). simpl. unfold Qltb. rewrite Hu. simpl.
  destruct (random_choice_Ok (S k) (seq 0 i)) as (next & -> & Hn%elem_of_seq);
    [destruct i; [lia|done]|].
  exists next. split; [done|lia].
Qed.
End routing.

(** * Concrete runs *)

Lemma servers_simulation_safe_witness :
  servers_simulation (R:=mean_source) (PQ:=list_pq event_lt)
    (at_horizon 60 experiment_6) 0 200 ≠ Failed IndexError.
Proof. apply servers_simulation_safe, experiment_6_valid. Defined.

Lemma servers_simulation_refines_witness :
  ∃ out k' (st : state (PQ:=list_pq event_lt)),
    servers_simulation (R:=mean_source) (PQ:=list_pq event_lt)
      (at_horizon 60 experiment_6) 0 200 = Finished (out, k') ∧
    out = state_output (at_horizon 60 experiment_6) st ∧ k' = st_rng st.
Proof.
  do 2 eexists.
  destruct (servers_simulation_refines (R:=mean_source) (PQ:=list_pq event_lt)
              (at_horizon 60 experiment_6) (experiment_6_valid 60) 0 200 _ _
              ltac:(vm_compute; reflexivity)) as (st & Ho & Hk & _).
  exists st. split; [vm_compute; reflexivity|done].
Defined.

Lemma servers_simulation_departures_witness :
  ∃ t n' n_a n_d q a d k',
    servers_simulation (R:=feedback_source) (PQ:=list_pq event_lt)
      (at_horizon 6 experiment_6) 0 300 = Finished ((t, n', n_a, n_d, q, a, d), k') ∧
    n_d ≤ n_a.
Proof.
  do 8 eexists. split; [vm_compute; reflexivity|].
  eapply (servers_simulation_departures (R:=feedback_source) (PQ:=list_pq event_lt)
            (at_horizon 6 experiment_6) (experiment_6_valid 6) 0 300).
  vm_compute; reflexivity.
Defined.

Lemma servers_simulation_drained_witness :
  ∃ t n' n_a n_d q a d k',
    servers_simulation (R:=feedback_source) (PQ:=list_pq event_lt)
      (at_horizon 6 experiment_6) 0 300 = Finished ((t, n', n_a, n_d, q, a, d), k') ∧
    n_a = n_d + recycled (simulation_labels (R:=feedback_source) (PQ:=list_pq event_lt)
                            (at_horizon 6 experiment_6) 0 300).
Proof.
  do 8 eexists. split; [vm_compute; reflexivity|].
  eapply (servers_simulation_drained (R:=feedback_source) (PQ:=list_pq event_lt)
            (at_horizon 6 experiment_6) (experiment_6_valid 6) 0 300); [done|].
  vm_compute; reflexivity.
Defined.

Lemma servers_simulation_balanced_witness :
  ∃ t n' n_a n_d q a d k',
    servers_simulation (R:=mean_source) (PQ:=list_pq event_lt)
      (at_horizon 60 experiment_1) 0 200 = Finished ((t, n', n_a, n_d, q, a, d), k') ∧
    n_a = n_d.
Proof.
  do 8 eexists. split; [vm_compute; reflexivity|].
  eapply (servers_simulation_balanced (R:=mean_source) (PQ:=list_pq event_lt)
            (at_horizon 60 experiment_1) (experiment_1_valid 60) 0 200); [done..|].
  vm_compute; reflexivity.
Defined.

Lemma servers_simulation_tables_witness :
  ∃ t n' n_a n_d q a d k',
    servers_simulation (R:=feedback_source) (PQ:=list_pq event_lt)
      (at_horizon 6 experiment_6) 0 300 = Finished ((t, n', n_a, n_d, q, a, d), k') ∧
    length (trace_get d 1 0) ≤ length (trace_get a 1 0) ∧
    length (trace_get a 1 0) ≤ length (trace_get q 1 0).
Proof.
  do 8 eexists. split; [vm_compute; reflexivity|].
  eapply (servers_simulation_tables (R:=feedback_source) (PQ:=list_pq event_lt)
            (at_horizon 6 experiment_6) (experiment_6_valid 6) 0 300).
  vm_compute; reflexivity.
Defined.

Lemma servers_simulation_shape_witness :
  ∃ t n' n_a n_d q a d k',
    servers_simulation (R:=mean_source) (PQ:=list_pq event_lt)
      (at_horizon 60 experiment_6) 0 200 = Finished ((t, n', n_a, n_d, q, a, d), k') ∧
    n' = 3%Z ∧ (0 ≤ t)%Z ∧ length q = 3 ∧ length a = 3 ∧ length d = 3.
Proof.
  do 8 eexists. split; [vm_compute; reflexivity|].
  eapply (servers_simulation_shape (R:=mean_source) (PQ:=list_pq event_lt)
            (at_horizon 60 experiment_6) (experiment_6_valid 60) 0 200).
  vm_compute; reflexivity.
Defined.

Lemma servers_simulation_zero_rate_witness :
  servers_simulation (R:=mean_source) (PQ:=list_pq event_lt)
    (Config 10 1 0 [1%Q] [0%Q] true) 0 10 = Failed ZeroDivisionError.
Proof. by apply servers_simulation_zero_rate. Defined.

Lemma servers_simulation_no_station_witness :
  servers_simulation (R:=mean_source) (PQ:=list_pq event_lt)
    (Config 10 0 (1 # 7) [] [] true) 0 1 = Failed IndexError.
Proof.
  apply (servers_simulation_no_station (PQ:=list_pq event_lt)); [done|done|by left].
Defined.

Lemma reachable_minv_witness :
  ∃ (st : state (PQ:=list_pq event_lt)) ls,
    reachable (R:=mean_source) (at_horizon 60 experiment_6) 0 st ∧
    minv 3 ls (abs st).
Proof.
  eexists.
  assert (reachable (R:=mean_source) (PQ:=list_pq event_lt) (at_horizon 60 experiment_6) 0 _)
    as Hr by (apply reachable_init; vm_compute; reflexivity).
  destruct (reachable_minv (at_horizon 60 experiment_6) (experiment_6_valid 60) 0 _ Hr)
    as [ls Hinv].
  by exists ls.
Defined.

Lemma step_time_mono_witness :
  ∃ st st' : state (PQ:=list_pq event_lt),
    init_state (R:=mean_source) (at_horizon 60 experiment_6) 0 = Ok st ∧
    loop_body (R:=mean_source) (at_horizon 60 experiment_6) st = Ok st' ∧
    (st_t st ≤ st_t st')%Z.
Proof.
  do 2 eexists. split; [vm_compute; reflexivity|]. split; [vm_compute; reflexivity|].
  eapply (step_time_mono (R:=mean_source) (PQ:=list_pq event_lt)
            (at_horizon 60 experiment_6) (experiment_6_valid 60) 0).
  - apply reachable_init. vm_compute; reflexivity.
  - apply step_event; vm_compute; reflexivity.
Defined.

Lemma next_server_zero_probability_witness :
  ∃ next, next_server (R:=feedback_source) (Config 10 3 1 [1; 1; 1]%Q [0; 0; 0]%Q true) 0 1
          = Ok (next, 2) ∧ next < 1.
Proof.
  apply (next_server_zero_probability (R:=feedback_source)); [lia|done|done].
Defined.
