(* ===== verification/Termination.v ===== *)
(** * Termination: the loop of [servers_simulation] ends

    The loop does not end for every lawful sequence of draws: arrival
    gaps of zero before the horizon, or a return to an earlier station at
    every completion, keep it running.  It ends when every arrival gap is
    at least one tick ([positive_gaps]) and no draw sends a client back
    ([forward_only], a hypothesis on the probabilities the code reads:
    those of the stations that are neither the first nor the last,
    [routes_from]): each iteration is then a step of the machine that
    makes progress, and lowers the weight of [Machine].  The fuel that
    suffices is the weight of the initial state,
    [(time + 1) * 3 * n]: one admission per tick of the horizon, and one
    more, each of three events per station.

    With termination the theorems of [Correctness] become statements of
    what a call returns: [servers_simulation_complete] says that a call
    with [finish] set returns, and returns as many departures as
    admissions. *)

From Stdlib Require Import ZArith QArith Lia.
From stdpp Require Import gmap list.
From S2P Require Import Prelude Rng PriorityQueue Events Machine Engine Experiments Refinement Correctness.

Section hypotheses.
Context {R : RandomSource}.

(** Every gap between two arrivals is at least one tick. *)
Definition positive_gaps (cfg : config) : Prop :=
  ∀ k, (1 ≤ rnd_expovariate k (arg_lambda_arrival_time cfg))%Z.

(** The stations whose feedback probability is read: a completion at the
    first station routes forward without a draw, and a completion at the
    last station lets the client leave (line 212 of [src/sim.ipynb] is
    not reached). *)
Definition routes_from (cfg : config) (i : nat) : Prop :=
  i ≠ 0 ∧ Z.of_nat i ≠ (arg_n cfg - 1)%Z.

(** Every uniform draw is above the feedback probability of every
    station that routes with one: no client is sent back. *)
Definition forward_only (cfg : config) : Prop :=
  ∀ k i p_i, routes_from cfg i → arg_p cfg !! i = Some p_i →
    Qltb p_i (rnd_uniform k 0 1) = true.

(** The fuel that suffices for [cfg]. *)
Definition enough_fuel (cfg : config) : nat :=
  (Z.to_nat (arg_time cfg) + 1) * (3 * stations cfg).
End hypotheses.

(** * Lemmas *)

Lemma forward_not_recycle l : forward_label l → ¬ is_recycle l.
Proof.
  destruct l as [| |t c i [next|]]; simpl; unfold is_recycle; simpl; [done..| |done].
  intros -> [=]. lia.
Qed.

Lemma forward_recycled ls : Forall forward_label ls → recycled ls = 0.
Proof.
  intros Hls. apply count_if_zero. eapply Forall_impl; [done|]. apply forward_not_recycle.
Qed.

Lemma progress_recycled ls : Forall progress_label ls → recycled ls = 0.
Proof.
  intros Hls. apply forward_recycled. eapply Forall_impl; [done|]. apply progress_forward.
Qed.

(** The labels of a run in which no draw sends a client back. *)
Section forward.
Context {R : RandomSource} {PQ : PriorityQueue event}.
Context (cfg : config) (Hfwd : forward_only cfg).

Lemma next_server_forward k i next k' :
  Z.of_nat i ≠ (arg_n cfg - 1)%Z → next_server cfg k i = Ok (next, k') → next = i + 1.
Proof.
  intros Hi. unfold next_server. case_bool_decide as Hi0; [by intros [= <- _]|]. simpl.
  intros (p_i & Hp%py_index_Ok & Hn)%bind_Ok. rewrite (Hfwd _ _ _ (conj Hi0 Hi) Hp) in Hn.
  by injection Hn as <- _.
Qed.

Lemma event_label_forward st x l : event_label cfg st x = Ok l → forward_label l.
Proof.
  destruct x as [t [[[] c] i]]; simpl.
  - case_bool_decide; [|by intros [= <-]]. by intros ([gap k'] & _ & [= <-])%bind_Ok.
  - by intros [= <-].
  - case_bool_decide; [by intros [= <-]|].
    intros ([next k'] & ->%next_server_forward & [= <-])%bind_Ok; done.
Qed.

Lemma run_labels_forward fuel st : Forall forward_label (run_labels cfg fuel st).
Proof.
  revert st. induction fuel as [|fuel IH]; intros st; simpl;
    destruct (loop_cond cfg st); try done.
  destruct (loop_body cfg st) as [st'|]; [|done].
  destruct (step_label cfg st) as [l|] eqn:Hl; [|done].
  constructor; [|apply IH]. apply bind_Ok in Hl as ([x ev] & _ & Hl).
  by eapply event_label_forward.
Qed.

Lemma simulation_labels_forward k fuel : Forall forward_label (simulation_labels cfg k fuel).
Proof.
  unfold simulation_labels. destruct (init_state cfg k); [apply run_labels_forward|done].
Qed.
End forward.

Section termination.
Context {R : RandomSource} `{!RandomSourceLaws R}.
Context {PQ : PriorityQueue event} `{!PriorityQueueLaws event_lt PQ}.
Context (cfg : config) (Hcfg : valid_config cfg).
Context (Hgaps : positive_gaps cfg) (Hfwd : forward_only cfg).

Lemma event_label_progress st x l : event_label cfg st x = Ok l → progress_label l.
Proof.
  destruct x as [t [[[] c] i]]; simpl.
  - case_bool_decide; [|by intros [= <-]].
    intros ([gap k'] & (_ & -> & _)%random_expovariate_Ok & [= <-])%bind_Ok. simpl.
    case_decide; [|done]. specialize (Hgaps (st_rng st)). lia.
  - by intros [= <-].
  - case_bool_decide; [by intros [= <-]|].
    intros ([next k'] & ->%(next_server_forward cfg Hfwd) & [= <-])%bind_Ok; done.
Qed.

Lemma step_label_progress st l : step_label cfg st = Ok l → progress_label l.
Proof. intros ([x ev] & _ & Hl)%bind_Ok. by eapply event_label_progress. Qed.

(** An iteration of the loop lowers the weight. *)
Lemma loop_body_weight st st' :
  loop_inv cfg st → loop_body cfg st = Ok st' →
  weight (stations cfg) (arg_time cfg) (abs st') <
  weight (stations cfg) (arg_time cfg) (abs st).
Proof.
  intros [Hwf [ls [Hsh _ _ _ _]%(mrun_minv _ _ (stations_pos cfg Hcfg))]] Hb.
  destruct (loop_body_refines cfg Hcfg st st') as (l & Hl%step_label_progress & Hst & _);
    [done..|].
  by eapply mstep_weight; [apply stations_pos| | |].
Qed.

Lemma run_labels_progress fuel st : Forall progress_label (run_labels cfg fuel st).
Proof.
  revert st. induction fuel as [|fuel IH]; intros st; simpl;
    destruct (loop_cond cfg st); try done.
  destruct (loop_body cfg st) as [st'|]; [|done].
  destruct (step_label cfg st) as [l|] eqn:Hl; [|done].
  constructor; [by eapply step_label_progress|apply IH].
Qed.

Lemma simulation_labels_progress k fuel :
  Forall progress_label (simulation_labels cfg k fuel).
Proof.
  unfold simulation_labels. destruct (init_state cfg k); [apply run_labels_progress|done].
Qed.

(** The loop ends within the weight of its first state. *)
Lemma run_terminates st fuel :
  loop_inv cfg st → weight (stations cfg) (arg_time cfg) (abs st) ≤ fuel →
  ∃ st', run cfg fuel st = Finished st'.
Proof.
  intros Hinv Hfuel.
  destruct (while_loop_terminates (loop_cond cfg) (loop_body cfg) (loop_inv cfg)
              (λ st, weight (stations cfg) (arg_time cfg) (abs st)) st) as [st' Hrun].
  - intros s1 s2 Hs1 _ Hb. split; [by eapply loop_body_inv|by apply loop_body_weight].
  - intros s1. by apply loop_inv_safe.
  - done.
  - exists st'. by eapply while_loop_fuel_mono.
Qed.

(** The call returns when it is given [enough_fuel]. *)
Lemma servers_simulation_returns k fuel :
  enough_fuel cfg ≤ fuel → ∃ out k', servers_simulation cfg k fuel = Finished (out, k').
Proof.
  intros Hfuel. unfold servers_simulation.
  destruct (init_state cfg k) as [st0|e] eqn:Hi.
  - destruct (init_state_refines cfg Hcfg k st0 Hi) as (gap & Hg & Habs & _).
    destruct (run_terminates st0 fuel) as [st' Hrun]; [by eapply init_state_inv| |].
    + rewrite Habs. etrans; [by apply minit_weight|done].
    + exists (state_output cfg st'), (st_rng st'). simpl. by rewrite Hrun.
  - unfold init_state in Hi. rewrite random_expovariate_pos in Hi by apply Hcfg. done.
Qed.

(** When every arrival gap is at least one tick and no draw sends a
    client back, a call of [servers_simulation] on a valid configuration
    returns, within [(time + 1) * 3 * n] iterations of its loop. *)
Theorem servers_simulation_terminates k fuel :
  enough_fuel cfg ≤ fuel → ∃ out k', servers_simulation cfg k fuel = Finished (out, k').
Proof. apply servers_simulation_returns. Qed.

(** C28: under the same hypotheses and with [finish] set, the call returns
    with every admitted client departed: the number of departures it
    returns is its number of admissions. *)
Theorem servers_simulation_complete k fuel :
  arg_finish cfg = true → enough_fuel cfg ≤ fuel →
  ∃ t n_a q a d k',
    servers_simulation cfg k fuel = Finished ((t, arg_n cfg, n_a, n_a, q, a, d), k').
Proof.
  intros Hf Hfuel. destruct (servers_simulation_returns k fuel Hfuel) as (out & k' & Hs).
  destruct (servers_simulation_empty cfg Hcfg k fuel out k' Hf Hs) as (st & -> & _ & Hna).
  rewrite progress_recycled, Nat.add_0_r in Hna.
  - exists (st_t st), (st_n_a st), (st_q st), (st_a st), (st_d st), k'.
    rewrite Hs. unfold state_output. by rewrite Hna.
  - apply simulation_labels_progress.
Qed.
End termination.

(** * Concrete runs *)

Lemma mean_source_gaps time : positive_gaps (R:=mean_source) (at_horizon time experiment_6).
Proof. intros k. done. Qed.

Lemma mean_source_forward time : forward_only (R:=mean_source) (at_horizon time experiment_6).
Proof.
  intros k i p_i _ Hp. simpl in Hp.
  destruct i as [|[|[|i]]]; simplify_eq/=; done.
Qed.

Lemma servers_simulation_terminates_witness :
  ∃ out k', servers_simulation (R:=mean_source) (PQ:=list_pq event_lt)
              experiment_6 0 (enough_fuel experiment_6) = Finished (out, k').
Proof.
  apply (servers_simulation_terminates (R:=mean_source) (PQ:=list_pq event_lt)
           (at_horizon 5000 experiment_6) (experiment_6_valid 5000)
           (mean_source_gaps 5000) (mean_source_forward 5000)).
  done.
Defined.

Lemma servers_simulation_complete_witness :
  ∃ t n_a q a d k',
    servers_simulation (R:=mean_source) (PQ:=list_pq event_lt)
      experiment_6 0 (enough_fuel experiment_6) = Finished ((t, 3%Z, n_a, n_a, q, a, d), k').
Proof.
  apply (servers_simulation_complete (R:=mean_source) (PQ:=list_pq event_lt)
           (at_horizon 5000 experiment_6) (experiment_6_valid 5000)
           (mean_source_gaps 5000) (mean_source_forward 5000)); done.
Defined.
