(* ===== verification/Feedback.v ===== *)
(** * Feedback: termination when clients are sent back

    A client sent back costs more iterations: it visits stations again,
    and a client sent back to the first station starts a chain of
    arrivals of its own.  The loop of [servers_simulation] still ends
    when only finitely many draws send a client back.

    [bounded_feedback cfg ks] states it of the generator: outside the
    draws [ks] every uniform draw is above every feedback probability.
    The measure of [Termination] is extended by a budget: the draws of
    [ks] that the cursor of the generator has not passed.  A step that
    sends no client back lowers the weight of the machine and does not
    raise the budget ([mstep_weight]); a step that sends a client back
    uses a draw of [ks], so it lowers the budget, and raises the weight
    by less than [enough_fuel cfg] ([mstep_weight_back]).  The fuel that
    suffices is [enough_fuel cfg * (1 + length ks)].

    With [ks] empty this is the theorem of [Termination]. *)

From Stdlib Require Import ZArith QArith Lia.
From stdpp Require Import gmap list.
From S2P Require Import Prelude Rng PriorityQueue Events Machine Engine Experiments.
From S2P Require Import Refinement Correctness Termination.

(** A step whose next arrival, if it schedules one, is strictly later. *)
Definition gap_label (l : label) : Prop :=
  match l with
  | Asigned t _ _ (Some t') => (t < t')%Z
  | _ => True
  end.

(** The draws of [ks] at or after the cursor [k]. *)
Definition budget (ks : list nat) (k : nat) : nat :=
  length (filter (λ j, k ≤ j) ks).

Section hypotheses.
Context {R : RandomSource}.

(** Outside the draws [ks], every uniform draw is above the feedback
    probability of every station that routes with one: only a draw of
    [ks] can send a client back. *)
Definition bounded_feedback (cfg : config) (ks : list nat) : Prop :=
  ∀ k, k ∉ ks → ∀ i p_i, routes_from cfg i → arg_p cfg !! i = Some p_i →
    Qltb p_i (rnd_uniform k 0 1) = true.

(** The fuel that suffices for [cfg] when the draws [ks] may send a
    client back. *)
Definition feedback_fuel (cfg : config) (ks : list nat) : nat :=
  enough_fuel cfg * (1 + length ks).
End hypotheses.

(** The measure of the loop: the weight of the machine, and one
    [enough_fuel] per draw that may still send a client back. *)
Definition budget_weight {R : RandomSource} {PQ : PriorityQueue event}
    (cfg : config) (ks : list nat) (st : state) : nat :=
  weight (stations cfg) (arg_time cfg) (abs st) + enough_fuel cfg * budget ks (st_rng st).

(** * Lemmas *)

(** Without feedback no draw is needed. *)
Lemma forward_only_bounded {R : RandomSource} cfg : forward_only cfg ↔ bounded_feedback cfg [].
Proof.
  split; [by intros Hfwd k _ i p_i; apply Hfwd|].
  intros Hks k i p_i. apply Hks, not_elem_of_nil.
Qed.

Lemma progress_gap_forward l : progress_label l ↔ gap_label l ∧ forward_label l.
Proof. destruct l as [t c i [t'|]| |t c i [next|]]; simpl; naive_solver. Qed.

Section budget.
Implicit Types (ks : list nat) (k : nat).

Lemma budget_le_length ks k : budget ks k ≤ length ks.
Proof. apply length_filter. Qed.

(** The budget does not grow when the cursor moves on. *)
Lemma budget_mono ks k k' : k ≤ k' → budget ks k' ≤ budget ks k.
Proof.
  intros Hk. unfold budget. induction ks as [|j ks IH]; [done|].
  rewrite !filter_cons. repeat case_decide; simpl; lia.
Qed.

(** It shrinks when the cursor passes a draw of [ks]. *)
Lemma budget_lt ks k k' : k ∈ ks → k < k' → budget ks k' < budget ks k.
Proof.
  intros Hin Hk. unfold budget. induction ks as [|j ks IH]; [by apply elem_of_nil in Hin|].
  pose proof (budget_mono ks k k') as Hmono. unfold budget in Hmono.
  rewrite !filter_cons. apply elem_of_cons in Hin as [<-|Hin];
    repeat case_decide; simpl; try lia; specialize (IH Hin); lia.
Qed.
End budget.

Section weight_back.
Context (n : nat) (horizon : Z).

(** A client sent back weighs at most the initial state. *)
Lemma back_weight t c next :
  (0 ≤ t)%Z → event_weight n horizon (t, (ASIGNED, c, next)) ≤ (Z.to_nat horizon + 1) * (3 * n).
Proof.
  intros Ht. unfold event_weight, station_weight. case_bool_decide; [|nia].
  assert (Z.to_nat (horizon - t) ≤ Z.to_nat horizon) by lia. nia.
Qed.

(** A step raises the weight by less than the weight of the initial
    state, also when it sends a client back. *)
Lemma mstep_weight_back l s s' :
  0 < n → shape_ok n s → (0 ≤ m_t s)%Z → clock_ok s →
  mstep n horizon l s s' → gap_label l →
  weight n horizon s' < weight n horizon s + (Z.to_nat horizon + 1) * (3 * n).
Proof.
  intros Hn Hsh Ht Hclock Hst Hgap.
  assert (progress_label l → weight n horizon s' < weight n horizon s + (Z.to_nat horizon + 1) * (3 * n))
    as Hfwd by (intros Hl; pose proof (mstep_weight n horizon l s s' Hn Hsh Hst Hl); lia).
  destruct l as [t c i [t'|]| |t c i [next|]]; try (by apply Hfwd).
  destruct (decide (next = i + 1)) as [->|Hback]; [by apply Hfwd|]. clear Hfwd.
  destruct Hsh as [_ _ _ _ Hsv]. unfold weight. inv_mstep Hst.
  match goal with Htk : takes _ _ _ |- _ =>
    destruct (takes_Forall _ _ _ _ Htk Hsv) as [Hi _];
    destruct (takes_Forall _ _ _ _ Htk Hclock) as [Hti _]; destruct Htk as [Hp _] end.
  match goal with Hp' : ?p ≡ₚ _ |- context [?p] => is_var p; rewrite Hp'; clear Hp' end.
  rewrite Hp, ?pending_weight_app, ?pending_weight_cons. ev_simpl. weigh_queue.
  pose proof (leave_weight n horizon t i queue_i).
  pose proof (back_weight t c next ltac:(lia)) as Hb. unfold event_weight in Hb.
  unfold station_weight in *. lia.
Qed.
End weight_back.

(** Invert a successful call of [random.expovariate]. *)
Ltac expovariate_inv :=
  match goal with
  | H : random_expovariate _ _ = Ok _ |- _ =>
      apply random_expovariate_Ok in H as (_ & -> & ->)
  end.

(** The cursor of the generator does not go back. *)
Section cursor_mono.
Context {R : RandomSource} {PQ : PriorityQueue event} (cfg : config).

Lemma next_server_cursor k i next k' : next_server cfg k i = Ok (next, k') → k ≤ k'.
Proof.
  unfold next_server, random_uniform, random_choice. intros H.
  case_bool_decide; [simplify_eq; lia|]. simplify_result.
  destruct (Qltb _ _); [simplify_eq; lia|]. destruct (seq 0 i); [done|]. simplify_result. lia.
Qed.

Lemma on_asigned_cursor (st : state) t c i st' :
  on_asigned cfg st t c i = Ok st' → st_rng st ≤ st_rng st'.
Proof.
  unfold on_asigned. intros H. simplify_result; try expovariate_inv; simpl; lia.
Qed.

Lemma on_arrival_cursor (st : state) t c i st' :
  on_arrival cfg st t c i = Ok st' → st_rng st ≤ st_rng st'.
Proof. unfold on_arrival. intros H. simplify_result. expovariate_inv. simpl. lia. Qed.

Lemma loop_body_cursor_mono st st' : loop_body cfg st = Ok st' → st_rng st ≤ st_rng st'.
Proof.
  unfold loop_body. intros ([[t [[[] c] i]] ev] & _ & Hd)%bind_Ok; simpl in Hd.
  - by apply on_asigned_cursor in Hd.
  - by apply on_arrival_cursor in Hd.
  - unfold on_finish in Hd. simplify_result; simpl; [lia|].
    match goal with Hn : next_server _ _ _ = Ok _ |- _ => by apply next_server_cursor in Hn end.
Qed.
End cursor_mono.

(** The cursor of the generator along a run. *)
Section cursor.
Context {R : RandomSource} {PQ : PriorityQueue event}.
Context (cfg : config) (ks : list nat) (Hks : bounded_feedback cfg ks).

(** A completion that sends its client back has used a draw of [ks]. *)
Lemma next_server_budget k i next k' :
  Z.of_nat i ≠ (arg_n cfg - 1)%Z →
  next_server cfg k i = Ok (next, k') → k ≤ k' ∧ (next = i + 1 ∨ (k ∈ ks ∧ k < k')).
Proof.
  unfold next_server, random_uniform, random_choice. intros Hi H.
  case_bool_decide as Hi0; [simplify_eq; split; [lia|by left]|].
  simplify_result. destruct (Qltb _ _) eqn:Hu; [simplify_eq; split; [lia|by left]|].
  destruct (seq 0 i) eqn:Hs; [done|]. rewrite <- Hs in *. simplify_result.
  split; [lia|]. right. split; [|lia].
  destruct (decide (k ∈ ks)) as [|Hk]; [done|].
  match goal with Hp : py_index (arg_p cfg) _ = Ok _ |- _ => apply py_index_Ok in Hp;
    rewrite (Hks k Hk _ _ (conj Hi0 Hi) Hp) in Hu end. done.
Qed.

Lemma on_finish_cursor (st : state) t c i st' l :
  on_finish cfg st t c i = Ok st' → event_label cfg st (t, (FINISH, c, i)) = Ok l →
  st_rng st ≤ st_rng st' ∧ (forward_label l ∨ (st_rng st ∈ ks ∧ st_rng st < st_rng st')).
Proof.
  unfold on_finish, event_label. intros H Hl. simplify_result; simpl; [split; [lia|by left]|].
  match goal with Hn : next_server _ _ _ = Ok _, Hn' : next_server _ _ _ = Ok _ |- _ =>
    rewrite Hn in Hn'; injection Hn' as <- <-;
    apply next_server_budget in Hn as [? [->|?]] end; auto.
Qed.

(** An iteration moves the cursor on, and past a draw of [ks] when it
    sends a client back. *)
Lemma loop_body_cursor st st' l :
  loop_body cfg st = Ok st' → step_label cfg st = Ok l →
  st_rng st ≤ st_rng st' ∧ (forward_label l ∨ (st_rng st ∈ ks ∧ st_rng st < st_rng st')).
Proof.
  unfold loop_body, step_label. intros ([x ev] & Hget & Hd)%bind_Ok. rewrite Hget. simpl.
  destruct x as [t [[[] c] i]]; simpl in *.
  - intros Hl. apply on_asigned_cursor in Hd. split; [done|left].
    destruct (bool_decide (i = 0)); simplify_result; done.
  - intros [= <-]. apply on_arrival_cursor in Hd. split; [done|by left].
  - intros Hl. by apply (on_finish_cursor (with_events st ev) t c i st' l).
Qed.
End cursor.

Section termination.
Context {R : RandomSource} `{!RandomSourceLaws R}.
Context {PQ : PriorityQueue event} `{!PriorityQueueLaws event_lt PQ}.
Context (cfg : config) (Hcfg : valid_config cfg).
Context (ks : list nat) (Hgaps : positive_gaps cfg) (Hks : bounded_feedback cfg ks).

Lemma step_label_gap st l : step_label cfg st = Ok l → gap_label l.
Proof.
  intros ([[t [[[] c] i]] ev] & _ & Hl)%bind_Ok; simpl in Hl; simplify_result; try done.
  expovariate_inv. simpl. case_decide; [|done]. specialize (Hgaps (st_rng st)). lia.
Qed.

(** An iteration of the loop lowers the measure. *)
Lemma loop_body_budget st st' :
  loop_inv cfg st → loop_body cfg st = Ok st' →
  budget_weight cfg ks st' < budget_weight cfg ks st.
Proof.
  intros [Hwf [ls Hrun]] Hb. pose proof (stations_pos cfg Hcfg) as Hn.
  pose proof (mrun_minv _ _ Hn _ _ Hrun) as [Hsh _ _ _ _].
  destruct (mrun_time_nonneg _ _ _ _ Hrun) as [Ht Hclock].
  destruct (loop_body_refines cfg Hcfg st st') as (l & Hl & Hst & _); [done..|].
  pose proof (step_label_gap st l Hl) as Hgap.
  destruct (loop_body_cursor cfg ks Hks st st' l Hb Hl) as [Hk [Hfwd|[Hin Hlt]]].
  - pose proof (mstep_weight _ _ l _ _ Hn Hsh Hst (proj2 (progress_gap_forward l) (conj Hgap Hfwd))).
    pose proof (budget_mono ks _ _ Hk). unfold budget_weight. nia.
  - pose proof (mstep_weight_back _ _ l _ _ Hn Hsh Ht Hclock Hst Hgap).
    pose proof (budget_lt ks _ _ Hin Hlt). unfold budget_weight, enough_fuel in *. nia.
Qed.

(** The loop ends within the measure of its first state. *)
Lemma run_terminates_feedback st fuel :
  loop_inv cfg st → budget_weight cfg ks st ≤ fuel → ∃ st', run cfg fuel st = Finished st'.
Proof.
  intros Hinv Hfuel.
  destruct (while_loop_terminates (loop_cond cfg) (loop_body cfg) (loop_inv cfg)
              (budget_weight cfg ks) st) as [st' Hrun].
  - intros s1 s2 Hs1 _ Hb. split; [by eapply loop_body_inv|by apply loop_body_budget].
  - intros s1. by apply loop_inv_safe.
  - done.
  - exists st'. by eapply while_loop_fuel_mono.
Qed.

(** The call returns when it is given [feedback_fuel]. *)
Lemma servers_simulation_returns_feedback k fuel :
  feedback_fuel cfg ks ≤ fuel → ∃ out k', servers_simulation cfg k fuel = Finished (out, k').
Proof.
  intros Hfuel. unfold servers_simulation.
  destruct (init_state cfg k) as [st0|e] eqn:Hi.
  - destruct (init_state_refines cfg Hcfg k st0 Hi) as (gap & Hg & Habs & _).
    destruct (run_terminates_feedback st0 fuel) as [st' Hrun]; [by eapply init_state_inv| |].
    + unfold budget_weight. rewrite Habs.
      pose proof (minit_weight (stations cfg) (arg_time cfg) gap Hg).
      pose proof (budget_le_length ks (st_rng st0)).
      unfold feedback_fuel, enough_fuel in *. nia.
    + exists (state_output cfg st'), (st_rng st'). simpl. by rewrite Hrun.
  - unfold init_state in Hi. rewrite random_expovariate_pos in Hi by apply Hcfg. done.
Qed.

(** C3: when every arrival gap is at least one tick and at most the
    draws [ks] send a client back, a call of [servers_simulation] on a
    valid configuration returns, within
    [(time + 1) * 3 * n * (1 + length ks)] iterations of its loop; with
    [finish] set it returns with no client left in the network: the
    admissions are the departures and the clients sent back to the first
    station. *)
Theorem servers_simulation_terminates_feedback k fuel :
  feedback_fuel cfg ks ≤ fuel →
  ∃ t n_a n_d q a d k',
    servers_simulation cfg k fuel = Finished ((t, arg_n cfg, n_a, n_d, q, a, d), k') ∧
    (arg_finish cfg = true → n_a = n_d + recycled (simulation_labels cfg k fuel)).
Proof.
  intros Hfuel. destruct (servers_simulation_returns_feedback k fuel Hfuel) as (out & k' & Hs).
  destruct (servers_simulation_run cfg Hcfg k fuel out k' Hs) as (st & [= -> _] & _).
  exists (st_t st), (st_n_a st), (st_n_d st), (st_q st), (st_a st), (st_d st), k'.
  split; [done|]. intros Hf.
  destruct (servers_simulation_empty cfg Hcfg k fuel _ k' Hf Hs) as (st1 & Hout & _ & Hna).
  unfold state_output in Hout. by injection Hout as _ -> -> _ _ _.
Qed.
End termination.

(** * Concrete runs *)

Lemma feedback_source_gaps time : positive_gaps (R:=feedback_source) (at_horizon time experiment_6).
Proof. intros k. done. Qed.

(** Only the first twelve draws of [feedback_source] send a client back. *)
Lemma feedback_source_bounded time :
  bounded_feedback (R:=feedback_source) (at_horizon time experiment_6) (seq 0 12).
Proof.
  intros k Hk i p_i _ Hp. simpl.
  rewrite lookup_ge_None_2 by (rewrite elem_of_seq in Hk; simpl; lia).
  simpl in Hp. destruct i as [|[|[|i]]]; simplify_eq/=; done.
Qed.

Lemma servers_simulation_terminates_feedback_witness :
  ∃ t n_a n_d q a d k',
    servers_simulation (R:=feedback_source) (PQ:=list_pq event_lt) (at_horizon 6 experiment_6) 0
      (feedback_fuel (at_horizon 6 experiment_6) (seq 0 12)) =
      Finished ((t, arg_n (at_horizon 6 experiment_6), n_a, n_d, q, a, d), k') ∧
    (arg_finish (at_horizon 6 experiment_6) = true →
     n_a = n_d + recycled (simulation_labels (R:=feedback_source) (PQ:=list_pq event_lt)
                             (at_horizon 6 experiment_6) 0
                             (feedback_fuel (at_horizon 6 experiment_6) (seq 0 12)))).
Proof.
  apply (servers_simulation_terminates_feedback (R:=feedback_source) (PQ:=list_pq event_lt)
           (at_horizon 6 experiment_6) (experiment_6_valid 6) (seq 0 12)
           (feedback_source_gaps 6) (feedback_source_bounded 6)).
  done.
Defined.
