(* ===== verification/Independence.v ===== *)
(** * Independence: the result does not depend on the priority queue

    [servers_simulation] uses a [queue.PriorityQueue] through [put], [get]
    and [empty] only.  Python's order on the event tuples is a strict
    total order, so the contract of the queue determines the event that
    [get] returns.  Two runs of the engine on two implementations of the
    queue, with the same arguments and the same draws, therefore go
    through the same states ([same_state]: every local variable equal, the
    two clocks holding the same events) and return the same tuple.

    In particular a run evaluated on the sorted list of [PriorityQueue] is
    the run on any other lawful implementation; the binary heap of
    [Heap], which is what CPython's [queue.PriorityQueue] runs, is one
    ([servers_simulation_on_heap]). *)

From Stdlib Require Import ZArith QArith Lia.
From stdpp Require Import gmap list.
From S2P Require Import Prelude Rng PriorityQueue Heap Events Machine Engine Experiments.

Section relation.
Context {R : RandomSource} {PQ1 PQ2 : PriorityQueue event}.

(** Two event clocks that hold the same events. *)
Definition same_events (ev1 : pq PQ1) (ev2 : pq PQ2) : Prop :=
  pq_wf ev1 ∧ pq_wf ev2 ∧ pq_items ev1 ≡ₚ pq_items ev2.

(** The local variables of [servers_simulation] other than the clock. *)
Definition locals {PQ : PriorityQueue event} (st : state (PQ:=PQ)) :
    Z * nat * nat * trace * trace * trace * list (list nat) * nat :=
  (st_t st, st_n_a st, st_n_d st, st_a st, st_q st, st_d st, st_queue st, st_rng st).

(** Two states of the loop, one per implementation, that agree. *)
Definition same_state (st1 : state (PQ:=PQ1)) (st2 : state (PQ:=PQ2)) : Prop :=
  locals st1 = locals st2 ∧ same_events (st_events st1) (st_events st2).
End relation.

(** Both sides of a goal [result_rel same_state _ _] run the same code on
    the same values: take the same branch on both. *)
Ltac lockstep :=
  repeat match goal with
  | |- result_rel _ (Ok _) (Ok _) => simpl
  | |- result_rel _ (Raise _) (Raise _) => done
  | |- @eq exn _ _ => reflexivity
  | |- result_rel _ (?m ≫= _) _ => destruct m as [?|?] eqn:?; simpl
  | |- result_rel _ (if ?b then _ else _) _ => destruct b eqn:?; simpl
  | |- result_rel _ (match ?x with _ => _ end) _ => destruct x eqn:?; simpl
  end.

Section independence.
Context {R : RandomSource}.
Context {PQ1 PQ2 : PriorityQueue event}.
Context `{!PriorityQueueLaws event_lt PQ1, !PriorityQueueLaws event_lt PQ2}.
Implicit Types (sa : state (PQ:=PQ1)) (sb : state (PQ:=PQ2)).
Implicit Types (eva : pq PQ1) (evb : pq PQ2).

Lemma same_events_new : same_events (PQ1:=PQ1) (PQ2:=PQ2) pq_new pq_new.
Proof.
  split_and!; [apply (pq_wf_new (ltb:=event_lt))..|].
  by rewrite !(pq_items_new (ltb:=event_lt)).
Qed.

Lemma same_events_put x eva evb :
  same_events eva evb → same_events (pq_put x eva) (pq_put x evb).
Proof.
  intros (Hw1 & Hw2 & Hp). split_and!; [by apply (pq_wf_put (ltb:=event_lt))..|].
  rewrite !(pq_items_put (ltb:=event_lt)) by done. by f_equiv.
Qed.

Lemma same_events_put_if (b : bool) x eva evb :
  same_events eva evb →
  same_events (if b then pq_put x eva else eva) (if b then pq_put x evb else evb).
Proof. destruct b; auto using same_events_put. Qed.

Lemma same_events_empty eva evb : same_events eva evb → pq_empty eva = pq_empty evb.
Proof.
  intros (Hw1 & Hw2 & Hp). apply eq_true_iff_eq.
  rewrite !(pq_empty_items (ltb:=event_lt)) by done.
  split; intros Hnil; rewrite Hnil in Hp;
    [symmetry in Hp|]; by apply Permutation_nil_r in Hp.
Qed.

(** [get] on two clocks that hold the same events: both block, or both
    return the same event and leave the same events. *)
Lemma same_events_get eva evb :
  same_events eva evb →
  result_rel (λ r1 r2, r1.1 = r2.1 ∧ same_events r1.2 r2.2) (pq_get eva) (pq_get evb).
Proof.
  intros (Hw1 & Hw2 & Hp). destruct (pq_items eva) as [|x l] eqn:Hi.
  { apply Permutation_nil_l in Hp. symmetry in Hp.
    by rewrite !(pq_get_blocks (ltb:=event_lt)). }
  destruct (pq_get_least (ltb:=event_lt) eva Hw1) as (x1 & eva' & Hg1 & _); [by rewrite Hi|].
  destruct (pq_get_least (ltb:=event_lt) evb Hw2) as (x2 & evb' & Hg2 & _).
  { intros Hnil. rewrite Hnil in Hp. by apply Permutation_nil_r in Hp. }
  rewrite Hg1, Hg2. simpl. rewrite <- Hi in Hp.
  destruct (pq_get_deterministic event_lt PQ1 PQ2 _ _ _ _ _ _ Hw1 Hw2 Hp Hg1 Hg2) as [-> Hp'].
  split; [done|]. split_and!; [by eapply (pq_wf_get (ltb:=event_lt))..|done].
Qed.

Section handlers.
Context (cfg : config).

Lemma init_state_same k :
  result_rel same_state (init_state (PQ:=PQ1) cfg k) (init_state (PQ:=PQ2) cfg k).
Proof.
  unfold init_state. lockstep.
  split; [done|]. apply same_events_put, same_events_new.
Qed.

Lemma with_events_same sa sb eva evb :
  same_state sa sb → same_events eva evb →
  same_state (with_events sa eva) (with_events sb evb).
Proof. intros [Hl _] Hev. split; [exact Hl|done]. Qed.

(** Two states that agree, with their fields named. *)
Lemma same_state_inv sa sb :
  same_state sa sb →
  ∃ t eva evb n_a n_d a q d queue k,
    sa = State t eva n_a n_d a q d queue k ∧ sb = State t evb n_a n_d a q d queue k ∧
    same_events eva evb.
Proof.
  destruct sa, sb. intros [Hl Hev]. unfold locals in Hl. simplify_eq/=.
  by do 10 eexists.
Qed.

Lemma on_asigned_same sa sb t c i :
  same_state sa sb →
  result_rel same_state (on_asigned cfg sa t c i) (on_asigned cfg sb t c i).
Proof.
  intros (? & eva & evb & ? & ? & ? & ? & ? & ? & ? & -> & -> & Hev)%same_state_inv.
  unfold on_asigned. simpl. lockstep; try case_match; simpl;
    (split; [done|]); simpl; auto using same_events_put, same_events_put_if.
Qed.

Lemma on_arrival_same sa sb t c i :
  same_state sa sb →
  result_rel same_state (on_arrival cfg sa t c i) (on_arrival cfg sb t c i).
Proof.
  intros (? & eva & evb & ? & ? & ? & ? & ? & ? & ? & -> & -> & Hev)%same_state_inv.
  unfold on_arrival. simpl. lockstep; try case_match; simpl;
    (split; [done|]); simpl; auto using same_events_put.
Qed.

Lemma on_finish_same sa sb t c i :
  same_state sa sb →
  result_rel same_state (on_finish cfg sa t c i) (on_finish cfg sb t c i).
Proof.
  intros (? & eva & evb & ? & ? & ? & ? & ? & ? & ? & -> & -> & Hev)%same_state_inv.
  unfold on_finish. simpl. lockstep; try case_match; simpl;
    (split; [done|]); simpl; repeat case_match; auto using same_events_put.
Qed.

Lemma dispatch_same sa sb x :
  same_state sa sb → result_rel same_state (dispatch cfg sa x) (dispatch cfg sb x).
Proof.
  destruct x as [t [[[] c] i]]; simpl;
    auto using on_asigned_same, on_arrival_same, on_finish_same.
Qed.

Lemma loop_body_same sa sb :
  same_state sa sb → result_rel same_state (loop_body cfg sa) (loop_body cfg sb).
Proof.
  intros Hst. unfold loop_body. eapply result_rel_bind.
  - apply same_events_get, Hst.
  - intros [x1 eva] [x2 evb] [Hx Hev]. simpl in *. subst x2.
    apply dispatch_same. by apply with_events_same.
Qed.

Lemma loop_cond_same sa sb : same_state sa sb → loop_cond cfg sa = loop_cond cfg sb.
Proof.
  intros (? & eva & evb & ? & ? & ? & ? & ? & ? & ? & -> & -> & Hev)%same_state_inv.
  unfold loop_cond. simpl. by rewrite (same_events_empty _ _ Hev).
Qed.

Lemma run_same fuel sa sb :
  same_state sa sb →
  loop_result_rel same_state (run cfg fuel sa) (run cfg fuel sb).
Proof.
  apply while_loop_rel; auto using loop_cond_same, loop_body_same.
Qed.

(** The whole call, on two implementations of the queue. *)
Lemma servers_simulation_same k fuel :
  servers_simulation (PQ:=PQ1) cfg k fuel = servers_simulation (PQ:=PQ2) cfg k fuel.
Proof.
  unfold servers_simulation. pose proof (init_state_same k) as Hinit.
  destruct (init_state (PQ:=PQ1) cfg k) as [sa|e1], (init_state (PQ:=PQ2) cfg k) as [sb|e2];
    simpl in *; try done; [|by subst].
  pose proof (run_same fuel sa sb Hinit) as Hrun.
  destruct (run cfg fuel sa) as [sa'| |], (run cfg fuel sb) as [sb'| |];
    simpl in *; try done; [|by subst].
  by apply same_state_inv in Hrun as (? & ? & ? & ? & ? & ? & ? & ? & ? & ? & -> & -> & _).
Qed.

(** [servers_simulation] returns the same value on every priority
    queue that meets the contract: with the same arguments, the same draws
    and the same fuel, two implementations of the queue give the same
    tuple, raise the same exception, or both run out of fuel. *)
Theorem servers_simulation_independent k fuel :
  servers_simulation (PQ:=PQ1) cfg k fuel = servers_simulation (PQ:=PQ2) cfg k fuel.
Proof. apply servers_simulation_same. Qed.
End handlers.
End independence.

(** The sorted list and the unsorted list of [PriorityQueue] give the same
    run of the sixth experiment. *)
Lemma servers_simulation_independent_witness :
  servers_simulation (R:=mean_source) (PQ:=list_pq event_lt) (at_horizon 60 experiment_6) 0 200 =
  servers_simulation (R:=mean_source) (PQ:=bag_pq event_lt) (at_horizon 60 experiment_6) 0 200.
Proof. apply (servers_simulation_independent (PQ1:=list_pq event_lt) (PQ2:=bag_pq event_lt)). Defined.

(** C29: [servers_simulation] on the binary heap of [heapq], the container
    of CPython's [queue.PriorityQueue], returns what it returns on the
    sorted list: the runs evaluated in this development are the runs of
    the code on its real event clock. *)
Theorem servers_simulation_on_heap {R : RandomSource} cfg k fuel :
  servers_simulation (PQ:=heap_pq event_lt) cfg k fuel =
  servers_simulation (PQ:=list_pq event_lt) cfg k fuel.
Proof. apply servers_simulation_same. Qed.

(** The heap and the sorted list keep the same events in different
    orders, and return the same event first. *)
Lemma heap_list_example :
  let x1 : event := (3%Z, (FINISH, 0, 0)) in
  let x2 : event := (1%Z, (ASIGNED, 1, 0)) in
  let x3 : event := (2%Z, (ARRIVAL, 1, 0)) in
  heappush event_lt (heappush event_lt (heappush event_lt [] x1) x2) x3 = [x2; x1; x3] ∧
  sorted_insert event_lt x3 (sorted_insert event_lt x2 (sorted_insert event_lt x1 [])) =
    [x2; x3; x1] ∧
  heap_get event_lt [x2; x1; x3] = Ok (x2, [x3; x1]) ∧
  list_get [x2; x3; x1] = Ok (x2, [x3; x1]).
Proof. by vm_compute. Qed.

(** A run of the sixth experiment on the heap and on the sorted list. *)
Lemma heap_run_example :
  servers_simulation (R:=mean_source) (PQ:=heap_pq event_lt) (at_horizon 60 experiment_6) 0 200 =
  servers_simulation (R:=mean_source) (PQ:=list_pq event_lt) (at_horizon 60 experiment_6) 0 200.
Proof. by vm_compute. Qed.
