(* ===== verification/Replay.v ===== *)
(** * Replay: the result of a run, rebuilt from its labels

    The labels of a run record, step by step, which client joined which
    queue, started or completed service, and when.  [replay] reads a
    sequence of labels back into what [servers_simulation] returns: the
    time, the two counters, the three tables and the station queues.

    The round trip holds: replaying the labels of a run gives the state
    the run ended in, pending events aside ([mrun_replay]), and so the
    tuple the call returned ([servers_simulation_replay_output]).  The
    tables are therefore a function of the labels: what is proved of the
    labels of a run ([Fifo], [Order]) is a statement about the tables. *)

From Stdlib Require Import ZArith QArith Lia.
From stdpp Require Import gmap list.
From S2P Require Import Prelude Rng PriorityQueue Events Machine Engine Experiments.
From S2P Require Import Refinement Correctness.

(** What a run shows of its state: everything but the pending events. *)
Record view : Type := View {
  v_t : Z;
  v_n_a : nat;
  v_n_d : nat;
  v_q : trace;
  v_a : trace;
  v_d : trace;
  v_queue : list (list nat);
}.

Definition view_init (n : nat) : view :=
  {| v_t := 0; v_n_a := 0; v_n_d := 0;
     v_q := replicate n ∅; v_a := replicate n ∅; v_d := replicate n ∅;
     v_queue := replicate n [] |}.

Definition view_of (s : mstate) : view :=
  {| v_t := m_t s; v_n_a := m_n_a s; v_n_d := m_n_d s;
     v_q := m_q s; v_a := m_a s; v_d := m_d s; v_queue := m_queue s |}.

(** What the step labelled [l] does to the view. *)
Definition replay_step (v : view) (l : label) : view :=
  match l with
  | Asigned t c i _ =>
      {| v_t := t; v_n_a := v_n_a v + (if decide (i = 0) then 1 else 0); v_n_d := v_n_d v;
         v_q := add_time (v_q v) i c t; v_a := v_a v; v_d := v_d v;
         v_queue := alter (λ queue_i, queue_i ++ [c]) i (v_queue v) |}
  | Arrival t c i =>
      {| v_t := t; v_n_a := v_n_a v; v_n_d := v_n_d v;
         v_q := v_q v; v_a := add_time (v_a v) i c t; v_d := v_d v;
         v_queue := v_queue v |}
  | Finish t c i next =>
      {| v_t := t; v_n_a := v_n_a v;
         v_n_d := v_n_d v + (if next is None then 1 else 0);
         v_q := v_q v; v_a := v_a v; v_d := add_time (v_d v) i c t;
         v_queue := alter tail i (v_queue v) |}
  end.

(** The view after the steps labelled [ls], in a network of [n] stations. *)
Definition replay (n : nat) (ls : list label) : view := foldl replay_step (view_init n) ls.

(** The tuple [(t, n, n_a, n_d, q, a, d)] of a view. *)
Definition view_output (n : Z) (v : view) : output :=
  (v_t v, n, v_n_a v, v_n_d v, v_q v, v_a v, v_d v).

(** The time at which client [c] joins the queue of station [i], starts
    service there, or completes service there, in a step labelled [l]. *)
Definition joined_time (i c : nat) (l : label) : option Z :=
  match l with
  | Asigned t c' i' _ => if decide (i' = i ∧ c' = c) then Some t else None
  | _ => None
  end.

Definition started_time (i c : nat) (l : label) : option Z :=
  match l with
  | Arrival t c' i' => if decide (i' = i ∧ c' = c) then Some t else None
  | _ => None
  end.

Definition completed_time (i c : nat) (l : label) : option Z :=
  match l with
  | Finish t c' i' _ => if decide (i' = i ∧ c' = c) then Some t else None
  | _ => None
  end.

(** * Lemmas *)

Lemma replay_snoc n ls l : replay n (ls ++ [l]) = replay_step (replay n ls) l.
Proof. unfold replay. by rewrite foldl_app. Qed.

(** Replacing an item by its image is altering it. *)
Lemma insert_alter {A} (f : A → A) (l : list A) i x :
  l !! i = Some x → <[i := f x]> l = alter f i l.
Proof.
  revert i. induction l as [|y l IH]; intros [|i] Hi; simplify_eq/=; [done|].
  by rewrite IH.
Qed.

Lemma replay_shape n ls :
  length (v_q (replay n ls)) = n ∧ length (v_a (replay n ls)) = n ∧
  length (v_d (replay n ls)) = n.
Proof.
  induction ls as [|l ls IH] using rev_ind; [simpl; by rewrite !length_replicate|].
  rewrite replay_snoc. destruct l; simpl; by rewrite ?length_add_time.
Qed.

(** The tables of a replay hold the times of the labels, in their order. *)
Lemma replay_tables n ls i c :
  i < n →
  trace_get (v_q (replay n ls)) i c = omap (joined_time i c) ls ∧
  trace_get (v_a (replay n ls)) i c = omap (started_time i c) ls ∧
  trace_get (v_d (replay n ls)) i c = omap (completed_time i c) ls.
Proof.
  intros Hi. induction ls as [|l ls (IHq & IHa & IHd)] using rev_ind.
  { simpl. by rewrite !trace_get_replicate. }
  destruct (replay_shape n ls) as (Hq & Ha & Hd).
  rewrite replay_snoc, !omap_app. destruct l; simpl;
    rewrite ?trace_get_add_time, ?IHq, ?IHa, ?IHd, ?app_nil_r; split_and!; try done;
    repeat case_decide; destruct_and?; simplify_eq;
    rewrite ?IHq, ?IHa, ?IHd, ?app_nil_r; try done; exfalso; naive_solver lia.
Qed.

Section replay.
Context (n : nat) (horizon : Z).

(** A step of the machine is the step of the view under its label. *)
Lemma mstep_replay l s s' : mstep n horizon l s s' → view_of s' = replay_step (view_of s) l.
Proof.
  intros Hst. inv_mstep Hst; unfold view_of, replay_step; simpl; f_equal;
    try (by apply (insert_alter (λ queue_i, queue_i ++ [_])));
    try (by apply (insert_alter tail)); try (rewrite decide_False by done);
    by rewrite ?Nat.add_0_r.
Qed.

(** The round trip: the labels of a run, replayed, give its state. *)
Lemma mrun_replay ls s : mrun n horizon ls s → replay n ls = view_of s.
Proof.
  revert ls s. apply mrun_ind_inv; [done|].
  intros ls s l s' _ IH Hst. by rewrite replay_snoc, IH, (mstep_replay l s s').
Qed.
End replay.

Section engine_replay.
Context {R : RandomSource} `{!RandomSourceLaws R}.
Context {PQ : PriorityQueue event} `{!PriorityQueueLaws event_lt PQ}.
Context (cfg : config) (Hcfg : valid_config cfg).

Lemma servers_simulation_replay_output k fuel out k' :
  servers_simulation cfg k fuel = Finished (out, k') →
  view_output (arg_n cfg) (replay (stations cfg) (simulation_labels cfg k fuel)) = out.
Proof.
  intros (st & [= -> _] & _ & _ & Hrun & _)%servers_simulation_run; [|done].
  by rewrite (mrun_replay _ _ _ _ Hrun).
Qed.

(** C30: the tuple a call of [servers_simulation] returns is the replay of
    the labels of its iterations: the time of the last label, the number
    of admissions and of departures among the labels, and the tables that
    hold, per station and client, the times of the labels that join the
    queue, start service and complete service there, in the order of the
    run. *)
Theorem servers_simulation_replay k fuel out k' :
  servers_simulation cfg k fuel = Finished (out, k') →
  view_output (arg_n cfg) (replay (stations cfg) (simulation_labels cfg k fuel)) = out.
Proof. apply servers_simulation_replay_output. Qed.
End engine_replay.

Lemma servers_simulation_replay_witness :
  ∃ out k',
    servers_simulation (R:=feedback_source) (PQ:=list_pq event_lt)
      (at_horizon 6 experiment_6) 0 300 = Finished (out, k') ∧
    view_output 3 (replay 3 (simulation_labels (R:=feedback_source) (PQ:=list_pq event_lt)
                               (at_horizon 6 experiment_6) 0 300)) = out.
Proof.
  do 2 eexists. split; [vm_compute; reflexivity|].
  eapply (servers_simulation_replay (R:=feedback_source) (PQ:=list_pq event_lt)
            (at_horizon 6 experiment_6) (experiment_6_valid 6) 0 300).
  vm_compute; reflexivity.
Defined.
