(* ===== verification/Timestamps.v ===== *)
(** * Timestamps: the order of the recorded times

    [servers_simulation] records three times per visit of a client to a
    station: the entry in the queue (table [q]), the start of service
    (table [a]) and the completion (table [d]).  [metrics_by_simulation]
    subtracts them pairwise, so the waiting and service times it reports
    are meaningful only if, visit by visit, the entry is not after the
    start and the start is not after the completion.

    [times_ok] states this of a state of the machine, with the bound that
    makes it inductive: no recorded time is after the clock.  It is kept
    by every step ([mstep_times]), holds in every state of a run
    ([mrun_times]) and so of the tables a call returns
    ([servers_simulation_times]). *)

From Stdlib Require Import ZArith QArith Lia.
From stdpp Require Import gmap list.
From S2P Require Import Prelude Rng PriorityQueue Events Machine Engine Experiments.
From S2P Require Import Refinement Correctness.

(** Entry by entry, the times [xs] are not after the times [ys]. *)
Definition before (xs ys : list Z) : Prop :=
  ∀ j x y, xs !! j = Some x → ys !! j = Some y → (x ≤ y)%Z.

(** The times of the visits of one client to one station, at time [now]. *)
Record visit_times_ok (now : Z) (q_t a_t d_t : list Z) : Prop := {
  visit_q_past : Forall (λ x, (x ≤ now)%Z) q_t;
  visit_a_past : Forall (λ x, (x ≤ now)%Z) a_t;
  visit_d_past : Forall (λ x, (x ≤ now)%Z) d_t;
  visit_q_a : before q_t a_t;
  visit_a_d : before a_t d_t;
}.

Definition times_ok (s : mstate) : Prop :=
  ∀ i c, visit_times_ok (m_t s) (trace_get (m_q s) i c) (trace_get (m_a s) i c)
           (trace_get (m_d s) i c).

(** * Lemmas *)

Section before.
Implicit Types (xs ys : list Z) (t now : Z).

Lemma before_nil_l ys : before [] ys.
Proof. by intros j x y. Qed.

Lemma before_nil_r xs : before xs [].
Proof. by intros j x y. Qed.

(** A time appended on the left has no partner yet. *)
Lemma before_snoc_l xs ys t : length ys ≤ length xs → before xs ys → before (xs ++ [t]) ys.
Proof.
  intros Hlen Hb j x y [Hx|[Hj _]]%lookup_app_Some Hy; [by eapply Hb|].
  apply lookup_lt_Some in Hy. lia.
Qed.

(** A time appended on the right is after everything recorded so far. *)
Lemma before_snoc_r xs ys t :
  Forall (λ x, (x ≤ t)%Z) xs → before xs ys → before xs (ys ++ [t]).
Proof.
  intros Hxs Hb j x y Hx [Hy|[_ Hy]]%lookup_app_Some; [by eapply Hb|].
  apply list_lookup_singleton_Some in Hy as [_ <-].
  by apply (Forall_lookup_1 _ _ _ _ Hxs Hx).
Qed.

Lemma before_cons x y xs ys : before (x :: xs) (y :: ys) ↔ (x ≤ y)%Z ∧ before xs ys.
Proof.
  split.
  - intros Hb. split; [by apply (Hb 0)|]. intros j ????. by apply (Hb (S j)).
  - intros [Hxy Hb] [|j] ???; simpl; [naive_solver|by apply Hb].
Qed.

Lemma past_mono now t xs : (now ≤ t)%Z → Forall (λ x, (x ≤ now)%Z) xs → Forall (λ x, (x ≤ t)%Z) xs.
Proof. intros Ht Hxs. eapply Forall_impl; [done|]. intros x. simpl. lia. Qed.

Lemma past_snoc now t xs :
  (now ≤ t)%Z → Forall (λ x, (x ≤ now)%Z) xs → Forall (λ x, (x ≤ t)%Z) (xs ++ [t]).
Proof. intros Ht Hxs. apply Forall_app. split; [by eapply past_mono|by apply Forall_singleton]. Qed.
End before.

Section visit.
Context (now t : Z) (q_t a_t d_t : list Z).
Context (Ht : (now ≤ t)%Z) (Hok : visit_times_ok now q_t a_t d_t).

Lemma visit_times_mono : visit_times_ok t q_t a_t d_t.
Proof. destruct Hok. split; eauto using past_mono. Qed.

(** The client enters the queue at [t]. *)
Lemma visit_times_q : length a_t ≤ length q_t → visit_times_ok t (q_t ++ [t]) a_t d_t.
Proof. destruct Hok. split; eauto using past_mono, past_snoc, before_snoc_l. Qed.

(** The client starts service at [t]. *)
Lemma visit_times_a : length d_t ≤ length a_t → visit_times_ok t q_t (a_t ++ [t]) d_t.
Proof.
  destruct Hok. split; eauto using past_mono, past_snoc, before_snoc_l, before_snoc_r.
Qed.

(** The client ends service at [t]. *)
Lemma visit_times_d : visit_times_ok t q_t a_t (d_t ++ [t]).
Proof. destruct Hok. split; eauto using past_mono, past_snoc, before_snoc_r. Qed.
End visit.

Section machine_times.
Context (n : nat) (horizon : Z).

Lemma minit_times gap : times_ok (minit n gap).
Proof.
  intros i c. simpl. rewrite !trace_get_replicate.
  split; auto using before_nil_l.
Qed.

(** Every step keeps the times in order: it records the time of the event
    it takes, which is not before the clock, in one table. *)
Lemma mstep_times ls l s s' :
  minv n ls s → times_ok s → mstep n horizon l s s' → times_ok s'.
Proof.
  intros Hinv Hok Hst i c.
  pose proof (mstep_clock_mono _ _ _ _ _ (minv_clock _ _ _ Hinv) Hst) as Hmono.
  specialize (Hok i c). destruct (tables_ordered _ _ _ i c Hinv) as [Hda Haq].
  inv_mstep Hst; rewrite ?trace_get_add_time; repeat case_decide; destruct_and?; simplify_eq;
    eauto using visit_times_mono, visit_times_q, visit_times_a, visit_times_d.
Qed.

Lemma mrun_times ls s : 0 < n → mrun n horizon ls s → times_ok s.
Proof.
  intros Hn. revert ls s. apply mrun_ind_inv; [intros; apply minit_times|].
  intros ls s l s' Hrun Hok Hst. eapply mstep_times; [|done..].
  by apply (mrun_minv n horizon Hn).
Qed.
End machine_times.

Section engine_times.
Context {R : RandomSource} `{!RandomSourceLaws R}.
Context {PQ : PriorityQueue event} `{!PriorityQueueLaws event_lt PQ}.
Context (cfg : config) (Hcfg : valid_config cfg).

(** The tables a call returns, at one station and client. *)
Lemma servers_simulation_visit k fuel t n' n_a n_d q a d k' i c :
  servers_simulation cfg k fuel = Finished ((t, n', n_a, n_d, q, a, d), k') →
  visit_times_ok t (trace_get q i c) (trace_get a i c) (trace_get d i c).
Proof.
  intros (st & [= -> -> -> -> -> -> -> _] & _ & _ & Hrun & _)%servers_simulation_run; [|done].
  by apply (mrun_times _ _ _ _ (stations_pos cfg Hcfg)) in Hrun.
Qed.

(** C27: in the tables a call of [servers_simulation] returns, for every
    station and client and for every visit [j]: the entry in the queue is
    not after the start of service, the start of service is not after the
    completion, and none of them is after the time returned. *)
Theorem servers_simulation_times k fuel t n' n_a n_d q a d k' i c j t_q t_a :
  servers_simulation cfg k fuel = Finished ((t, n', n_a, n_d, q, a, d), k') →
  trace_get q i c !! j = Some t_q → trace_get a i c !! j = Some t_a →
  (t_q ≤ t_a ≤ t)%Z ∧
  ∀ t_d, trace_get d i c !! j = Some t_d → (t_a ≤ t_d ≤ t)%Z.
Proof.
  intros [_ Ha Hd Hqa Had]%(servers_simulation_visit _ _ _ _ _ _ _ _ _ _ i c) Hq Hta.
  split; [split; [by eapply Hqa|by apply (Forall_lookup_1 _ _ _ _ Ha Hta)]|].
  intros t_d Htd. split; [by eapply Had|by apply (Forall_lookup_1 _ _ _ _ Hd Htd)].
Qed.
End engine_times.

(** The first visit of the first client to the second station, in a run of
    the sixth experiment. *)
Lemma servers_simulation_times_witness :
  ∃ t n' n_a n_d q a d k' t_q t_a,
    servers_simulation (R:=mean_source) (PQ:=list_pq event_lt)
      (at_horizon 60 experiment_6) 0 200 = Finished ((t, n', n_a, n_d, q, a, d), k') ∧
    trace_get q 1 0 !! 0 = Some t_q ∧ trace_get a 1 0 !! 0 = Some t_a ∧
    (t_q ≤ t_a ≤ t)%Z ∧
    ∀ t_d, trace_get d 1 0 !! 0 = Some t_d → (t_a ≤ t_d ≤ t)%Z.
Proof.
  do 10 eexists. do 3 (split; [vm_compute; reflexivity|]).
  eapply (servers_simulation_times (R:=mean_source) (PQ:=list_pq event_lt)
            (at_horizon 60 experiment_6) (experiment_6_valid 60) 0 200);
    vm_compute; reflexivity.
Defined.
