(* ===== verification/Fifo.v ===== *)
(** * Fifo: the order of service at a station

    A station serves the clients of its queue first come, first served:
    [queue[i].append(index)] adds at the back, [queue[i].pop(0)] removes
    at the front, and the client in service is the front of the queue.

    The order is stated on the labels of a run.  [entered_at i ls] is the
    sequence of clients that joined the queue of station [i], in the
    order they joined; [finished_at i ls] the sequence of clients that
    completed service there.  In every state of a run the completions
    followed by the queue are the entries ([fifo_ok]): clients complete
    service in the order they joined, nobody is skipped, and the queue
    holds exactly those that have not completed. *)

From Stdlib Require Import ZArith QArith Lia.
From stdpp Require Import gmap list.
From S2P Require Import Prelude Rng PriorityQueue Events Machine Engine Experiments.
From S2P Require Import Refinement Correctness.

(** The client that joins the queue of station [i] in a step labelled [l]. *)
Definition entered (i : nat) (l : label) : option nat :=
  match l with
  | Asigned _ c i' _ => if decide (i' = i) then Some c else None
  | _ => None
  end.

(** The client that completes service at station [i] in a step labelled [l]. *)
Definition finished (i : nat) (l : label) : option nat :=
  match l with
  | Finish _ c i' _ => if decide (i' = i) then Some c else None
  | _ => None
  end.

Definition entered_at (i : nat) (ls : list label) : list nat := omap (entered i) ls.
Definition finished_at (i : nat) (ls : list label) : list nat := omap (finished i) ls.

(** First come, first served. *)
Definition fifo_ok (ls : list label) (s : mstate) : Prop :=
  ∀ i queue_i, m_queue s !! i = Some queue_i →
    finished_at i ls ++ queue_i = entered_at i ls.

(** * Lemmas *)

Lemma entered_at_snoc i ls l :
  entered_at i (ls ++ [l]) = entered_at i ls ++ option_list (entered i l).
Proof. unfold entered_at. rewrite omap_app. simpl. by destruct (entered i l). Qed.

Lemma finished_at_snoc i ls l :
  finished_at i (ls ++ [l]) = finished_at i ls ++ option_list (finished i l).
Proof. unfold finished_at. rewrite omap_app. simpl. by destruct (finished i l). Qed.

(** The queue a completion at station [i] finds has its client in front. *)
Lemma finish_head s t c i rest queue_i :
  stations_ok s → takes s (t, (FINISH, c, i)) rest → m_queue s !! i = Some queue_i →
  queue_i = c :: tail queue_i.
Proof.
  intros Hst [Hp _] Hq.
  destruct (station_take_here _ _ _ _ _ _ _ Hp ltac:(done) (Hst _ _ Hq)) as [Hh _].
  by destruct queue_i; simplify_eq/=.
Qed.

Section fifo.
Context (n : nat) (horizon : Z).

Lemma minit_fifo gap : fifo_ok [] (minit n gap).
Proof. by intros i queue_i [-> _]%lookup_replicate. Qed.

(** The queue of station [i'] after a step that replaces the queue of
    station [i]. *)
Lemma queue_after (queue : list (list nat)) i i' queue_i new q' :
  queue !! i = Some queue_i → <[i := new]> queue !! i' = Some q' →
  if decide (i = i') then q' = new else queue !! i' = Some q'.
Proof.
  intros Hi%lookup_lt_Some. rewrite list_lookup_insert_Some. case_decide; naive_solver.
Qed.

Lemma mstep_fifo ls l s s' :
  stations_ok s → fifo_ok ls s → mstep n horizon l s s' → fifo_ok (ls ++ [l]) s'.
Proof.
  intros Hst Hok Hstep i' q' Hq'.
  rewrite entered_at_snoc, finished_at_snoc.
  inv_mstep Hstep; try (rewrite !app_nil_r; by apply Hok);
    match goal with Hq : m_queue s !! ?i = Some ?q |- _ =>
      try pose proof (finish_head _ _ _ _ _ _ Hst ltac:(eassumption) Hq) as Hhd;
      pose proof (queue_after _ _ _ _ _ _ Hq Hq') as Hnew;
      pose proof (Hok _ _ Hq) as Hi end;
    repeat case_decide; simplify_eq/=; rewrite ?app_nil_r; try (by apply Hok);
    rewrite <- ?Hi, <- ?app_assoc; simpl; congruence.
Qed.

Lemma mrun_fifo ls s : 0 < n → mrun n horizon ls s → fifo_ok ls s.
Proof.
  intros Hn. revert ls s. apply mrun_ind_inv; [intros; apply minit_fifo|].
  intros ls s l s' Hrun Hok Hst. eapply mstep_fifo; [|done..].
  by apply (mrun_minv n horizon Hn) in Hrun as [].
Qed.
End fifo.

Section engine_fifo.
Context {R : RandomSource} `{!RandomSourceLaws R}.
Context {PQ : PriorityQueue event} `{!PriorityQueueLaws event_lt PQ}.
Context (cfg : config) (Hcfg : valid_config cfg).

(** C26: at every station the clients complete service in the order they
    joined the queue: when a call of [servers_simulation] returns, the
    sequence of completions at station [i] is an initial part of the
    sequence of entries in its queue, and with [finish] set it is the
    whole sequence. *)
Theorem servers_simulation_fifo k fuel out k' i :
  i < stations cfg →
  servers_simulation cfg k fuel = Finished (out, k') →
  finished_at i (simulation_labels cfg k fuel) `prefix_of`
    entered_at i (simulation_labels cfg k fuel) ∧
  (arg_finish cfg = true →
   finished_at i (simulation_labels cfg k fuel) = entered_at i (simulation_labels cfg k fuel)).
Proof.
  intros Hi (st & _ & Hc & Hwf & Hrun & [[_ _ _ Hlen _] Hst _ _ _])%servers_simulation_run;
    [|done].
  apply (mrun_fifo _ _ _ _ (stations_pos cfg Hcfg)) in Hrun as Hfifo.
  destruct (lookup_lt_is_Some_2 (m_queue (abs st)) i) as [queue_i Hq]; [by rewrite Hlen|].
  specialize (Hfifo i queue_i Hq). rewrite <- Hfifo. split; [by eexists|].
  intros Hf. apply (loop_cond_drained cfg st Hf) in Hc; [|done]. simpl in Hc.
  specialize (Hst i queue_i Hq). unfold station_ok in Hst. simpl in Hst. rewrite Hc in Hst.
  destruct queue_i; [by rewrite app_nil_r|]. by destruct Hst as (? & ? & _).
Qed.
End engine_fifo.

Lemma servers_simulation_fifo_witness :
  ∃ out k',
    servers_simulation (R:=feedback_source) (PQ:=list_pq event_lt)
      (at_horizon 6 experiment_6) 0 300 = Finished (out, k') ∧
    finished_at 1 (simulation_labels (R:=feedback_source) (PQ:=list_pq event_lt)
                     (at_horizon 6 experiment_6) 0 300) `prefix_of`
      entered_at 1 (simulation_labels (R:=feedback_source) (PQ:=list_pq event_lt)
                      (at_horizon 6 experiment_6) 0 300) ∧
    (arg_finish (at_horizon 6 experiment_6) = true →
     finished_at 1 (simulation_labels (R:=feedback_source) (PQ:=list_pq event_lt)
                      (at_horizon 6 experiment_6) 0 300) =
     entered_at 1 (simulation_labels (R:=feedback_source) (PQ:=list_pq event_lt)
                     (at_horizon 6 experiment_6) 0 300)).
Proof.
  do 2 eexists. split; [vm_compute; reflexivity|].
  eapply (servers_simulation_fifo (R:=feedback_source) (PQ:=list_pq event_lt)
            (at_horizon 6 experiment_6) (experiment_6_valid 6) 0 300);
    [vm_compute; lia|vm_compute; reflexivity].
Defined.
