(* ===== verification/Chains.v ===== *)
(** * Chains: the pending external arrivals

    The arrival process is a chain: the admission of a client at the first
    station schedules the arrival of the next one.  [servers_simulation]
    starts one chain, before its loop.  An assignment to station 0 is
    handled as an external arrival whatever its origin, so a client that
    is sent back to station 0 starts a chain of its own, and the rate of
    admissions grows with every such client.

    [chains_ok] bounds the chains: the pending assignments to station 0
    are at most one more than the completions that sent a client back
    there.  A network of one or two stations sends nobody back, and has
    one chain; a run with feedback that reaches two pending arrivals shows
    that the bound is met ([recycle_second_chain]). *)

From Stdlib Require Import ZArith QArith Lia.
From stdpp Require Import gmap list.
From S2P Require Import Prelude Rng PriorityQueue Events Machine Engine Experiments.
From S2P Require Import Refinement Correctness.

(** A pending assignment to the first station. *)
Definition is_external (x : event) : Prop := ev_type x = ASIGNED ∧ ev_server x = 0.

#[export] Instance is_external_dec x : Decision (is_external x).
Proof. unfold is_external. apply _. Defined.

Definition external_pending (s : mstate) : nat := count_if is_external (m_pending s).

(** One chain, and one more per client sent back to the first station. *)
Definition chains_ok (ls : list label) (s : mstate) : Prop :=
  external_pending s ≤ 1 + recycled ls.

(** The state after [j] iterations of the loop, if the loop runs that long. *)
Fixpoint state_after {R : RandomSource} {PQ : PriorityQueue event}
    (cfg : config) (j : nat) (st : state) : option state :=
  match j with
  | O => Some st
  | S j' =>
      if loop_cond cfg st then
        match loop_body cfg st with
        | Ok st' => state_after cfg j' st'
        | Raise _ => None
        end
      else None
  end.

(** * Lemmas *)

Lemma is_external_iff t e c i : is_external (t, (e, c, i)) ↔ e = ASIGNED ∧ i = 0.
Proof. done. Qed.

Lemma start_if_idle_external t c i q : count_if is_external (start_if_idle t c i q) = 0.
Proof. destruct q; simpl; [|done]. rewrite count_if_cons, decide_False; [done|]. by intros []. Qed.

Lemma start_next_external t i q : count_if is_external (start_next t i q) = 0.
Proof. destruct q; simpl; [done|]. rewrite count_if_cons, decide_False; [done|]. by intros []. Qed.

(** Decide the tests on events left by a case analysis. *)
Ltac decide_external :=
  repeat match goal with
  | H : is_external (_, _) |- _ => apply is_external_iff in H
  | H : ¬ is_external (_, _) |- _ => rewrite is_external_iff in H
  end.

Section chains.
Context (n : nat) (horizon : Z).

Lemma minit_chains gap : chains_ok [] (minit n gap).
Proof. unfold chains_ok, external_pending. simpl. rewrite count_if_cons, count_if_nil. case_decide; lia. Qed.

(** A step adds a pending arrival only by sending a client back. *)
Lemma mstep_chains ls l s s' :
  chains_ok ls s → mstep n horizon l s s' → chains_ok (ls ++ [l]) s'.
Proof.
  unfold chains_ok, external_pending. intros Hok Hst. rewrite recycled_snoc. revert Hok.
  inv_mstep Hst;
    match goal with Ht : takes _ _ _ |- _ => destruct Ht as [Hp _] end;
    match goal with Hp' : ?p ≡ₚ _ |- _ => is_var p; rewrite Hp'; clear Hp' end;
    rewrite Hp; autorewrite with sim_rw;
    rewrite ?start_if_idle_external, ?start_next_external;
    unfold is_recycle; simpl;
    repeat (case_decide; decide_external; destruct_and?; simplify_eq);
    autorewrite with sim_rw; simpl;
    repeat (case_decide; decide_external; destruct_and?; simplify_eq);
    try lia; naive_solver lia.
Qed.

Lemma mrun_chains ls s : mrun n horizon ls s → chains_ok ls s.
Proof.
  revert ls s. apply mrun_ind_inv; [intros; apply minit_chains|].
  intros ls s l s' _ Hok Hst. by eapply mstep_chains.
Qed.
End chains.

Section engine_chains.
Context {R : RandomSource} `{!RandomSourceLaws R}.
Context {PQ : PriorityQueue event} `{!PriorityQueueLaws event_lt PQ}.
Context (cfg : config) (Hcfg : valid_config cfg).

(** The states the loop goes through are reachable. *)
Lemma state_after_reachable k j st0 st :
  reachable cfg k st0 → state_after cfg j st0 = Some st → reachable cfg k st.
Proof.
  revert st0. induction j as [|j IH]; intros st0 Hr; simpl; [by intros [= <-]|].
  destruct (loop_cond cfg st0) eqn:Hc; [|done].
  destruct (loop_body cfg st0) as [st1|] eqn:Hb; [|done].
  apply IH. eapply reachable_step; [done|]. by constructor.
Qed.

(** In every state the loop of [servers_simulation] reaches, the
    pending assignments to the first station are at most one more than
    the completions that sent a client back there; a network of one or
    two stations has at most one. *)
Theorem reachable_chains k st :
  reachable cfg k st →
  ∃ ls, mrun (stations cfg) (arg_time cfg) ls (abs st) ∧
        external_pending (abs st) ≤ 1 + recycled ls ∧
        ((arg_n cfg ≤ 2)%Z → external_pending (abs st) ≤ 1).
Proof.
  intros [_ [ls Hrun]]%(reachable_inv cfg Hcfg). exists ls.
  pose proof (mrun_chains _ _ _ _ Hrun) as Hok. unfold chains_ok in Hok.
  split_and!; [done..|]. intros Hn.
  rewrite (mrun_no_recycle (stations cfg) (arg_time cfg) ls (abs st)) in Hok;
    [lia|apply (stations_pos cfg Hcfg)|lia|done].
Qed.
End engine_chains.

(** The bound is met: in this run the first client is sent back to the
    first station, is admitted again after nine iterations, and after the
    tenth two arrivals are pending, each of which schedules the next. *)
Lemma recycle_second_chain :
  ∃ st0 st : state (PQ:=list_pq event_lt),
    init_state (R:=feedback_source) (at_horizon 6 experiment_6) 0 = Ok st0 ∧
    state_after (R:=feedback_source) (at_horizon 6 experiment_6) 10 st0 = Some st ∧
    reachable (R:=feedback_source) (at_horizon 6 experiment_6) 0 st ∧
    external_pending (abs st) = 2.
Proof.
  do 2 eexists. split; [vm_compute; reflexivity|]. split; [vm_compute; reflexivity|].
  split; [|by vm_compute].
  eapply (state_after_reachable (R:=feedback_source) _ 0 10);
    [apply reachable_init; vm_compute; reflexivity|vm_compute; reflexivity].
Qed.

Lemma reachable_chains_witness :
  ∃ (st : state (PQ:=list_pq event_lt)) ls,
    reachable (R:=feedback_source) (at_horizon 6 experiment_6) 0 st ∧
    mrun 3 6 ls (abs st) ∧
    external_pending (abs st) ≤ 1 + recycled ls ∧
    ((arg_n (at_horizon 6 experiment_6) ≤ 2)%Z → external_pending (abs st) ≤ 1).
Proof.
  eexists.
  assert (reachable (R:=feedback_source) (PQ:=list_pq event_lt) (at_horizon 6 experiment_6) 0 _)
    as Hr by (apply reachable_init; vm_compute; reflexivity).
  destruct (reachable_chains (at_horizon 6 experiment_6) (experiment_6_valid 6) 0 _ Hr)
    as (ls & Hrun & Hok).
  by exists ls.
Defined.
