(* ===== verification/Visits.v ===== *)
(** * Visits: the path of a client through the stations

    When no client is sent back, a client goes through the stations
    [0, 1, ..., n-1] once each, in this order.  This file proves it of
    the tables [q], [a] and [d], which [metrics_by_simulation] reads under
    that assumption.

    The steps are read through their labels: a step appends its time to
    one table, for the station and the client of its label
    ([mstep_record]), and moves at most one client between two stations
    ([mstep_transit]).  Three invariants follow:

    - [admitted_ok]: the identities [0 .. n_a - 1], and no other, have one
      entry time at the first station;
    - [flow_ok]: in a run that sends no client back, the entries of a
      client at station [j + 1], together with its pending assignments
      there, are its completions at station [j];
    - [first_ok]: the entry time of a client at the first station is its
      earliest recorded time.

    In a state without pending events they give [drained_visits]: every
    admitted client has exactly one entry, one service start and one
    completion at every station. *)

From Stdlib Require Import ZArith QArith Lia.
From stdpp Require Import gmap list.
From S2P Require Import Prelude Rng PriorityQueue Events Machine Engine Experiments.
From S2P Require Import Refinement Correctness Termination Timestamps.

(** A pending assignment of client [c] to station [j]. *)
Definition is_transit_of (j c : nat) (x : event) : Prop :=
  ev_type x = ASIGNED ∧ ev_server x = j ∧ ev_client x = c.

#[export] Instance is_transit_of_dec j c x : Decision (is_transit_of j c x).
Proof. unfold is_transit_of. apply _. Defined.

(** The number of times (0 or 1) client [c] joins the queue of station
    [j], starts service there, completes service there, and is routed to
    station [j], in a step labelled [l]. *)
Definition joined (j c : nat) (l : label) : nat :=
  match l with
  | Asigned _ c' j' _ => if decide (j' = j ∧ c' = c) then 1 else 0
  | _ => 0
  end.

Definition started (j c : nat) (l : label) : nat :=
  match l with
  | Arrival _ c' j' => if decide (j' = j ∧ c' = c) then 1 else 0
  | _ => 0
  end.

Definition completed (j c : nat) (l : label) : nat :=
  match l with
  | Finish _ c' j' _ => if decide (j' = j ∧ c' = c) then 1 else 0
  | _ => 0
  end.

Definition routed (j c : nat) (l : label) : nat :=
  match l with
  | Finish _ c' _ (Some j') => if decide (j' = j ∧ c' = c) then 1 else 0
  | _ => 0
  end.

(** The identities admitted so far are those with an entry at station 0. *)
Definition admitted_ok (s : mstate) : Prop :=
  ∀ c, length (trace_get (m_q s) 0 c) = if decide (c < m_n_a s) then 1 else 0.

(** What leaves station [j] forward has entered station [j + 1] or is on
    its way there. *)
Definition flow_ok (n : nat) (s : mstate) : Prop :=
  ∀ j c, S j < n →
    length (trace_get (m_q s) (S j) c) + count_if (is_transit_of (S j) c) (m_pending s) =
    length (trace_get (m_d s) j c).

(** The times recorded for client [c] at station [i]. *)
Definition visit_times (s : mstate) (i c : nat) : list Z :=
  trace_get (m_q s) i c ++ trace_get (m_a s) i c ++ trace_get (m_d s) i c.

(** No time of a client is before its entry at the first station. *)
Definition first_ok (s : mstate) : Prop :=
  ∀ c t_in, trace_get (m_q s) 0 c !! 0 = Some t_in →
    ∀ i, Forall (λ x, (t_in ≤ x)%Z) (visit_times s i c).

(** The invariants of a run that sends no client back. *)
Record visits_ok (n : nat) (s : mstate) : Prop := {
  visits_admitted : admitted_ok s;
  visits_flow : flow_ok n s;
  visits_first : first_ok s;
  visits_times : times_ok s;
}.

(** * Lemmas *)

Lemma trace_get_beyond (x : trace) i c : length x ≤ i → trace_get x i c = [].
Proof. intros Hi. unfold trace_get. by rewrite lookup_ge_None_2. Qed.

Lemma is_transit_of_iff j c' t e c i :
  is_transit_of j c' (t, (e, c, i)) ↔ e = ASIGNED ∧ i = j ∧ c = c'.
Proof. done. Qed.

Lemma start_if_idle_transit_of t c i q j c' :
  count_if (is_transit_of j c') (start_if_idle t c i q) = 0.
Proof. destruct q; simpl; [|done]. rewrite count_if_cons, decide_False; [done|]. by intros []. Qed.

Lemma start_next_transit_of t i q j c' :
  count_if (is_transit_of j c') (start_next t i q) = 0.
Proof. destruct q; simpl; [done|]. rewrite count_if_cons, decide_False; [done|]. by intros []. Qed.

(** Decide the tests on events left by a case analysis. *)
Ltac decide_transit :=
  repeat match goal with
  | H : is_transit_of _ _ (_, _) |- _ => apply is_transit_of_iff in H
  | H : ¬ is_transit_of _ _ (_, _) |- _ => rewrite is_transit_of_iff in H
  end.

Section steps.
Context (n : nat) (horizon : Z).

(** A step appends the time it sets the clock to, to the table, station
    and client of its label. *)
Lemma mstep_record l s s' i c :
  shape_ok n s → mstep n horizon l s s' →
  trace_get (m_q s') i c = trace_get (m_q s) i c ++ replicate (joined i c l) (m_t s') ∧
  trace_get (m_a s') i c = trace_get (m_a s) i c ++ replicate (started i c l) (m_t s') ∧
  trace_get (m_d s') i c = trace_get (m_d s) i c ++ replicate (completed i c l) (m_t s').
Proof.
  intros [Hlq Hla Hld _ Hsv] Hst.
  inv_mstep Hst;
    match goal with Ht : takes _ _ _ |- _ =>
      destruct (takes_Forall _ _ _ _ Ht Hsv) as [Hx _] end;
    ev_simpl; rewrite ?trace_get_add_time, ?app_nil_r; split_and!; try done;
    repeat case_decide; simpl; rewrite ?app_nil_r; try done; naive_solver lia.
Qed.

(** A step admits at most one client, under the next identity. *)
Lemma mstep_admits l s s' c :
  mstep n horizon l s s' →
  m_n_a s ≤ m_n_a s' ≤ S (m_n_a s) ∧
  joined 0 c l = if decide (c = m_n_a s) then m_n_a s' - m_n_a s else 0.
Proof.
  intros Hst. inv_mstep Hst; (split; [lia|]); repeat case_decide; try lia; naive_solver lia.
Qed.

(** The assignments to a station other than the first that a step adds
    and removes. *)
Lemma mstep_transit l s s' j c :
  j ≠ 0 → mstep n horizon l s s' →
  count_if (is_transit_of j c) (m_pending s') + joined j c l =
  count_if (is_transit_of j c) (m_pending s) + routed j c l.
Proof.
  intros Hj Hst.
  inv_mstep Hst;
    match goal with Ht : takes _ _ _ |- _ => destruct Ht as [Hp _] end;
    match goal with Hp' : ?p ≡ₚ _ |- _ => is_var p; rewrite Hp'; clear Hp' end;
    rewrite Hp; autorewrite with sim_rw;
    rewrite ?start_if_idle_transit_of, ?start_next_transit_of;
    repeat (case_decide; decide_transit; destruct_and?; simplify_eq);
    autorewrite with sim_rw; simpl;
    repeat (case_decide; decide_transit; destruct_and?; simplify_eq);
    try lia; naive_solver lia.
Qed.

(** A completion that sends no client back, at a station other than the
    last, routes its client to the next station. *)
Lemma mstep_routed l s s' j c :
  S j < n → forward_label l → mstep n horizon l s s' → routed (S j) c l = completed j c l.
Proof.
  intros Hj Hl Hst. inv_mstep Hst; try done; repeat case_decide; naive_solver lia.
Qed.
End steps.

Section invariants.
Context (n : nat) (horizon : Z) (Hn : 0 < n).

Lemma minit_visits gap : visits_ok n (minit n gap).
Proof.
  split.
  - intros c. simpl. by rewrite trace_get_replicate.
  - intros j c Hj. simpl.
    rewrite !trace_get_replicate, count_if_cons, decide_False, count_if_nil; [done|].
    by intros (_ & ? & _).
  - intros c t_in. simpl. by rewrite trace_get_replicate.
  - apply minit_times.
Qed.

Lemma mstep_admitted l s s' :
  shape_ok n s → admitted_ok s → mstep n horizon l s s' → admitted_ok s'.
Proof.
  intros Hsh Hok Hst c. destruct (mstep_record n horizon l s s' 0 c Hsh Hst) as [-> _].
  destruct (mstep_admits n horizon l s s' c Hst) as [Hna ->].
  rewrite length_app, length_replicate, Hok. repeat case_decide; lia.
Qed.

Lemma mstep_flow l s s' :
  shape_ok n s → forward_label l → flow_ok n s → mstep n horizon l s s' → flow_ok n s'.
Proof.
  intros Hsh Hl Hok Hst j c Hj.
  destruct (mstep_record n horizon l s s' (S j) c Hsh Hst) as [-> _].
  destruct (mstep_record n horizon l s s' j c Hsh Hst) as (_ & _ & ->).
  pose proof (mstep_transit n horizon l s s' (S j) c ltac:(done) Hst).
  pose proof (mstep_routed n horizon l s s' j c Hj Hl Hst).
  specialize (Hok j c Hj). rewrite !length_app, !length_replicate. lia.
Qed.

(** A client enters a station at most as often as the first station. *)
Lemma entries_le ls s i c :
  minv n ls s → flow_ok n s →
  length (trace_get (m_q s) i c) ≤ length (trace_get (m_q s) 0 c).
Proof.
  intros Hinv Hflow. induction i as [|j IH]; [done|].
  destruct (decide (S j < n)) as [Hj|Hj].
  - specialize (Hflow j c Hj). destruct (tables_ordered n ls s j c Hinv). lia.
  - rewrite trace_get_beyond; [simpl; lia|]. destruct Hinv as [[-> _ _ _ _] _ _ _ _]. lia.
Qed.

(** A client that has not entered the first station has no time recorded. *)
Lemma fresh_client ls s i c :
  minv n ls s → flow_ok n s → trace_get (m_q s) 0 c = [] → visit_times s i c = [].
Proof.
  intros Hinv Hflow H0. pose proof (entries_le ls s i c Hinv Hflow) as Hq.
  rewrite H0 in Hq. destruct (tables_ordered n ls s i c Hinv). unfold visit_times.
  rewrite (nil_length_inv (trace_get (m_q s) i c)), (nil_length_inv (trace_get (m_a s) i c)),
    (nil_length_inv (trace_get (m_d s) i c)); simpl in *; [done|lia..].
Qed.

(** What holds of the recorded times and of the new clock holds of the
    times recorded after a step. *)
Lemma visit_times_Forall (P : Z → Prop) l s s' i c :
  shape_ok n s → mstep n horizon l s s' →
  Forall P (visit_times s i c) → P (m_t s') → Forall P (visit_times s' i c).
Proof.
  intros Hsh Hst Hold Ht. unfold visit_times in *.
  destruct (mstep_record n horizon l s s' i c Hsh Hst) as (-> & -> & ->).
  rewrite !Forall_app in *. destruct_and!. split_and!; try done; by apply Forall_replicate.
Qed.

(** The entry time at the first station stays the earliest time of a
    client, as long as a client without one has no time at all. *)
Lemma mstep_first_fresh ls l s s' :
  minv n ls s → first_ok s → times_ok s →
  (∀ i c, trace_get (m_q s) 0 c = [] → visit_times s i c = []) →
  mstep n horizon l s s' → first_ok s'.
Proof.
  intros Hinv Hfi Hti Hfresh Hst c t_in Hin i.
  pose proof (mstep_clock_mono _ _ _ _ _ (minv_clock _ _ _ Hinv) Hst) as Hmono.
  destruct (mstep_record n horizon l s s' 0 c (minv_shape _ _ _ Hinv) Hst) as [Hq _].
  rewrite Hq in Hin. apply (visit_times_Forall _ l s); [by destruct Hinv|done|..].
  - destruct (trace_get (m_q s) 0 c) as [|x q_0] eqn:H0.
    + by rewrite (Hfresh i c H0).
    + apply Hfi. by rewrite H0.
  - destruct (trace_get (m_q s) 0 c) as [|x q_0] eqn:H0; simpl in Hin.
    + by apply lookup_replicate in Hin as [-> _].
    + injection Hin as ->. destruct (Hti 0 c) as [Hpast _ _ _ _].
      rewrite H0 in Hpast. apply Forall_cons in Hpast as [Hpast _]. lia.
Qed.

Lemma mstep_first ls l s s' :
  minv n ls s → visits_ok n s → mstep n horizon l s s' → first_ok s'.
Proof.
  intros Hinv [Had Hfl Hfi Hti] Hst. apply (mstep_first_fresh ls l s s'); try done.
  intros i c. by apply (fresh_client ls).
Qed.

Lemma mstep_visits ls l s s' :
  minv n ls s → forward_label l → visits_ok n s → mstep n horizon l s s' → visits_ok n s'.
Proof.
  intros Hinv Hl Hok Hst. pose proof Hinv as [Hsh _ _ _ _]. split.
  - eapply mstep_admitted; [done|apply Hok|done].
  - eapply mstep_flow; [done..|apply Hok|done].
  - by eapply mstep_first.
  - eapply mstep_times; [done|apply Hok|done].
Qed.

Lemma mrun_visits ls s :
  mrun n horizon ls s → Forall forward_label ls → visits_ok n s.
Proof.
  revert ls s. apply (mrun_ind_inv n horizon (λ ls s, Forall forward_label ls → visits_ok n s)).
  - intros gap Hg _. apply minit_visits.
  - intros ls s l s' Hrun IH Hst [Hls Hl%Forall_inv]%Forall_app.
    apply (mstep_visits ls l s s'); [by apply (mrun_minv n horizon Hn)|done|by apply IH|done].
Qed.
End invariants.

Section drained.
Context (n : nat) (horizon : Z).

Lemma drained_queue s i : stations_ok s → m_pending s = [] → m_queue s !!! i = [].
Proof.
  intros Hst Hp. rewrite list_lookup_total_alt.
  destruct (m_queue s !! i) as [queue_i|] eqn:Hq; [|done].
  specialize (Hst i queue_i Hq). unfold station_ok in Hst. rewrite Hp in Hst.
  destruct queue_i; [done|]. by destruct Hst as (? & ? & _).
Qed.

(** Without pending events every visit is complete. *)
Lemma drained_tables ls s i c :
  minv n ls s → m_pending s = [] →
  length (trace_get (m_q s) i c) = length (trace_get (m_d s) i c) ∧
  length (trace_get (m_a s) i c) = length (trace_get (m_d s) i c).
Proof.
  intros [_ Hst Hta _ _] Hp. destruct (Hta i c) as [Hq Ha].
  rewrite Hp, count_if_nil in Ha. rewrite drained_queue, count_if_nil in Hq by done. lia.
Qed.

Lemma drained_entries ls s i c :
  minv n ls s → visits_ok n s → m_pending s = [] → i < n →
  length (trace_get (m_q s) i c) = if decide (c < m_n_a s) then 1 else 0.
Proof.
  intros Hinv [Had Hfl _ _] Hp. induction i as [|j IH]; intros Hi; [apply Had|].
  specialize (Hfl j c Hi). rewrite Hp, count_if_nil in Hfl.
  destruct (drained_tables ls s j c Hinv Hp) as [Hq _]. rewrite <- IH by lia. lia.
Qed.

Lemma length_one {A} (l : list A) : length l = 1 → ∃ x, l = [x].
Proof. destruct l as [|x [|]]; try done. by exists x. Qed.

(** Without pending events every admitted client has visited every
    station once, at times in order, none before its admission. *)
Lemma drained_visits ls s i c :
  minv n ls s → visits_ok n s → m_pending s = [] → i < n → c < m_n_a s →
  ∃ t_q t_a t_d,
    trace_get (m_q s) i c = [t_q] ∧ trace_get (m_a s) i c = [t_a] ∧
    trace_get (m_d s) i c = [t_d] ∧ (t_q ≤ t_a ≤ t_d)%Z ∧
    ∀ t_in, trace_get (m_q s) 0 c = [t_in] → (t_in ≤ t_q)%Z.
Proof.
  intros Hinv Hok Hp Hi Hc. pose proof (drained_entries ls s i c Hinv Hok Hp Hi) as Hq.
  destruct (drained_tables ls s i c Hinv Hp) as [Hqd Had]. rewrite decide_True in Hq by done.
  destruct (length_one _ Hq) as [t_q Htq].
  destruct (length_one (trace_get (m_a s) i c)) as [t_a Hta]; [lia|].
  destruct (length_one (trace_get (m_d s) i c)) as [t_d Htd]; [lia|].
  exists t_q, t_a, t_d. destruct (visits_times _ _ Hok i c) as [_ _ _ Hqa Had'].
  rewrite Htq, Hta, Htd in *. split_and!; try done.
  - by apply (Hqa 0).
  - by apply (Had' 0).
  - intros t_in Hin. pose proof (visits_first _ _ Hok c t_in) as Hfirst.
    rewrite Hin in Hfirst. specialize (Hfirst eq_refl i). unfold visit_times in Hfirst.
    rewrite Htq in Hfirst. by apply Forall_cons in Hfirst as [? _].
Qed.
End drained.

Section engine_visits.
Context {R : RandomSource} `{!RandomSourceLaws R}.
Context {PQ : PriorityQueue event} `{!PriorityQueueLaws event_lt PQ}.
Context (cfg : config) (Hcfg : valid_config cfg) (Hfwd : forward_only cfg).

(** A call with [finish] set returns from a state without pending events,
    reached by the labels of the call, in which the invariants of this
    file hold. *)
Lemma servers_simulation_drained_run k fuel out k' :
  arg_finish cfg = true → servers_simulation cfg k fuel = Finished (out, k') →
  ∃ st, out = state_output cfg st ∧ st_n_d st = st_n_a st ∧
        mrun (stations cfg) (arg_time cfg) (simulation_labels cfg k fuel) (abs st) ∧
        minv (stations cfg) (simulation_labels cfg k fuel) (abs st) ∧
        visits_ok (stations cfg) (abs st) ∧ m_pending (abs st) = [].
Proof.
  intros Hf Hs.
  destruct (servers_simulation_empty cfg Hcfg k fuel out k' Hf Hs) as (st' & Hout & _ & Hna).
  rewrite forward_recycled in Hna by (by apply simulation_labels_forward).
  destruct (servers_simulation_run cfg Hcfg k fuel out k' Hs)
    as (st & [= Hout' _] & Hc & Hwf & Hrun & Hinv).
  exists st. split_and!; try done.
  - rewrite Hout' in Hout. unfold state_output in Hout. injection Hout as _ Hna' Hnd' _ _ _.
    lia.
  - eapply mrun_visits; [apply (stations_pos cfg Hcfg)|done|].
    by apply simulation_labels_forward.
  - by apply (loop_cond_drained cfg).
Qed.

Lemma servers_simulation_drained_state k fuel out k' :
  arg_finish cfg = true → servers_simulation cfg k fuel = Finished (out, k') →
  ∃ st ls, out = state_output cfg st ∧ st_n_d st = st_n_a st ∧
           minv (stations cfg) ls (abs st) ∧
           visits_ok (stations cfg) (abs st) ∧ m_pending (abs st) = [].
Proof.
  intros Hf (st & ? & ? & _ & ? & ? & ?)%servers_simulation_drained_run; [|done].
  by exists st, (simulation_labels cfg k fuel).
Qed.

(** C24: when no draw sends a client back and [finish] is set, every
    client admitted visits every station exactly once: the tables a call
    returns hold, for each station and each identity below [n_a], one
    entry time, one service-start time and one completion time, in this
    order, and none before the entry of the client at the first station. *)
Theorem servers_simulation_visits k fuel t n' n_a n_d q a d k' i c :
  arg_finish cfg = true →
  servers_simulation cfg k fuel = Finished ((t, n', n_a, n_d, q, a, d), k') →
  i < stations cfg → c < n_a →
  ∃ t_q t_a t_d,
    trace_get q i c = [t_q] ∧ trace_get a i c = [t_a] ∧ trace_get d i c = [t_d] ∧
    (t_q ≤ t_a ≤ t_d)%Z ∧ ∀ t_in, trace_get q 0 c = [t_in] → (t_in ≤ t_q)%Z.
Proof.
  intros Hf (st & ls & [= -> -> -> -> -> -> ->] & _ & Hinv & Hok & Hp)
    %servers_simulation_drained_state Hi Hc; [|done].
  by apply (drained_visits (stations cfg) ls (abs st)).
Qed.
End engine_visits.

Lemma servers_simulation_visits_witness :
  ∃ t n' n_a n_d q a d k',
    servers_simulation (R:=mean_source) (PQ:=list_pq event_lt)
      (at_horizon 60 experiment_6) 0 200 = Finished ((t, n', n_a, n_d, q, a, d), k') ∧
    ∃ t_q t_a t_d,
      trace_get q 2 3 = [t_q] ∧ trace_get a 2 3 = [t_a] ∧ trace_get d 2 3 = [t_d] ∧
      (t_q ≤ t_a ≤ t_d)%Z ∧ ∀ t_in, trace_get q 0 3 = [t_in] → (t_in ≤ t_q)%Z.
Proof.
  do 8 eexists. split; [vm_compute; reflexivity|].
  eapply (servers_simulation_visits (R:=mean_source) (PQ:=list_pq event_lt)
            (at_horizon 60 experiment_6) (experiment_6_valid 60)
            (mean_source_forward 60) 0 200);
    [done|vm_compute; reflexivity|vm_compute; lia..].
Defined.
