(* ===== verification/Identities.v ===== *)
(** * Identities: the clients a run names

    [servers_simulation] gives a client its identity when it is assigned
    to the first station: [index = c if i != 0 else n_a].  The identities
    in use are therefore [0 .. n_a - 1], also when clients are sent back:
    a client sent back to the first station is admitted under a new
    identity, a client sent back elsewhere keeps its own.

    [ids_ok] states it of a state of the machine: every client in a
    queue, in a table or in a pending event is below [n_a], except in a
    pending assignment to the first station, whose client is not read.
    It holds in every state of every run ([mrun_ids]), and with it the
    identities [0 .. n_a - 1], and no other, have an entry time at the
    first station ([mrun_admitted]).

    [metrics_by_simulation] loops over [range(n_a)]: by
    [servers_simulation_identities] it reads every time the run
    recorded. *)

From Stdlib Require Import ZArith QArith Lia.
From stdpp Require Import gmap list.
From S2P Require Import Prelude Rng PriorityQueue Events Machine Engine Experiments.
From S2P Require Import Refinement Correctness Termination Timestamps Fifo Visits.

(** The event carries the identity of a client: every event but an
    assignment to the first station, where [index] is [n_a]. *)
Definition names_client (x : event) : Prop :=
  ¬ (ev_type x = ASIGNED ∧ ev_server x = 0).

(** The client of a step. *)
Definition label_client (l : label) : nat :=
  match l with
  | Asigned _ c _ _ | Arrival _ c _ | Finish _ c _ _ => c
  end.

Definition pending_ids (s : mstate) : Prop :=
  ∀ x, x ∈ m_pending s → names_client x → ev_client x < m_n_a s.

Definition queue_ids (s : mstate) : Prop :=
  ∀ i queue_i c, m_queue s !! i = Some queue_i → c ∈ queue_i → c < m_n_a s.

Definition table_ids (s : mstate) : Prop :=
  ∀ i c, trace_get (m_q s) i c ≠ [] → c < m_n_a s.

(** The identities in use are below [n_a]. *)
Record ids_ok (s : mstate) : Prop := {
  ids_pending : pending_ids s;
  ids_queue : queue_ids s;
  ids_table : table_ids s;
}.

(** * Lemmas *)

Lemma takes_pending s x rest :
  takes s x rest → x ∈ m_pending s ∧ ∀ y, y ∈ rest → y ∈ m_pending s.
Proof. intros [Hp _]. split; [|intros y Hy]; rewrite Hp; [left|by right]. Qed.

Lemma start_if_idle_client t c i queue_i x :
  x ∈ start_if_idle t c i queue_i → ev_client x = c.
Proof. destruct queue_i; simpl; [|by intros ?%elem_of_nil]. by intros ->%list_elem_of_singleton. Qed.

Lemma start_next_client t i queue_i x :
  x ∈ start_next t i queue_i → ev_client x ∈ queue_i.
Proof.
  destruct queue_i; simpl; [by intros ?%elem_of_nil|]. intros ->%list_elem_of_singleton. left.
Qed.

Lemma elem_of_tail {A} (x : A) l : x ∈ tail l → x ∈ l.
Proof. destruct l; simpl; [done|by right]. Qed.

Section identities.
Context (n : nat) (horizon : Z).

Lemma minit_ids gap : ids_ok (minit n gap).
Proof.
  split.
  - intros x ->%list_elem_of_singleton []. done.
  - intros i queue_i c [-> _]%lookup_replicate ?%elem_of_nil. done.
  - intros i c. simpl. by rewrite trace_get_replicate.
Qed.

(** The client of a step has been admitted when the step is done. *)
Lemma mstep_client l s s' :
  pending_ids s → mstep n horizon l s s' → label_client l < m_n_a s'.
Proof.
  intros Hp Hst. inv_mstep Hst; [lia|..];
    match goal with Ht : takes _ _ _ |- _ => apply takes_pending in Ht as [Hx _] end;
    apply (Hp _ Hx); intros []; ev_simpl; done.
Qed.

Lemma mstep_pending_ids l s s' :
  ids_ok s → mstep n horizon l s s' → pending_ids s'.
Proof.
  intros [Hp Hq _] Hst x Hx Hn. pose proof (mstep_client l s s' Hp Hst) as Hc.
  assert (∀ y, y ∈ m_pending s → names_client y → ev_client y < m_n_a s') as Hold.
  { intros y Hy Hny. pose proof (Hp y Hy Hny). destruct (mstep_admits n horizon l s s' 0 Hst). lia. }
  inv_mstep Hst;
    match goal with Ht : takes _ _ _ |- _ => apply takes_pending in Ht as [_ Hrest] end;
    match goal with Hp' : ?p ≡ₚ _ |- _ => rewrite Hp' in Hx end;
    rewrite ?elem_of_app, ?elem_of_cons in Hx; destruct_or?; simplify_eq;
    try (by apply Hold; auto);
    try (by erewrite start_if_idle_client by done);
    try (by eapply Hq, elem_of_tail, start_next_client);
    try done.
  case_decide; [|by apply elem_of_nil in Hx].
  apply list_elem_of_singleton in Hx as ->. by destruct Hn.
Qed.

Lemma mstep_queue_ids l s s' :
  ids_ok s → mstep n horizon l s s' → queue_ids s'.
Proof.
  intros [Hp Hq _] Hst i' q' c Hq' Hc. pose proof (mstep_client l s s' Hp Hst) as Hl.
  assert (∀ i queue_i c, m_queue s !! i = Some queue_i → c ∈ queue_i → c < m_n_a s') as Hold.
  { intros i queue_i c' Hi Hc'. pose proof (Hq i queue_i c' Hi Hc').
    destruct (mstep_admits n horizon l s s' 0 Hst). lia. }
  inv_mstep Hst; try (by eapply Hold);
    match goal with Hi : m_queue s !! ?i = Some ?q |- _ =>
      pose proof (queue_after _ _ _ _ _ _ Hi Hq') as Hnew end;
    case_decide; simplify_eq; try (by eapply Hold);
    try (apply elem_of_app in Hc as [Hc| ->%list_elem_of_singleton]; [by eapply Hold|done]);
    by eapply Hold, elem_of_tail.
Qed.

Lemma mstep_table_ids l s s' :
  shape_ok n s → ids_ok s → mstep n horizon l s s' → table_ids s'.
Proof.
  intros Hsh [Hp _ Ht] Hst i c Hne. pose proof (mstep_client l s s' Hp Hst) as Hl.
  destruct (mstep_record n horizon l s s' i c Hsh Hst) as [Hq _]. rewrite Hq in Hne.
  destruct (mstep_admits n horizon l s s' 0 Hst) as [Hna _].
  destruct (decide (trace_get (m_q s) i c = [])) as [Hnil|Hold]; [|specialize (Ht i c Hold); lia].
  rewrite Hnil in Hne. destruct l as [t c' i' next| |]; simpl in *; try done.
  case_decide; [naive_solver|done].
Qed.

Lemma mstep_ids l s s' : shape_ok n s → ids_ok s → mstep n horizon l s s' → ids_ok s'.
Proof. split; eauto using mstep_pending_ids, mstep_queue_ids, mstep_table_ids. Qed.

Context (Hn : 0 < n).

Lemma mrun_ids ls s : mrun n horizon ls s → ids_ok s.
Proof.
  revert ls s. apply mrun_ind_inv; [intros; apply minit_ids|].
  intros ls s l s' Hrun Hok Hst. eapply mstep_ids; [|done..].
  by apply (mrun_minv n horizon Hn) in Hrun as [].
Qed.

(** The identities admitted, and no other, have an entry at the first
    station, whether clients are sent back or not. *)
Lemma mrun_admitted ls s : mrun n horizon ls s → admitted_ok s.
Proof.
  revert ls s. apply mrun_ind_inv.
  - intros gap _ c. simpl. by rewrite trace_get_replicate.
  - intros ls s l s' Hrun Hok Hst. apply (mstep_admitted n horizon Hn l s s'); [|done..].
    by apply (mrun_minv n horizon Hn) in Hrun as [].
Qed.

(** No time is recorded for an identity that has not been given. *)
Lemma mrun_unnamed ls s i c :
  mrun n horizon ls s → m_n_a s ≤ c → visit_times s i c = [].
Proof.
  intros Hrun Hc. pose proof (ids_table _ (mrun_ids ls s Hrun) i c) as Ht.
  destruct (tables_ordered n ls s i c (mrun_minv n horizon Hn ls s Hrun)) as [Hda Haq].
  destruct (decide (trace_get (m_q s) i c = [])) as [Hnil|Hne]; [|specialize (Ht Hne); lia].
  rewrite Hnil in *. unfold visit_times.
  rewrite Hnil, (nil_length_inv (trace_get (m_a s) i c)), (nil_length_inv (trace_get (m_d s) i c));
    simpl in *; [done|lia..].
Qed.
End identities.

Section engine_identities.
Context {R : RandomSource} `{!RandomSourceLaws R}.
Context {PQ : PriorityQueue event} `{!PriorityQueueLaws event_lt PQ}.
Context (cfg : config) (Hcfg : valid_config cfg).

(** The tables a call returns, by identity. *)
Lemma servers_simulation_named k fuel t n' n_a n_d q a d k' c :
  servers_simulation cfg k fuel = Finished ((t, n', n_a, n_d, q, a, d), k') →
  length (trace_get q 0 c) = (if decide (c < n_a) then 1 else 0) ∧
  (n_a ≤ c → ∀ i, trace_get q i c = [] ∧ trace_get a i c = [] ∧ trace_get d i c = []).
Proof.
  intros (st & [= -> -> -> -> -> -> -> _] & _ & _ & Hrun & _)%servers_simulation_run; [|done].
  pose proof (stations_pos cfg Hcfg) as Hn. split.
  - by apply (mrun_admitted _ _ Hn) in Hrun.
  - intros Hc i. pose proof (mrun_unnamed _ _ Hn _ _ i c Hrun Hc) as Hnil.
    by apply app_eq_nil in Hnil as [? [? ?]%app_eq_nil].
Qed.

(** C25: whether clients are sent back or not, the identities in the
    tables a call of [servers_simulation] returns are those below [n_a]:
    each of them has exactly one entry time at the first station, and no
    time at any station is recorded under another identity.  The loops of
    [metrics_by_simulation] over [range(n_a)] therefore read every time
    recorded. *)
Theorem servers_simulation_identities k fuel t n' n_a n_d q a d k' c :
  servers_simulation cfg k fuel = Finished ((t, n', n_a, n_d, q, a, d), k') →
  length (trace_get q 0 c) = (if decide (c < n_a) then 1 else 0) ∧
  (n_a ≤ c → ∀ i, trace_get q i c = [] ∧ trace_get a i c = [] ∧ trace_get d i c = []).
Proof. apply servers_simulation_named. Qed.
End engine_identities.

Lemma servers_simulation_identities_witness :
  ∃ t n' n_a n_d q a d k',
    servers_simulation (R:=feedback_source) (PQ:=list_pq event_lt)
      (at_horizon 6 experiment_6) 0 300 = Finished ((t, n', n_a, n_d, q, a, d), k') ∧
    length (trace_get q 0 7) = (if decide (7 < n_a) then 1 else 0) ∧
    (n_a ≤ 7 → ∀ i, trace_get q i 7 = [] ∧ trace_get a i 7 = [] ∧ trace_get d i 7 = []).
Proof.
  do 8 eexists. split; [vm_compute; reflexivity|].
  eapply (servers_simulation_identities (R:=feedback_source) (PQ:=list_pq event_lt)
            (at_horizon 6 experiment_6) (experiment_6_valid 6) 0 300).
  vm_compute; reflexivity.
Defined.
