(* ===== verification/Order.v ===== *)
(** * Order: clients leave in the order of their identities

    [metrics_by_simulation] takes the clients [0 .. n_d - 1] for those
    that left the network.  This file proves when that is right.

    - In every run at most one client is between two stations, and its
      assignment is due at the current time ([transit_ok]): a completion
      schedules the assignment at its own time, every pending event is
      later or of a later kind, so the assignment is processed before any
      other start or completion.
    - The clients admitted at the first station are [0, 1, ..., n_a - 1],
      in this order, in every run ([order_admitted]).
    - When no client is sent back, the clients that join the queue of
      station [j + 1], followed by the client on its way there, are the
      clients that completed service at station [j], in the same order
      ([order_flow]).

    With the service order of [Fifo] the clients complete service at
    every station in the order of their identities
    ([finished_at_identities]), so the [n_d] clients that left are
    [0 .. n_d - 1], each with exactly one visit to every station
    ([departed_visits]), and the others have no completion at the last
    station. *)

From Stdlib Require Import ZArith QArith Lia.
From stdpp Require Import gmap list.
From S2P Require Import Prelude Rng PriorityQueue Events Machine Engine Experiments.
From S2P Require Import Refinement Correctness Termination Timestamps Fifo Visits.

(** The pending assignments to a station other than the first. *)
Definition transits (pend : list event) : list event := filter is_transit pend.

(** At most one client is between two stations, and its assignment is due
    at the current time. *)
Definition transit_ok (s : mstate) : Prop :=
  length (transits (m_pending s)) ≤ 1 ∧
  Forall (λ x, ev_time x = m_t s) (transits (m_pending s)).

(** The assignment to a station other than the first that a step leaves
    pending. *)
Definition label_transit (l : label) : list event :=
  match l with
  | Finish t c _ (Some (S j)) => [(t, (ASIGNED, c, S j))]
  | _ => []
  end.

(** The client on its way to station [j]. *)
Definition going_to (j : nat) (pend : list event) : list nat :=
  ev_client <$> filter (λ x, ev_server x = j) (transits pend).

(** The order of the clients along the stations. *)
Record order_ok (n : nat) (ls : list label) (s : mstate) : Prop := {
  order_admitted : entered_at 0 ls = seq 0 (m_n_a s);
  order_departed : length (finished_at (n - 1) ls) = m_n_d s;
  order_flow : Forall forward_label ls → ∀ j, S j < n →
    entered_at (S j) ls ++ going_to (S j) (m_pending s) = finished_at j ls;
}.

(** [cfg] with the horizon [time] and [finish] unset: the run is cut at
    the horizon. *)
Definition cut_at (time : Z) (cfg : config) : config :=
  {| arg_time := time; arg_n := arg_n cfg;
     arg_lambda_arrival_time := arg_lambda_arrival_time cfg;
     arg_mu_wait_time := arg_mu_wait_time cfg; arg_p := arg_p cfg;
     arg_finish := false |}.

(** * Lemmas *)

(** Two lists with the same elements, at most one, are the same list. *)
Lemma short_perm {A} (l l' : list A) : l ≡ₚ l' → length l ≤ 1 → l = l'.
Proof.
  destruct l as [|x [|y l]]; simpl; intros Hp Hl; [|..|lia].
  - by apply Permutation_nil_l in Hp.
  - by apply Permutation_singleton_l in Hp.
Qed.

#[export] Instance transits_perm : Proper ((≡ₚ) ==> (≡ₚ)) transits.
Proof. intros l1 l2 Hl. unfold transits. by rewrite Hl. Qed.

Lemma transits_cons x l :
  transits (x :: l) = if decide (is_transit x) then x :: transits l else transits l.
Proof. unfold transits. by rewrite filter_cons. Qed.

Lemma transits_app l1 l2 : transits (l1 ++ l2) = transits l1 ++ transits l2.
Proof. apply filter_app. Qed.

Lemma start_if_idle_transits t c i q : transits (start_if_idle t c i q) = [].
Proof.
  destruct q; [|done]. simpl. rewrite transits_cons, decide_False; [done|]. by intros [].
Qed.

Lemma start_next_transits t i q : transits (start_next t i q) = [].
Proof.
  destruct q; [done|]. simpl. rewrite transits_cons, decide_False; [done|]. by intros [].
Qed.

Lemma next_arrival_transits (P : Prop) `{!Decision P} t c :
  transits (if decide P then [(t, (ASIGNED, c, 0))] else []) = [].
Proof. case_decide; [|done]. rewrite transits_cons, decide_False; [done|]. by intros []. Qed.

(** No client is between two stations when another event than an
    assignment is the first. *)
Lemma no_transit (tr : list event) (P : Prop) e :
  (tr ≠ [] → P ∧ e = ASIGNED) → e ≠ ASIGNED → tr = [].
Proof. destruct tr; [done|]. intros [_ ?]; done. Qed.

Section transit.
Context (n : nat) (horizon : Z).
Implicit Types (s : mstate) (x : event) (l : label).

(** While a client is between two stations the clock stands still and
    only assignments are processed. *)
Lemma takes_first s t e c i rest :
  clock_ok s → transit_ok s → takes s (t, (e, c, i)) rest → transits (m_pending s) ≠ [] →
  t = m_t s ∧ e = ASIGNED.
Proof.
  intros Hcl [_ Hnow] [Hp Hleast] Hne.
  destruct (transits (m_pending s)) as [|y tr] eqn:Htr; [done|].
  assert (is_transit y ∧ y ∈ m_pending s) as [[Hty _] Hy]
    by (apply (list_elem_of_filter is_transit); unfold transits in Htr; rewrite Htr; left).
  apply Forall_cons in Hnow as [Hyt _].
  unfold clock_ok in Hcl. rewrite Hp in Hcl, Hy. apply Forall_cons in Hcl as [Hx _].
  apply elem_of_cons in Hy as [->|Hy]; [by ev_simpl|].
  unfold is_least in Hleast. rewrite Forall_forall in Hleast. specialize (Hleast y Hy).
  destruct y as [t' [[e' c'] i']]. unfold le_of in Hleast. apply event_lt_false in Hleast.
  ev_simpl. subst e' t'. destruct e; simpl in *; naive_solver lia.
Qed.

(** The pending transit after a step, and before it. *)
Lemma mstep_transits l s s' :
  clock_ok s → transit_ok s → mstep n horizon l s s' →
  transits (m_pending s') =
    match l with
    | Asigned _ _ 0 _ => transits (m_pending s)
    | _ => label_transit l
    end ∧
  match l with
  | Asigned t c 0 _ => transits (m_pending s) ≠ [] → t = m_t s
  | Asigned t c (S j) _ => transits (m_pending s) = [(t, (ASIGNED, c, S j))]
  | _ => transits (m_pending s) = []
  end.
Proof.
  intros Hcl Hok Hst. pose proof Hok as [Hlen _].
  inv_mstep Hst;
    match goal with Ht : takes _ _ _ |- _ =>
      pose proof (takes_first _ _ _ _ _ _ Hcl Hok Ht) as Hfirst; destruct Ht as [Hp _] end;
    match goal with Hp' : ?p ≡ₚ _ |- transits ?p = _ ∧ _ =>
      apply transits_perm in Hp'; rename Hp' into Hnew end;
    apply transits_perm in Hp;
    rewrite ?transits_app, ?transits_cons, ?start_if_idle_transits, ?start_next_transits,
      ?next_arrival_transits in *;
    simpl in *;
    try (apply no_transit in Hfirst; [|done]; rewrite Hfirst in *;
         apply Permutation_nil_l in Hp; rewrite <- Hp in *).
  - split; [|naive_solver]. symmetry. apply short_perm; [by rewrite Hp, Hnew|done].
  - destruct i; [done|]. rewrite decide_True in Hp by done. apply short_perm in Hp; [|done].
    assert (transits rest = []) as Hr by (apply nil_length_inv; rewrite Hp in Hlen; simpl in *; lia).
    rewrite Hr in *.
    split; [by apply Permutation_nil_r in Hnew|done].
  - split; [by apply Permutation_nil_r in Hnew|done].
  - split; [by apply Permutation_nil_r in Hnew|done].
  - split; [|done]. destruct next; [by apply Permutation_nil_r in Hnew|].
    rewrite decide_True in Hnew by done. by apply Permutation_singleton_r in Hnew.
Qed.

(** Every step keeps at most one client between two stations. *)
Lemma mstep_transit_ok l s s' :
  clock_ok s → transit_ok s → mstep n horizon l s s' → transit_ok s'.
Proof.
  intros Hcl Hok Hst. destruct (mstep_transits l s s' Hcl Hok Hst) as [Hnew Hold].
  destruct Hok as [Hlen Hnow]. unfold transit_ok. rewrite Hnew.
  inv_mstep Hst; try (split; [simpl; lia|by constructor]).
  - split; [done|]. destruct (transits (m_pending s)); [done|].
    by rewrite Hold.
  - destruct i; [done|]. split; [simpl; lia|by constructor].
  - destruct next; (split; [simpl; lia|by repeat constructor]).
Qed.

Lemma minit_transit_ok gap : transit_ok (minit n gap).
Proof. split; [simpl; lia|by constructor]. Qed.

Lemma mrun_transit_ok ls s : mrun n horizon ls s → transit_ok s.
Proof.
  intros Hrun. pose proof Hrun as [_ Hcl]%mrun_time_nonneg. revert ls s Hrun Hcl.
  apply (mrun_ind_inv n horizon (λ _ s, clock_ok s → transit_ok s)).
  - intros; apply minit_transit_ok.
  - intros ls s l s' [_ Hcl]%mrun_time_nonneg IH Hst _. by eapply mstep_transit_ok; [|apply IH|].
Qed.
End transit.

(** ** The order along the stations *)

(** An initial part of [range(m)] is [range] of its length. *)
Lemma prefix_seq l m : l `prefix_of` seq 0 m → l = seq 0 (length l).
Proof.
  intros [k Hk]. pose proof (f_equal length Hk) as Hlen.
  rewrite length_seq, length_app in Hlen.
  apply (f_equal (take (length l))) in Hk. rewrite take_seq, take_app_length in Hk.
  rewrite Nat.min_l in Hk by lia. done.
Qed.

Lemma count_seq c k : count_if (λ c', c' = c) (seq 0 k) = if decide (c < k) then 1 else 0.
Proof.
  induction k as [|k IH]; [done|]. rewrite seq_S, count_if_app, count_if_cons, count_if_nil, IH.
  simpl. repeat case_decide; lia.
Qed.

Lemma going_to_nil j pend : transits pend = [] → going_to j pend = [].
Proof. unfold going_to. intros Htr. by rewrite Htr, filter_nil. Qed.

Lemma going_to_one j pend t c i :
  transits pend = [(t, (ASIGNED, c, i))] → going_to j pend = if decide (i = j) then [c] else [].
Proof.
  unfold going_to. intros Htr. rewrite Htr, filter_cons, filter_nil. ev_simpl. by case_decide.
Qed.

Section order.
Context (n : nat) (horizon : Z) (Hn : 0 < n).
Implicit Types (s : mstate) (l : label) (ls : list label).

(** What a step that sends no client back moves between station [j] and
    station [j + 1]. *)
Lemma mstep_going_to l s s' j :
  clock_ok s → transit_ok s → mstep n horizon l s s' → forward_label l → S j < n →
  option_list (entered (S j) l) ++ going_to (S j) (m_pending s') =
  going_to (S j) (m_pending s) ++ option_list (finished j l).
Proof.
  intros Hcl Hok Hst Hl Hj. destruct (mstep_transits n horizon l s s' Hcl Hok Hst) as [Hnew Hold].
  inv_mstep Hst.
  - unfold going_to. rewrite Hnew. simpl. by rewrite app_nil_r.
  - destruct i as [|i]; [done|]. rewrite (going_to_nil _ pend'), (going_to_one _ _ _ _ _ Hold) by done.
    rewrite !app_nil_r. by case_decide.
  - by rewrite !going_to_nil.
  - rewrite !going_to_nil by done. rewrite decide_False by lia. done.
  - subst next. rewrite Nat.add_1_r in Hnew. rewrite (going_to_one _ _ _ _ _ Hnew), going_to_nil by done.
    simpl. repeat case_decide; simplify_eq; done.
Qed.
Lemma minit_order gap : order_ok n [] (minit n gap).
Proof. split; [done|done|]. intros _ j Hj. by rewrite going_to_nil. Qed.

Lemma mstep_order ls l s s' :
  clock_ok s → transit_ok s → order_ok n ls s → mstep n horizon l s s' →
  order_ok n (ls ++ [l]) s'.
Proof.
  intros Hcl Htr [Hadm Hdep Hflow] Hst. split.
  - rewrite entered_at_snoc, Hadm.
    inv_mstep Hst; rewrite ?app_nil_r; try done; [|rewrite decide_False by done; by rewrite app_nil_r].
    by rewrite Nat.add_1_r, seq_S.
  - rewrite finished_at_snoc, length_app, Hdep.
    inv_mstep Hst; try lia; [rewrite decide_True by lia|rewrite decide_False by lia]; simpl; lia.
  - intros [Hls Hl%Forall_inv]%Forall_app j Hj.
    rewrite entered_at_snoc, finished_at_snoc, <- (Hflow Hls j Hj), <- !app_assoc. f_equal.
    by apply mstep_going_to.
Qed.

Lemma mrun_order ls s : mrun n horizon ls s → order_ok n ls s.
Proof.
  revert ls s. apply mrun_ind_inv; [intros; apply minit_order|].
  intros ls s l s' Hrun Hok Hst. pose proof Hrun as [_ Hcl]%mrun_time_nonneg.
  by eapply mstep_order; [|eapply mrun_transit_ok|..].
Qed.

(** The clients join every queue in the order of their identities. *)
Lemma entered_at_identities ls s j :
  mrun n horizon ls s → Forall forward_label ls → j < n →
  entered_at j ls `prefix_of` seq 0 (m_n_a s).
Proof.
  intros Hrun Hls. pose proof (mrun_order ls s Hrun) as [Hadm _ Hflow].
  pose proof (mrun_fifo n horizon ls s Hn Hrun) as Hfifo.
  pose proof (mrun_minv n horizon Hn ls s Hrun) as [[_ _ _ Hlen _] _ _ _ _].
  induction j as [|j IH]; intros Hj; [by rewrite Hadm|].
  destruct (lookup_lt_is_Some_2 (m_queue s) j) as [queue_j Hq]; [lia|].
  etrans; [|apply IH; lia]. rewrite <- (Hfifo j queue_j Hq), <- (Hflow Hls j Hj).
  by apply prefix_app_r, prefix_app_r.
Qed.

(** The clients complete service at every station in the order of their
    identities, and no later station is ahead of an earlier one. *)
Lemma finished_at_identities ls s j :
  mrun n horizon ls s → Forall forward_label ls → j < n →
  ∃ k, finished_at j ls = seq 0 k ∧ m_n_d s ≤ k ∧
       ∃ k', entered_at j ls = seq 0 k' ∧ k ≤ k'.
Proof.
  intros Hrun Hls Hj. pose proof (mrun_order ls s Hrun) as [_ Hdep Hflow].
  pose proof (mrun_fifo n horizon ls s Hn Hrun) as Hfifo.
  pose proof (mrun_minv n horizon Hn ls s Hrun) as [[_ _ _ Hlen _] _ _ _ _].
  assert (∀ i, i < n → finished_at i ls `prefix_of` entered_at i ls) as Hpre.
  { intros i Hi. destruct (lookup_lt_is_Some_2 (m_queue s) i) as [queue_i Hq]; [lia|].
    rewrite <- (Hfifo i queue_i Hq). by apply prefix_app_r. }
  pose proof (prefix_seq _ _ (entered_at_identities ls s j Hrun Hls Hj)) as He.
  exists (length (finished_at j ls)). split_and!.
  - apply (prefix_seq _ (m_n_a s)). etrans; [by apply Hpre|]. by apply entered_at_identities.
  - rewrite <- Hdep. clear He. remember (n - 1 - j) as d eqn:Hd.
    revert j Hj Hd. induction d as [|d IH]; intros j Hj Hd.
    + by replace j with (n - 1) by lia.
    + etrans; [apply (IH (S j)); lia|]. apply prefix_length.
      etrans; [apply Hpre; lia|]. rewrite <- (Hflow Hls j) by lia. by apply prefix_app_r.
  - exists (length (entered_at j ls)). split; [done|]. by apply prefix_length, Hpre.
Qed.
(** ** The tables, read through the labels *)

Lemma joined_entered i c l :
  joined i c l = count_if (λ c', c' = c) (option_list (entered i l)).
Proof.
  destruct l; simpl; try done; repeat case_decide; simpl;
    rewrite ?count_if_cons, ?count_if_nil; try case_decide; destruct_and?; try done; naive_solver.
Qed.

Lemma completed_finished i c l :
  completed i c l = count_if (λ c', c' = c) (option_list (finished i l)).
Proof.
  destruct l; simpl; try done; repeat case_decide; simpl;
    rewrite ?count_if_cons, ?count_if_nil; try case_decide; destruct_and?; try done; naive_solver.
Qed.

(** A client has one entry time per entry in the queue of a station, and
    one completion time per completion there. *)
Lemma mrun_counts ls s i c :
  mrun n horizon ls s →
  length (trace_get (m_q s) i c) = count_if (λ c', c' = c) (entered_at i ls) ∧
  length (trace_get (m_d s) i c) = count_if (λ c', c' = c) (finished_at i ls).
Proof.
  revert ls s. apply mrun_ind_inv; [intros; simpl; by rewrite !trace_get_replicate|].
  intros ls s l s' [Hsh _ _ _ _]%(mrun_minv n horizon Hn) [IHq IHd] Hst.
  destruct (mstep_record n horizon l s s' i c Hsh Hst) as (-> & _ & ->).
  rewrite entered_at_snoc, finished_at_snoc, !length_app, !length_replicate, !count_if_app.
  by rewrite IHq, IHd, joined_entered, completed_finished.
Qed.

(** The clients [0 .. n_d - 1] have visited every station exactly once. *)
Lemma departed_visits ls s j c :
  mrun n horizon ls s → Forall forward_label ls → j < n → c < m_n_d s →
  length (trace_get (m_q s) j c) = 1 ∧ length (trace_get (m_a s) j c) = 1 ∧
  length (trace_get (m_d s) j c) = 1.
Proof.
  intros Hrun Hls Hj Hc. destruct (mrun_counts ls s j c Hrun) as [Hq Hd].
  destruct (finished_at_identities ls s j Hrun Hls Hj) as (k & Hk & Hnd & k' & Hk' & Hkk).
  rewrite Hk', count_seq, decide_True in Hq by lia.
  rewrite Hk, count_seq, decide_True in Hd by lia.
  destruct (tables_ordered n ls s j c (mrun_minv n horizon Hn ls s Hrun)). lia.
Qed.

(** The clients that completed service at the last station are the
    clients [0 .. n_d - 1]. *)
Lemma departed_identities ls s c :
  mrun n horizon ls s → Forall forward_label ls →
  length (trace_get (m_d s) (n - 1) c) = if decide (c < m_n_d s) then 1 else 0.
Proof.
  intros Hrun Hls. destruct (mrun_counts ls s (n - 1) c Hrun) as [_ ->].
  destruct (finished_at_identities ls s (n - 1) Hrun Hls) as (k & Hk & _); [lia|].
  pose proof (mrun_order ls s Hrun) as [_ <- _]. by rewrite Hk, length_seq, count_seq.
Qed.
End order.

Section engine_order.
Context {R : RandomSource} `{!RandomSourceLaws R}.
Context {PQ : PriorityQueue event} `{!PriorityQueueLaws event_lt PQ}.
Context (cfg : config) (Hcfg : valid_config cfg).

(** C22: in every state the loop of [servers_simulation] reaches, with or
    without feedback, at most one client is between two stations (assigned to a station other than
    the first and not yet in its queue), and its assignment is due at the
    current time: a client that completes service joins the next queue
    before any other service starts or completes. *)
Theorem reachable_transit k st :
  reachable cfg k st →
  length (transits (pq_items (st_events st))) ≤ 1 ∧
  Forall (λ x, ev_time x = st_t st) (transits (pq_items (st_events st))).
Proof.
  intros [_ [ls Hrun]]%(reachable_inv cfg Hcfg).
  by apply mrun_transit_ok in Hrun.
Qed.

Context (Hfwd : forward_only cfg).

(** The tables of a call that sends no client back, for the clients that
    left and for the others. *)
Lemma servers_simulation_departed k fuel t n' n_a n_d q a d k' c :
  servers_simulation cfg k fuel = Finished ((t, n', n_a, n_d, q, a, d), k') →
  length (trace_get d (stations cfg - 1) c) = (if decide (c < n_d) then 1 else 0) ∧
  (c < n_d → ∀ j, j < stations cfg →
     length (trace_get q j c) = 1 ∧ length (trace_get a j c) = 1 ∧
     length (trace_get d j c) = 1).
Proof.
  intros (st & [= -> -> -> -> -> -> -> _] & _ & _ & Hrun & _)%servers_simulation_run; [|done].
  pose proof (stations_pos cfg Hcfg) as Hn. pose proof (simulation_labels_forward cfg Hfwd k fuel) as Hls.
  split; [exact (departed_identities _ _ Hn _ (abs st) c Hrun Hls)|].
  intros Hc j Hj. exact (departed_visits _ _ Hn _ (abs st) j c Hrun Hls Hj Hc).
Qed.

(** C21: when no draw sends a client back, the clients leave the network
    in the order of their identities, whether the run is drained or cut
    at the horizon: in the tables a call of [servers_simulation] returns,
    the clients with a completion time at the last station are the
    clients [0 .. n_d - 1], and each of them has exactly one entry time,
    one service-start time and one completion time at every station. *)
Theorem servers_simulation_departure_order k fuel t n' n_a n_d q a d k' c :
  servers_simulation cfg k fuel = Finished ((t, n', n_a, n_d, q, a, d), k') →
  length (trace_get d (stations cfg - 1) c) = (if decide (c < n_d) then 1 else 0) ∧
  (c < n_d → ∀ j, j < stations cfg →
     length (trace_get q j c) = 1 ∧ length (trace_get a j c) = 1 ∧
     length (trace_get d j c) = 1).
Proof. apply servers_simulation_departed. Qed.
End engine_order.

Lemma cut_at_valid time cfg : valid_config cfg → valid_config (cut_at time cfg).
Proof. done. Qed.

Lemma cut_at_forward {R : RandomSource} time cfg :
  forward_only cfg → forward_only (cut_at time cfg).
Proof. done. Qed.

Lemma reachable_transit_witness :
  ∃ st : state (PQ:=list_pq event_lt),
    reachable (R:=feedback_source) (at_horizon 6 experiment_6) 0 st ∧
    length (transits (pq_items (st_events st))) ≤ 1 ∧
    Forall (λ x, ev_time x = st_t st) (transits (pq_items (st_events st))).
Proof.
  eexists.
  assert (reachable (R:=feedback_source) (PQ:=list_pq event_lt) (at_horizon 6 experiment_6) 0 _)
    as Hr by (apply reachable_init; vm_compute; reflexivity).
  split; [exact Hr|].
  exact (reachable_transit (at_horizon 6 experiment_6) (experiment_6_valid 6) 0 _ Hr).
Defined.

(** A run of the sixth experiment cut at time 40: five clients admitted,
    four of them gone. *)
Lemma servers_simulation_departure_order_witness :
  ∃ t n' q a d k',
    servers_simulation (R:=mean_source) (PQ:=list_pq event_lt)
      (cut_at 40 experiment_6) 0 200 = Finished ((t, n', 5, 4, q, a, d), k') ∧
    length (trace_get d (stations (cut_at 40 experiment_6) - 1) 3) =
      (if decide (3 < 4) then 1 else 0) ∧
    (3 < 4 → ∀ j, j < stations (cut_at 40 experiment_6) →
       length (trace_get q j 3) = 1 ∧ length (trace_get a j 3) = 1 ∧
       length (trace_get d j 3) = 1).
Proof.
  do 6 eexists. split; [vm_compute; reflexivity|].
  eapply (servers_simulation_departure_order (R:=mean_source) (PQ:=list_pq event_lt)
            (cut_at 40 experiment_6) (experiment_6_valid 40)
            (cut_at_forward 40 _ (mean_source_forward 40)) 0 200 _ 3%Z).
  vm_compute; reflexivity.
Defined.
