(* ===== verification/Cost.v ===== *)
(** * Cost: the draws a run makes

    [servers_simulation] calls the generator once before its loop, for
    the first arrival, and then in three places: an admission at the
    first station draws the gap to the next arrival, a service start
    draws the duration of the service, and a completion at a station that
    is neither the first nor the last draws [random.uniform(0, 1)] to
    route the client, and [random.choice] as well when it sends the
    client back.

    [draws_of] is the number of draws of the iteration with a given
    label.  The cursor a call returns is the cursor it starts with, plus
    one, plus the draws of its iterations
    ([servers_simulation_cursor_labels]), whether clients are sent back
    or not.

    When no client is sent back and the run is drained, every client
    admitted is served once at every station, and the number of draws is
    a function of the number of clients and of stations:
    [1 + n_a * (1 + n + (n - 2))] ([servers_simulation_cost]). *)

From Stdlib Require Import ZArith QArith Lia.
From stdpp Require Import gmap list.
From S2P Require Import Prelude Rng PriorityQueue Events Machine Engine Experiments.
From S2P Require Import Refinement Correctness Termination Feedback Timestamps Fifo Visits.
From S2P Require Import Identities Order.

(** The draws of the iteration labelled [l]. *)
Definition draws_of (l : label) : nat :=
  match l with
  | Asigned _ _ i _ => if decide (i = 0) then 1 else 0
  | Arrival _ _ _ => 1
  | Finish _ _ i None => 0
  | Finish _ _ i (Some next) =>
      if decide (i = 0) then 0 else if decide (next = i + 1) then 1 else 2
  end.

(** The draws of the iterations labelled [ls]. *)
Definition draws_of_run (ls : list label) : nat := sum_list_with draws_of ls.

(** * Lemmas *)

Lemma draws_of_run_snoc ls l : draws_of_run (ls ++ [l]) = draws_of_run ls + draws_of l.
Proof. unfold draws_of_run. rewrite sum_list_with_app. simpl. lia. Qed.

Section cursor.
Context {R : RandomSource} `{!RandomSourceLaws R}.
Context {PQ : PriorityQueue event} (cfg : config).

Lemma next_server_draws k i next k' :
  next_server cfg k i = Ok (next, k') →
  k' = k + (if decide (i = 0) then 0 else if decide (next = i + 1) then 1 else 2).
Proof.
  intros Hn. pose proof (next_server_range cfg k i next k' Hn) as Hr. revert Hn.
  unfold next_server, random_uniform, random_choice.
  case_bool_decide; [intros [= <- <-]; rewrite decide_True by done; lia|].
  rewrite decide_False by done. intros Hn. simplify_result.
  destruct (Qltb _ _); [simplify_eq; rewrite decide_True by done; lia|].
  destruct (seq 0 i) eqn:Hs; [done|]. rewrite <- Hs in *. simplify_result.
  match goal with H : py_index _ _ = Ok _ |- _ => apply py_index_Ok, lookup_seq in H end.
  rewrite decide_False by lia. lia.
Qed.

(** An iteration moves the cursor by the draws of its label. *)
Lemma loop_body_draws_of st st' l :
  loop_body cfg st = Ok st' → step_label cfg st = Ok l → st_rng st' = st_rng st + draws_of l.
Proof.
  unfold loop_body, step_label. intros ([[t [[[] c] i]] ev] & Hget & Hd)%bind_Ok.
  all: rewrite Hget; simpl in *; intros Hl.
  - unfold on_asigned in Hd. simplify_result; try expovariate_inv; simpl;
      rewrite ?decide_True, ?decide_False by done; lia.
  - unfold on_arrival in Hd. simplify_result. expovariate_inv. simpl. lia.
  - unfold on_finish in Hd. simplify_result; simpl; [lia|].
    match goal with Hn : next_server _ _ _ = Ok _, Hn' : next_server _ _ _ = Ok _ |- _ =>
      rewrite Hn in Hn'; injection Hn' as <- <-; by apply next_server_draws in Hn end.
Qed.

(** An iteration that returns has a label. *)
Lemma loop_body_labelled st st' : loop_body cfg st = Ok st' → ∃ l, step_label cfg st = Ok l.
Proof.
  unfold loop_body, step_label. intros ([[t [[[] c] i]] ev] & -> & Hd)%bind_Ok; simpl in *.
  - unfold on_asigned in Hd. case_bool_decide; [|by eexists]. simplify_result.
    match goal with H : random_expovariate _ _ = Ok _ |- _ => rewrite H end. by eexists.
  - by eexists.
  - unfold on_finish in Hd. case_bool_decide; [by eexists|]. simplify_result.
    match goal with H : next_server _ _ _ = Ok _ |- _ => rewrite H end. by eexists.
Qed.

Lemma run_draws_of fuel st st' :
  run cfg fuel st = Finished st' →
  st_rng st' = st_rng st + draws_of_run (run_labels cfg fuel st).
Proof.
  revert st. induction fuel as [|fuel IH]; intros st; unfold run; simpl;
    destruct (loop_cond cfg st); try done; try (intros [= <-]; unfold draws_of_run; simpl; lia).
  destruct (loop_body cfg st) as [st1|] eqn:Hb; [|done].
  destruct (loop_body_labelled st st1 Hb) as [l Hl]. rewrite Hl.
  intros ->%IH. rewrite (loop_body_draws_of st st1 l Hb Hl). unfold draws_of_run. simpl. lia.
Qed.

(** The cursor a call returns. *)
Lemma servers_simulation_cursor_count k fuel out k' :
  servers_simulation cfg k fuel = Finished (out, k') →
  k' = k + 1 + draws_of_run (simulation_labels cfg k fuel).
Proof.
  unfold servers_simulation, simulation_labels.
  intros (st0 & Hi%lift_result_Finished &
          (st & Hrun%run_draws_of & [= _ <-])%loop_bind_Finished)%loop_bind_Finished.
  rewrite Hi, Hrun. apply bind_Ok in Hi as ([gap k1] & (_ & _ & ->)%random_expovariate_Ok & [= <-]).
  simpl. lia.
Qed.
End cursor.

(** ** Sums over lists *)

Lemma sum_with_ext {A} (f g : A → nat) l :
  (∀ x, x ∈ l → f x = g x) → sum_list_with f l = sum_list_with g l.
Proof.
  induction l as [|x l IH]; intros Hfg; simpl; [done|].
  rewrite (Hfg x), IH; [done| |left]. intros y Hy. apply Hfg. by right.
Qed.

Lemma sum_with_add {A} (f g : A → nat) l :
  sum_list_with (λ x, f x + g x) l = sum_list_with f l + sum_list_with g l.
Proof. induction l; simpl; lia. Qed.

Lemma sum_with_const {A} c (l : list A) : sum_list_with (λ _, c) l = length l * c.
Proof. induction l; simpl; lia. Qed.

(** The order of two sums does not matter. *)
Lemma sum_with_swap {A B} (f : A → B → nat) (l : list A) (k : list B) :
  sum_list_with (λ a, sum_list_with (f a) k) l =
  sum_list_with (λ b, sum_list_with (λ a, f a b) l) k.
Proof.
  induction l as [|a l IH]; simpl; [by rewrite sum_with_const, Nat.mul_0_r|].
  by rewrite IH, sum_with_add.
Qed.

(** The sum of the indicator of a value over a list without duplicates. *)
Lemma sum_with_indicator (j : nat) (l : list nat) :
  NoDup l → sum_list_with (λ i, if decide (j = i) then 1 else 0) l = if decide (j ∈ l) then 1 else 0.
Proof.
  induction 1 as [|x l Hx Hl IH]; simpl; [done|]. rewrite IH.
  repeat case_decide; set_solver.
Qed.

(** [over li N g l]: the sum of [g i c l] over the stations [li] and the
    clients below [N]. *)
Abbreviation over li N g l :=
  (sum_list_with (λ i, sum_list_with (λ c, g i c l) (seq 0 N)) li).

Lemma over_run (li : list nat) N (g : nat → nat → label → nat) ls :
  sum_list_with (λ l, over li N g l) ls =
  sum_list_with (λ i, sum_list_with (λ c, sum_list_with (g i c) ls) (seq 0 N)) li.
Proof.
  rewrite sum_with_swap. apply sum_with_ext. intros i _. apply sum_with_swap.
Qed.

Lemma over_zero (li : list nat) N :
  sum_list_with (λ _, sum_list_with (λ _, 0) (seq 0 N)) li = 0.
Proof. rewrite !sum_with_const. lia. Qed.

(** The indicator of a station and a client, summed. *)
Lemma over_indicator (li : list nat) N i' c' :
  NoDup li → c' < N →
  sum_list_with (λ i, sum_list_with (λ c, if decide (i' = i ∧ c' = c) then 1 else 0) (seq 0 N)) li =
  if decide (i' ∈ li) then 1 else 0.
Proof.
  intros Hli Hc. rewrite <- (sum_with_indicator i' li Hli). apply sum_with_ext. intros i _.
  case_decide as Hi.
  - rewrite (sum_with_ext _ (λ c, if decide (c' = c) then 1 else 0)).
    + rewrite sum_with_indicator by apply NoDup_seq. rewrite decide_True; [done|].
      apply elem_of_seq. lia.
    + intros c _. repeat case_decide; naive_solver.
  - rewrite (sum_with_ext _ (λ _, 0)); [by rewrite sum_with_const, Nat.mul_0_r|].
    intros c _. rewrite decide_False; [done|]. naive_solver.
Qed.

(** ** The labels of a run *)

(** The stations strictly between the first and the last. *)
Definition middle (n : nat) : list nat := seq 1 (n - 2).

(** The label names a station of the network and a client below [N],
    and a completion leaves the network at the last station only. *)
Definition label_ok (n N : nat) (l : label) : Prop :=
  match l with
  | Asigned _ c i _ | Arrival _ c i => i < n ∧ c < N
  | Finish _ c i next => i < n ∧ c < N ∧ (next = None ↔ i + 1 = n)
  end.

Lemma label_ok_mono n N N' l : label_ok n N l → N ≤ N' → label_ok n N' l.
Proof. destruct l; simpl; intros; destruct_and?; split_and?; (done || lia). Qed.

(** The draws of a step that sends nobody back, by what the step
    records. *)
Lemma draws_of_forward n N l :
  forward_label l → label_ok n N l →
  draws_of l = over [0] N joined l + over (seq 0 n) N started l + over (middle n) N completed l.
Proof.
  assert (NoDup [0]) as H0 by (apply NoDup_singleton).
  destruct l as [t c i next|t c i|t c i [next|]]; intros Hf Hl; simpl in Hf, Hl; destruct_and?;
    cbn [draws_of joined started completed];
    rewrite ?over_zero, ?over_indicator by (done || apply NoDup_seq);
    unfold middle; repeat case_decide; try done;
    repeat match goal with
      | H : _ ∈ _ |- _ => rewrite ?elem_of_seq, ?list_elem_of_singleton in H
      | H : ¬ _ ∈ _ |- _ => rewrite ?elem_of_seq, ?list_elem_of_singleton in H
      end; naive_solver lia.
Qed.

Section counts.
Context (n : nat) (horizon : Z) (Hn : 0 < n).

(** The tables count the steps that record a time. *)
Lemma mrun_sums ls s i c :
  mrun n horizon ls s →
  length (trace_get (m_q s) i c) = sum_list_with (joined i c) ls ∧
  length (trace_get (m_a s) i c) = sum_list_with (started i c) ls ∧
  length (trace_get (m_d s) i c) = sum_list_with (completed i c) ls.
Proof.
  revert ls s. apply mrun_ind_inv; [intros; simpl; by rewrite !trace_get_replicate|].
  intros ls s l s' [Hsh _ _ _ _]%(mrun_minv n horizon Hn) (IHq & IHa & IHd) Hst.
  destruct (mstep_record n horizon l s s' i c Hsh Hst) as (-> & -> & ->).
  rewrite !length_app, !length_replicate, !sum_list_with_app. simpl. lia.
Qed.

Lemma mstep_label_ok l s s' :
  shape_ok n s → pending_ids s → mstep n horizon l s s' → label_ok n (m_n_a s') l.
Proof.
  intros [_ _ _ Hq Hsv] Hp Hst. pose proof (mstep_client n horizon l s s' Hp Hst) as Hc.
  inv_mstep Hst;
    match goal with Ht : takes _ _ _ |- _ =>
      destruct (takes_Forall _ _ _ _ Ht Hsv) as [Hx _] end;
    ev_simpl; split_and?; try done; try lia; naive_solver.
Qed.

Lemma mrun_labels_ok ls s : mrun n horizon ls s → Forall (label_ok n (m_n_a s)) ls.
Proof.
  revert ls s. apply mrun_ind_inv; [constructor|].
  intros ls s l s' Hrun IH Hst. destruct (mstep_admits n horizon l s s' 0 Hst) as [Hna _].
  apply Forall_app. split.
  - eapply Forall_impl; [done|]. intros l' Hl'. apply (label_ok_mono n (m_n_a s)); [done|lia].
  - apply Forall_singleton, (mstep_label_ok l s); [|by apply (mrun_ids n horizon Hn ls)|done].
    by apply (mrun_minv n horizon Hn) in Hrun as [].
Qed.

(** The steps of a run without feedback, summed by what they record. *)
Lemma mrun_draws ls s :
  mrun n horizon ls s → Forall forward_label ls →
  draws_of_run ls =
    sum_list_with (λ c, length (trace_get (m_q s) 0 c)) (seq 0 (m_n_a s)) +
    sum_list_with (λ i, sum_list_with (λ c, length (trace_get (m_a s) i c)) (seq 0 (m_n_a s)))
      (seq 0 n) +
    sum_list_with (λ i, sum_list_with (λ c, length (trace_get (m_d s) i c)) (seq 0 (m_n_a s)))
      (middle n).
Proof.
  intros Hrun Hls. pose proof (mrun_labels_ok ls s Hrun) as Hok. unfold draws_of_run.
  rewrite (sum_with_ext _ (λ l, over [0] (m_n_a s) joined l + over (seq 0 n) (m_n_a s) started l +
                               over (middle n) (m_n_a s) completed l)).
  - rewrite !sum_with_add, !over_run. simpl. rewrite ?Nat.add_0_r.
    f_equal; [f_equal|]; repeat (apply sum_with_ext; intros ? _);
      match goal with |- _ = length (trace_get _ ?i ?c) =>
        destruct (mrun_sums ls s i c Hrun) as (Hq & Ha & Hd); by rewrite ?Hq, ?Ha, ?Hd end.
  - intros l Hl. rewrite Forall_forall in Hls, Hok.
    apply (draws_of_forward n); [by apply Hls|by apply Hok].
Qed.

(** In a run that is drained every client is served once at every
    station. *)
Lemma drained_draws ls s :
  mrun n horizon ls s → Forall forward_label ls →
  (∀ i c, i < n → c < m_n_a s →
     length (trace_get (m_q s) i c) = 1 ∧ length (trace_get (m_a s) i c) = 1 ∧
     length (trace_get (m_d s) i c) = 1) →
  draws_of_run ls = m_n_a s * (1 + n + (n - 2)).
Proof.
  intros Hrun Hls Hone. rewrite (mrun_draws ls s Hrun Hls).
  rewrite (sum_with_ext _ (λ _, 1)), sum_with_const, length_seq.
  2: { intros c [_ Hc]%elem_of_seq. by apply Hone. }
  rewrite (sum_with_ext _ (λ _, m_n_a s)), sum_with_const, length_seq.
  2: { intros i [_ Hi]%elem_of_seq. rewrite (sum_with_ext _ (λ _, 1)), sum_with_const, length_seq;
         [lia|]. intros c [_ Hc]%elem_of_seq. by apply Hone. }
  rewrite (sum_with_ext _ (λ _, m_n_a s)), sum_with_const; unfold middle; [rewrite length_seq; lia|].
  intros i [_ Hi]%elem_of_seq. rewrite (sum_with_ext _ (λ _, 1)), sum_with_const, length_seq;
    [lia|]. intros c [_ Hc]%elem_of_seq. apply Hone; [lia|done].
Qed.
End counts.

(** ** The draws of a call *)

Section engine_cost.
Context {R : RandomSource} `{!RandomSourceLaws R}.
Context {PQ : PriorityQueue event} `{!PriorityQueueLaws event_lt PQ}.
Context (cfg : config) (Hcfg : valid_config cfg) (Hfwd : forward_only cfg).

(** The draws of a drained call without feedback. *)
Lemma servers_simulation_draws_count k fuel t n' n_a n_d q a d k' :
  arg_finish cfg = true →
  servers_simulation cfg k fuel = Finished ((t, n', n_a, n_d, q, a, d), k') →
  k' = k + 1 + n_a * (1 + stations cfg + (stations cfg - 2)).
Proof.
  intros Hf Hs. rewrite (servers_simulation_cursor_count cfg k fuel _ k' Hs). f_equal.
  destruct (servers_simulation_drained_run cfg Hcfg Hfwd k fuel _ k' Hf Hs)
    as (st & [= -> -> -> -> -> -> ->] & _ & Hrun & Hinv & Hok & Hp).
  apply (drained_draws (stations cfg) (arg_time cfg) (stations_pos cfg Hcfg) _ (abs st) Hrun);
    [by apply simulation_labels_forward|].
  intros i c Hi Hc.
  destruct (drained_visits (stations cfg) _ (abs st) i c Hinv Hok Hp Hi Hc)
    as (t_q & t_a & t_d & -> & -> & -> & _).
  done.
Qed.

(** C15: when no draw sends a client back and [finish] is set, a call of
    [servers_simulation] that admits [n_a] clients in a network of [n]
    stations makes exactly [1 + n_a * (1 + n + (n - 2))] draws: one for
    the first arrival and, per client, one for the arrival after it, one
    per station for its service, and one per station that is neither the
    first nor the last for its routing. *)
Theorem servers_simulation_cost k fuel t n' n_a n_d q a d k' :
  arg_finish cfg = true →
  servers_simulation cfg k fuel = Finished ((t, n', n_a, n_d, q, a, d), k') →
  k' = k + 1 + n_a * (1 + stations cfg + (stations cfg - 2)).
Proof. apply servers_simulation_draws_count. Qed.
End engine_cost.

Lemma servers_simulation_cost_witness :
  ∃ t n' n_a n_d q a d k',
    servers_simulation (R:=mean_source) (PQ:=list_pq event_lt)
      (at_horizon 60 experiment_6) 0 200 = Finished ((t, n', n_a, n_d, q, a, d), k') ∧
    k' = 0 + 1 + n_a * (1 + stations (at_horizon 60 experiment_6) +
                        (stations (at_horizon 60 experiment_6) - 2)).
Proof.
  do 8 eexists. split; [vm_compute; reflexivity|].
  eapply (servers_simulation_cost (R:=mean_source) (PQ:=list_pq event_lt)
            (at_horizon 60 experiment_6) (experiment_6_valid 60) (mean_source_forward 60) 0 200);
    [done|vm_compute; reflexivity].
Defined.
