(* ===== verification/Flow.v ===== *)
(** * Flow: where the clients of a station come from and go to

    With feedback a client that completes service at station [i] goes to
    station [i + 1] or back to a station before [i], so a station
    receives clients from the station before it and from the stations
    after it.  The tables [servers_simulation] returns record the entries
    and the completions of every station; the labels of the run record
    the routing.  This file relates the two ([moved i j] counts the
    clients sent from [i] to [j]):

    - the entries at a station other than the first, plus the clients on
      their way to it, are the clients sent to it
      ([mrun_on_the_way]);
    - the clients sent to station [j] come from station [j - 1] or from
      a station after [j], and the completions at a station other than
      the last go to the next station or to a station before
      ([receives_run], [serves_run]);
    - in a drained run every entry is a completion.

    These are the traffic equations of the network in numbers of
    clients, for every run and every sequence of draws. *)

From Stdlib Require Import ZArith QArith Lia.
From stdpp Require Import gmap list.
From S2P Require Import Prelude Rng PriorityQueue Events Machine Engine Experiments.
From S2P Require Import Refinement Correctness Visits Identities Cost.

(** The step adds a client to the queue of station [j]. *)
Definition enters (j : nat) (l : label) : nat :=
  match l with
  | Asigned _ _ j' _ => if decide (j' = j) then 1 else 0
  | _ => 0
  end.

(** The step completes a service at station [i]. *)
Definition serves (i : nat) (l : label) : nat :=
  match l with
  | Finish _ _ i' _ => if decide (i' = i) then 1 else 0
  | _ => 0
  end.

(** The step sends a client to station [j]. *)
Definition receives (j : nat) (l : label) : nat :=
  match l with
  | Finish _ _ _ (Some j') => if decide (j' = j) then 1 else 0
  | _ => 0
  end.

(** The step sends a client from station [i] to station [j]. *)
Definition moves (i j : nat) (l : label) : nat :=
  match l with
  | Finish _ _ i' (Some j') => if decide (i' = i ∧ j' = j) then 1 else 0
  | _ => 0
  end.

(** The clients sent from station [i] to station [j] in a run. *)
Definition moved (i j : nat) (ls : list label) : nat := sum_list_with (moves i j) ls.

(** The times a table holds for station [i] and the clients below [N]. *)
Definition recorded (x : trace) (i N : nat) : nat :=
  sum_list_with (λ c, length (trace_get x i c)) (seq 0 N).

(** The stations after station [j]. *)
Definition after (n j : nat) : list nat := seq (S j) (n - S j).

(** An assignment to station [j]. *)
Definition is_sent_to (j : nat) (x : event) : Prop := ev_type x = ASIGNED ∧ ev_server x = j.

#[export] Instance is_sent_to_dec j x : Decision (is_sent_to j x).
Proof. unfold is_sent_to. apply _. Defined.

(** The clients on their way to station [j]. *)
Definition on_the_way (j : nat) (s : mstate) : nat := count_if (is_sent_to j) (m_pending s).

(** A completion at the last station sends its client nowhere; at
    another station, to the next station or to a station before. *)
Definition route_ok (n : nat) (l : label) : Prop :=
  match l with
  | Finish _ _ i (Some j) => S i < n ∧ (j = S i ∨ j < i)
  | Finish _ _ i None => S i = n
  | _ => True
  end.

(** * Lemmas *)

(** ** One step *)

Lemma sum_with_zero {A} (f : A → nat) l : (∀ x, f x = 0) → sum_list_with f l = 0.
Proof. intros Hf. rewrite (sum_with_ext f (λ _, 0)); [by rewrite sum_with_const, Nat.mul_0_r|done]. Qed.

(** The stations of [li] a step sends a client to station [j] from. *)
Lemma moves_from li j l :
  NoDup li →
  sum_list_with (λ i, moves i j l) li =
    match l with
    | Finish _ _ i (Some j') => if decide (j' = j ∧ i ∈ li) then 1 else 0
    | _ => 0
    end.
Proof.
  intros Hli. destruct l as [| |t c i [j'|]]; try by apply sum_with_zero.
  destruct (decide (j' = j)) as [->|Hj].
  - rewrite <- (sum_with_ext (λ i', if decide (i = i') then 1 else 0)).
    + rewrite sum_with_indicator by done. repeat case_decide; naive_solver.
    + intros i' _. simpl. repeat case_decide; naive_solver.
  - rewrite sum_with_zero; [by rewrite decide_False by naive_solver|].
    intros i'. simpl. rewrite decide_False; naive_solver.
Qed.

(** The stations of [lj] a step sends a client from station [i] to. *)
Lemma moves_to i lj l :
  NoDup lj →
  sum_list_with (λ j, moves i j l) lj =
    match l with
    | Finish _ _ i' (Some j) => if decide (i' = i ∧ j ∈ lj) then 1 else 0
    | _ => 0
    end.
Proof.
  intros Hlj. destruct l as [| |t c i' [j|]]; try by apply sum_with_zero.
  destruct (decide (i' = i)) as [->|Hi].
  - rewrite <- (sum_with_ext (λ j', if decide (j = j') then 1 else 0)).
    + rewrite sum_with_indicator by done. repeat case_decide; naive_solver.
    + intros j' _. simpl. repeat case_decide; naive_solver.
  - rewrite sum_with_zero; [by rewrite decide_False by naive_solver|].
    intros j'. simpl. rewrite decide_False; naive_solver.
Qed.

(** Decide the tests on stations left by a case analysis on a label. *)
Ltac decide_stations :=
  repeat case_decide; try done;
  repeat match goal with
    | H : _ ∧ _ |- _ => destruct H
    | H : _ ∈ seq _ _ |- _ => apply elem_of_seq in H
    | H : ¬ (_ ∧ _ ∈ seq _ _) |- _ => rewrite elem_of_seq in H
    end; lia.

(** A client sent to station [j] comes from the station before it or
    from a station after it. *)
Lemma receives_moves n j l :
  0 < j → route_ok n l →
  receives j l = moves (j - 1) j l + sum_list_with (λ i, moves i j l) (after n j).
Proof.
  intros Hj Hl. rewrite moves_from by apply NoDup_seq. unfold after.
  destruct l as [| |t c i [j'|]]; simpl in *; try done.
  decide_stations.
Qed.

(** A completion at a station other than the last sends its client to
    the next station or to a station before. *)
Lemma serves_moves n i l :
  S i < n → route_ok n l →
  serves i l = moves i (S i) l + sum_list_with (λ j, moves i j l) (seq 0 i).
Proof.
  intros Hi Hl. rewrite moves_to by apply NoDup_seq.
  destruct l as [| |t c i' [j|]]; simpl in *; try done; [|case_decide; lia].
  decide_stations.
Qed.

(** The indicator of a station and a client, summed over the clients. *)
Lemma sum_station_client (i j c N : nat) (g : nat → nat) :
  c < N → (∀ c', g c' = if decide (i = j ∧ c = c') then 1 else 0) →
  sum_list_with g (seq 0 N) = if decide (i = j) then 1 else 0.
Proof.
  intros Hc Hg. destruct (decide (i = j)) as [Hij|Hij].
  - rewrite (sum_with_ext g (λ c', if decide (c = c') then 1 else 0)).
    + rewrite sum_with_indicator by apply NoDup_seq. rewrite decide_True; [done|].
      apply elem_of_seq. lia.
    + intros c' _. rewrite Hg. repeat case_decide; naive_solver.
  - apply sum_with_zero. intros c'. rewrite Hg, decide_False; naive_solver.
Qed.

(** The clients below [N] a step adds to the queue of station [j], and
    those it serves at station [i]. *)
Lemma enters_joined n N j l :
  label_ok n N l → sum_list_with (λ c, joined j c l) (seq 0 N) = enters j l.
Proof.
  destruct l as [t c i next|t c i|t c i next]; simpl; intros Hl;
    try by apply sum_with_zero.
  by apply (sum_station_client i j c); [lia|].
Qed.

Lemma serves_completed n N i l :
  label_ok n N l → sum_list_with (λ c, completed i c l) (seq 0 N) = serves i l.
Proof.
  destruct l as [t c i' next|t c i'|t c i' next]; simpl; intros Hl;
    try by apply sum_with_zero.
  by apply (sum_station_client i' i c); [lia|].
Qed.

(** ** The steps of a run *)

Lemma receives_run n j ls :
  0 < j → Forall (route_ok n) ls →
  sum_list_with (receives j) ls =
    moved (j - 1) j ls + sum_list_with (λ i, moved i j ls) (after n j).
Proof.
  intros Hj Hls. unfold moved. rewrite <- sum_with_swap, <- sum_with_add.
  apply sum_with_ext. intros l Hl. rewrite Forall_forall in Hls.
  by apply receives_moves, Hls.
Qed.

Lemma serves_run n i ls :
  S i < n → Forall (route_ok n) ls →
  sum_list_with (serves i) ls =
    moved i (S i) ls + sum_list_with (λ j, moved i j ls) (seq 0 i).
Proof.
  intros Hi Hls. unfold moved. rewrite <- sum_with_swap, <- sum_with_add.
  apply sum_with_ext. intros l Hl. rewrite Forall_forall in Hls.
  apply (serves_moves n); [done|by apply Hls].
Qed.

(** A table counted by the steps of a run. *)
Lemma recorded_sum (x : trace) i N (g : nat → label → nat) ls :
  (∀ c, length (trace_get x i c) = sum_list_with (g c) ls) →
  recorded x i N = sum_list_with (λ l, sum_list_with (λ c, g c l) (seq 0 N)) ls.
Proof.
  intros Hx. unfold recorded.
  rewrite (sum_with_ext _ (λ c, sum_list_with (g c) ls)) by (intros; apply Hx).
  apply sum_with_swap.
Qed.

Lemma start_if_idle_sent_to t c i q j : count_if (is_sent_to j) (start_if_idle t c i q) = 0.
Proof. destruct q; simpl; [|done]. rewrite count_if_cons, decide_False; [done|]. by intros []. Qed.

Lemma start_next_sent_to t i q j : count_if (is_sent_to j) (start_next t i q) = 0.
Proof. destruct q; simpl; [done|]. rewrite count_if_cons, decide_False; [done|]. by intros []. Qed.

Section machine.
Context (n : nat) (horizon : Z) (Hn : 0 < n).

Lemma mstep_route_ok l s s' : shape_ok n s → mstep n horizon l s s' → route_ok n l.
Proof.
  intros [_ _ _ _ Hsv] Hst.
  inv_mstep Hst; try done;
    match goal with Ht : takes _ _ _ |- _ =>
      destruct (takes_Forall _ _ _ _ Ht Hsv) as [Hx _] end; ev_simpl; lia.
Qed.

Lemma mrun_route_ok ls s : mrun n horizon ls s → Forall (route_ok n) ls.
Proof.
  revert ls s. apply mrun_ind_inv; [constructor|].
  intros ls s l s' [Hsh _ _ _ _]%(mrun_minv n horizon Hn) IH Hst.
  apply Forall_app. split; [done|]. by apply Forall_singleton, (mstep_route_ok l s s').
Qed.

(** The assignments to a station other than the first that a step adds
    and removes. *)
Lemma mstep_on_the_way l s s' j :
  j ≠ 0 → mstep n horizon l s s' →
  on_the_way j s' + enters j l = on_the_way j s + receives j l.
Proof.
  intros Hj Hst. unfold on_the_way.
  inv_mstep Hst;
    match goal with Ht : takes _ _ _ |- _ => destruct Ht as [Hp _] end;
    match goal with Hp' : ?p ≡ₚ _ |- _ => is_var p; rewrite Hp'; clear Hp' end;
    rewrite Hp; autorewrite with sim_rw;
    rewrite ?start_if_idle_sent_to, ?start_next_sent_to;
    unfold is_sent_to; ev_simpl;
    repeat (case_decide; destruct_and?; simplify_eq);
    autorewrite with sim_rw; simpl;
    repeat (case_decide; destruct_and?; simplify_eq);
    try lia; naive_solver lia.
Qed.

(** The clients sent to a station other than the first have entered its
    queue or are on their way. *)
Lemma mrun_on_the_way ls s j :
  j ≠ 0 → mrun n horizon ls s →
  sum_list_with (enters j) ls + on_the_way j s = sum_list_with (receives j) ls.
Proof.
  intros Hj. revert ls s. apply mrun_ind_inv.
  - intros gap _. unfold on_the_way. simpl. rewrite count_if_cons, decide_False; [done|].
    by intros [_ ?].
  - intros ls s l s' _ IH Hst. pose proof (mstep_on_the_way l s s' j Hj Hst).
    rewrite !sum_list_with_app. simpl. lia.
Qed.

(** The tables count the entries and the completions of the run. *)
Lemma mrun_recorded ls s i :
  mrun n horizon ls s →
  recorded (m_q s) i (m_n_a s) = sum_list_with (enters i) ls ∧
  recorded (m_d s) i (m_n_a s) = sum_list_with (serves i) ls.
Proof.
  intros Hrun. pose proof (mrun_labels_ok n horizon Hn ls s Hrun) as Hok.
  rewrite Forall_forall in Hok.
  split; [rewrite (recorded_sum _ i _ (joined i) ls)|rewrite (recorded_sum _ i _ (completed i) ls)];
    try (intros c; apply (mrun_sums n horizon Hn ls s i c Hrun));
    apply sum_with_ext; intros l Hl;
    [eapply enters_joined|eapply serves_completed]; by apply Hok.
Qed.

(** With no event pending every entry is a completion. *)
Lemma drained_recorded ls s i :
  minv n ls s → m_pending s = [] →
  recorded (m_q s) i (m_n_a s) = recorded (m_d s) i (m_n_a s).
Proof.
  intros [[_ _ _ Hlen _] Hst Htab _ _] Hnil. apply sum_with_ext. intros c _.
  destruct (Htab i c) as [-> _].
  destruct (m_queue s !! i) as [queue_i|] eqn:Hq.
  - rewrite (list_lookup_total_correct _ _ _ Hq), (stations_ok_nil s i queue_i Hst Hnil Hq).
    by rewrite count_if_nil, Nat.add_0_r.
  - rewrite list_lookup_total_alt, Hq. simpl. by rewrite count_if_nil, Nat.add_0_r.
Qed.

(** The counters count the entries at the first station and the
    completions at the last. *)
Lemma mstep_counters l s s' :
  shape_ok n s → mstep n horizon l s s' →
  m_n_a s' = m_n_a s + enters 0 l ∧ m_n_d s' = m_n_d s + serves (n - 1) l.
Proof.
  intros [_ _ _ _ Hsv] Hst.
  inv_mstep Hst;
    match goal with Ht : takes _ _ _ |- _ =>
      destruct (takes_Forall _ _ _ _ Ht Hsv) as [Hx _] end;
    ev_simpl; repeat case_decide; lia.
Qed.

Lemma mrun_counters ls s :
  mrun n horizon ls s →
  m_n_a s = sum_list_with (enters 0) ls ∧ m_n_d s = sum_list_with (serves (n - 1)) ls.
Proof.
  revert ls s. apply mrun_ind_inv; [done|].
  intros ls s l s' [Hsh _ _ _ _]%(mrun_minv n horizon Hn) [IHa IHd] Hst.
  destruct (mstep_counters l s s' Hsh Hst) as [-> ->].
  rewrite !sum_list_with_app. simpl. lia.
Qed.

(** The traffic of a drained run. *)
Lemma drained_flow ls s :
  mrun n horizon ls s → m_pending s = [] →
  recorded (m_q s) 0 (m_n_a s) = m_n_a s ∧
  recorded (m_d s) (n - 1) (m_n_a s) = m_n_d s ∧
  (∀ i, recorded (m_q s) i (m_n_a s) = recorded (m_d s) i (m_n_a s)) ∧
  (∀ j, 0 < j →
     recorded (m_q s) j (m_n_a s) =
       moved (j - 1) j ls + sum_list_with (λ i, moved i j ls) (after n j)) ∧
  (∀ i, S i < n →
     recorded (m_d s) i (m_n_a s) =
       moved i (S i) ls + sum_list_with (λ j, moved i j ls) (seq 0 i)).
Proof.
  intros Hrun Hnil. pose proof (mrun_route_ok ls s Hrun) as Hls.
  destruct (mrun_counters ls s Hrun) as [Hna Hnd]. split_and!.
  - destruct (mrun_recorded ls s 0 Hrun) as [-> _]. done.
  - destruct (mrun_recorded ls s (n - 1) Hrun) as [_ ->]. done.
  - intros i. apply (drained_recorded ls); [by apply (mrun_minv n horizon Hn)|done].
  - intros j Hj. destruct (mrun_recorded ls s j Hrun) as [-> _].
    rewrite <- (receives_run n j ls Hj Hls), <- (mrun_on_the_way ls s j) by (done || lia).
    unfold on_the_way. rewrite Hnil, count_if_nil. lia.
  - intros i Hi. destruct (mrun_recorded ls s i Hrun) as [_ ->]. by apply (serves_run n).
Qed.
End machine.

(** ** The tables of a call *)

Section engine_flow.
Context {R : RandomSource} `{!RandomSourceLaws R}.
Context {PQ : PriorityQueue event} `{!PriorityQueueLaws event_lt PQ}.
Context (cfg : config) (Hcfg : valid_config cfg).

(** With [finish] set a call returns with no event pending. *)
Lemma servers_simulation_drained_pending k fuel out k' :
  arg_finish cfg = true → servers_simulation cfg k fuel = Finished (out, k') →
  ∃ st, out = state_output cfg st ∧
        mrun (stations cfg) (arg_time cfg) (simulation_labels cfg k fuel) (abs st) ∧
        m_pending (abs st) = [].
Proof.
  intros Hf (st & [= -> _] & Hc & Hwf & Hrun & _)%servers_simulation_run; [|done].
  exists st. split_and!; [done..|]. by apply (loop_cond_drained cfg).
Qed.

(** C16: the traffic of a drained run, with or without feedback.  When
    [servers_simulation] returns with [finish] set, the entries the
    table [q] holds for the first station are the admissions, the
    completions the table [d] holds for the last station are the
    departures, every station has as many completions as entries, the
    entries at a station [j] other than the first are the clients sent to
    it from station [j - 1] and from the stations after [j], and the
    completions at a station [i] other than the last are the clients it
    sent to station [i + 1] and to the stations before [i]. *)
Theorem servers_simulation_flow k fuel t n' n_a n_d q a d k' :
  arg_finish cfg = true →
  servers_simulation cfg k fuel = Finished ((t, n', n_a, n_d, q, a, d), k') →
  recorded q 0 n_a = n_a ∧
  recorded d (stations cfg - 1) n_a = n_d ∧
  (∀ i, recorded q i n_a = recorded d i n_a) ∧
  (∀ j, 0 < j →
     recorded q j n_a =
       moved (j - 1) j (simulation_labels cfg k fuel) +
       sum_list_with (λ i, moved i j (simulation_labels cfg k fuel)) (after (stations cfg) j)) ∧
  (∀ i, S i < stations cfg →
     recorded d i n_a =
       moved i (S i) (simulation_labels cfg k fuel) +
       sum_list_with (λ j, moved i j (simulation_labels cfg k fuel)) (seq 0 i)).
Proof.
  intros Hf (st & [= -> -> -> -> -> -> ->] & Hrun & Hnil)%servers_simulation_drained_pending;
    [|done].
  apply (drained_flow (stations cfg) (arg_time cfg) (stations_pos cfg Hcfg) _ (abs st) Hrun Hnil).
Qed.
End engine_flow.

(** A run of experiment 6 cut short, in which the second station sends
    one of its eight clients back: seven reach the third station. *)
Lemma servers_simulation_flow_loss :
  ∃ t n' n_d a d k' q,
    servers_simulation (R:=feedback_source) (PQ:=list_pq event_lt)
      (at_horizon 6 experiment_6) 0 300 = Finished ((t, n', 8, n_d, q, a, d), k') ∧
    moved 1 0 (simulation_labels (R:=feedback_source) (PQ:=list_pq event_lt)
                 (at_horizon 6 experiment_6) 0 300) = 1 ∧
    recorded q 1 8 = 8 ∧ recorded q 2 8 = 7.
Proof. do 7 eexists. split; [vm_compute; reflexivity|]. by vm_compute. Qed.

Lemma servers_simulation_flow_witness :
  ∃ t n' n_a n_d q a d k',
    servers_simulation (R:=feedback_source) (PQ:=list_pq event_lt)
      (at_horizon 6 experiment_6) 0 300 = Finished ((t, n', n_a, n_d, q, a, d), k') ∧
    recorded q 0 n_a = n_a ∧
    recorded d (stations (at_horizon 6 experiment_6) - 1) n_a = n_d ∧
    (∀ i, recorded q i n_a = recorded d i n_a) ∧
    (∀ j, 0 < j →
       recorded q j n_a =
         moved (j - 1) j (simulation_labels (R:=feedback_source) (PQ:=list_pq event_lt)
                            (at_horizon 6 experiment_6) 0 300) +
         sum_list_with (λ i, moved i j (simulation_labels (R:=feedback_source)
                                          (PQ:=list_pq event_lt) (at_horizon 6 experiment_6) 0 300))
           (after (stations (at_horizon 6 experiment_6)) j)) ∧
    (∀ i, S i < stations (at_horizon 6 experiment_6) →
       recorded d i n_a =
         moved i (S i) (simulation_labels (R:=feedback_source) (PQ:=list_pq event_lt)
                          (at_horizon 6 experiment_6) 0 300) +
         sum_list_with (λ j, moved i j (simulation_labels (R:=feedback_source)
                                          (PQ:=list_pq event_lt) (at_horizon 6 experiment_6) 0 300))
           (seq 0 i)).
Proof.
  do 8 eexists. split; [vm_compute; reflexivity|].
  eapply (servers_simulation_flow (R:=feedback_source) (PQ:=list_pq event_lt)
            (at_horizon 6 experiment_6) (experiment_6_valid 6) 0 300); [done|].
  vm_compute; reflexivity.
Defined.
