(* ===== verification/Whereabouts.v ===== *)
(** * Whereabouts: where an identity is

    [servers_simulation] keeps no record of where a client is: a client
    is an identity in the queue of a station ([queue[i]]) or in an
    [ASIGNED] event on its way to a station.  A completion at the last
    station lets the identity go ([n_d += 1]); a completion that sends the
    client back to the first station lets it go too, since the
    assignment to station 0 gives the client the next identity
    ([index = c if i != 0 else n_a], line 156).

    [where_ok] states the conservation of clients of [Machine] identity by
    identity, whether clients are sent back or not: an identity that has
    been given is in exactly one place (a queue, or an assignment to a
    station other than the first), or it has left the network once, or it
    has been sent back to the first station once; an identity that has
    not been given is nowhere.  It holds in every state of every run
    ([mrun_where]).

    For the tuple a call returns it gives that no identity has two
    completion times at the last station, none has one after it was sent
    back to the first station, and, when the run is drained, that every
    identity has left or has been sent back; the identities below [n_d]
    that were sent back are then as many as the identities from [n_d] on
    that left ([mrun_crossed]).  [metrics_by_simulation] takes the
    identities below [n_d] for those that left: [Sojourn] reads the time
    in the system it reports with these lemmas. *)

From Stdlib Require Import ZArith QArith Lia.
From stdpp Require Import gmap list.
From S2P Require Import Prelude Rng PriorityQueue Events Machine Engine Experiments.
From S2P Require Import Refinement Correctness Termination Timestamps Fifo Visits.
From S2P Require Import Identities Cost Flow.

(** The places of [c] in the queues of the stations. *)
Definition waits (c : nat) (s : mstate) : nat :=
  sum_list_with (count_if (λ c', c' = c)) (m_queue s).

(** A pending assignment of [c] to a station other than the first. *)
Definition is_transit_by (c : nat) (x : event) : Prop := is_transit x ∧ ev_client x = c.

#[export] Instance is_transit_by_dec c x : Decision (is_transit_by c x).
Proof. unfold is_transit_by. apply _. Defined.

Definition travels (c : nat) (s : mstate) : nat := count_if (is_transit_by c) (m_pending s).

(** The places of the identity [c] in the network. *)
Definition present (c : nat) (s : mstate) : nat := waits c s + travels c s.

(** The step lets [c] leave the network. *)
Definition leaves (c : nat) (l : label) : nat :=
  match l with
  | Finish _ c' _ None => if decide (c' = c) then 1 else 0
  | _ => 0
  end.

(** The step sends [c] back to the first station. *)
Definition returns (c : nat) (l : label) : nat :=
  match l with
  | Finish _ c' _ (Some 0) => if decide (c' = c) then 1 else 0
  | _ => 0
  end.

Definition left (c : nat) (ls : list label) : nat := sum_list_with (leaves c) ls.
Definition sent_back (c : nat) (ls : list label) : nat := sum_list_with (returns c) ls.

(** Conservation, identity by identity. *)
Definition where_ok (ls : list label) (s : mstate) : Prop :=
  ∀ c, present c s + left c ls + sent_back c ls = if decide (c < m_n_a s) then 1 else 0.

(** The identities of [l] that have a completion time at station [i]. *)
Definition through (d : trace) (i : nat) (l : list nat) : nat :=
  count_if (λ c, trace_get d i c ≠ []) l.

(** The identities of [l] that have none. *)
Definition missing (d : trace) (i : nat) (l : list nat) : nat :=
  count_if (λ c, trace_get d i c = []) l.

(** * Lemmas *)

Lemma sum_list_with_insert {A} (f : A → nat) (l : list A) i x y :
  l !! i = Some x → sum_list_with f (<[i:=y]> l) + f x = sum_list_with f l + f y.
Proof.
  revert i. induction l as [|x0 l IH]; intros [|i] Hi; simplify_eq/=; [lia|].
  specialize (IH i Hi). lia.
Qed.

Lemma sum_list_with_replicate {A} (f : A → nat) k x : f x = 0 → sum_list_with f (replicate k x) = 0.
Proof. intros Hx. induction k as [|k IH]; simpl; lia. Qed.

Lemma left_snoc c ls l : left c (ls ++ [l]) = left c ls + leaves c l.
Proof. unfold left. rewrite sum_list_with_app. simpl. lia. Qed.

Lemma sent_back_snoc c ls l : sent_back c (ls ++ [l]) = sent_back c ls + returns c l.
Proof. unfold sent_back. rewrite sum_list_with_app. simpl. lia. Qed.

Lemma start_if_idle_transit_by t c i q c' : count_if (is_transit_by c') (start_if_idle t c i q) = 0.
Proof. destruct q; simpl; [|done]. rewrite count_if_cons, decide_False; [done|]. by intros [[] _]. Qed.

Lemma start_next_transit_by t i q c' : count_if (is_transit_by c') (start_next t i q) = 0.
Proof. destruct q; simpl; [done|]. rewrite count_if_cons, decide_False; [done|]. by intros [[] _]. Qed.

Lemma is_transit_by_iff c' t e c i : is_transit_by c' (t, (e, c, i)) ↔ e = ASIGNED ∧ i ≠ 0 ∧ c = c'.
Proof. unfold is_transit_by, is_transit. ev_simpl. naive_solver. Qed.

(** Decide the tests on events left by a case analysis. *)
Ltac decide_transit_by :=
  repeat match goal with
  | H : is_transit_by _ (_, _) |- _ => apply is_transit_by_iff in H
  | H : ¬ is_transit_by _ (_, _) |- _ => rewrite is_transit_by_iff in H
  end.

(** A list is split by a decidable test. *)
Lemma count_if_not {A} (P : A → Prop) `{∀ x, Decision (P x)} l :
  count_if P l + count_if (λ x, ¬ P x) l = length l.
Proof.
  induction l as [|x l IH]; [done|]. rewrite !count_if_cons. simpl. repeat case_decide; try done; lia.
Qed.

Lemma missing_through d i l : missing d i l + through d i l = length l.
Proof. apply count_if_not. Qed.

Lemma through_app d i l1 l2 : through d i (l1 ++ l2) = through d i l1 + through d i l2.
Proof. apply count_if_app. Qed.

(** The clients with a time are counted by their times when nobody has
    two. *)
Lemma through_recorded d i l :
  Forall (λ c, length (trace_get d i c) ≤ 1) l →
  through d i l = sum_list_with (λ c, length (trace_get d i c)) l.
Proof.
  unfold through. induction 1 as [|c l Hc _ IH]; [done|]. rewrite count_if_cons, IH. simpl.
  destruct (decide (trace_get d i c ≠ [])) as [Hne|Heq%dec_stable];
    destruct (trace_get d i c) as [|x [|y d_t]]; simpl in *; done || lia.
Qed.

Section whereabouts.
Context (n : nat) (horizon : Z).

(** What a step changes of the places of an identity: it enters with
    its admission, and goes with its departure or with its return to the
    first station. *)
Lemma mstep_present l s s' c :
  stations_ok s → mstep n horizon l s s' →
  present c s' + leaves c l + returns c l = present c s + joined 0 c l.
Proof.
  unfold present, waits, travels. intros Hs Hst.
  inv_mstep Hst; try destruct next as [|next'];
    match goal with Ht : takes _ _ _ |- _ => pose proof Ht as [Hp _] end;
    match goal with Hp' : ?p ≡ₚ _ |- context [?p] => rewrite Hp'; clear Hp' end;
    try match goal with Hq : m_queue _ !! _ = Some ?q |- context [<[_:=?q']> _] =>
      pose proof (sum_list_with_insert (count_if (λ c', c' = c)) _ _ _ q' Hq) as Hsum;
      try (rewrite (finish_head _ _ _ _ _ _ Hs ltac:(done) Hq) in Hsum; simpl in Hsum)
    end;
    rewrite Hp; autorewrite with sim_rw in *;
    rewrite ?start_if_idle_transit_by, ?start_next_transit_by;
    repeat (case_decide; decide_transit_by; destruct_and?; simplify_eq);
    autorewrite with sim_rw in *; simpl in *;
    repeat (case_decide; decide_transit_by; destruct_and?; simplify_eq);
    try lia; naive_solver lia.
Qed.

Lemma minit_where gap : where_ok [] (minit n gap).
Proof.
  intros c. unfold present, waits, travels. simpl.
  rewrite sum_list_with_replicate, count_if_cons, decide_False, count_if_nil; [done| |done].
  by intros [[] _].
Qed.

Lemma mstep_where ls l s s' :
  stations_ok s → where_ok ls s → mstep n horizon l s s' → where_ok (ls ++ [l]) s'.
Proof.
  intros Hs Hok Hst c. rewrite left_snoc, sent_back_snoc.
  pose proof (mstep_present l s s' c Hs Hst). specialize (Hok c).
  destruct (mstep_admits n horizon l s s' c Hst) as [Hna Hj].
  repeat case_decide; lia.
Qed.

(** A client leaves the network with a completion at the last station,
    and only so. *)
Lemma mstep_leaves l s s' c :
  0 < n → shape_ok n s → mstep n horizon l s s' → leaves c l = completed (n - 1) c l.
Proof.
  intros Hn [_ _ _ _ Hsv] Hst.
  inv_mstep Hst; try done;
    match goal with Ht : takes _ _ _ |- _ =>
      destruct (takes_Forall _ _ _ _ Ht Hsv) as [Hx _] end;
    ev_simpl; repeat case_decide; naive_solver lia.
Qed.

Context (Hn : 0 < n).

Lemma mrun_where ls s : mrun n horizon ls s → where_ok ls s.
Proof.
  revert ls s. apply mrun_ind_inv; [intros; apply minit_where|].
  intros ls s l s' Hrun Hok Hst. apply (mstep_where ls l s s'); [|done..].
  by apply (mrun_minv n horizon Hn) in Hrun as [].
Qed.

(** The completion times of [c] at the last station are its departures. *)
Lemma mrun_left ls s c :
  mrun n horizon ls s → length (trace_get (m_d s) (n - 1) c) = left c ls.
Proof.
  revert ls s. apply mrun_ind_inv.
  - intros gap _. simpl. by rewrite trace_get_replicate.
  - intros ls s l s' Hrun IH Hst.
    pose proof (minv_shape _ _ _ (mrun_minv n horizon Hn ls s Hrun)) as Hsh.
    destruct (mstep_record n horizon l s s' (n - 1) c Hsh Hst) as (_ & _ & ->).
    rewrite length_app, length_replicate, left_snoc, IH.
    by rewrite (mstep_leaves l s s' c Hn Hsh Hst).
Qed.

(** An identity leaves at most once, and not after it was sent back to
    the first station; an identity that was not given has not left. *)
Lemma mrun_once ls s c :
  mrun n horizon ls s →
  present c s + length (trace_get (m_d s) (n - 1) c) + sent_back c ls =
  if decide (c < m_n_a s) then 1 else 0.
Proof. intros Hrun. rewrite (mrun_left ls s c Hrun). by apply mrun_where. Qed.

(** The identities below [n_d] without a completion time at the last
    station are as many as the identities from [n_d] on that have one. *)
Lemma mrun_crossed ls s :
  mrun n horizon ls s →
  missing (m_d s) (n - 1) (seq 0 (m_n_d s)) =
  through (m_d s) (n - 1) (seq (m_n_d s) (m_n_a s - m_n_d s)).
Proof.
  intros Hrun. pose proof (mrun_departures_le_arrivals n horizon Hn ls s Hrun) as Hle.
  pose proof (missing_through (m_d s) (n - 1) (seq 0 (m_n_d s))) as Hsplit.
  assert (through (m_d s) (n - 1) (seq 0 (m_n_a s)) = m_n_d s) as Hall.
  { rewrite through_recorded.
    - destruct (mrun_recorded n horizon Hn ls s (n - 1) Hrun) as [_ Hd].
      destruct (mrun_counters n horizon Hn ls s Hrun) as [_ Hnd]. unfold recorded in Hd. lia.
    - apply Forall_forall. intros c _. pose proof (mrun_once ls s c Hrun). case_decide; lia. }
  replace (m_n_a s) with (m_n_d s + (m_n_a s - m_n_d s)) in Hall at 1 by lia.
  rewrite seq_app, through_app in Hall. rewrite length_seq in Hsplit. simpl in Hall. lia.
Qed.

(** In a state without pending events nobody is in the network. *)
Lemma drained_present s c : stations_ok s → m_pending s = [] → present c s = 0.
Proof.
  intros Hst Hp. unfold present, waits, travels. rewrite Hp, count_if_nil, Nat.add_0_r.
  assert (Forall (λ queue_i, queue_i = []) (m_queue s)) as Hq.
  { apply Forall_lookup. intros i queue_i Hi. by apply (stations_ok_nil s i). }
  induction Hq as [|queue_i queues -> _ IH]; simpl; [done|]. by rewrite ?count_if_nil.
Qed.
End whereabouts.

Section engine_whereabouts.
Context {R : RandomSource} `{!RandomSourceLaws R}.
Context {PQ : PriorityQueue event} `{!PriorityQueueLaws event_lt PQ}.
Context (cfg : config) (Hcfg : valid_config cfg).
Local Abbreviation stations_pos := (stations_pos cfg Hcfg).

(** The identities of the tuple a call returns. *)
Lemma servers_simulation_once k fuel t n' n_a n_d q a d k' c :
  servers_simulation cfg k fuel = Finished ((t, n', n_a, n_d, q, a, d), k') →
  c < n_a →
  length (trace_get d (stations cfg - 1) c) + sent_back c (simulation_labels cfg k fuel) ≤ 1 ∧
  (arg_finish cfg = true →
   length (trace_get d (stations cfg - 1) c) + sent_back c (simulation_labels cfg k fuel) = 1).
Proof.
  intros Hs Hc.
  destruct (servers_simulation_run cfg Hcfg k fuel _ k' Hs)
    as (st & [= -> -> -> -> -> -> -> _] & Hcond & Hwf & Hrun & Hinv).
  pose proof (mrun_once _ _ stations_pos _ _ c Hrun) as Hone. simpl in Hone.
  rewrite decide_True in Hone by done. split; [lia|]. intros Hf.
  rewrite (drained_present (abs st) c) in Hone; [done|apply Hinv|by apply (loop_cond_drained cfg)].
Qed.

Lemma servers_simulation_crossed k fuel t n' n_a n_d q a d k' :
  servers_simulation cfg k fuel = Finished ((t, n', n_a, n_d, q, a, d), k') →
  missing d (stations cfg - 1) (seq 0 n_d) = through d (stations cfg - 1) (seq n_d (n_a - n_d)).
Proof.
  intros (st & [= -> -> -> -> -> -> -> _] & _ & _ & Hrun & _)%servers_simulation_run; [|done].
  apply (mrun_crossed _ _ stations_pos _ _ Hrun).
Qed.

(** C17: an identity is in one place.  In the tuple a call of
    [servers_simulation] returns, with or without feedback, no identity
    has two completion times at the last station, and none has one when
    a completion sent it back to the first station (where the client
    goes on under a new identity); with [finish] set every admitted
    identity has left once or has been sent back once.  The identities
    below [n_d] that have not left are as many as the identities from
    [n_d] on that have: telling the clients that left by [c < n_d], as
    [metrics_by_simulation] does, is wrong for both. *)
Theorem servers_simulation_whereabouts k fuel t n' n_a n_d q a d k' :
  servers_simulation cfg k fuel = Finished ((t, n', n_a, n_d, q, a, d), k') →
  (∀ c, c < n_a →
     length (trace_get d (stations cfg - 1) c) +
       sent_back c (simulation_labels cfg k fuel) ≤ 1 ∧
     (arg_finish cfg = true →
      length (trace_get d (stations cfg - 1) c) +
        sent_back c (simulation_labels cfg k fuel) = 1)) ∧
  missing d (stations cfg - 1) (seq 0 n_d) = through d (stations cfg - 1) (seq n_d (n_a - n_d)).
Proof.
  intros Hs. split; [intros c; by apply (servers_simulation_once k fuel t n' n_a n_d q a d k')|].
  by apply servers_simulation_crossed in Hs.
Qed.
End engine_whereabouts.

(** A run of the sixth experiment in which the first client is sent back
    from the second station: eight identities are given, seven clients
    leave, the identity 0 is below [n_d] and has not left, the identity 7
    is not and has. *)
Lemma servers_simulation_whereabouts_witness :
  ∃ t n' n_a n_d q a d k',
    servers_simulation (R:=feedback_source) (PQ:=list_pq event_lt)
      (at_horizon 6 experiment_6) 0 300 = Finished ((t, n', n_a, n_d, q, a, d), k') ∧
    (n_a = 8 ∧ n_d = 7 ∧ trace_get d 2 0 = [] ∧ trace_get d 2 7 ≠ []) ∧
    (∀ c, c < n_a →
       length (trace_get d (stations (at_horizon 6 experiment_6) - 1) c) +
         sent_back c (simulation_labels (R:=feedback_source) (PQ:=list_pq event_lt)
                        (at_horizon 6 experiment_6) 0 300) ≤ 1 ∧
       (arg_finish (at_horizon 6 experiment_6) = true →
        length (trace_get d (stations (at_horizon 6 experiment_6) - 1) c) +
          sent_back c (simulation_labels (R:=feedback_source) (PQ:=list_pq event_lt)
                         (at_horizon 6 experiment_6) 0 300) = 1)) ∧
    missing d (stations (at_horizon 6 experiment_6) - 1) (seq 0 n_d) =
    through d (stations (at_horizon 6 experiment_6) - 1) (seq n_d (n_a - n_d)).
Proof.
  do 8 eexists. split; [vm_compute; reflexivity|]. split; [by vm_compute|].
  eapply (servers_simulation_whereabouts (R:=feedback_source) (PQ:=list_pq event_lt)
            (at_horizon 6 experiment_6) (experiment_6_valid 6) 0 300).
  vm_compute; reflexivity.
Defined.
