(* ===== verification/Lindley.v ===== *)
(** * Lindley: the recursion the simulation computes

    A tandem of first-come-first-served stations without feedback is
    described by a recursion on the clients: client [c] enters the queue
    of station [j + 1] when it completes service at station [j]; it
    starts service at a station when it has entered the queue and the
    client before it has completed service there,

      [a i 0 = q i 0],  [a i (c + 1) = max (q i (c + 1)) (d i c)],
      [q (j + 1) c = d j c],

    so its waiting time is [max 0 (d i c - q i (c + 1))] (Lindley's
    equation).  The simulation never evaluates this recursion: it moves
    events through a priority queue.  This file proves that the tables
    [servers_simulation] returns satisfy it when no client is sent back.

    [lindley_ok] is the invariant of the machine: the rule holds of every
    service start recorded and of every service start pending, and a
    pending assignment to a later station carries the completion time at
    the station before.  It is kept by every step of a run without
    feedback ([mstep_lindley]); the proof rests on the order of
    identities in the queues ([Order]), on the single visit of a client
    to a station ([mrun_single]) and on the order of the recorded times
    ([Timestamps]). *)

From Stdlib Require Import ZArith QArith Lia.
From stdpp Require Import gmap list.
From S2P Require Import Prelude Rng PriorityQueue Events Machine Engine Experiments.
From S2P Require Import Refinement Correctness Termination Timestamps Fifo Visits.
From S2P Require Import Identities Order.

(** The time [t] at which client [c] starts service at station [i]: its
    entry in the queue for the first client, and for the others the later
    of its entry and the completion of the client before it. *)
Definition start_rule (s : mstate) (i c : nat) (t : Z) : Prop :=
  ∃ t_q, trace_get (m_q s) i c = [t_q] ∧
    match c with
    | 0 => t = t_q
    | S c' => ∃ t_d, trace_get (m_d s) i c' = [t_d] ∧ t = Z.max t_q t_d
    end.

(** Every client has at most one visit to every station. *)
Definition single_ok (s : mstate) : Prop :=
  ∀ i c, length (trace_get (m_q s) i c) ≤ 1 ∧ length (trace_get (m_a s) i c) ≤ 1 ∧
         length (trace_get (m_d s) i c) ≤ 1.

(** The recursion, in a state of the machine. *)
Record lindley_ok (s : mstate) : Prop := {
  lindley_started : ∀ i c t, trace_get (m_a s) i c = [t] → start_rule s i c t;
  lindley_pending : ∀ t c i, (t, (ARRIVAL, c, i)) ∈ m_pending s → start_rule s i c t;
  lindley_transit : ∀ t c j, (t, (ASIGNED, c, S j)) ∈ m_pending s → trace_get (m_d s) j c = [t];
  lindley_handover : ∀ j c t, trace_get (m_q s) (S j) c = [t] → trace_get (m_d s) j c = [t];
}.

(** * Lemmas *)

(** A list of length at most one that begins with [v] is [[v]]. *)
Lemma single_snoc {A} (l : list A) k x v :
  length (l ++ replicate k x) ≤ 1 → l = [v] → l ++ replicate k x = [v].
Proof. intros Hlen ->. destruct k; simpl in *; [done|lia]. Qed.

(** A list of length at most one that gains an element was empty. *)
Lemma single_new {A} (l : list A) x : length (l ++ [x]) ≤ 1 → l ++ [x] = [x].
Proof. destruct l; simpl; [done|]. rewrite length_app. simpl. lia. Qed.

Lemma seq_snoc_inv (l : list nat) c k : l ++ [c] = seq 0 k → l = seq 0 c ∧ k = S c.
Proof.
  intros Heq. pose proof (f_equal length Heq) as Hlen. rewrite length_app, length_seq in Hlen.
  simpl in Hlen. destruct k as [|k]; [lia|]. rewrite seq_S in Heq.
  apply app_inj_tail in Heq as [-> ->]. simpl. rewrite length_seq in Hlen. split; [done|lia].
Qed.

Lemma seq_app_inv (l : list nat) k k' : seq 0 k ++ l = seq 0 k' → l = seq k (length l).
Proof.
  intros Heq. pose proof (f_equal length Heq) as Hlen. rewrite length_app, !length_seq in Hlen.
  replace k' with (k + length l) in Heq by lia. rewrite seq_app in Heq.
  by apply app_inv_head in Heq.
Qed.

(** ** The states of a run without feedback *)

Section facts.
Context (n : nat) (horizon : Z) (Hn : 0 < n).
Context (ls : list label) (s : mstate).
Context (Hrun : mrun n horizon ls s) (Hls : Forall forward_label ls).

Lemma mrun_single : single_ok s.
Proof.
  intros i c.
  destruct (tables_ordered n ls s i c (mrun_minv n horizon Hn ls s Hrun)) as [Hda Haq].
  cut (length (trace_get (m_q s) i c) ≤ 1); [lia|].
  destruct (decide (i < n)) as [Hi|Hi].
  - destruct (mrun_counts n horizon Hn ls s i c Hrun) as [-> _].
    destruct (finished_at_identities n horizon Hn ls s i Hrun Hls Hi)
      as (k & _ & _ & k' & -> & _).
    rewrite count_seq. case_decide; lia.
  - rewrite trace_get_beyond; [simpl; lia|].
    destruct (mrun_minv n horizon Hn ls s Hrun) as [[-> _ _ _ _] _ _ _ _]. lia.
Qed.

(** The queue of a station holds consecutive identities: those that
    entered and have not completed service. *)
Lemma queue_identities i queue_i :
  m_queue s !! i = Some queue_i →
  ∃ k, finished_at i ls = seq 0 k ∧ queue_i = seq k (length queue_i) ∧
       entered_at i ls = seq 0 (k + length queue_i).
Proof.
  intros Hq. pose proof (mrun_minv n horizon Hn ls s Hrun) as [[_ _ _ Hlen _] _ _ _ _].
  assert (i < n) as Hi by (apply lookup_lt_Some in Hq; lia).
  destruct (finished_at_identities n horizon Hn ls s i Hrun Hls Hi)
    as (k & Hk & _ & k' & Hk' & _).
  pose proof (mrun_fifo n horizon ls s Hn Hrun i queue_i Hq) as Hfifo.
  rewrite Hk, Hk' in Hfifo. exists k. split_and!; [done|by eapply seq_app_inv|].
  rewrite Hk'. f_equal. apply (f_equal length) in Hfifo.
  rewrite length_app, !length_seq in Hfifo. lia.
Qed.

(** A client that entered the queue of a station has one entry time
    there, not after the clock. *)
Lemma entered_time i c k :
  entered_at i ls = seq 0 k → c < k →
  ∃ t_q, trace_get (m_q s) i c = [t_q] ∧ (t_q ≤ m_t s)%Z.
Proof.
  intros Hk Hc. destruct (mrun_counts n horizon Hn ls s i c Hrun) as [Hq _].
  rewrite Hk, count_seq, decide_True in Hq by done.
  destruct (length_one _ Hq) as [t_q Ht]. exists t_q. split; [done|].
  destruct (mrun_times n horizon ls s Hn Hrun i c) as [Hpast _ _ _ _].
  rewrite Ht in Hpast. by apply Forall_inv in Hpast.
Qed.

(** A client that completed service at a station has one completion time
    there, not after the clock. *)
Lemma finished_time i c k :
  finished_at i ls = seq 0 k → c < k →
  ∃ t_d, trace_get (m_d s) i c = [t_d] ∧ (t_d ≤ m_t s)%Z.
Proof.
  intros Hk Hc. destruct (mrun_counts n horizon Hn ls s i c Hrun) as [_ Hd].
  rewrite Hk, count_seq, decide_True in Hd by done.
  destruct (length_one _ Hd) as [t_d Ht]. exists t_d. split; [done|].
  destruct (mrun_times n horizon ls s Hn Hrun i c) as [_ _ Hpast _ _].
  rewrite Ht in Hpast. by apply Forall_inv in Hpast.
Qed.
End facts.

(** ** The events a step takes and adds *)

Lemma elem_start_if_idle (x : event) t c i q :
  x ∈ start_if_idle t c i q ↔ q = [] ∧ x = (t, (ARRIVAL, c, i)).
Proof. destruct q; simpl; [rewrite list_elem_of_singleton|rewrite elem_of_nil]; naive_solver. Qed.

Lemma elem_start_next (x : event) t i q :
  x ∈ start_next t i q ↔ ∃ c, head q = Some c ∧ x = (t, (ARRIVAL, c, i)).
Proof. destruct q; simpl; [rewrite elem_of_nil|rewrite list_elem_of_singleton]; naive_solver. Qed.

Lemma elem_next_arrival (x : event) (P : Prop) `{!Decision P} (t : Z) :
  x ∈ (if decide P then [(t, (ASIGNED, 0, 0))] else []) → x = (t, (ASIGNED, 0, 0)).
Proof. case_decide; [by intros ->%list_elem_of_singleton|by intros ?%elem_of_nil]. Qed.

Lemma head_tail {A} (q : list A) c0 c :
  q = c0 :: tail q → head (tail q) = Some c → ∃ rest', q = c0 :: c :: rest'.
Proof. destruct q as [|? [|? rest']]; intros ? ?; simplify_eq/=. by exists rest'. Qed.

(** The events of the state after a step: those left, and those added. *)
Ltac step_events Hst Hx :=
  inv_mstep Hst;
  match goal with Ht : takes _ _ _ |- _ => apply takes_pending in Ht as [Hin Hrest] end;
  match goal with Hp' : ?p ≡ₚ _ |- _ => rewrite Hp' in Hx end;
  rewrite ?elem_of_app, ?elem_of_cons, ?elem_start_if_idle, ?elem_start_next in Hx;
  destruct_or?; destruct_and?; simplify_eq; auto;
  try (match goal with H : _ ∈ (if decide _ then _ else _) |- _ =>
         apply elem_next_arrival in H end; simplify_eq).

Section events.
Context (n : nat) (horizon : Z).
Implicit Types (s : mstate) (l : label).

(** A service start or an assignment to a later station processes a
    pending event of its time, client and station. *)
Lemma mstep_takes_arrival t c i s s' :
  mstep n horizon (Arrival t c i) s s' → (t, (ARRIVAL, c, i)) ∈ m_pending s ∧ m_t s' = t.
Proof.
  intros Hst. inv_mstep Hst;
    match goal with Ht : takes _ _ _ |- _ => by apply takes_pending in Ht as [? _] end.
Qed.

Lemma mstep_takes_transit t c j next s s' :
  mstep n horizon (Asigned t c (S j) next) s s' →
  (t, (ASIGNED, c, S j)) ∈ m_pending s ∧ m_t s' = t.
Proof.
  intros Hst. inv_mstep Hst;
    match goal with Ht : takes _ _ _ |- _ => by apply takes_pending in Ht as [? _] end.
Qed.

(** A pending service start was pending before the step, or it is for
    the client that joined an empty queue, or for the client behind the
    one that completed service. *)
Lemma mstep_new_arrival l s s' t c i :
  stations_ok s → mstep n horizon l s s' → (t, (ARRIVAL, c, i)) ∈ m_pending s' →
  (t, (ARRIVAL, c, i)) ∈ m_pending s ∨
  (t = m_t s' ∧ m_queue s !! i = Some [] ∧ entered i l = Some c) ∨
  (t = m_t s' ∧ ∃ c0 rest', m_queue s !! i = Some (c0 :: c :: rest') ∧ finished i l = Some c0).
Proof.
  intros Hok Hst Hx.
  assert (∀ t0 c0 i0 rest, takes s (t0, (FINISH, c0, i0)) rest → ∀ queue_i,
            m_queue s !! i0 = Some queue_i → head (tail queue_i) = Some c →
            ∃ rest', m_queue s !! i0 = Some (c0 :: c :: rest')) as Hnext.
  { intros t0 c0 i0 rest Ht queue_i Hq Hc.
    destruct (head_tail queue_i c0 c) as [rest' ->]; [by eapply finish_head|done|by eexists]. }
  inv_mstep Hst;
    match goal with Ht : takes _ _ _ |- _ =>
      first [pose proof (Hnext _ _ _ _ Ht) as Hnext'|idtac];
      apply takes_pending in Ht as [Hin Hrest] end;
    match goal with Hp' : ?p ≡ₚ _ |- _ => rewrite Hp' in Hx end;
    rewrite ?elem_of_app, ?elem_of_cons, ?elem_start_if_idle, ?elem_start_next in Hx;
    destruct_or?; destruct_and?; simplify_eq; auto;
    try (match goal with H : _ ∈ (if decide _ then _ else _) |- _ =>
           apply elem_next_arrival in H end; simplify_eq).
  all: try (right; left; by rewrite decide_True).
  all: destruct Hx as (c1 & Hc & ?); simplify_eq;
    destruct (Hnext' _ ltac:(eassumption) Hc) as [rest' Hq'];
    right; right; (split; [done|]); exists c0, rest'; by rewrite decide_True.
Qed.

(** A pending assignment to a later station was pending before the step,
    or it is for the client that completed service at the station
    before. *)
Lemma mstep_new_transit l s s' t c j :
  forward_label l → mstep n horizon l s s' → (t, (ASIGNED, c, S j)) ∈ m_pending s' →
  (t, (ASIGNED, c, S j)) ∈ m_pending s ∨ (t = m_t s' ∧ finished j l = Some c).
Proof.
  intros Hl Hst Hx. step_events Hst Hx; try (by destruct Hx as (? & ? & ?)).
  all: right; replace j with i by lia; by rewrite decide_True.
Qed.
End events.

(** The step that records a service start, and the step that records an
    entry at a later station. *)
Lemma started_arrival n horizon i c l s s' :
  mstep n horizon l s s' → started i c l ≠ 0 →
  (m_t s', (ARRIVAL, c, i)) ∈ m_pending s ∧ started i c l = 1.
Proof.
  intros Hst Hs. destruct l as [|t0 c0 i0|]; simpl in *; try done.
  case_decide as Heq; [|done]. destruct Heq as [-> ->].
  by destruct (mstep_takes_arrival n horizon _ _ _ _ _ Hst) as [Hin ->].
Qed.

Lemma joined_transit n horizon j c l s s' :
  mstep n horizon l s s' → joined (S j) c l ≠ 0 →
  (m_t s', (ASIGNED, c, S j)) ∈ m_pending s ∧ joined (S j) c l = 1.
Proof.
  intros Hst Hs. destruct l as [t0 c0 i0 next| |]; simpl in *; try done.
  case_decide as Heq; [|done]. destruct Heq as [-> ->].
  by destruct (mstep_takes_transit n horizon _ _ _ _ _ _ Hst) as [Hin ->].
Qed.

(** ** The recursion is kept by the steps of a run without feedback *)

Section recursion.
Context (n : nat) (horizon : Z) (Hn : 0 < n).
Context (ls : list label) (s : mstate) (l : label) (s' : mstate).
Context (Hrun : mrun n horizon ls s) (Hls : Forall forward_label (ls ++ [l])).
Context (Hst : mstep n horizon l s s').

Local Lemma run_after : mrun n horizon (ls ++ [l]) s'.
Proof. by eapply mrun_snoc. Qed.

Local Lemma run_forward : Forall forward_label ls.
Proof. by apply Forall_app in Hls as [? _]. Qed.

Local Lemma clock_after : (m_t s ≤ m_t s')%Z.
Proof. apply mrun_time_nonneg in Hrun as [_ Hcl]. by eapply mstep_clock_mono. Qed.

(** The times recorded for a visit stay as they are. *)
Lemma mstep_keeps i c v :
  (trace_get (m_q s) i c = [v] → trace_get (m_q s') i c = [v]) ∧
  (trace_get (m_a s) i c = [v] → trace_get (m_a s') i c = [v]) ∧
  (trace_get (m_d s) i c = [v] → trace_get (m_d s') i c = [v]).
Proof.
  pose proof (mrun_minv n horizon Hn ls s Hrun) as [Hsh _ _ _ _].
  destruct (mrun_single n horizon Hn _ _ run_after Hls i c) as (Hq1 & Ha1 & Hd1).
  destruct (mstep_record n horizon l s s' i c Hsh Hst) as (Hq & Ha & Hd).
  rewrite Hq in *. rewrite Ha in *. rewrite Hd in *. split_and!; by apply single_snoc.
Qed.

(** The time recorded for a client that joins a queue, and for a client
    that completes service. *)
Lemma mstep_records i c :
  (entered i l = Some c → trace_get (m_q s') i c = [m_t s']) ∧
  (finished i l = Some c → trace_get (m_d s') i c = [m_t s']).
Proof.
  pose proof (mrun_minv n horizon Hn ls s Hrun) as [Hsh _ _ _ _].
  destruct (mrun_single n horizon Hn _ _ run_after Hls i c) as (Hq1 & _ & Hd1).
  destruct (mstep_record n horizon l s s' i c Hsh Hst) as (Hq & _ & Hd).
  rewrite Hq, joined_entered in *. rewrite Hd, completed_finished in *.
  split; intros Hl; rewrite Hl in *; simpl in *; rewrite count_if_cons, decide_True in * by done;
    by apply single_new.
Qed.

(** The time recorded by a step that records one for the visit. *)
Lemma mstep_stamps i c :
  (joined i c l ≠ 0 → trace_get (m_q s') i c = [m_t s']) ∧
  (started i c l ≠ 0 → trace_get (m_a s') i c = [m_t s']) ∧
  (completed i c l ≠ 0 → trace_get (m_d s') i c = [m_t s']).
Proof.
  pose proof (mrun_minv n horizon Hn ls s Hrun) as [Hsh _ _ _ _].
  destruct (mrun_single n horizon Hn _ _ run_after Hls i c) as (Hq1 & Ha1 & Hd1).
  destruct (mstep_record n horizon l s s' i c Hsh Hst) as (Hq & Ha & Hd).
  rewrite Hq in *. rewrite Ha in *. rewrite Hd in *.
  split_and!; intros Hl; destruct l; simpl in *; try done; case_decide; try done;
    by apply single_new.
Qed.

Lemma mstep_start_rule i c t : start_rule s i c t → start_rule s' i c t.
Proof.
  intros (t_q & Hq & Hc). exists t_q. split; [by apply mstep_keeps|].
  destruct c as [|c']; [done|]. destruct Hc as (t_d & Hd & ->).
  exists t_d. split; [by apply mstep_keeps|done].
Qed.

(** A client that joins an empty queue starts service at once: the
    client before it has completed service. *)
Lemma idle_start_rule i c :
  m_queue s !! i = Some [] → entered i l = Some c → start_rule s' i c (m_t s').
Proof.
  intros Hq Hl. exists (m_t s'). split; [by apply mstep_records|].
  destruct c as [|c']; [done|].
  pose proof (mrun_minv n horizon Hn ls s Hrun) as [[_ _ _ Hlen _] _ _ _ _].
  assert (i < n) as Hi by (apply lookup_lt_Some in Hq; lia).
  destruct (finished_at_identities n horizon Hn _ _ i run_after Hls Hi)
    as (_ & _ & _ & k' & Hk' & _).
  rewrite entered_at_snoc, Hl in Hk'. apply seq_snoc_inv in Hk' as [Hent _].
  pose proof (mrun_fifo n horizon ls s Hn Hrun i [] Hq) as Hfifo. rewrite app_nil_r, Hent in Hfifo.
  destruct (finished_time n horizon Hn ls s Hrun i c' _ Hfifo) as (t_d & Hd & Ht); [lia|].
  exists t_d. split; [by apply mstep_keeps|]. pose proof clock_after. lia.
Qed.

(** The client behind the one that completes service starts service at
    the completion: it has been waiting. *)
Lemma next_start_rule i c0 c rest' :
  m_queue s !! i = Some (c0 :: c :: rest') → finished i l = Some c0 →
  start_rule s' i c (m_t s').
Proof.
  intros Hq Hl.
  destruct (queue_identities n horizon Hn ls s Hrun run_forward i _ Hq) as (k & _ & Hk & Hent).
  simpl in Hk. injection Hk as -> -> _.
  destruct (entered_time n horizon Hn ls s Hrun i (S k) _ Hent) as (t_q & Htq & Ht);
    [simpl; lia|].
  exists t_q. split; [by apply mstep_keeps|]. exists (m_t s').
  split; [by apply mstep_records|]. pose proof clock_after. lia.
Qed.

(** A table that gains the time of the step held nothing before. *)
Lemma single_record (x x' : list Z) k :
  length x' ≤ 1 → x' = x ++ replicate k (m_t s') → k ≠ 0 → x' = [m_t s'].
Proof.
  intros Hlen -> Hk. destruct k as [|[|k]]; [done|by apply single_new|].
  rewrite length_app in Hlen. simpl in Hlen. lia.
Qed.

Lemma mstep_lindley : lindley_ok s → lindley_ok s'.
Proof.
  intros [Hsta Hpen Htra Hhan].
  pose proof (mrun_minv n horizon Hn ls s Hrun) as [Hsh Hok _ _ _].
  pose proof Hls as [_ Hl%Forall_inv]%Forall_app. split.
  - intros i c t Ha. destruct (mstep_record n horizon l s s' i c Hsh Hst) as (_ & Ha' & _).
    destruct (mrun_single n horizon Hn _ _ run_after Hls i c) as (_ & Ha1 & _).
    destruct (decide (started i c l = 0)) as [Hs|Hs].
    + rewrite Ha', Hs, app_nil_r in Ha. by apply mstep_start_rule, Hsta.
    + destruct (started_arrival n horizon i c l s s' Hst Hs) as [Hin _].
      rewrite (single_record _ _ _ Ha1 Ha' Hs) in Ha. injection Ha as <-.
      by apply mstep_start_rule, Hpen.
  - intros t c i [Hin|[(-> & Hq & He)|(-> & c0 & rest' & Hq & Hf)]]%(mstep_new_arrival n horizon l s);
      [by apply mstep_start_rule, Hpen|by apply idle_start_rule|by eapply next_start_rule|done..].
  - intros t c j [Hin|[-> Hf]]%(mstep_new_transit n horizon l s); [|by apply mstep_records|done..].
    by apply mstep_keeps, Htra.
  - intros j c t Hq. destruct (mstep_record n horizon l s s' (S j) c Hsh Hst) as (Hq' & _ & _).
    destruct (mrun_single n horizon Hn _ _ run_after Hls (S j) c) as (Hq1 & _ & _).
    destruct (decide (joined (S j) c l = 0)) as [Hj|Hj].
    + rewrite Hq', Hj, app_nil_r in Hq. by apply mstep_keeps, Hhan.
    + destruct (joined_transit n horizon j c l s s' Hst Hj) as [Hin _].
      rewrite (single_record _ _ _ Hq1 Hq' Hj) in Hq. injection Hq as <-.
      by apply mstep_keeps, Htra.
Qed.
End recursion.

Section runs.
Context (n : nat) (horizon : Z) (Hn : 0 < n).

Lemma minit_lindley gap : lindley_ok (minit n gap).
Proof.
  split; simpl.
  - intros i c t. by rewrite trace_get_replicate.
  - by intros t c i [=]%list_elem_of_singleton.
  - by intros t c j [=]%list_elem_of_singleton.
  - intros j c t. by rewrite trace_get_replicate.
Qed.

Lemma mrun_lindley ls s : mrun n horizon ls s → Forall forward_label ls → lindley_ok s.
Proof.
  revert ls s. apply (mrun_ind_inv n horizon (λ ls s, Forall forward_label ls → lindley_ok s)).
  - intros gap _ _. apply minit_lindley.
  - intros ls s l s' Hrun IH Hst Hls. apply (mstep_lindley n horizon Hn ls s l s'); try done.
    apply IH. by apply Forall_app in Hls as [? _].
Qed.
End runs.

Section engine_lindley.
Context {R : RandomSource} `{!RandomSourceLaws R}.
Context {PQ : PriorityQueue event} `{!PriorityQueueLaws event_lt PQ}.
Context (cfg : config) (Hcfg : valid_config cfg) (Hfwd : forward_only cfg).

(** The recursion, in the tables a call returns. *)
Lemma servers_simulation_recursion k fuel t n' n_a n_d q a d k' i c t_a :
  servers_simulation cfg k fuel = Finished ((t, n', n_a, n_d, q, a, d), k') →
  trace_get a i c = [t_a] →
  ∃ t_q, trace_get q i c = [t_q] ∧
    match c with
    | 0 => t_a = t_q
    | S c' => ∃ t_d, trace_get d i c' = [t_d] ∧ t_a = Z.max t_q t_d
    end ∧
    match i with
    | 0 => True
    | S j => trace_get d j c = [t_q]
    end.
Proof.
  intros (st & [= -> -> -> -> -> -> -> _] & _ & _ & Hrun & _)%servers_simulation_run Ha; [|done].
  pose proof (mrun_lindley _ _ (stations_pos cfg Hcfg) _ _ Hrun
                (simulation_labels_forward cfg Hfwd k fuel)) as [Hsta _ _ Hhan].
  destruct (Hsta i c t_a Ha) as (t_q & Hq & Hc). exists t_q. split_and!; [done..|].
  destruct i as [|j]; [done|]. by apply Hhan.
Qed.

(** C7: when no draw sends a client back, the tables a call of
    [servers_simulation] returns satisfy the recursion of a tandem of
    first-come-first-served stations: the first client starts service at
    a station when it enters its queue, every other client at the later
    of its entry and the completion of the client before it, and a
    client enters the queue of a station at the time it completed service
    at the station before. *)
Theorem servers_simulation_lindley k fuel t n' n_a n_d q a d k' i c t_a :
  servers_simulation cfg k fuel = Finished ((t, n', n_a, n_d, q, a, d), k') →
  trace_get a i c = [t_a] →
  ∃ t_q, trace_get q i c = [t_q] ∧
    match c with
    | 0 => t_a = t_q
    | S c' => ∃ t_d, trace_get d i c' = [t_d] ∧ t_a = Z.max t_q t_d
    end ∧
    match i with
    | 0 => True
    | S j => trace_get d j c = [t_q]
    end.
Proof. apply servers_simulation_recursion. Qed.
End engine_lindley.

(** The second client at the second station of the sixth experiment. *)
Lemma servers_simulation_lindley_witness :
  ∃ t n' n_a n_d q a d k' t_a,
    servers_simulation (R:=mean_source) (PQ:=list_pq event_lt)
      (at_horizon 60 experiment_6) 0 200 = Finished ((t, n', n_a, n_d, q, a, d), k') ∧
    trace_get a 1 1 = [t_a] ∧
    ∃ t_q, trace_get q 1 1 = [t_q] ∧
      (∃ t_d, trace_get d 1 0 = [t_d] ∧ t_a = Z.max t_q t_d) ∧ trace_get d 0 1 = [t_q].
Proof.
  do 9 eexists. do 2 (split; [vm_compute; reflexivity|]).
  eapply (servers_simulation_lindley (R:=mean_source) (PQ:=list_pq event_lt)
            (at_horizon 60 experiment_6) (experiment_6_valid 60) (mean_source_forward 60)
            0 200 _ _ _ _ _ _ _ _ 1 1);
    vm_compute; reflexivity.
Defined.
