(* ===== verification/Draws.v ===== *)
(** * Draws: the times between the events are the draws

    [servers_simulation] draws an exponential variate twice: the gap to
    the next arrival, with the rate [lambda_arrival_time], when a client
    is admitted at the first station, and the duration of a service, with
    the rate [mu_wait_time[i]] of the station, when a service starts.
    The machine of [Machine] allows any gap and any duration.  This file
    proves that, when no client is sent back, the tables the code returns
    hold exactly these draws:

    - the completion time of a visit is its service start plus a draw
      with the rate of the station;
    - the first client is admitted at a draw with the arrival rate, and
      every other client at the admission of the client before it plus
      such a draw;
    - every draw is a draw of the call, between the cursor the call
      starts with and the cursor it returns, and no draw is used for two
      times: the map [owner] gives each draw the one time it is used for.

    With the recursion of [Lindley] this determines every time of the
    tables from the draws.

    [drawn] is what an iteration of the loop does beyond the step of the
    machine: the event it schedules carries the draw at the cursor, and
    the cursor moves on ([loop_body_draw]).  [draws_ok] is the
    invariant: it holds of the pending completions and arrivals and of
    the times recorded.  [record_draw] is the ghost update of [owner]. *)

From Stdlib Require Import ZArith QArith Lia.
From stdpp Require Import gmap list.
From S2P Require Import Prelude Rng PriorityQueue Events Machine Engine Experiments.
From S2P Require Import Refinement Correctness Termination Timestamps Fifo Chains Visits.
From S2P Require Import Feedback Identities Order Lindley.

(** What a draw of the generator is used for: the duration of the
    service of client [c] at station [i], or the gap before the admission
    of client [c]. *)
Inductive draw_use : Type :=
  | Service (i c : nat)
  | Admission (c : nat).

(** The draw an iteration with the cursor at [k] makes: a service start
    draws the duration, an admission the gap to the next client. *)
Definition record_draw (k : nat) (l : label) (owner : gmap nat draw_use) : gmap nat draw_use :=
  match l with
  | Arrival _ c i => <[k := Service i c]> owner
  | Asigned _ c 0 _ => <[k := Admission (S c)]> owner
  | _ => owner
  end.

Section definitions.
Context {R : RandomSource} (cfg : config).
Context (owner : gmap nat draw_use) (lo hi : nat).

(** The draw [k] is a draw of the call, used for [u] only. *)
Definition owns (k : nat) (u : draw_use) : Prop :=
  owner !! k = Some u ∧ lo ≤ k < hi.

(** [t] is the service start of client [c] at station [i] plus its draw
    with the rate of the station. *)
Definition service_draw (a : trace) (i c : nat) (t : Z) : Prop :=
  ∃ t_a k mu, trace_get a i c = [t_a] ∧ arg_mu_wait_time cfg !! i = Some mu ∧
              t = (t_a + rnd_expovariate k mu)%Z ∧ owns k (Service i c).

(** [t] is the draw of client [c] with the arrival rate after the
    admission of the client before [c], or after time 0 for the first
    client. *)
Definition arrival_draw (q : trace) (c : nat) (t : Z) : Prop :=
  ∃ k, owns k (Admission c) ∧
       match c with
       | 0 => t = (0 + rnd_expovariate k (arg_lambda_arrival_time cfg))%Z
       | S c' => ∃ t_q, trace_get q 0 c' = [t_q] ∧
                        t = (t_q + rnd_expovariate k (arg_lambda_arrival_time cfg))%Z
       end.

(** The draws, in a state of the machine. *)
Record draws_ok (s : mstate) : Prop := {
  draws_finish : ∀ t c i, (t, (FINISH, c, i)) ∈ m_pending s → service_draw (m_a s) i c t;
  draws_done : ∀ i c t, trace_get (m_d s) i c = [t] → service_draw (m_a s) i c t;
  draws_next : ∀ t c, (t, (ASIGNED, c, 0)) ∈ m_pending s → arrival_draw (m_q s) (m_n_a s) t;
  draws_admitted : ∀ c t, trace_get (m_q s) 0 c = [t] → arrival_draw (m_q s) c t;
}.
End definitions.

(** The events a step schedules with the cursor at [k], with the draws
    they carry; the cursor is at [k'] after the step. *)
Definition drawn {R : RandomSource} (cfg : config) (k k' : nat) (l : label) (s s' : mstate) : Prop :=
  k ≤ k' ∧
  match l with
  | Arrival t c i =>
      k < k' ∧
      ∃ rest mu, takes s (t, (ARRIVAL, c, i)) rest ∧ arg_mu_wait_time cfg !! i = Some mu ∧
        m_pending s' ≡ₚ ((t + rnd_expovariate k mu)%Z, (FINISH, c, i)) :: rest
  | Asigned t c 0 _ =>
      k < k' ∧
      ∃ rest c0 queue_0, takes s (t, (ASIGNED, c0, 0)) rest ∧
        let t' := (t + rnd_expovariate k (arg_lambda_arrival_time cfg))%Z in
        m_pending s' ≡ₚ start_if_idle t c 0 queue_0 ++
          (if decide (t' < arg_time cfg)%Z then [(t', (ASIGNED, 0, 0))] else []) ++ rest
  | _ => True
  end.

(** * Lemmas *)

(** ** What an iteration of the loop draws *)

Section step_draw.
Context {R : RandomSource} `{!RandomSourceLaws R}.
Context {PQ : PriorityQueue event} `{!PriorityQueueLaws event_lt PQ}.
Context (cfg : config) (Hcfg : valid_config cfg).

Lemma on_asigned_draw st ev t c st' rest :
  pq_wf ev → takes (abs st) (t, (ASIGNED, c, 0)) rest → pq_items ev = rest →
  on_asigned cfg (with_events st ev) t c 0 = Ok st' →
  ∀ l, event_label cfg st (t, (ASIGNED, c, 0)) = Ok l →
       drawn cfg (st_rng st) (st_rng st') l (abs st) (abs st').
Proof.
  intros Hwf Ht <- Hon l Hl. unfold on_asigned in Hon; simpl in Hon, Hl.
  apply bind_Ok in Hon as (q' & _ & Hon).
  apply bind_Ok in Hon as (queue_0 & Hq%py_index_Ok & Hon).
  apply bind_Ok in Hon as ([gap k'] & Hgap & [= <-]). rewrite Hgap in Hl. injection Hl as <-.
  apply random_expovariate_Ok in Hgap as (_ & -> & ->).
  destruct (items_put_if (bool_decide (length queue_0 = 0)) (t, (ARRIVAL, st_n_a st, 0)) ev Hwf)
    as [Hwf1 Hp1].
  destruct (items_put_if (bool_decide (t + rnd_expovariate (st_rng st)
              (arg_lambda_arrival_time cfg) < arg_time cfg)%Z)
              ((t + rnd_expovariate (st_rng st) (arg_lambda_arrival_time cfg))%Z, (ASIGNED, 0, 0))
              _ Hwf1) as [_ Hp2].
  simpl. split_and!; [lia..|]. exists (pq_items ev), c, queue_0. split; [done|]. simpl.
  rewrite Hp2, Hp1, start_if_idle_if.
  repeat case_bool_decide; case_decide; try done; apply Permutation_swap.
Qed.

Lemma on_arrival_draw st ev t c i st' rest :
  pq_wf ev → takes (abs st) (t, (ARRIVAL, c, i)) rest → pq_items ev = rest →
  on_arrival cfg (with_events st ev) t c i = Ok st' →
  drawn cfg (st_rng st) (st_rng st') (Arrival t c i) (abs st) (abs st').
Proof.
  intros Hwf Ht <- Hon. unfold on_arrival in Hon; simpl in Hon.
  apply bind_Ok in Hon as (a' & _ & Hon).
  apply bind_Ok in Hon as (mu & Hmu%py_index_Ok & Hon).
  apply bind_Ok in Hon as ([duration k'] & (_ & -> & ->)%random_expovariate_Ok & [= <-]).
  simpl. split_and!; [lia..|]. exists (pq_items ev), mu. split_and!; [done..|].
  by apply (pq_items_put (ltb:=event_lt)).
Qed.

(** An iteration schedules the events of its step with the draw at the
    cursor, and moves the cursor on. *)
Lemma loop_body_draw st st' l :
  pq_wf (st_events st) → loop_body cfg st = Ok st' → step_label cfg st = Ok l →
  drawn cfg (st_rng st) (st_rng st') l (abs st) (abs st').
Proof.
  intros Hwf Hb. pose proof (loop_body_cursor_mono cfg st st' Hb) as Hk.
  apply bind_Ok in Hb as ([x ev] & Hget & Hd). unfold step_label. rewrite Hget. simpl.
  destruct (pq_get_Ok event_lt _ _ _ Hwf Hget) as (Hp & Hl & Hwf').
  assert (takes (abs st) x (pq_items ev)) as Ht by done.
  destruct x as [t [[[] c] i]]; simpl in *.
  - destruct i as [|i]; [by eapply on_asigned_draw|]. by intros [= <-].
  - intros [= <-]. by eapply on_arrival_draw.
  - case_bool_decide; [by intros [= <-]|]. by intros ([next k'] & _ & [= <-])%bind_Ok.
Qed.
End step_draw.

(** ** The events of a step, with their draws *)

Section step_events.
Context {R : RandomSource} (cfg : config) (n : nat) (horizon : Z).
Implicit Types (s : mstate) (l : label).

Lemma completed_finish i c l s s' :
  mstep n horizon l s s' → completed i c l ≠ 0 → (m_t s', (FINISH, c, i)) ∈ m_pending s.
Proof.
  intros Hst Hc. destruct l as [| |t0 c0 i0 next]; simpl in *; try done.
  case_decide as Heq; [|done]. destruct Heq as [-> ->].
  inv_mstep Hst; match goal with Ht : takes _ _ _ |- _ => by apply takes_pending in Ht as [? _] end.
Qed.

Lemma joined_external c l s s' :
  mstep n horizon l s s' → joined 0 c l ≠ 0 →
  c = m_n_a s ∧ ∃ c0, (m_t s', (ASIGNED, c0, 0)) ∈ m_pending s.
Proof.
  intros Hst Hc. destruct l as [t0 c1 i0 next| |]; simpl in *; try done.
  case_decide as Heq; [|done]. destruct Heq as [-> ->].
  inv_mstep Hst; [|done]. split; [done|].
  match goal with Ht : takes _ _ _ |- _ => apply takes_pending in Ht as [? _] end. by eexists.
Qed.

(** A pending completion was pending before the step, or it is the
    completion of the service the step starts, due after the draw at the
    cursor, with the rate of the station. *)
Lemma drawn_finish k k' l s s' t c i :
  mstep n horizon l s s' → drawn cfg k k' l s s' → (t, (FINISH, c, i)) ∈ m_pending s' →
  (t, (FINISH, c, i)) ∈ m_pending s ∨
  (l = Arrival (m_t s') c i ∧ k < k' ∧ ∃ mu, arg_mu_wait_time cfg !! i = Some mu ∧
     t = (m_t s' + rnd_expovariate k mu)%Z).
Proof.
  intros Hst [_ Hd] Hx. destruct l as [t0 c0 i0 next|t0 c0 i0|t0 c0 i0 next].
  - left. clear Hd. step_events Hst Hx; by destruct Hx as (? & ? & ?).
  - destruct Hd as (Hk & rest & mu & [_ Hrest]%takes_pending & Hmu & Hp).
    destruct (mstep_takes_arrival n horizon _ _ _ _ _ Hst) as [_ Ht].
    rewrite Hp in Hx. apply elem_of_cons in Hx as [[= -> -> ->]|Hx]; [|left; by apply Hrest].
    right. rewrite Ht. split_and!; [done..|]. by exists mu.
  - left. clear Hd. step_events Hst Hx; by destruct Hx as (? & ? & ?).
Qed.

(** A pending arrival was pending before a step that admits nobody, or
    it is the arrival the admission schedules, due after the draw at the
    cursor, with the arrival rate. *)
Lemma drawn_external k k' l s s' t c :
  forward_label l → external_pending s ≤ 1 →
  mstep n horizon l s s' → drawn cfg k k' l s s' → (t, (ASIGNED, c, 0)) ∈ m_pending s' →
  ((t, (ASIGNED, c, 0)) ∈ m_pending s ∧ joined 0 (m_n_a s) l = 0 ∧ m_n_a s' = m_n_a s) ∨
  ((∃ next, l = Asigned (m_t s') (m_n_a s) 0 next) ∧ k < k' ∧ m_n_a s' = S (m_n_a s) ∧
   t = (m_t s' + rnd_expovariate k (arg_lambda_arrival_time cfg))%Z).
Proof.
  intros Hl Hone Hst [_ Hd] Hx. destruct l as [t0 c0 [|i0] next|t0 c0 i0|t0 c0 i0 next].
  - right. destruct Hd as (Hk & rest & c1 & queue_0 & Ht & Hp).
    assert (Forall (λ x, ¬ is_external x) rest) as Hrest.
    { destruct Ht as [Hperm _]. unfold external_pending in Hone.
      rewrite Hperm, count_if_cons, decide_True in Hone by done. apply (count_if_zero is_external). lia. }
    assert (m_t s' = t0 ∧ c0 = m_n_a s ∧ m_n_a s' = S (m_n_a s)) as (Ht0 & -> & Hna)
      by (inv_mstep Hst; [split_and!; [done..|lia]|done]).
    rewrite Ht0. split_and!; [by eexists|done..|].
    rewrite Hp, !elem_of_app, elem_start_if_idle in Hx. destruct Hx as [[_ [=]]|[Hx|Hx]].
    + by apply elem_next_arrival in Hx as [= -> _].
    + rewrite Forall_forall in Hrest. by destruct (Hrest _ Hx).
  - left. clear Hd. unfold joined. rewrite decide_False by (by intros []).
    step_events Hst Hx; try (by destruct Hx as (? & ? & ?)); by split_and!.
  - left. clear Hd. simpl. step_events Hst Hx; try (by destruct Hx as (? & ? & ?)); by split_and!.
  - left. clear Hd. simpl in *.
    step_events Hst Hx; try (by destruct Hx as (? & ? & ?)); try lia; by split_and!.
Qed.
End step_events.

(** ** The invariant *)

Section owner.
Context (owner : gmap nat draw_use) (lo : nat).

(** Draws that are owned stay owned when the cursor moves on. *)
Lemma owns_record hi k k' l j u :
  owns owner lo hi j u → hi ≤ k → k ≤ k' → owns (record_draw k l owner) lo k' j u.
Proof.
  intros [Hj ?] ? ?. split; [|lia].
  destruct l as [? ? [|?] ?| |]; simpl; try done; rewrite lookup_insert_ne; (done || lia).
Qed.

(** A draw is used for one time only. *)
Lemma owns_inj hi j u u' : owns owner lo hi j u → owns owner lo hi j u' → u = u'.
Proof. intros [Hu _] [Hu' _]. congruence. Qed.

Lemma owns_service k k' t c i :
  lo ≤ k → k < k' → owns (record_draw k (Arrival t c i) owner) lo k' k (Service i c).
Proof. intros ? ?. split; [apply lookup_insert_eq|lia]. Qed.

Lemma owns_admission k k' t c next :
  lo ≤ k → k < k' → owns (record_draw k (Asigned t c 0 next) owner) lo k' k (Admission (S c)).
Proof. intros ? ?. split; [apply lookup_insert_eq|lia]. Qed.
End owner.

Lemma minit_draws {R : RandomSource} cfg n k :
  draws_ok cfg {[k := Admission 0]} k (S k)
    (minit n (rnd_expovariate k (arg_lambda_arrival_time cfg))).
Proof.
  split; simpl.
  - by intros t c i [=]%list_elem_of_singleton.
  - intros i c t. by rewrite trace_get_replicate.
  - intros t c [= -> _]%list_elem_of_singleton. exists k. split; [|done].
    split; [apply lookup_singleton_eq|lia].
  - intros c t. by rewrite trace_get_replicate.
Qed.

Section preservation.
Context {R : RandomSource} (cfg : config).
Context (n : nat) (horizon : Z) (Hn : 0 < n).
Context (ls : list label) (s : mstate) (l : label) (s' : mstate).
Context (Hrun : mrun n horizon ls s) (Hls : Forall forward_label (ls ++ [l])).
Context (Hst : mstep n horizon l s s').
Context (owner : gmap nat draw_use) (lo k k' : nat) (Hlo : lo ≤ k) (Hd : drawn cfg k k' l s s').

Local Lemma table_after i c :
  trace_get (m_q s') i c = trace_get (m_q s) i c ++ replicate (joined i c l) (m_t s') ∧
  trace_get (m_a s') i c = trace_get (m_a s) i c ++ replicate (started i c l) (m_t s') ∧
  trace_get (m_d s') i c = trace_get (m_d s) i c ++ replicate (completed i c l) (m_t s').
Proof.
  pose proof (mrun_minv n horizon Hn ls s Hrun) as [Hsh _ _ _ _]. by apply (mstep_record n horizon).
Qed.

Local Lemma one_external : external_pending s ≤ 1.
Proof.
  pose proof (mrun_chains n horizon _ _ Hrun) as Hok. unfold chains_ok in Hok.
  rewrite forward_recycled in Hok; [lia|]. by apply Forall_app in Hls as [? _].
Qed.

Local Lemma cursor_after : k ≤ k'.
Proof. by destruct Hd. Qed.

Lemma service_draw_step i c t :
  service_draw cfg owner lo k (m_a s) i c t →
  service_draw cfg (record_draw k l owner) lo k' (m_a s') i c t.
Proof.
  intros (t_a & j & mu & Ha & Hmu & -> & Hj). exists t_a, j, mu.
  split_and!; [|done..|by apply (owns_record _ _ k), cursor_after].
  by apply (mstep_keeps n horizon Hn ls s l s').
Qed.

Lemma arrival_draw_step c t :
  arrival_draw cfg owner lo k (m_q s) c t →
  arrival_draw cfg (record_draw k l owner) lo k' (m_q s') c t.
Proof.
  intros (j & Hj & Hc). exists j. split; [by apply (owns_record _ _ k), cursor_after|].
  destruct c as [|c']; [done|]. destruct Hc as (t_q & Hq & ->).
  exists t_q. split; [|done]. by apply (mstep_keeps n horizon Hn ls s l s').
Qed.

(** The service that starts in the step, with its draw. *)
Lemma started_draw i c mu :
  l = Arrival (m_t s') c i → k < k' → arg_mu_wait_time cfg !! i = Some mu →
  service_draw cfg (record_draw k l owner) lo k' (m_a s') i c (m_t s' + rnd_expovariate k mu)%Z.
Proof.
  intros Hl Hk Hmu. exists (m_t s'), k, mu.
  split_and!; [|done..|rewrite Hl; by apply owns_service].
  apply (mstep_stamps n horizon Hn ls s l s'); [done..|]. rewrite Hl. simpl. by rewrite decide_True.
Qed.

(** The client admitted in the step, with the draw to the next. *)
Lemma admitted_draw next :
  l = Asigned (m_t s') (m_n_a s) 0 next → k < k' →
  arrival_draw cfg (record_draw k l owner) lo k' (m_q s') (S (m_n_a s))
    (m_t s' + rnd_expovariate k (arg_lambda_arrival_time cfg))%Z.
Proof.
  intros Hl Hk. exists k. split; [rewrite Hl; by apply owns_admission|].
  exists (m_t s'). split; [|done].
  apply (mstep_stamps n horizon Hn ls s l s'); [done..|]. rewrite Hl. simpl. by rewrite decide_True.
Qed.

(** A time in a table after the step was there before, or the step
    recorded it and it is the time of the step. *)
Lemma single_after (tr tr' : list Z) j t :
  tr' = tr ++ replicate j (m_t s') → tr' = [t] → (j = 0 ∧ tr = [t]) ∨ (j ≠ 0 ∧ t = m_t s').
Proof.
  intros -> Ht. destruct j as [|j]; [left; by rewrite app_nil_r in Ht|right].
  split; [done|]. apply (f_equal length) in Ht as Hlen. rewrite length_app in Hlen.
  destruct tr; simpl in *; [by injection Ht|lia].
Qed.

Lemma mstep_draws :
  draws_ok cfg owner lo k s → draws_ok cfg (record_draw k l owner) lo k' s'.
Proof.
  intros [Hfin Hdone Hnext Hadm]. split.
  - intros t c i Hx. destruct (drawn_finish cfg n horizon k k' l s s' t c i Hst Hd Hx)
      as [Hold|(Hl & Hk & mu & Hmu & ->)]; [by apply service_draw_step, Hfin|].
    by apply started_draw.
  - intros i c t Ht. destruct (table_after i c) as (_ & _ & Hrec).
    destruct (single_after _ _ _ _ Hrec Ht) as [[_ Hold]|[Hl ->]];
      [by apply service_draw_step, Hdone|].
    by apply service_draw_step, Hfin, (completed_finish n horizon i c l).
  - intros t c Hx.
    assert (forward_label l) as Hl by (by apply Forall_app in Hls as [_ [? _]%Forall_cons]).
    destruct (drawn_external cfg n horizon k k' l s s' t c Hl one_external Hst Hd Hx)
      as [(Hold & _ & ->)|([next Hj] & Hk & -> & ->)]; [by eapply arrival_draw_step, Hnext|].
    by eapply admitted_draw.
  - intros c t Ht. destruct (table_after 0 c) as (Hrec & _ & _).
    destruct (single_after _ _ _ _ Hrec Ht) as [[_ Hold]|[Hl ->]];
      [by apply arrival_draw_step, Hadm|].
    destruct (joined_external n horizon c l s s' Hst Hl) as (-> & c0 & Hx).
    by eapply arrival_draw_step, Hnext.
Qed.
End preservation.

(** ** The draws of a call *)

Section engine_draws.
Context {R : RandomSource} `{!RandomSourceLaws R}.
Context {PQ : PriorityQueue event} `{!PriorityQueueLaws event_lt PQ}.
Context (cfg : config) (Hcfg : valid_config cfg) (Hfwd : forward_only cfg).

Lemma init_state_draws k st :
  init_state cfg k = Ok st →
  pq_wf (st_events st) ∧ st_rng st = S k ∧
  draws_ok cfg {[k := Admission 0]} k (S k) (abs st) ∧
  mrun (stations cfg) (arg_time cfg) [] (abs st).
Proof.
  intros Hi. destruct (init_state_refines cfg Hcfg k st Hi) as (gap & Hgap & Habs & Hwf).
  apply bind_Ok in Hi as ([gap' k'] & (_ & -> & ->)%random_expovariate_Ok & [= <-]).
  split_and!; [done..| |rewrite Habs; by apply mrun_init]. rewrite Habs.
  assert (gap = rnd_expovariate k (arg_lambda_arrival_time cfg)) as ->; [|apply minit_draws].
  apply (f_equal m_pending) in Habs. simpl in Habs.
  pose proof (pq_items_put (ltb:=event_lt)
                ((0 + rnd_expovariate k (arg_lambda_arrival_time cfg))%Z, (ASIGNED, 0, 0))
                pq_new (pq_wf_new (ltb:=event_lt))) as Hp.
  rewrite Habs, (pq_items_new (ltb:=event_lt)) in Hp.
  apply Permutation_singleton_l in Hp. injection Hp. lia.
Qed.

(** The loop keeps the invariant. *)
Lemma run_draws fuel st st' ls owner lo :
  pq_wf (st_events st) → mrun (stations cfg) (arg_time cfg) ls (abs st) →
  Forall forward_label ls → lo ≤ st_rng st → draws_ok cfg owner lo (st_rng st) (abs st) →
  run cfg fuel st = Finished st' →
  ∃ owner', draws_ok cfg owner' lo (st_rng st') (abs st').
Proof.
  revert st ls owner. induction fuel as [|fuel IH]; intros st ls owner Hwf Hrun Hls Hlo Hok;
    unfold run; simpl; destruct (loop_cond cfg st) eqn:Hc; try done;
    try (intros [= <-]; by exists owner).
  destruct (loop_body cfg st) as [st1|] eqn:Hb; [|done].
  destruct (loop_body_refines cfg Hcfg st st1 Hwf Hb) as (l & Hl & Hst & Hwf1).
  pose proof (loop_body_draw cfg st st1 l Hwf Hb Hl) as Hd.
  assert (Forall forward_label (ls ++ [l])) as Hls'.
  { apply Forall_app. split; [done|]. apply Forall_singleton.
    apply bind_Ok in Hl as ([x ev] & _ & Hl). by eapply event_label_forward. }
  intros Hr.
  apply (IH st1 (ls ++ [l]) (record_draw (st_rng st) l owner));
    [done|by eapply mrun_snoc|done|destruct Hd; lia| |done].
  by apply (mstep_draws cfg (stations cfg) (arg_time cfg) (stations_pos cfg Hcfg) ls (abs st) l).
Qed.

(** The draws, in the tables a call returns. *)
Lemma servers_simulation_drawn k fuel t n' n_a n_d q a d k' :
  servers_simulation cfg k fuel = Finished ((t, n', n_a, n_d, q, a, d), k') →
  ∃ owner, (∀ i c t_d, trace_get d i c = [t_d] → service_draw cfg owner k k' a i c t_d) ∧
           (∀ c t_q, trace_get q 0 c = [t_q] → arrival_draw cfg owner k k' q c t_q).
Proof.
  unfold servers_simulation.
  intros (st0 & Hi%lift_result_Finished &
          (st & Hrun & [= <- <- <- <- <- <- <- <-])%loop_bind_Finished)%loop_bind_Finished.
  destruct (init_state_draws k st0 Hi) as (Hwf & Hk & Hok & Hm). rewrite <- Hk in Hok.
  destruct (run_draws fuel st0 st [] _ k Hwf Hm (Forall_nil_2 _) ltac:(lia) Hok Hrun)
    as [owner [_ Hdone _ Hadm]].
  by exists owner.
Qed.

(** C8: when no draw sends a client back, the times between the events
    of the tables [servers_simulation] returns are the draws of the
    generator.  The completion time [d[i][c]] is the service start
    [a[i][c]] plus [random.expovariate(mu_wait_time[i])], and the
    admission time [q[0][c]] is the admission time of the client before
    it, or 0 for the first client, plus
    [random.expovariate(lambda_arrival_time)].  Each of these draws is
    made by the call, between the cursor [k] it starts with and the
    cursor [k'] it returns, and is used for this time only: [owner] maps
    a draw to the one time it is used for. *)
Theorem servers_simulation_draws k fuel t n' n_a n_d q a d k' :
  servers_simulation cfg k fuel = Finished ((t, n', n_a, n_d, q, a, d), k') →
  ∃ owner : gmap nat draw_use,
    (∀ i c t_d, trace_get d i c = [t_d] →
       ∃ t_a k_s mu, trace_get a i c = [t_a] ∧ arg_mu_wait_time cfg !! i = Some mu ∧
         t_d = (t_a + rnd_expovariate k_s mu)%Z ∧
         owner !! k_s = Some (Service i c) ∧ k ≤ k_s < k') ∧
    (∀ c t_q, trace_get q 0 c = [t_q] →
       ∃ k_a, (owner !! k_a = Some (Admission c) ∧ k ≤ k_a < k') ∧
         match c with
         | 0 => t_q = (0 + rnd_expovariate k_a (arg_lambda_arrival_time cfg))%Z
         | S c' => ∃ t_p, trace_get q 0 c' = [t_p] ∧
                          t_q = (t_p + rnd_expovariate k_a (arg_lambda_arrival_time cfg))%Z
         end).
Proof. apply servers_simulation_drawn. Qed.
End engine_draws.

Lemma servers_simulation_draws_witness :
  ∃ t n' n_a n_d q a d k' t_d,
    servers_simulation (R:=mean_source) (PQ:=list_pq event_lt)
      (at_horizon 60 experiment_6) 0 200 = Finished ((t, n', n_a, n_d, q, a, d), k') ∧
    trace_get d 1 1 = [t_d] ∧
    ∃ t_a k_s mu, trace_get a 1 1 = [t_a] ∧
      arg_mu_wait_time (at_horizon 60 experiment_6) !! 1 = Some mu ∧
      t_d = (t_a + rnd_expovariate (RandomSource:=mean_source) k_s mu)%Z ∧ 0 ≤ k_s < k'.
Proof.
  do 9 eexists. do 2 (split; [vm_compute; reflexivity|]).
  edestruct (servers_simulation_draws (R:=mean_source) (PQ:=list_pq event_lt)
               (at_horizon 60 experiment_6) (experiment_6_valid 60) (mean_source_forward 60)
               0 200) as (owner & Hservice & _); [vm_compute; reflexivity|].
  destruct (Hservice 1 1 _ ltac:(vm_compute; reflexivity)) as (t_a & k_s & mu & ? & ? & ? & _ & ?).
  by exists t_a, k_s, mu.
Defined.
