(* ===== verification/Numpy.v ===== *)
(** * Numpy: the three reductions the notebook uses

    [np.mean], [np.var] and [np.std] of a list of floats.  Floats are
    rationals or [nan]: the mean of an empty list is [nan] (numpy warns and
    returns it), and [nan] propagates through every reduction and makes
    every comparison false.  The standard deviation is a square root; it is
    only ever compared with a bound, so it is modelled by that comparison
    ([np_std_over_len_lt]). *)

From Stdlib Require Import ZArith QArith Lia Lqa.
From stdpp Require Import list.
From S2P Require Import Prelude.

(** A float: a value or [nan]. *)
Inductive npfloat : Type :=
  | Val (x : Q)
  | NaN.

(** The values of a list of floats, if none is [nan]. *)
Fixpoint values (l : list npfloat) : option (list Q) :=
  match l with
  | [] => Some []
  | Val x :: l' => cons x <$> values l'
  | NaN :: _ => None
  end.

(** [sum(l)] *)
Definition sumQ (l : list Q) : Q := foldr Qplus 0%Q l.

(** The mean of a list of values; [nan] for the empty list. *)
Definition meanQ (l : list Q) : npfloat :=
  match l with
  | [] => NaN
  | _ => Val (sumQ l / inject_Z (Z.of_nat (length l)))
  end.

(** The population variance of a list of values. *)
Definition varQ (l : list Q) : npfloat :=
  match meanQ l with
  | Val m => meanQ ((λ x, (x - m) * (x - m))%Q <$> l)
  | NaN => NaN
  end.

(** [np.mean(l)] *)
Definition np_mean (l : list npfloat) : npfloat :=
  match values l with
  | Some xs => meanQ xs
  | None => NaN
  end.

(** [np.var(l)] *)
Definition np_var (l : list npfloat) : npfloat :=
  match values l with
  | Some xs => varQ xs
  | None => NaN
  end.

(** [np.std(l) / len(l) < bound]: the square root of the variance is below
    [bound * len(l)]; false when the deviation is [nan]. *)
Definition np_std_over_len_lt (l : list npfloat) (bound : Q) : bool :=
  match np_var l with
  | Val v =>
      let b := (bound * inject_Z (Z.of_nat (length l)))%Q in
      Qltb 0 b && Qltb v (b * b)
  | NaN => false
  end.

(** A float that is [nan] or not negative. *)
Definition np_nonneg (x : npfloat) : Prop :=
  match x with
  | Val v => (0 <= v)%Q
  | NaN => True
  end.

(** * Lemmas *)

Lemma values_Some l xs : values l = Some xs ↔ l = Val <$> xs.
Proof.
  revert xs. induction l as [|[x|] l IH]; intros xs; simpl.
  - destruct xs; naive_solver.
  - rewrite fmap_Some. setoid_rewrite IH. destruct xs; naive_solver.
  - destruct xs; naive_solver.
Qed.

Lemma values_fmap xs : values (Val <$> xs) = Some xs.
Proof. by apply values_Some. Qed.

Lemma values_length l xs : values l = Some xs → length xs = length l.
Proof. intros ->%values_Some. by rewrite length_fmap. Qed.

Lemma sumQ_nonneg l : Forall (λ x, 0 <= x)%Q l → (0 <= sumQ l)%Q.
Proof. induction 1; simpl; [done|]. lra. Qed.

Lemma meanQ_nan l : meanQ l = NaN ↔ l = [].
Proof. by destruct l. Qed.

Lemma meanQ_nonneg l m : Forall (λ x, 0 <= x)%Q l → meanQ l = Val m → (0 <= m)%Q.
Proof.
  intros Hl%sumQ_nonneg. destruct l as [|x l]; [done|]. intros [= <-].
  apply Qle_shift_div_l; [done|]. by rewrite Qmult_0_l.
Qed.

Lemma meanQ_np_nonneg l : Forall (λ x, 0 <= x)%Q l → np_nonneg (meanQ l).
Proof. intros Hl. destruct (meanQ l) eqn:E; [by eapply meanQ_nonneg|done]. Qed.

Lemma values_nonneg l xs :
  Forall np_nonneg l → values l = Some xs → Forall (λ x, 0 <= x)%Q xs.
Proof.
  intros Hl. revert xs. induction Hl as [|[x|] l Hx _ IH]; intros xs; simpl; [by intros [= <-]| |done].
  destruct (values l) as [xs'|]; [|done]. intros [= <-]. constructor; [done|by apply IH].
Qed.

(** The mean of floats that are not negative is [nan] or not negative. *)
Lemma np_mean_nonneg l : Forall np_nonneg l → np_nonneg (np_mean l).
Proof.
  intros Hl. unfold np_mean. destruct (values l) as [xs|] eqn:Hxs; [|done].
  by eapply meanQ_np_nonneg, values_nonneg.
Qed.

(** The variance is not negative. *)
Lemma varQ_nonneg l v : varQ l = Val v → (0 <= v)%Q.
Proof.
  unfold varQ. destruct (meanQ l) as [m|]; [|done].
  apply meanQ_nonneg, Forall_fmap, Forall_forall. intros x _. simpl.
  generalize (x - m)%Q. intros y. unfold Qle, Qmult. simpl.
  rewrite Z.mul_1_r. apply Z.square_nonneg.
Qed.

(** The mean of a list of floats is [nan] exactly when the list is empty or
    holds [nan]. *)
Lemma np_mean_nan l : np_mean l = NaN ↔ l = [] ∨ NaN ∈ l.
Proof.
  unfold np_mean. destruct (values l) as [xs|] eqn:Hv.
  - apply values_Some in Hv as ->. rewrite meanQ_nan. split.
    + intros ->. by left.
    + intros [Hl|Hl]; [by destruct xs|].
      by apply list_elem_of_fmap in Hl as (? & ? & _).
  - split; [intros _; right|done].
    induction l as [|[x|] l IH]; simpl in *; [done| |by left].
    right. apply IH. by destruct (values l).
Qed.

(** The test of convergence fails on [nan]. *)
Lemma np_std_over_len_lt_nan l bound :
  np_var l = NaN → np_std_over_len_lt l bound = false.
Proof. unfold np_std_over_len_lt. by intros ->. Qed.

(** A list that holds [nan] has [nan] for mean and for variance. *)
Lemma values_nan l : NaN ∈ l → values l = None.
Proof.
  intros Hl. destruct (values l) as [xs|] eqn:Hv; [|done].
  apply values_Some in Hv as ->. by apply list_elem_of_fmap in Hl as (? & ? & _).
Qed.

Lemma np_var_nan l : NaN ∈ l → np_var l = NaN.
Proof. intros Hl. unfold np_var. by rewrite values_nan. Qed.

Lemma np_var_nonneg l : np_nonneg (np_var l).
Proof.
  unfold np_var. destruct (values l) as [xs|]; [|done].
  destruct (varQ xs) as [v|] eqn:Hv; [|done]. by eapply varQ_nonneg.
Qed.
