(* ===== verification/Metrics.v ===== *)
(** * Metrics: the measurements of one run

    The model of the class [Metrics] and of [metrics_by_simulation] of
    [src/sim.ipynb]: the function runs [servers_simulation] and reduces the
    three tables to a mean waiting time and a mean service time per
    station and to a time in the system per client.  The two nested [for]
    loops are [for_loop]s over [range(n)] and [range(n_a)]; the local
    variables of the function are the fields of [acc]; the body of the
    inner loop is [client_body], the body of the outer loop is
    [station_body].

    The lemmas show that the function raises nothing on the tables of a
    run ([acc_ok]), and that the means it reports are not negative
    ([acc_nonneg], from the order of the recorded times proved in
    [Timestamps]).  The time in the system is computed under the
    assumption that the clients [0 .. n_d - 1] are those that left:
    [SystemTime] shows what is reported when no client is sent back,
    [Sojourn] what is reported when clients are. *)

From Stdlib Require Import ZArith QArith Lia.
From stdpp Require Import gmap list.
From S2P Require Import Prelude Rng PriorityQueue Events Machine Engine Experiments.
From S2P Require Import Refinement Correctness Timestamps Numpy.

(** [class Metrics] *)
Record Metrics : Type := {
  metrics_time : Z;
  metrics_n_d : nat;
  metrics_wait_time : list npfloat;
  metrics_use_time : list npfloat;
  metrics_system_time : list Z;
}.

(** The local variables of [metrics_by_simulation] that the loops update. *)
Record acc : Type := Acc {
  wait_time : list npfloat;
  use_time : list npfloat;
  system_time : list Z;
  on_queue : list nat;
  processing : list nat;
  wait_time_per_client : list Q;
  use_time_per_client : list Q;
}.

(** [sum(y - x for x, y in zip(xs, ys))] *)
Fixpoint sum_diff (xs ys : list Z) : Z :=
  match xs, ys with
  | x :: xs', y :: ys' => (y - x) + sum_diff xs' ys'
  | _, _ => 0
  end.

(** [sum(y - x for x, y in zip(xs, ys)) / len(a_t)] *)
Definition mean_diff (xs ys a_t : list Z) : result Q :=
  if bool_decide (length a_t = 0) then Raise ZeroDivisionError
  else Ok (inject_Z (sum_diff xs ys) / inject_Z (Z.of_nat (length a_t)))%Q.

(** [l[-1]] *)
Definition py_last {A} (l : list A) : result A :=
  match last l with
  | Some x => Ok x
  | None => Raise IndexError
  end.

(** [system_time[c] -= q_t[0]] when [s == 0 and c < n_d]; then
    [system_time[c] += d_t[-1]] when [s == n-1 and c < n_d]. *)
Definition update_system_time (n : Z) (n_d s c : nat) (q_t d_t : list Z)
    (system_time : list Z) : result (list Z) :=
  system_time1 ←
    (if bool_decide (s = 0) && bool_decide (c < n_d) then
       x ← py_index system_time c;
       q_0 ← py_index q_t 0;
       Ok (<[c := (x - q_0)%Z]> system_time)
     else Ok system_time);
  if bool_decide (Z.of_nat s = n - 1)%Z && bool_decide (c < n_d) then
    x ← py_index system_time1 c;
    d_last ← py_last d_t;
    Ok (<[c := (x + d_last)%Z]> system_time1)
  else Ok system_time1.

(** The body of [for c in range(n_a)]. *)
Definition client_body (t n : Z) (n_d : nat) (q a d : trace) (s : nat)
    (st : acc) (c : nat) : result acc :=
  q_s ← py_index q s;
  a_s ← py_index a s;
  d_s ← py_index d s;
  let q_t := dict_get q_s c [] in
  let a_t := dict_get a_s c [] in
  let d_t := dict_get d_s c [] in
  if bool_decide (length q_t = 0) then Ok st
  else if bool_decide (length a_t = 0) then
    q_0 ← py_index q_t 0;
    on_queue_s ← py_index (on_queue st) s;
    Ok {| wait_time := wait_time st; use_time := use_time st;
          system_time := system_time st;
          on_queue := <[s := on_queue_s + 1]> (on_queue st);
          processing := processing st;
          wait_time_per_client := wait_time_per_client st ++ [inject_Z (t - q_0)];
          use_time_per_client := use_time_per_client st |}
  else if bool_decide (length d_t = 0) then
    w_t ← mean_diff q_t a_t a_t;
    _ ← py_index (processing st) s;
    Ok {| wait_time := wait_time st; use_time := use_time st;
          system_time := system_time st;
          on_queue := on_queue st; processing := processing st;
          wait_time_per_client := wait_time_per_client st ++ [w_t];
          use_time_per_client := use_time_per_client st |}
  else
    w_t ← mean_diff q_t a_t a_t;
    u_t ← mean_diff a_t d_t a_t;
    system_time' ← update_system_time n n_d s c q_t d_t (system_time st);
    Ok {| wait_time := wait_time st; use_time := use_time st;
          system_time := system_time';
          on_queue := on_queue st; processing := processing st;
          wait_time_per_client := wait_time_per_client st ++ [w_t];
          use_time_per_client := use_time_per_client st ++ [u_t] |}.

(** The body of [for s in range(n)]. *)
Definition station_body (t n : Z) (n_a n_d : nat) (q a d : trace)
    (st : acc) (s : nat) : result acc :=
  let st0 := {| wait_time := wait_time st; use_time := use_time st;
                system_time := system_time st;
                on_queue := on_queue st; processing := processing st;
                wait_time_per_client := []; use_time_per_client := [] |} in
  st1 ← for_loop (client_body t n n_d q a d s) (seq 0 n_a) st0;
  Ok {| wait_time := wait_time st1 ++ [meanQ (wait_time_per_client st1)];
        use_time := use_time st1 ++ [meanQ (use_time_per_client st1)];
        system_time := system_time st1;
        on_queue := on_queue st1; processing := processing st1;
        wait_time_per_client := wait_time_per_client st1;
        use_time_per_client := use_time_per_client st1 |}.

(** [metrics_by_simulation] after the call of [servers_simulation]. *)
Definition metrics_of_output (out : output) : result Metrics :=
  let '(t, n, n_a, n_d, q, a, d) := out in
  let st0 := {| wait_time := []; use_time := [];
                system_time := replicate n_a 0%Z;
                on_queue := replicate (Z.to_nat n) 0;
                processing := replicate (Z.to_nat n) 0;
                wait_time_per_client := []; use_time_per_client := [] |} in
  st ← for_loop (station_body t n n_a n_d q a d) (seq 0 (Z.to_nat n)) st0;
  Ok {| metrics_time := t; metrics_n_d := n_d;
        metrics_wait_time := wait_time st; metrics_use_time := use_time st;
        metrics_system_time := system_time st |}.

(** [metrics_by_simulation(time, n, lambda_arrival_time, mu_wait_time, p, finish)],
    with the generator at draw [k]. *)
Definition metrics_by_simulation {R : RandomSource} {PQ : PriorityQueue event}
    (cfg : config) (k fuel : nat) : loop_result (Metrics * nat) :=
  '(out, k') ← servers_simulation cfg k fuel;
  metrics ← lift_result (metrics_of_output out);
  mret (metrics, k').

(** What the loops keep of the local variables. *)
Record acc_ok (n n_a : nat) (st : acc) : Prop := {
  acc_system_time : length (system_time st) = n_a;
  acc_on_queue : length (on_queue st) = n;
  acc_processing : length (processing st) = n;
}.

(** The means recorded so far are not negative. *)
Record acc_nonneg (st : acc) : Prop := {
  acc_wait_time : Forall np_nonneg (wait_time st);
  acc_use_time : Forall np_nonneg (use_time st);
  acc_wait_per_client : Forall (λ x, 0 <= x)%Q (wait_time_per_client st);
  acc_use_per_client : Forall (λ x, 0 <= x)%Q (use_time_per_client st);
}.

(** * Lemmas *)

Lemma mean_diff_Ok xs ys a_t :
  length a_t ≠ 0 → ∃ x, mean_diff xs ys a_t = Ok x.
Proof. intros Hl. unfold mean_diff. rewrite bool_decide_false by done. by eexists. Qed.

Lemma py_last_Ok {A} (l : list A) : length l ≠ 0 → ∃ x, py_last l = Ok x.
Proof.
  intros Hl. unfold py_last. destruct (last l) eqn:E; [by eexists|].
  apply last_None in E as ->. done.
Qed.

Lemma py_index_ex {A} (l : list A) i : i < length l → ∃ x, py_index l i = Ok x.
Proof. apply py_index_lt. Qed.

Lemma update_system_time_Ok n n_d s c q_t d_t sys :
  c < length sys → length q_t ≠ 0 → length d_t ≠ 0 →
  ∃ sys', update_system_time n n_d s c q_t d_t sys = Ok sys' ∧ length sys' = length sys.
Proof.
  intros Hc Hq Hd. unfold update_system_time.
  destruct (py_index_ex sys c Hc) as [x Hx].
  destruct (py_index_ex q_t 0) as [q_0 Hq0]; [lia|].
  destruct (py_last_Ok d_t Hd) as [d_last Hdl].
  destruct (py_index_ex (<[c:=(x - q_0)%Z]> sys) c) as [y Hy]; [by rewrite length_insert|].
  destruct (bool_decide (s = 0) && _), (bool_decide (Z.of_nat s = _) && _); simpl;
    rewrite ?Hx, ?Hq0; simpl; rewrite ?Hx, ?Hy; simpl; rewrite ?Hdl; simpl;
    eexists; (split; [done|]); by rewrite ?length_insert.
Qed.

Section metrics_safe.
Context (t n : Z) (n_a n_d : nat) (q a d : trace).
Context (Hq : length q = Z.to_nat n) (Ha : length a = Z.to_nat n) (Hd : length d = Z.to_nat n).

Lemma client_body_Ok s st c :
  s < Z.to_nat n → c < n_a → acc_ok (Z.to_nat n) n_a st →
  ∃ st', client_body t n n_d q a d s st c = Ok st' ∧ acc_ok (Z.to_nat n) n_a st' ∧
         wait_time st' = wait_time st ∧ use_time st' = use_time st.
Proof.
  intros Hs Hc [Hsys Hon Hpr]. unfold client_body.
  destruct (py_index_ex q s) as [q_s ->]; [lia|].
  destruct (py_index_ex a s) as [a_s ->]; [lia|].
  destruct (py_index_ex d s) as [d_s ->]; [lia|]. simpl.
  destruct (py_index_ex (on_queue st) s) as [on_queue_s ->]; [lia|].
  destruct (py_index_ex (processing st) s) as [processing_s ->]; [lia|].
  repeat case_bool_decide; try by eexists.
  - destruct (py_index_ex (dict_get q_s c []) 0) as [q_0 ->]; [lia|]. simpl.
    eexists. split; [done|]. split; [|done]. split; simpl; by rewrite ?length_insert.
  - destruct (mean_diff_Ok (dict_get q_s c []) (dict_get a_s c []) (dict_get a_s c [])) as [w_t ->];
      [done|]. simpl. eexists. split; [done|]. by split.
  - destruct (mean_diff_Ok (dict_get q_s c []) (dict_get a_s c []) (dict_get a_s c [])) as [w_t ->];
      [done|].
    destruct (mean_diff_Ok (dict_get a_s c []) (dict_get d_s c []) (dict_get a_s c [])) as [u_t ->];
      [done|]. simpl.
    destruct (update_system_time_Ok n n_d s c (dict_get q_s c []) (dict_get d_s c []) (system_time st))
      as (sys' & -> & Hlen); [lia|done..|]. simpl.
    eexists. split; [done|]. split; [|done]. split; simpl; lia.
Qed.

Lemma station_body_Ok s st :
  s < Z.to_nat n → acc_ok (Z.to_nat n) n_a st →
  ∃ st', station_body t n n_a n_d q a d st s = Ok st' ∧ acc_ok (Z.to_nat n) n_a st' ∧
         length (wait_time st') = S (length (wait_time st)) ∧
         length (use_time st') = S (length (use_time st)).
Proof.
  intros Hs Hst. unfold station_body.
  edestruct (for_loop_inv (client_body t n n_d q a d s)
    (λ _ st', acc_ok (Z.to_nat n) n_a st' ∧
              wait_time st' = wait_time st ∧ use_time st' = use_time st))
    as (st1 & -> & Hok & Hw & Hu).
  - split; [by destruct Hst|done].
  - intros _ c st' (Hok & Hw & Hu) Hc%elem_of_seq.
    destruct (client_body_Ok s st' c) as (st'' & -> & ? & ? & ?); [done|lia|done|].
    exists st''. split; [done|]. split; [done|]. split; congruence.
  - simpl. eexists. split; [done|]. split; [by destruct Hok|].
    simpl. rewrite !length_app, Hw, Hu. simpl. lia.
Qed.

Lemma metrics_of_output_Ok :
  ∃ m, metrics_of_output (t, n, n_a, n_d, q, a, d) = Ok m ∧
       metrics_time m = t ∧ metrics_n_d m = n_d ∧
       length (metrics_wait_time m) = Z.to_nat n ∧
       length (metrics_use_time m) = Z.to_nat n ∧
       length (metrics_system_time m) = n_a.
Proof.
  unfold metrics_of_output.
  edestruct (for_loop_inv (station_body t n n_a n_d q a d)
    (λ pre st, acc_ok (Z.to_nat n) n_a st ∧
               length (wait_time st) = length pre ∧ length (use_time st) = length pre))
    as (st & -> & Hok & Hw & Hu).
  - split; [|done]. split; simpl; by rewrite length_replicate.
  - intros pre s st (Hok & Hw & Hu) Hs%elem_of_seq.
    destruct (station_body_Ok s st) as (st' & -> & ? & ? & ?); [lia|done|].
    exists st'. rewrite length_app. simpl. split_and!; [done..|lia|lia].
  - simpl. eexists. split; [done|]. simpl. rewrite length_seq in Hw, Hu.
    by destruct Hok.
Qed.
End metrics_safe.

(** ** Times that are not negative *)

Lemma inject_Z_nonneg z : (0 ≤ z)%Z → (0 <= inject_Z z)%Q.
Proof. intros Hz. change 0%Q with (inject_Z 0). by rewrite <- Zle_Qle. Qed.

Lemma sum_diff_nonneg xs ys : before xs ys → (0 ≤ sum_diff xs ys)%Z.
Proof.
  revert ys. induction xs as [|x xs IH]; intros [|y ys]; simpl; try done.
  intros [Hxy Hb]%before_cons. specialize (IH _ Hb). lia.
Qed.

Lemma mean_diff_nonneg xs ys a_t w :
  before xs ys → mean_diff xs ys a_t = Ok w → (0 <= w)%Q.
Proof.
  intros Hb%sum_diff_nonneg. unfold mean_diff. case_bool_decide; [done|]. intros [= <-].
  apply Qle_shift_div_l.
  - change 0%Q with (inject_Z 0). rewrite <- Zlt_Qlt. lia.
  - rewrite Qmult_0_l. by apply inject_Z_nonneg.
Qed.

Lemma trace_get_index (x : trace) s x_s c :
  py_index x s = Ok x_s → dict_get x_s c [] = trace_get x s c.
Proof. intros Hx%py_index_Ok. unfold trace_get. by rewrite Hx. Qed.

Section metrics_nonneg.
Context (t n : Z) (n_a n_d : nat) (q a d : trace).
Context (Htimes : ∀ i c,
  visit_times_ok t (trace_get q i c) (trace_get a i c) (trace_get d i c)).

Lemma snoc_nonneg (l : list Q) x :
  Forall (λ x, 0 <= x)%Q l → (0 <= x)%Q → Forall (λ x, 0 <= x)%Q (l ++ [x]).
Proof. intros Hl Hx. apply Forall_app. by split; [|apply Forall_singleton]. Qed.

Lemma client_body_nonneg s st c st' :
  acc_nonneg st → client_body t n n_d q a d s st c = Ok st' → acc_nonneg st'.
Proof.
  intros [Hw Hu Hwc Huc] Hb. unfold client_body in Hb.
  destruct (py_index q s) as [q_s|] eqn:Hq; [|done].
  destruct (py_index a s) as [a_s|] eqn:Ha; [|done].
  destruct (py_index d s) as [d_s|] eqn:Hd; [|done]. simpl in Hb.
  rewrite (trace_get_index _ _ _ c Hq), (trace_get_index _ _ _ c Ha),
    (trace_get_index _ _ _ c Hd) in Hb.
  destruct (Htimes s c) as [Hqp _ _ Hqa Had].
  repeat case_bool_decide; simplify_result; split; simpl; try done;
    apply snoc_nonneg; eauto using mean_diff_nonneg.
  apply inject_Z_nonneg.
  match goal with H : py_index _ 0 = Ok _ |- _ => apply py_index_Ok in H as Hq0 end.
  pose proof (Forall_lookup_1 _ _ _ _ Hqp Hq0). simpl in *. lia.
Qed.

Lemma station_body_nonneg s st st' :
  acc_nonneg st → station_body t n n_a n_d q a d st s = Ok st' → acc_nonneg st'.
Proof.
  intros [Hw Hu _ _] (st1 & Hloop & [= <-])%bind_Ok.
  apply (for_loop_keeps _ acc_nonneg) in Hloop as [Hw1 Hu1 Hwc Huc].
  - split; simpl; try done; apply Forall_app; (split; [done|]);
      by apply Forall_singleton, meanQ_np_nonneg.
  - intros c st2 st3 _. apply client_body_nonneg.
  - by split.
Qed.

Lemma metrics_of_output_nonneg m :
  metrics_of_output (t, n, n_a, n_d, q, a, d) = Ok m →
  Forall np_nonneg (metrics_wait_time m) ∧ Forall np_nonneg (metrics_use_time m).
Proof.
  intros (st & Hloop & [= <-])%bind_Ok. simpl.
  apply (for_loop_keeps _ acc_nonneg) in Hloop as [Hw Hu _ _]; [done| |by split].
  intros s st2 st3 _. apply station_body_nonneg.
Qed.
End metrics_nonneg.

(** ** The measurements of a run of the simulation *)

Lemma metrics_by_simulation_bind {R : RandomSource} {PQ : PriorityQueue event}
    cfg k fuel out k' m :
  servers_simulation cfg k fuel = Finished (out, k') → metrics_of_output out = Ok m →
  metrics_by_simulation cfg k fuel = Finished (m, k').
Proof.
  intros Hs Hm. unfold metrics_by_simulation. rewrite Hs.
  cbn -[metrics_of_output]. by rewrite Hm.
Qed.

Lemma metrics_by_simulation_inv {R : RandomSource} {PQ : PriorityQueue event}
    cfg k fuel m k' :
  metrics_by_simulation cfg k fuel = Finished (m, k') →
  ∃ out, servers_simulation cfg k fuel = Finished (out, k') ∧ metrics_of_output out = Ok m.
Proof.
  unfold metrics_by_simulation.
  intros ([out k1] & Hs & (m1 & Hm%lift_result_Finished & [= <- <-])%loop_bind_Finished)
    %loop_bind_Finished.
  by exists out.
Qed.

Section metrics_correct.
Context {R : RandomSource} `{!RandomSourceLaws R}.
Context {PQ : PriorityQueue event} `{!PriorityQueueLaws event_lt PQ}.
Context (cfg : config) (Hcfg : valid_config cfg).

(** The measurements of a run that returns are defined. *)
Lemma metrics_by_simulation_Finished k fuel out k' :
  servers_simulation cfg k fuel = Finished (out, k') →
  ∃ m, metrics_by_simulation cfg k fuel = Finished (m, k') ∧
       metrics_of_output out = Ok m ∧
       (0 ≤ metrics_time m)%Z ∧
       metrics_n_d m ≤ length (metrics_system_time m) ∧
       length (metrics_wait_time m) = Z.to_nat (arg_n cfg) ∧
       length (metrics_use_time m) = Z.to_nat (arg_n cfg).
Proof.
  intros Hs.
  destruct (servers_simulation_run cfg Hcfg k fuel out k' Hs)
    as (st & [= -> _] & _ & _ & [Ht _]%mrun_time_nonneg & [[Hq Ha Hd _ _] _ _ _ Hco]).
  destruct (metrics_of_output_Ok (st_t st) (arg_n cfg) (st_n_a st) (st_n_d st)
              (st_q st) (st_a st) (st_d st) Hq Ha Hd)
    as (m & Hm & Htm & Hnd & Hw & Hu & Hsys).
  exists m. rewrite Htm, Hnd, Hsys. split_and!; try done.
  - by eapply metrics_by_simulation_bind.
  - unfold conserved in Hco. simpl in *. lia.
Qed.

Lemma metrics_by_simulation_no_exn k fuel e :
  metrics_by_simulation cfg k fuel = Failed e → False.
Proof.
  destruct (servers_simulation cfg k fuel) as [[out k']|e'|] eqn:Hs.
  - destruct (metrics_by_simulation_Finished k fuel out k' Hs) as (m & -> & _). done.
  - by apply servers_simulation_safe_any in Hs.
  - unfold metrics_by_simulation. by rewrite Hs.
Qed.

(** For a valid configuration, [metrics_by_simulation] raises no
    exception: the run does not, and the reductions index the tables and
    the local lists inside their bounds and divide by lengths that are not
    zero. *)
Theorem metrics_by_simulation_safe k fuel e : metrics_by_simulation cfg k fuel ≠ Failed e.
Proof. intros Hm. by eapply metrics_by_simulation_no_exn. Qed.

(** The measurements [metrics_by_simulation] returns have one mean
    waiting time and one mean service time per station, one time in the
    system per admission, at least as many of them as departures, and a
    final time that is not negative. *)
Theorem metrics_by_simulation_shape k fuel m k' :
  metrics_by_simulation cfg k fuel = Finished (m, k') →
  (0 ≤ metrics_time m)%Z ∧
  metrics_n_d m ≤ length (metrics_system_time m) ∧
  length (metrics_wait_time m) = Z.to_nat (arg_n cfg) ∧
  length (metrics_use_time m) = Z.to_nat (arg_n cfg).
Proof.
  destruct (servers_simulation cfg k fuel) as [[out k1]|e'|] eqn:Hs.
  - destruct (metrics_by_simulation_Finished k fuel out k1 Hs) as (m1 & -> & _ & H).
    by intros [= <- _].
  - unfold metrics_by_simulation. by rewrite Hs.
  - unfold metrics_by_simulation. by rewrite Hs.
Qed.

(** The means of a run are [nan] or not negative. *)
Lemma metrics_by_simulation_means k fuel m k' :
  metrics_by_simulation cfg k fuel = Finished (m, k') →
  Forall np_nonneg (metrics_wait_time m) ∧ Forall np_nonneg (metrics_use_time m).
Proof.
  intros ([[[[[[t n'] n_a] n_d] q] a] d] & Hs & Hm)%metrics_by_simulation_inv.
  eapply metrics_of_output_nonneg; [|done].
  intros i c. by eapply servers_simulation_visit.
Qed.

(** The mean waiting time and the mean service time that
    [metrics_by_simulation] reports for a station are [nan] (no client
    counted there) or not negative: every difference it sums is between a
    time recorded later and a time recorded earlier in the same visit. *)
Theorem metrics_by_simulation_nonneg k fuel m k' :
  metrics_by_simulation cfg k fuel = Finished (m, k') →
  Forall np_nonneg (metrics_wait_time m) ∧ Forall np_nonneg (metrics_use_time m).
Proof. apply metrics_by_simulation_means. Qed.
End metrics_correct.

(** With [finish] unset and a horizon that is not positive the run admits
    nobody, and its measurements are defined. *)
Lemma metrics_by_simulation_closed {R : RandomSource} {PQ : PriorityQueue event} cfg k fuel :
  arg_finish cfg = false → (arg_time cfg ≤ 0)%Z →
  ¬ (arg_lambda_arrival_time cfg == 0)%Q →
  ∃ m, metrics_by_simulation cfg k fuel = Finished (m, S k) ∧
       metrics_system_time m = [].
Proof.
  intros Hf Ht Hl.
  destruct (metrics_of_output_Ok 0 (arg_n cfg) 0 0 (replicate (Z.to_nat (arg_n cfg)) ∅)
              (replicate (Z.to_nat (arg_n cfg)) ∅) (replicate (Z.to_nat (arg_n cfg)) ∅))
    as (m & Hm & _ & _ & _ & _ & Hs); [by rewrite length_replicate..|].
  exists m. split; [|by destruct (metrics_system_time m)].
  eapply metrics_by_simulation_bind; [by apply servers_simulation_closed|done].
Qed.

(** * Concrete runs *)

Lemma metrics_by_simulation_safe_witness :
  metrics_by_simulation (R:=mean_source) (PQ:=list_pq event_lt)
    (at_horizon 60 experiment_6) 0 200 ≠ Failed ZeroDivisionError.
Proof. apply metrics_by_simulation_safe, experiment_6_valid. Defined.

Lemma metrics_by_simulation_shape_witness :
  ∃ m k',
    metrics_by_simulation (R:=mean_source) (PQ:=list_pq event_lt)
      (at_horizon 60 experiment_6) 0 200 = Finished (m, k') ∧
    (0 ≤ metrics_time m)%Z ∧
    metrics_n_d m ≤ length (metrics_system_time m) ∧
    length (metrics_wait_time m) = 3 ∧
    length (metrics_use_time m) = 3.
Proof.
  do 2 eexists. split; [vm_compute; reflexivity|].
  eapply (metrics_by_simulation_shape (R:=mean_source) (PQ:=list_pq event_lt)
            (at_horizon 60 experiment_6) (experiment_6_valid 60) 0 200).
  vm_compute; reflexivity.
Defined.

Lemma metrics_by_simulation_nonneg_witness :
  ∃ m k',
    metrics_by_simulation (R:=mean_source) (PQ:=list_pq event_lt)
      (at_horizon 60 experiment_6) 0 200 = Finished (m, k') ∧
    Forall np_nonneg (metrics_wait_time m) ∧ Forall np_nonneg (metrics_use_time m).
Proof.
  do 2 eexists. split; [vm_compute; reflexivity|].
  eapply (metrics_by_simulation_nonneg (R:=mean_source) (PQ:=list_pq event_lt)
            (at_horizon 60 experiment_6) (experiment_6_valid 60) 0 200).
  vm_compute; reflexivity.
Defined.
