(* ===== verification/SystemTime.v ===== *)
(** * SystemTime: the time a client spends in the network

    [metrics_by_simulation] computes the time in the system of client [c]
    in the two nested loops over the stations and the identities: at the
    first station it subtracts [q_t[0]], at the last it adds [d_t[-1]],
    in both cases if [c < n_d] and in the last branch of the inner loop
    only, the one taken when the client has an entry time, a
    service-start time and a completion time at the station ([served]).

    [sys_after] is the value of [system_time[c]] after the passes over
    the first [k] stations, the invariant of the outer loop; it is what
    the loops compute on every branch and for every tuple of tables
    ([metrics_of_output_sys_after]).

    When no client is sent back the clients leave in the order of their
    identities ([Order]): the clients below [n_d] have visited every
    station once, so for them the branch taken at every station is the
    last one and the value left in [system_time[c]] is the completion
    time at the last station minus the entry time at the first; for the
    others the test [c < n_d] fails at every station and the value stays
    [0] ([metrics_of_output_system_time]).  This holds of a run that is
    drained and of a run that is cut at the horizon.  [Sojourn] reads
    the value when clients are sent back. *)

From Stdlib Require Import ZArith QArith Lia.
From stdpp Require Import gmap list.
From S2P Require Import Prelude Rng PriorityQueue Events Machine Engine Experiments.
From S2P Require Import Refinement Correctness Termination Timestamps Visits Order.
From S2P Require Import Numpy Metrics.

(** [q[0][c][0]]: the time client [c] enters the first queue. *)
Definition entry_time (q : trace) (c : nat) : Z := default 0%Z (head (trace_get q 0 c)).

(** [d[n-1][c][-1]]: the time client [c] completes service at the last
    station. *)
Definition exit_time (d : trace) (n c : nat) : Z :=
  default 0%Z (last (trace_get d (n - 1) c)).

(** Client [c] has an entry time, a service-start time and a completion
    time at station [s]: the pass over [s] and [c] takes the last branch
    of the inner loop, the one that updates [system_time]. *)
Definition served (q a d : trace) (s c : nat) : Prop :=
  trace_get q s c ≠ [] ∧ trace_get a s c ≠ [] ∧ trace_get d s c ≠ [].

#[export] Instance served_dec q a d s c : Decision (served q a d s c).
Proof. unfold served. apply _. Defined.

(** What the pass over station [s] adds to [system_time[c]]. *)
Definition station_delta (q a d : trace) (n n_d s c : nat) : Z :=
  if decide (c < n_d ∧ served q a d s c) then
    (if decide (s = 0) then - entry_time q c else 0) +
    (if decide (s + 1 = n) then exit_time d n c else 0)
  else 0.

(** [system_time[c]] after the passes over the first [k] stations. *)
Definition sys_after (q a d : trace) (n n_d k c : nat) : Z :=
  (if decide (0 < k ∧ c < n_d ∧ served q a d 0 c) then - entry_time q c else 0) +
  (if decide (n ≤ k ∧ c < n_d ∧ served q a d (n - 1) c) then exit_time d n c else 0).

(** * Lemmas *)

Lemma sys_after_S q a d n n_d k c :
  k < n →
  sys_after q a d n n_d (S k) c = (sys_after q a d n n_d k c + station_delta q a d n n_d k c)%Z.
Proof.
  intros Hk. unfold sys_after, station_delta.
  destruct (decide (k + 1 = n)) as [<-|]; [replace (k + 1 - 1) with k by lia|];
    (destruct (decide (k = 0)) as [Hk0|Hk0]; [subst k|]); repeat case_decide; naive_solver lia.
Qed.

(** The item of [range(m)] after the items [pre] is their number. *)
Lemma seq_split_length m pre x suf : seq 0 m = pre ++ x :: suf → x = length pre ∧ x < m.
Proof.
  intros Hm. assert (seq 0 m !! length pre = Some x) as Hx.
  { rewrite Hm. by apply list_lookup_middle. }
  apply lookup_seq in Hx. lia.
Qed.

(** The two updates of [system_time[c]] of a client below [n_d]: its
    first entry time is subtracted at the first station, its last
    completion time is added at the last one. *)
Lemma update_system_time_served n n_d s c q_t d_t t_q t_d sys x :
  c < n_d → sys !! c = Some x → head q_t = Some t_q → last d_t = Some t_d →
  update_system_time n n_d s c q_t d_t sys =
  Ok (<[c := (x + ((if bool_decide (s = 0)%nat then - t_q else 0) +
                   (if bool_decide (Z.of_nat s = n - 1) then t_d else 0)))%Z]> sys).
Proof.
  intros Hc Hx Hq Hd. unfold update_system_time, py_last.
  rewrite (bool_decide_true (c < n_d)), !andb_true_r, Hd by done.
  assert (py_index q_t 0 = Ok t_q) as Hq0 by (apply py_index_Ok; by destruct q_t; simplify_eq/=).
  pose proof (lookup_lt_Some _ _ _ Hx) as Hlen.
  apply py_index_Ok in Hx as Hix.
  destruct (bool_decide (s = 0)), (bool_decide (Z.of_nat s = n - 1)%Z); simpl;
    rewrite ?Hix; simpl; rewrite ?Hq0; simpl;
    rewrite ?(proj2 (py_index_Ok _ _ _) (list_lookup_insert_eq _ _ _ Hlen)); simpl;
    rewrite ?list_insert_insert_eq; f_equal.
  - f_equal. lia.
  - f_equal. lia.
  - rewrite list_insert_id; [done|]. rewrite Hx. f_equal. lia.
Qed.

(** The identities from [n_d] on are left alone. *)
Lemma update_system_time_keeps n n_d s c q_t d_t sys :
  ¬ c < n_d → update_system_time n n_d s c q_t d_t sys = Ok sys.
Proof.
  intros Hc. unfold update_system_time.
  by rewrite (bool_decide_false (c < n_d)), !andb_false_r by done.
Qed.

(** The pass leaves [system_time] alone for an identity from [n_d] on,
    and when it takes another branch than the last. *)
Lemma client_body_keeps t n n_d q a d s st c st' :
  ¬ (c < n_d ∧ served q a d s c) →
  client_body t n n_d q a d s st c = Ok st' → system_time st' = system_time st.
Proof.
  intros Hc Hb. unfold client_body in Hb.
  destruct (py_index q s) as [q_s|] eqn:Hqs; [|done].
  destruct (py_index a s) as [a_s|] eqn:Has; [|done].
  destruct (py_index d s) as [d_s|] eqn:Hds; [|done]. simpl in Hb.
  rewrite (trace_get_index _ _ _ c Hqs), (trace_get_index _ _ _ c Has),
    (trace_get_index _ _ _ c Hds) in Hb.
  repeat case_bool_decide; try by simplify_result.
  destruct (decide (c < n_d)) as [Hnd|Hnd].
  - destruct Hc. split; [done|]. split_and!; intros Heq; by rewrite Heq in *.
  - rewrite update_system_time_keeps in Hb by done. by simplify_result.
Qed.

Lemma station_delta_keeps q a d n n_d s c :
  ¬ (c < n_d ∧ served q a d s c) → station_delta q a d n n_d s c = 0%Z.
Proof. intros Hc. unfold station_delta. by rewrite decide_False. Qed.

Section system_time.
Context (t n : Z) (n_a n_d : nat) (q a d : trace).
Context (Hq : length q = Z.to_nat n) (Ha : length a = Z.to_nat n) (Hd : length d = Z.to_nat n).

(** The pass over station [s] and client [c] of a client below [n_d]
    with a completion time there. *)
Lemma client_body_served s st c x :
  s < Z.to_nat n → c < n_d → served q a d s c → system_time st !! c = Some x →
  ∃ sys, update_system_time n n_d s c (trace_get q s c) (trace_get d s c) (system_time st) =
           Ok sys ∧
         sys = <[c := (x + station_delta q a d (Z.to_nat n) n_d s c)%Z]> (system_time st).
Proof.
  intros Hs Hc Hv Hx. pose proof Hv as (Hqt & Hat & Hdt).
  destruct (trace_get q s c) as [|t_q q_t] eqn:Eq; [done|].
  destruct (last (trace_get d s c)) as [t_d|] eqn:Ed; [|by apply last_None in Ed].
  eexists. split; [by apply (update_system_time_served n n_d s c _ _ t_q t_d _ x)|].
  unfold station_delta, entry_time, exit_time. rewrite decide_True by done. do 2 f_equal.
  destruct (decide (s + 1 = Z.to_nat n)) as [Hs1|Hs1];
    [rewrite (bool_decide_true (Z.of_nat s = _)) by lia;
     replace (Z.to_nat n - 1) with s by lia; rewrite Ed
    |rewrite (bool_decide_false (Z.of_nat s = _)) by lia];
    (destruct (decide (s = 0)) as [Hs0|Hs0];
      [rewrite bool_decide_true by done; subst s; rewrite Eq
      |rewrite bool_decide_false by done]); done.
Qed.

(** The pass over station [s] and client [c], on every branch. *)
Lemma client_body_visit s st c x :
  s < Z.to_nat n → c < n_a → acc_ok (Z.to_nat n) n_a st → system_time st !! c = Some x →
  ∃ st', client_body t n n_d q a d s st c = Ok st' ∧ acc_ok (Z.to_nat n) n_a st' ∧
         system_time st' =
           <[c := (x + station_delta q a d (Z.to_nat n) n_d s c)%Z]> (system_time st).
Proof.
  intros Hs Hca Hok Hx.
  destruct (client_body_Ok t n n_a n_d q a d Hq Ha Hd s st c Hs Hca Hok)
    as (st' & Hb & Hok' & _).
  exists st'. split_and!; [done..|].
  destruct (decide (c < n_d ∧ served q a d s c)) as [[Hc Hv]|Hc]; last first.
  { rewrite (client_body_keeps _ _ _ _ _ _ _ _ _ _ Hc Hb), station_delta_keeps by done.
    by rewrite Z.add_0_r, list_insert_id. }
  destruct (client_body_served s st c x Hs Hc Hv Hx) as (sys & Hsys & <-).
  pose proof Hv as (Hqt & Hat & Hdt). unfold client_body in Hb.
  destruct (py_index q s) as [q_s|] eqn:Hqs; [|done].
  destruct (py_index a s) as [a_s|] eqn:Has; [|done].
  destruct (py_index d s) as [d_s|] eqn:Hds; [|done]. simpl in Hb.
  rewrite (trace_get_index _ _ _ c Hqs), (trace_get_index _ _ _ c Has),
    (trace_get_index _ _ _ c Hds), Hsys in Hb.
  rewrite !bool_decide_false in Hb by (by intros ?%nil_length_inv).
  destruct (mean_diff_Ok (trace_get q s c) (trace_get a s c) (trace_get a s c)) as [w_t Hw];
    [by intros ?%nil_length_inv|].
  destruct (mean_diff_Ok (trace_get a s c) (trace_get d s c) (trace_get a s c)) as [u_t Hu];
    [by intros ?%nil_length_inv|].
  rewrite Hw, Hu in Hb. simpl in Hb. by simplify_result.
Qed.

Lemma station_body_visit s st :
  s < Z.to_nat n → acc_ok (Z.to_nat n) n_a st →
  (∀ c, c < n_a → system_time st !! c = Some (sys_after q a d (Z.to_nat n) n_d s c)) →
  ∃ st', station_body t n n_a n_d q a d st s = Ok st' ∧ acc_ok (Z.to_nat n) n_a st' ∧
    ∀ c, c < n_a → system_time st' !! c = Some (sys_after q a d (Z.to_nat n) n_d (S s) c).
Proof.
  intros Hs Hok Hsys. unfold station_body.
  edestruct (for_loop_split (client_body t n n_d q a d s)
    (λ pre st', acc_ok (Z.to_nat n) n_a st' ∧
       ∀ c, c < n_a → system_time st' !! c =
         Some (sys_after q a d (Z.to_nat n) n_d s c +
               (if decide (c < length pre)%nat
                then station_delta q a d (Z.to_nat n) n_d s c else 0))%Z))
    as (st1 & -> & Hok1 & Hsys1).
  - split; [by destruct Hok|]. intros c Hc. simpl. rewrite Hsys by done. f_equal. lia.
  - intros pre c suf st' [-> Hc]%seq_split_length [Hok' Hsys'].
    destruct (client_body_visit s st' (length pre) _ Hs Hc Hok' (Hsys' _ Hc))
      as (st'' & -> & Hok'' & Hst'').
    exists st''. split; [done|]. split; [done|]. intros c' Hc'.
    pose proof (acc_system_time _ _ _ Hok') as Hlen.
    rewrite Hst'', length_app, list_lookup_insert, Hsys' by done. simpl.
    repeat case_decide; destruct_and?; subst; try lia; f_equal; lia.
  - simpl. eexists. split; [done|]. split; [by destruct Hok1|]. simpl. intros c Hc.
    rewrite Hsys1, length_seq, decide_True, sys_after_S by done. done.
Qed.

(** The time in the system as a function of the tables, for every
    tuple: the completion time at the last station, if there is one, less
    the entry time at the first, if the client was served there, both
    for the identities below [n_d] only. *)
Lemma metrics_of_output_sys_after :
  (1 ≤ n)%Z →
  ∃ m, metrics_of_output (t, n, n_a, n_d, q, a, d) = Ok m ∧
       ∀ c, c < n_a →
         metrics_system_time m !! c = Some (sys_after q a d (Z.to_nat n) n_d (Z.to_nat n) c).
Proof.
  intros Hn. unfold metrics_of_output.
  edestruct (for_loop_split (station_body t n n_a n_d q a d)
    (λ pre st, acc_ok (Z.to_nat n) n_a st ∧
       ∀ c, c < n_a →
         system_time st !! c = Some (sys_after q a d (Z.to_nat n) n_d (length pre) c)))
    as (st & -> & Hok & Hsys).
  - split; [split; simpl; by rewrite length_replicate|]. intros c Hc. simpl.
    rewrite lookup_replicate_2 by done. unfold sys_after.
    by rewrite !decide_False by lia.
  - intros pre s suf st [-> Hs]%seq_split_length [Hok Hsys].
    destruct (station_body_visit (length pre) st Hs Hok Hsys) as (st' & -> & Hok' & Hsys').
    exists st'. rewrite length_app. simpl. rewrite Nat.add_1_r. done.
  - simpl. eexists. split; [done|]. simpl. intros c Hc. by rewrite Hsys, length_seq.
Qed.

(** When the clients below [n_d] have visited every station: the time in
    the system of a client that left is its completion time at the last
    station minus its entry time at the first; the time of a client still
    in the network is left at [0]. *)
Lemma metrics_of_output_system_time :
  (1 ≤ n)%Z →
  (∀ s c, s < Z.to_nat n → c < n_d →
     ∃ t_q t_a t_d, trace_get q s c = [t_q] ∧ trace_get a s c = [t_a] ∧ trace_get d s c = [t_d]) →
  ∃ m, metrics_of_output (t, n, n_a, n_d, q, a, d) = Ok m ∧
       ∀ c, c < n_a → metrics_system_time m !! c =
         Some (if decide (c < n_d) then (exit_time d (Z.to_nat n) c - entry_time q c)%Z else 0%Z).
Proof.
  intros Hn Hvisit. destruct (metrics_of_output_sys_after Hn) as (m & Hm & Hsys).
  exists m. split; [done|]. intros c Hc. rewrite Hsys by done. f_equal. unfold sys_after.
  destruct (decide (c < n_d)) as [Hnd|Hnd]; [|rewrite !decide_False by naive_solver; done].
  assert (∀ s, s < Z.to_nat n → served q a d s c) as Hv.
  { intros s Hs. destruct (Hvisit s c Hs Hnd) as (t_q & t_a & t_d & Hq1 & Ha1 & Hd1).
    unfold served. by rewrite Hq1, Ha1, Hd1. }
  rewrite !decide_True by (split_and!; try done; try lia; apply Hv; lia). lia.
Qed.
End system_time.

Section engine_system_time.
Context {R : RandomSource} `{!RandomSourceLaws R}.
Context {PQ : PriorityQueue event} `{!PriorityQueueLaws event_lt PQ}.
Context (cfg : config) (Hcfg : valid_config cfg) (Hfwd : forward_only cfg).

(** The time in the system of a client of a run without feedback. *)
Lemma metrics_system_time_path k fuel t n' n_a n_d q a d k1 m k' c :
  servers_simulation cfg k fuel = Finished ((t, n', n_a, n_d, q, a, d), k1) →
  metrics_by_simulation cfg k fuel = Finished (m, k') →
  c < n_a →
  ∃ t_in, trace_get q 0 c = [t_in] ∧
    if decide (c < n_d) then
      ∃ t_out, trace_get d (stations cfg - 1) c = [t_out] ∧ (t_in ≤ t_out)%Z ∧
               metrics_system_time m !! c = Some (t_out - t_in)%Z
    else trace_get d (stations cfg - 1) c = [] ∧ metrics_system_time m !! c = Some 0%Z.
Proof.
  intros Hs Hm Hc. pose proof (stations_pos cfg Hcfg) as Hpos.
  pose proof (servers_simulation_departed cfg Hcfg Hfwd k fuel _ _ _ _ _ _ _ _ c Hs) as [Hlast _].
  pose proof (λ c, proj2 (servers_simulation_departed cfg Hcfg Hfwd k fuel _ _ _ _ _ _ _ _ c Hs))
    as Hvisit.
  destruct (servers_simulation_run cfg Hcfg k fuel _ k1 Hs)
    as (st & [= -> -> -> -> -> -> -> _] & _ & _ & Hrun & Hinv).
  pose proof (mrun_visits _ _ Hpos _ _ Hrun (simulation_labels_forward cfg Hfwd k fuel))
    as [Hadm _ Hfirst _].
  apply metrics_by_simulation_inv in Hm as (out & Hs' & Hm).
  rewrite Hs in Hs'. injection Hs' as <-.
  destruct (metrics_of_output_system_time (st_t st) (arg_n cfg) (st_n_a st) (st_n_d st)
              (st_q st) (st_a st) (st_d st)) as (m' & Hm' & Hsys);
    [apply Hinv..|apply Hcfg| |].
  { intros s c' Hs' Hc'. destruct (Hvisit c' Hc' s Hs') as (Hq1 & Ha1 & Hd1).
    destruct (length_one _ Hq1) as [t_q ->], (length_one _ Ha1) as [t_a ->],
      (length_one _ Hd1) as [t_d ->]. by exists t_q, t_a, t_d. }
  rewrite Hm in Hm'. injection Hm' as <-. rewrite Hsys by done.
  specialize (Hadm c). simpl in Hadm. rewrite decide_True in Hadm by done.
  destruct (length_one _ Hadm) as [t_in Hin]. exists t_in. split; [done|].
  unfold exit_time, entry_time. simpl in *. rewrite Hin. case_decide as Hnd.
  - destruct (length_one _ Hlast) as [t_out Hout]. exists t_out. rewrite Hout.
    split_and!; [done| |done].
    specialize (Hfirst c t_in). simpl in Hfirst. rewrite Hin in Hfirst.
    specialize (Hfirst eq_refl (stations cfg - 1)). unfold visit_times in Hfirst. simpl in Hfirst.
    rewrite Hout, !Forall_app in Hfirst. destruct Hfirst as (_ & _ & Hd1).
    by apply Forall_inv in Hd1.
  - by apply nil_length_inv in Hlast.
Qed.

(** C19: when no draw sends a client back, the time in the system that
    [metrics_by_simulation] reports for a client that left the network
    (an identity below [n_d]) is the time between its entry in the first
    queue and its completion at the last station, and it is not negative;
    for a client still in the network when the run is cut at the horizon
    it is [0]. *)
Theorem metrics_by_simulation_system_time k fuel t n' n_a n_d q a d k1 m k' c :
  servers_simulation cfg k fuel = Finished ((t, n', n_a, n_d, q, a, d), k1) →
  metrics_by_simulation cfg k fuel = Finished (m, k') →
  c < n_a →
  ∃ t_in, trace_get q 0 c = [t_in] ∧
    if decide (c < n_d) then
      ∃ t_out, trace_get d (stations cfg - 1) c = [t_out] ∧ (t_in ≤ t_out)%Z ∧
               metrics_system_time m !! c = Some (t_out - t_in)%Z
    else trace_get d (stations cfg - 1) c = [] ∧ metrics_system_time m !! c = Some 0%Z.
Proof. apply metrics_system_time_path. Qed.
End engine_system_time.

(** Two clients of a run of the sixth experiment cut at time 40: client 3
    has left, client 4 has not. *)
Lemma metrics_by_simulation_system_time_witness :
  ∃ t n' n_a n_d q a d k1 m k',
    servers_simulation (R:=mean_source) (PQ:=list_pq event_lt)
      (cut_at 40 experiment_6) 0 200 = Finished ((t, n', n_a, n_d, q, a, d), k1) ∧
    metrics_by_simulation (R:=mean_source) (PQ:=list_pq event_lt)
      (cut_at 40 experiment_6) 0 200 = Finished (m, k') ∧
    metrics_system_time m = [7; 7; 7; 7; 0]%Z ∧
    ∃ t_in, trace_get q 0 4 = [t_in] ∧
      if decide (4 < n_d) then
        ∃ t_out, trace_get d (stations (cut_at 40 experiment_6) - 1) 4 = [t_out] ∧
                 (t_in ≤ t_out)%Z ∧ metrics_system_time m !! 4 = Some (t_out - t_in)%Z
      else trace_get d (stations (cut_at 40 experiment_6) - 1) 4 = [] ∧
           metrics_system_time m !! 4 = Some 0%Z.
Proof.
  do 10 eexists. do 3 (split; [vm_compute; reflexivity|]).
  eapply (metrics_by_simulation_system_time (R:=mean_source) (PQ:=list_pq event_lt)
            (cut_at 40 experiment_6) (experiment_6_valid 40)
            (cut_at_forward 40 _ (mean_source_forward 40)) 0 200);
    [vm_compute; reflexivity|vm_compute; reflexivity|vm_compute; lia].
Defined.

(** For such a run no time in the system is negative. *)
Lemma metrics_system_time_nonneg {R : RandomSource} `{!RandomSourceLaws R}
    {PQ : PriorityQueue event} `{!PriorityQueueLaws event_lt PQ} cfg k fuel m k' :
  valid_config cfg → forward_only cfg →
  metrics_by_simulation cfg k fuel = Finished (m, k') →
  Forall (λ x, (0 ≤ x)%Z) (metrics_system_time m).
Proof.
  intros Hcfg Hfwd Hm.
  destruct (metrics_by_simulation_inv _ _ _ _ _ Hm) as ([[[[[[t n'] n_a] n_d] q] a] d] & Hs & Hout).
  destruct (servers_simulation_run cfg Hcfg k fuel _ k' Hs)
    as (st & [= -> -> -> -> -> -> -> _] & _ & _ & _ & [[Hq Ha Hd _ _] _ _ _ _]).
  destruct (metrics_of_output_Ok (st_t st) (arg_n cfg) (st_n_a st) (st_n_d st)
              (st_q st) (st_a st) (st_d st) Hq Ha Hd) as (m' & Hm' & _ & _ & _ & _ & Hlen).
  rewrite Hout in Hm'. injection Hm' as <-. apply Forall_lookup. intros c x Hx.
  destruct (metrics_system_time_path cfg Hcfg Hfwd k fuel _ _ _ _ _ _ _ _ m k' c Hs Hm)
    as (t_in & _ & Hsys).
  - apply lookup_lt_Some in Hx. lia.
  - case_decide; [destruct Hsys as (t_out & _ & Hle & Hsys)|destruct Hsys as [_ Hsys]];
      rewrite Hsys in Hx; injection Hx as <-; lia.
Qed.
