(* ===== verification/Sojourn.v ===== *)
(** * Sojourn: the time in the system when clients are sent back

    [metrics_by_simulation] updates [system_time[c]] in the last branch
    of its inner loop, under the test [c < n_d] (lines 304-307 of
    [src/sim.ipynb]): it takes the identities below the number of
    departures for the clients that left.  [SystemTime] shows that this
    is right when no client is sent back, because the clients then leave
    in the order of their identities.

    This file reads the value reported on every run, with or without
    feedback, cut at the horizon or drained.  By [Whereabouts] an
    identity has at most one completion time at the last station, and
    once it has one it is nowhere in the network, so it has completed
    service at the first station.  For an identity [c] with entry time
    [t_in] at the first station the value reported is therefore

    - [0] when [c] is not below [n_d], also when the client has left;
    - [t_out - t_in] when [c] is below [n_d] and left at [t_out];
    - [- t_in] when [c] is below [n_d], has not left and has completed
      service at the first station: the client is still in the network,
      or it was sent back to the first station and goes on under
      another identity;
    - [0] when [c] is below [n_d] and is still at the first station.

    With [finish] set the last case does not occur.  The identities of
    the second and of the third case are as many as those of the first
    that have left ([Whereabouts]): each client sent back that leaves
    the network before a client admitted earlier makes both times
    wrong. *)

From Stdlib Require Import ZArith QArith Lia.
From stdpp Require Import gmap list.
From S2P Require Import Prelude Rng PriorityQueue Events Machine Engine Experiments.
From S2P Require Import Refinement Correctness Termination Timestamps Fifo Visits.
From S2P Require Import Identities Cost Flow Whereabouts Numpy Metrics SystemTime.

(** The time in the system [metrics_by_simulation] reports for the
    identity [c] of a run with the tables [q] and [d], [n] stations and
    [n_d] departures. *)
Definition reported (q d : trace) (n n_d c : nat) : Z :=
  if decide (c < n_d) then
    match trace_get d (n - 1) c with
    | [] => if decide (trace_get d 0 c = []) then 0 else - entry_time q c
    | _ => exit_time d n c - entry_time q c
    end
  else 0.

(** * Lemmas *)

Section machine.
Context (n : nat) (horizon : Z) (Hn : 0 < n).

(** No recorded time is negative. *)
Lemma mrun_times_nonneg ls s i c :
  mrun n horizon ls s → Forall (λ x, (0 ≤ x)%Z) (visit_times s i c).
Proof.
  revert ls s. apply mrun_ind_inv.
  - intros gap _. unfold visit_times. simpl. by rewrite !trace_get_replicate.
  - intros ls s l s' Hrun IH Hst. apply (visit_times_Forall n horizon _ l s); [|done..|].
    + by apply (mrun_minv n horizon Hn) in Hrun as [].
    + apply (mrun_snoc n horizon ls s l s' Hrun) in Hst. by apply mrun_time_nonneg in Hst as [].
Qed.

(** The entry time at the first station is the earliest time of an
    identity, whether clients are sent back or not. *)
Lemma mrun_first ls s : mrun n horizon ls s → first_ok s.
Proof.
  revert ls s. apply mrun_ind_inv.
  - intros gap _ c t_in. simpl. by rewrite trace_get_replicate.
  - intros ls s l s' Hrun IH Hst.
    apply (mstep_first_fresh n horizon Hn ls l s s'); [|done| | |done].
    + by apply (mrun_minv n horizon Hn).
    + by apply (mrun_times n horizon ls).
    + intros i c Hnil. apply (mrun_unnamed n horizon Hn ls s i c Hrun).
      pose proof (mrun_admitted n horizon Hn ls s Hrun c) as Hadm.
      rewrite Hnil in Hadm. simpl in Hadm. case_decide; [done|lia].
Qed.

(** The pass over a station and an identity takes the last branch of
    the inner loop when there is a completion time. *)
Lemma served_completed ls s i c :
  minv n ls s → served (m_q s) (m_a s) (m_d s) i c ↔ trace_get (m_d s) i c ≠ [].
Proof.
  intros Hinv. destruct (tables_ordered n ls s i c Hinv) as [Hda Haq].
  unfold served. split; [naive_solver|]. intros Hd.
  destruct (trace_get (m_d s) i c), (trace_get (m_a s) i c), (trace_get (m_q s) i c);
    simpl in *; try done; lia.
Qed.

(** The places of an identity in one queue are among its places. *)
Lemma waits_ge s i c : count_if (λ c', c' = c) (m_queue s !!! i) ≤ waits c s.
Proof.
  unfold waits. generalize (m_queue s). intros queues. revert i.
  induction queues as [|queue_0 queues IH]; intros i; [by destruct i|].
  destruct i as [|i]; simpl; [lia|]. specialize (IH i). lia.
Qed.

(** An identity that is nowhere in the network has completed service at
    the first station. *)
Lemma absent_first ls s c :
  mrun n horizon ls s → c < m_n_a s → present c s = 0 → trace_get (m_d s) 0 c ≠ [].
Proof.
  intros Hrun Hc Hp. pose proof (mrun_minv n horizon Hn ls s Hrun) as Hinv.
  destruct (minv_tables _ _ _ Hinv 0 c) as [Hq _].
  pose proof (mrun_admitted n horizon Hn ls s Hrun c) as Hadm.
  rewrite decide_True in Hadm by done. pose proof (waits_ge s 0 c). unfold present in Hp.
  intros Hd. rewrite Hd in Hq. simpl in Hq. lia.
Qed.

(** An identity that has left has completed service at the first
    station. *)
Lemma left_first ls s c :
  mrun n horizon ls s → trace_get (m_d s) (n - 1) c ≠ [] → trace_get (m_d s) 0 c ≠ [].
Proof.
  intros Hrun Hd. pose proof (mrun_once n horizon Hn ls s c Hrun) as Hone.
  destruct (trace_get (m_d s) (n - 1) c) eqn:E; [done|]. simpl in Hone.
  case_decide; [|lia]. apply (absent_first ls); [done..|lia].
Qed.

(** The value the loops leave in [system_time[c]], by cases. *)
Lemma sys_after_reported ls s c :
  mrun n horizon ls s →
  sys_after (m_q s) (m_a s) (m_d s) n (m_n_d s) n c = reported (m_q s) (m_d s) n (m_n_d s) c.
Proof.
  intros Hrun. pose proof (mrun_minv n horizon Hn ls s Hrun) as Hinv.
  unfold sys_after, reported. destruct (decide (c < m_n_d s)) as [Hc|Hc]; last first.
  { by rewrite !decide_False by naive_solver. }
  pose proof (left_first ls s c Hrun) as Hfirst.
  destruct (trace_get (m_d s) (n - 1) c) as [|t_out d_t] eqn:E.
  - rewrite (decide_False (P:=_ ∧ _ ∧ served _ _ _ (n - 1) c)), Z.add_0_r;
      [|rewrite (served_completed ls) by done; naive_solver].
    destruct (decide (trace_get (m_d s) 0 c = [])) as [H0|H0].
    + rewrite decide_False; [done|]. rewrite (served_completed ls) by done. naive_solver.
    + rewrite decide_True; [done|]. rewrite (served_completed ls) by done. done.
  - rewrite !decide_True; [lia|rewrite (served_completed ls) by done..].
    + split_and!; [lia|done|by rewrite E].
    + split_and!; [lia|done|by apply Hfirst].
Qed.
End machine.

Section engine_sojourn.
Context {R : RandomSource} `{!RandomSourceLaws R}.
Context {PQ : PriorityQueue event} `{!PriorityQueueLaws event_lt PQ}.
Context (cfg : config) (Hcfg : valid_config cfg).
Local Abbreviation stations_pos := (stations_pos cfg Hcfg).

(** The time in the system of every identity of every run. *)
Lemma metrics_system_time_reported k fuel t n' n_a n_d q a d k1 m k' c :
  servers_simulation cfg k fuel = Finished ((t, n', n_a, n_d, q, a, d), k1) →
  metrics_by_simulation cfg k fuel = Finished (m, k') →
  c < n_a →
  metrics_system_time m !! c = Some (reported q d (stations cfg) n_d c).
Proof.
  intros Hs Hm Hc.
  destruct (servers_simulation_run cfg Hcfg k fuel _ k1 Hs)
    as (st & [= -> -> -> -> -> -> -> _] & _ & _ & Hrun & Hinv).
  apply metrics_by_simulation_inv in Hm as (out & Hs' & Hm).
  rewrite Hs in Hs'. injection Hs' as <-.
  destruct (metrics_of_output_sys_after (st_t st) (arg_n cfg) (st_n_a st) (st_n_d st)
              (st_q st) (st_a st) (st_d st)) as (m' & Hm' & Hsys); [apply Hinv..|apply Hcfg|].
  rewrite Hm in Hm'. injection Hm' as <-. rewrite Hsys by done. f_equal.
  apply (sys_after_reported _ _ stations_pos _ (abs st) c Hrun).
Qed.

(** The tables of an identity of a run: one entry time at the first
    station, not negative and not after its completion time at the last
    station, of which there is at most one. *)
Lemma servers_simulation_sojourn k fuel t n' n_a n_d q a d k1 c :
  servers_simulation cfg k fuel = Finished ((t, n', n_a, n_d, q, a, d), k1) →
  c < n_a →
  ∃ t_in, trace_get q 0 c = [t_in] ∧ (0 ≤ t_in)%Z ∧
    (trace_get d (stations cfg - 1) c = [] ∨
     ∃ t_out, trace_get d (stations cfg - 1) c = [t_out] ∧ (t_in ≤ t_out)%Z) ∧
    (arg_finish cfg = true → trace_get d 0 c ≠ []).
Proof.
  intros Hs Hc.
  destruct (servers_simulation_run cfg Hcfg k fuel _ k1 Hs)
    as (st & [= -> -> -> -> -> -> -> _] & Hcond & Hwf & Hrun & Hinv).
  pose proof (mrun_admitted _ _ stations_pos _ _ Hrun c) as Hadm. simpl in Hadm.
  rewrite decide_True in Hadm by done. destruct (length_one _ Hadm) as [t_in Hin].
  exists t_in. split; [done|].
  pose proof (mrun_times_nonneg _ _ stations_pos _ _ 0 c Hrun) as Hpos.
  pose proof (mrun_first _ _ stations_pos _ _ Hrun c t_in) as Hfirst.
  pose proof (mrun_once _ _ stations_pos _ _ c Hrun) as Hone.
  unfold visit_times in *. simpl in *. rewrite Hin in Hpos, Hfirst.
  apply Forall_app in Hpos as [[Hpos _]%Forall_cons _]. split; [done|]. split.
  - destruct (trace_get (st_d st) (stations cfg - 1) c) as [|t_out [|t' d_t]] eqn:E;
      [by left| |simpl in Hone; case_decide; lia].
    right. exists t_out. split; [done|].
    specialize (Hfirst eq_refl (stations cfg - 1)). rewrite E, !Forall_app in Hfirst.
    destruct Hfirst as (_ & _ & Hd). by apply Forall_inv in Hd.
  - intros Hf. apply (absent_first _ _ stations_pos _ (abs st) c Hrun); [done|].
    apply drained_present; [apply Hinv|by apply (loop_cond_drained cfg)].
Qed.

(** C20: the time in the system [metrics_by_simulation] reports, whether
    clients are sent back or not and whether the run is drained or cut at
    the horizon.  An admitted identity [c] has one entry time [t_in] at
    the first station and at most one completion time [t_out] at the
    last, and the value reported for it is [0] when [c] is not below
    [n_d], also when the client has left; [t_out - t_in] when [c] is
    below [n_d] and has left; [- t_in], which is not positive, when [c]
    is below [n_d], has completed service at the first station and has
    not left, be it still in the network or sent back to the first
    station; [0] when it is still at the first station, which does not
    occur with [finish] set. *)
Theorem metrics_by_simulation_system_time_feedback k fuel t n' n_a n_d q a d k1 m k' c :
  servers_simulation cfg k fuel = Finished ((t, n', n_a, n_d, q, a, d), k1) →
  metrics_by_simulation cfg k fuel = Finished (m, k') →
  c < n_a →
  ∃ t_in, trace_get q 0 c = [t_in] ∧ (0 ≤ t_in)%Z ∧
    (arg_finish cfg = true → trace_get d 0 c ≠ []) ∧
    ((trace_get d (stations cfg - 1) c = [] ∧
      metrics_system_time m !! c =
        Some (if decide (c < n_d ∧ trace_get d 0 c ≠ []) then (- t_in)%Z else 0%Z)) ∨
     (∃ t_out, trace_get d (stations cfg - 1) c = [t_out] ∧ (t_in ≤ t_out)%Z ∧
        metrics_system_time m !! c = Some (if decide (c < n_d) then (t_out - t_in)%Z else 0%Z))).
Proof.
  intros Hs Hm Hc.
  destruct (servers_simulation_sojourn k fuel t n' n_a n_d q a d k1 c Hs Hc)
    as (t_in & Hin & Hpos & Hout & Hfin).
  exists t_in. split_and!; [done..|].
  rewrite (metrics_system_time_reported k fuel t n' n_a n_d q a d k1 m k' c Hs Hm Hc).
  unfold reported, entry_time, exit_time. rewrite Hin. simpl.
  destruct Hout as [Hout|(t_out & Hout & Hle)]; rewrite Hout; [left|right; exists t_out];
    (split_and!; [done..|]); f_equal; repeat case_decide; naive_solver.
Qed.
End engine_sojourn.

(** A run of the sixth experiment in which the first client is sent back
    from the second station.  The identity 0 is below [n_d = 7] and has
    not left: its time is reported as [-1], the negative of its entry
    time.  The identity 7 has left, at time 11 after entering at time 5,
    and its time is reported as [0]. *)
Lemma metrics_by_simulation_system_time_feedback_witness :
  ∃ t n' n_a n_d q a d k1 m k',
    servers_simulation (R:=feedback_source) (PQ:=list_pq event_lt)
      (at_horizon 6 experiment_6) 0 300 = Finished ((t, n', n_a, n_d, q, a, d), k1) ∧
    metrics_by_simulation (R:=feedback_source) (PQ:=list_pq event_lt)
      (at_horizon 6 experiment_6) 0 300 = Finished (m, k') ∧
    (n_d = 7 ∧ metrics_system_time m = [-1; 3; 3; 4; 4; 5; 5; 0]%Z ∧
     trace_get q 0 7 = [5%Z] ∧ trace_get d 2 7 = [11%Z]) ∧
    ∃ t_in, trace_get q 0 0 = [t_in] ∧ (0 ≤ t_in)%Z ∧
      (arg_finish (at_horizon 6 experiment_6) = true → trace_get d 0 0 ≠ []) ∧
      ((trace_get d (stations (at_horizon 6 experiment_6) - 1) 0 = [] ∧
        metrics_system_time m !! 0 =
          Some (if decide (0 < n_d ∧ trace_get d 0 0 ≠ []) then (- t_in)%Z else 0%Z)) ∨
       (∃ t_out, trace_get d (stations (at_horizon 6 experiment_6) - 1) 0 = [t_out] ∧
          (t_in ≤ t_out)%Z ∧
          metrics_system_time m !! 0 =
            Some (if decide (0 < n_d) then (t_out - t_in)%Z else 0%Z))).
Proof.
  do 10 eexists. do 2 (split; [vm_compute; reflexivity|]). split; [by vm_compute|].
  eapply (metrics_by_simulation_system_time_feedback (R:=feedback_source)
            (PQ:=list_pq event_lt) (at_horizon 6 experiment_6) (experiment_6_valid 6) 0 300);
    [vm_compute; reflexivity|vm_compute; reflexivity|vm_compute; lia].
Defined.
