(* ===== verification/Means.v ===== *)
(** * Means: the waiting and service times of a station

    [metrics_by_simulation] reports, per station, the mean over the
    clients of their mean waiting time and of their mean service time.
    The two nested loops accumulate the samples in
    [wait_time_per_client] and [use_time_per_client]; which sample a
    client contributes depends on how far its visit has come.

    [wait_sample] and [use_sample] are the sample of one client at one
    station as a function of its three lists of times; [station_wait]
    and [station_use] are the means over the identities.  The loops
    compute exactly these ([metrics_of_output_means]).

    When no client is sent back, a client that left has one visit per
    station, and its samples are the differences of its times
    ([departed_samples]); in a drained run the mean waiting time of a
    station is the mean over all admitted clients of the time between
    their entry in its queue and the start of their service
    ([metrics_by_simulation_drained_means]).

    The service sample divides the completed services of a client by the
    number of its service starts; [metrics_use_time_second_visit] is a
    run of four stations in which a second visit in progress halves the
    service time reported. *)

From Stdlib Require Import ZArith QArith Qround Lia.
From stdpp Require Import gmap list.
From S2P Require Import Prelude Rng PriorityQueue Events Machine Engine Experiments.
From S2P Require Import Refinement Correctness Termination Timestamps Visits Order.
From S2P Require Import Numpy Metrics.

(** [sum(y - x for x, y in zip(xs, ys)) / len(a_t)] as a number. *)
Definition diff_mean (xs ys a_t : list Z) : Q :=
  (inject_Z (sum_diff xs ys) / inject_Z (Z.of_nat (length a_t)))%Q.

(** The waiting time a client contributes at a station: nothing if it
    never joined the queue, the time it has waited so far if its service
    has not started, the mean wait of its visits otherwise. *)
Definition wait_sample (t : Z) (q_t a_t : list Z) : option Q :=
  if bool_decide (length q_t = 0) then None
  else if bool_decide (length a_t = 0) then Some (inject_Z (t - default 0%Z (head q_t)))
  else Some (diff_mean q_t a_t a_t).

(** The service time a client contributes at a station: the mean service
    time of its visits, once one of them is complete. *)
Definition use_sample (q_t a_t d_t : list Z) : option Q :=
  if bool_decide (length q_t = 0) || bool_decide (length a_t = 0) ||
     bool_decide (length d_t = 0) then None
  else Some (diff_mean a_t d_t a_t).

(** [wait_time[s]] and [use_time[s]] as functions of the tables. *)
Definition station_wait (t : Z) (n_a : nat) (q a : trace) (s : nat) : npfloat :=
  meanQ (omap (λ c, wait_sample t (trace_get q s c) (trace_get a s c)) (seq 0 n_a)).

Definition station_use (n_a : nat) (q a d : trace) (s : nat) : npfloat :=
  meanQ (omap (λ c, use_sample (trace_get q s c) (trace_get a s c) (trace_get d s c))
           (seq 0 n_a)).

(** The time between the entry in the queue of station [s] and the start
    of service there, and the time of service, of a client with one
    visit. *)
Definition visit_wait (q a : trace) (s c : nat) : Q :=
  inject_Z (default 0%Z (head (trace_get a s c)) - default 0%Z (head (trace_get q s c))).

Definition visit_use (a d : trace) (s c : nat) : Q :=
  inject_Z (default 0%Z (head (trace_get d s c)) - default 0%Z (head (trace_get a s c))).

(** Draws for a run with a second visit: every service takes its mean,
    every uniform draw is the upper bound, [random.choice] picks the
    second element. *)
Definition returning_source : RandomSource := {|
  rnd_expovariate _ lambd := Qceiling (/ lambd);
  rnd_uniform _ a b := b;
  rnd_below _ n := 1 `mod` n;
|}.

(** Four stations, the third sending every client back, cut at time 9. *)
Definition four_stations : config :=
  {| arg_time := 9; arg_n := 4; arg_lambda_arrival_time := 1 # 4;
     arg_mu_wait_time := [1; 1 # 2; 1; 1]%Q; arg_p := [0; 0; 1; 0]%Q;
     arg_finish := false |}.

(** * Lemmas *)

Lemma mean_diff_inv xs ys a_t w : mean_diff xs ys a_t = Ok w → w = diff_mean xs ys a_t.
Proof. unfold mean_diff. case_bool_decide; [done|]. by intros [= <-]. Qed.

Lemma py_index_head {A} (l : list A) x : py_index l 0 = Ok x → head l = Some x.
Proof. intros Hx%py_index_Ok. by destruct l; simplify_eq/=. Qed.

Section means.
Context (t n : Z) (n_a n_d : nat) (q a d : trace).

(** What one pass of the inner loop adds to the samples. *)
Lemma client_body_samples s st c st' :
  client_body t n n_d q a d s st c = Ok st' →
  wait_time st' = wait_time st ∧ use_time st' = use_time st ∧
  wait_time_per_client st' =
    wait_time_per_client st ++ option_list (wait_sample t (trace_get q s c) (trace_get a s c)) ∧
  use_time_per_client st' =
    use_time_per_client st ++
    option_list (use_sample (trace_get q s c) (trace_get a s c) (trace_get d s c)).
Proof.
  unfold client_body, wait_sample, use_sample. intros Hb.
  destruct (py_index q s) as [q_s|] eqn:Hq; [|done].
  destruct (py_index a s) as [a_s|] eqn:Ha; [|done].
  destruct (py_index d s) as [d_s|] eqn:Hd; [|done]. simpl in Hb.
  rewrite (trace_get_index _ _ _ c Hq), (trace_get_index _ _ _ c Ha),
    (trace_get_index _ _ _ c Hd) in Hb.
  destruct (bool_decide (length (trace_get q s c) = 0)); [simplify_eq; by rewrite !app_nil_r|].
  destruct (bool_decide (length (trace_get a s c) = 0)); simpl.
  { apply bind_Ok in Hb as (q_0 & ->%py_index_head & Hb).
    apply bind_Ok in Hb as (? & _ & [= <-]). simpl. by rewrite app_nil_r. }
  destruct (bool_decide (length (trace_get d s c) = 0)); simpl;
    apply bind_Ok in Hb as (w_t & ->%mean_diff_inv & Hb).
  { apply bind_Ok in Hb as (? & _ & [= <-]). simpl. by rewrite app_nil_r. }
  apply bind_Ok in Hb as (u_t & ->%mean_diff_inv & Hb).
  by apply bind_Ok in Hb as (? & _ & [= <-]).
Qed.

(** What one pass of the outer loop adds to the means. *)
Lemma station_body_means s st st' :
  station_body t n n_a n_d q a d st s = Ok st' →
  wait_time st' = wait_time st ++ [station_wait t n_a q a s] ∧
  use_time st' = use_time st ++ [station_use n_a q a d s].
Proof.
  intros (st1 & Hloop & [= <-])%bind_Ok. simpl.
  apply (for_loop_fold _ (λ pre st2,
    wait_time st2 = wait_time st ∧ use_time st2 = use_time st ∧
    wait_time_per_client st2 =
      omap (λ c, wait_sample t (trace_get q s c) (trace_get a s c)) pre ∧
    use_time_per_client st2 =
      omap (λ c, use_sample (trace_get q s c) (trace_get a s c) (trace_get d s c)) pre))
    in Hloop as (-> & -> & -> & ->); [done| |done].
  intros pre c s1 s2 (Hw & Hu & Hwc & Huc) (-> & -> & -> & ->)%client_body_samples.
  rewrite !omap_app, Hw, Hu, Hwc, Huc. simpl.
  by destruct (wait_sample _ _ _), (use_sample _ _ _).
Qed.

(** The two lists of means are the means of the samples, station by
    station. *)
Lemma metrics_of_output_means m :
  metrics_of_output (t, n, n_a, n_d, q, a, d) = Ok m →
  metrics_wait_time m = station_wait t n_a q a <$> seq 0 (Z.to_nat n) ∧
  metrics_use_time m = station_use n_a q a d <$> seq 0 (Z.to_nat n).
Proof.
  intros (st & Hloop & [= <-])%bind_Ok. simpl.
  apply (for_loop_fold _ (λ pre st2,
    wait_time st2 = station_wait t n_a q a <$> pre ∧
    use_time st2 = station_use n_a q a d <$> pre)) in Hloop; [done| |done].
  intros pre s s1 s2 [Hw Hu] [-> ->]%station_body_means.
  by rewrite !fmap_app, Hw, Hu.
Qed.
End means.

(** ** Clients with one visit *)

Lemma diff_mean_one x y z : diff_mean [x] [y] [z] = inject_Z (y - x).
Proof.
  unfold diff_mean, Qdiv, Qmult, Qinv, inject_Z. simpl. f_equal. lia.
Qed.

(** The samples of a client with one complete visit. *)
Lemma departed_samples t q a d s c t_q t_a t_d :
  trace_get q s c = [t_q] → trace_get a s c = [t_a] → trace_get d s c = [t_d] →
  wait_sample t (trace_get q s c) (trace_get a s c) = Some (visit_wait q a s c) ∧
  use_sample (trace_get q s c) (trace_get a s c) (trace_get d s c) = Some (visit_use a d s c).
Proof.
  intros Hq Ha Hd. unfold wait_sample, use_sample, visit_wait, visit_use.
  rewrite Hq, Ha, Hd. simpl. by rewrite !diff_mean_one.
Qed.

(** When every identity has one complete visit at station [s], every
    identity contributes its differences. *)
Lemma station_means_complete t n_a q a d s :
  (∀ c, c < n_a → ∃ t_q t_a t_d,
     trace_get q s c = [t_q] ∧ trace_get a s c = [t_a] ∧ trace_get d s c = [t_d]) →
  station_wait t n_a q a s = meanQ (visit_wait q a s <$> seq 0 n_a) ∧
  station_use n_a q a d s = meanQ (visit_use a d s <$> seq 0 n_a).
Proof.
  intros Hvisit. unfold station_wait, station_use.
  assert (∀ (f : nat → option Q) g (l : list nat),
            (∀ c, c ∈ l → f c = Some (g c)) → omap f l = g <$> l)
    as Hmap.
  { intros f g l. induction l as [|c l IH]; intros Hl; simpl; [done|].
    rewrite (Hl c) by left. simpl. f_equal. apply IH. intros c' Hc'. apply Hl. by right. }
  rewrite (Hmap _ (visit_wait q a s)), (Hmap _ (visit_use a d s)); [done|..];
    intros c [_ Hc]%elem_of_seq; destruct (Hvisit c Hc) as (t_q & t_a & t_d & Hq & Ha & Hd);
    by destruct (departed_samples t q a d s c t_q t_a t_d).
Qed.

Section engine_means.
Context {R : RandomSource} `{!RandomSourceLaws R}.
Context {PQ : PriorityQueue event} `{!PriorityQueueLaws event_lt PQ}.
Context (cfg : config) (Hcfg : valid_config cfg).

(** The means of a call, read on the tables of its run. *)
Lemma metrics_by_simulation_samples k fuel t n' n_a n_d q a d k1 m k' :
  servers_simulation cfg k fuel = Finished ((t, n', n_a, n_d, q, a, d), k1) →
  metrics_by_simulation cfg k fuel = Finished (m, k') →
  metrics_wait_time m = station_wait t n_a q a <$> seq 0 (stations cfg) ∧
  metrics_use_time m = station_use n_a q a d <$> seq 0 (stations cfg).
Proof.
  intros Hs (out & Hs' & Hm)%metrics_by_simulation_inv.
  rewrite Hs in Hs'. injection Hs' as <- _.
  destruct (servers_simulation_run cfg Hcfg k fuel _ k1 Hs) as (st & [= _ -> _ _ _ _ _ _] & _).
  apply (metrics_of_output_means _ _ _ _ _ _ _ _ Hm).
Qed.

(** C23: the mean waiting time and the mean service time that
    [metrics_by_simulation] reports for a station are the means, over the
    identities admitted, of the sample of each client: nothing for a
    client that never joined the queue of the station, the time waited so
    far for a client whose service has not started, the mean over its
    visits of the time between entry and start of service otherwise, and
    for the service time the mean over its visits of the time between
    start and completion once a visit is complete. *)
Theorem metrics_by_simulation_means_spec k fuel t n' n_a n_d q a d k1 m k' :
  servers_simulation cfg k fuel = Finished ((t, n', n_a, n_d, q, a, d), k1) →
  metrics_by_simulation cfg k fuel = Finished (m, k') →
  metrics_wait_time m = station_wait t n_a q a <$> seq 0 (stations cfg) ∧
  metrics_use_time m = station_use n_a q a d <$> seq 0 (stations cfg).
Proof. apply metrics_by_simulation_samples. Qed.

Context (Hfwd : forward_only cfg).

(** In a drained run without feedback every client admitted has one
    visit at every station. *)
Lemma servers_simulation_one_visit k fuel t n' n_a n_d q a d k1 s c :
  arg_finish cfg = true →
  servers_simulation cfg k fuel = Finished ((t, n', n_a, n_d, q, a, d), k1) →
  s < stations cfg → c < n_a →
  ∃ t_q t_a t_d, trace_get q s c = [t_q] ∧ trace_get a s c = [t_a] ∧ trace_get d s c = [t_d].
Proof.
  intros Hf Hs Hlt Hc.
  destruct (servers_simulation_drained_state cfg Hcfg Hfwd k fuel _ k1 Hf Hs)
    as (st & ls & [= -> -> -> -> -> -> ->] & _ & Hinv & Hok & Hp).
  destruct (drained_visits (stations cfg) ls (abs st) s c Hinv Hok Hp Hlt Hc)
    as (t_q & t_a & t_d & ? & ? & ? & _).
  by exists t_q, t_a, t_d.
Qed.

(** The means of a drained run, over the visits. *)
Lemma metrics_by_simulation_visit_means k fuel t n' n_a n_d q a d k1 m k' s :
  arg_finish cfg = true →
  servers_simulation cfg k fuel = Finished ((t, n', n_a, n_d, q, a, d), k1) →
  metrics_by_simulation cfg k fuel = Finished (m, k') →
  s < stations cfg →
  metrics_wait_time m !! s = Some (meanQ (visit_wait q a s <$> seq 0 n_a)) ∧
  metrics_use_time m !! s = Some (meanQ (visit_use a d s <$> seq 0 n_a)).
Proof.
  intros Hf Hs Hm Hlt. destruct (metrics_by_simulation_samples _ _ _ _ _ _ _ _ _ _ _ _ Hs Hm)
    as [-> ->].
  rewrite !list_lookup_fmap, lookup_seq_lt by done. simpl.
  destruct (station_means_complete t n_a q a d s) as [-> ->]; [|done].
  intros c Hc. by eapply servers_simulation_one_visit.
Qed.

(** When no draw sends a client back and [finish] is set, the mean
    waiting time [metrics_by_simulation] reports for a station is the
    mean, over all the clients admitted, of the time between their entry
    in the queue of the station and the start of their service there, and
    the mean service time is the mean of the time between the start and
    the completion of their service. *)
Theorem metrics_by_simulation_drained_means k fuel t n' n_a n_d q a d k1 m k' s :
  arg_finish cfg = true →
  servers_simulation cfg k fuel = Finished ((t, n', n_a, n_d, q, a, d), k1) →
  metrics_by_simulation cfg k fuel = Finished (m, k') →
  s < stations cfg →
  metrics_wait_time m !! s = Some (meanQ (visit_wait q a s <$> seq 0 n_a)) ∧
  metrics_use_time m !! s = Some (meanQ (visit_use a d s <$> seq 0 n_a)).
Proof. apply metrics_by_simulation_visit_means. Qed.
End engine_means.

Lemma metrics_by_simulation_means_spec_witness :
  ∃ t n' n_a n_d q a d k1 m k',
    servers_simulation (R:=feedback_source) (PQ:=list_pq event_lt)
      (at_horizon 6 experiment_6) 0 300 = Finished ((t, n', n_a, n_d, q, a, d), k1) ∧
    metrics_by_simulation (R:=feedback_source) (PQ:=list_pq event_lt)
      (at_horizon 6 experiment_6) 0 300 = Finished (m, k') ∧
    metrics_wait_time m =
      station_wait t n_a q a <$> seq 0 (stations (at_horizon 6 experiment_6)) ∧
    metrics_use_time m =
      station_use n_a q a d <$> seq 0 (stations (at_horizon 6 experiment_6)).
Proof.
  do 10 eexists. do 2 (split; [vm_compute; reflexivity|]).
  eapply (metrics_by_simulation_means_spec (R:=feedback_source) (PQ:=list_pq event_lt)
            (at_horizon 6 experiment_6) (experiment_6_valid 6) 0 300);
    vm_compute; reflexivity.
Defined.

Lemma metrics_by_simulation_drained_means_witness :
  ∃ t n' n_a n_d q a d k1 m k',
    servers_simulation (R:=mean_source) (PQ:=list_pq event_lt)
      (at_horizon 60 experiment_6) 0 200 = Finished ((t, n', n_a, n_d, q, a, d), k1) ∧
    metrics_by_simulation (R:=mean_source) (PQ:=list_pq event_lt)
      (at_horizon 60 experiment_6) 0 200 = Finished (m, k') ∧
    metrics_wait_time m !! 1 = Some (meanQ (visit_wait q a 1 <$> seq 0 n_a)) ∧
    metrics_use_time m !! 1 = Some (meanQ (visit_use a d 1 <$> seq 0 n_a)).
Proof.
  do 10 eexists. do 2 (split; [vm_compute; reflexivity|]).
  eapply (metrics_by_simulation_drained_means (R:=mean_source) (PQ:=list_pq event_lt)
            (at_horizon 60 experiment_6) (experiment_6_valid 60)
            (mean_source_forward 60) 0 200);
    [done|vm_compute; reflexivity|vm_compute; reflexivity|vm_compute; lia].
Defined.

(** With four stations a client sent back from the third station keeps
    its identity at the second one.  In this run, cut while the first
    client is in its second service there, every service at the second
    station takes 2; the client has two starts and one completion, its
    sample is the one completed service divided by the two starts, and
    the mean service time reported for the station is 1. *)
Lemma metrics_use_time_second_visit :
  ∃ t n' n_a n_d q a d k1 m k',
    servers_simulation (R:=returning_source) (PQ:=list_pq event_lt) four_stations 0 100 =
      Finished ((t, n', n_a, n_d, q, a, d), k1) ∧
    metrics_by_simulation (R:=returning_source) (PQ:=list_pq event_lt) four_stations 0 100 =
      Finished (m, k') ∧
    n_a = 2 ∧ trace_get a 1 0 = [5; 8]%Z ∧ trace_get d 1 0 = [7]%Z ∧
    trace_get d 1 1 = [] ∧ metrics_use_time m !! 1 = Some (Val (2 # 2)).
Proof.
  do 10 eexists. do 2 (split; [vm_compute; reflexivity|]).
  split_and!; vm_compute; reflexivity.
Qed.
