(* ===== verification/Samples.v ===== *)
(** * Samples: what the reported means are means of

    [metrics_by_simulation] reports a mean waiting time and a mean
    service time per station.  [Means] reads them off the tables; this
    file reads them off the draws of the generator, for a run that is
    drained and in which no client is sent back:

    - the mean service time of station [s] is the mean of as many draws
      of [random.expovariate(mu_wait_time[s])] as clients were admitted,
      all of them draws of the call and no two of them the same draw
      ([metrics_by_simulation_service_draws]): the estimate is a sample
      mean of the service time distribution;
    - the mean waiting time of station [s] is the mean of the waiting
      times of Lindley's recursion: nothing for the first client, and
      for every other client the time from its entry in the queue to the
      completion of the client before it, when that is later
      ([metrics_by_simulation_lindley_wait]).

    At the first station the recursion and the draws give Lindley's
    equation itself, for every run without feedback: the wait of a
    client is the wait of the client before it plus the service time
    drawn for that client minus the gap drawn between their admissions,
    or nothing when that is negative
    ([servers_simulation_lindley_equation]).

    The time in the system of a client that left is the sum over the
    stations of its wait and of its service, in drained runs and in runs
    cut at the horizon ([metrics_by_simulation_system_sum]): the three
    measurements of [metrics_by_simulation] are consistent with one
    another.

    The proofs compose the tables of [Means] and [SystemTime], the
    recursion of [Lindley] and the draws of [Draws]. *)

From Stdlib Require Import ZArith QArith Lia.
From stdpp Require Import gmap list.
From S2P Require Import Prelude Rng PriorityQueue Events Machine Engine Experiments.
From S2P Require Import Refinement Correctness Termination Visits Lindley Draws.
From S2P Require Import Order Numpy Metrics SystemTime Means.

(** The value of the draw [k] of [random.expovariate(mu)], as a number. *)
Definition draw_time {R : RandomSource} (mu : Q) (k : nat) : Q :=
  inject_Z (rnd_expovariate k mu).

(** The waiting time of client [c] at station [s] by Lindley's
    recursion: [max(0, d[s][c-1] - q[s][c])], and nothing for the first
    client. *)
Definition lindley_wait (q d : trace) (s c : nat) : Q :=
  match c with
  | 0 => 0
  | S c' => inject_Z (Z.max 0 (default 0%Z (head (trace_get d s c')) -
                               default 0%Z (head (trace_get q s c))))
  end.

(** The time client [c] waits in the queue of station [s], and the time
    its service there takes. *)
Definition wait_of (q a : trace) (s c : nat) : Z :=
  default 0%Z (head (trace_get a s c)) - default 0%Z (head (trace_get q s c)).

Definition use_of (a d : trace) (s c : nat) : Z :=
  default 0%Z (head (trace_get d s c)) - default 0%Z (head (trace_get a s c)).

(** [sum(l)] on integers. *)
Definition sum_Z (l : list Z) : Z := foldr Z.add 0%Z l.

(** * Lemmas *)

Lemma sum_Z_app l1 l2 : sum_Z (l1 ++ l2) = (sum_Z l1 + sum_Z l2)%Z.
Proof. induction l1 as [|x l1 IH]; simpl; [done|]. rewrite IH. lia. Qed.

(** A sum of differences in which every term starts where the term
    before it ends. *)
Lemma sum_Z_telescope (f g : nat → Z) n :
  (∀ j, j + 1 < S n → f (j + 1) = g j) →
  sum_Z ((λ s, (g s - f s)%Z) <$> seq 0 (S n)) = (g n - f 0%nat)%Z.
Proof.
  induction n as [|n IH]; intros Hfg; [simpl; lia|].
  rewrite seq_S, fmap_app, sum_Z_app, IH by (intros j Hj; apply Hfg; lia).
  simpl. rewrite <- (Nat.add_1_r n), (Hfg n) by lia. lia.
Qed.

(** A list of witnesses, one per element. *)
Lemma choose_list {A B} (P : A → B → Prop) (l : list A) :
  (∀ x, x ∈ l → ∃ y, P x y) → ∃ ys, Forall2 P l ys.
Proof.
  induction l as [|x l IH]; intros Hl; [by exists []|].
  destruct (Hl x) as [y Hy]; [left|].
  destruct IH as [ys Hys]; [intros x' Hx'; apply Hl; by right|].
  exists (y :: ys). by constructor.
Qed.

(** Witnesses that determine their element are pairwise distinct. *)
Lemma Forall2_NoDup {A B} (P : A → B → Prop) (l : list A) (ys : list B) :
  (∀ x x' y, P x y → P x' y → x = x') → NoDup l → Forall2 P l ys → NoDup ys.
Proof.
  intros Hinj Hl HP. apply NoDup_alt. intros i j y Hi Hj.
  destruct (Forall2_lookup_r _ _ _ _ _ HP Hi) as (x & Hx & Hxy).
  destruct (Forall2_lookup_r _ _ _ _ _ HP Hj) as (x' & Hx' & Hxy').
  rewrite (Hinj x x' y Hxy Hxy') in Hx. by eapply NoDup_lookup.
Qed.

Lemma fmap_Forall2_eq {A B C} (f : A → C) (g : B → C) (l : list A) (ys : list B) :
  Forall2 (λ x y, f x = g y) l ys → f <$> l = g <$> ys.
Proof. induction 1; simpl; [done|]. by f_equal. Qed.

Section engine_samples.
Context {R : RandomSource} `{!RandomSourceLaws R}.
Context {PQ : PriorityQueue event} `{!PriorityQueueLaws event_lt PQ}.
Context (cfg : config) (Hcfg : valid_config cfg) (Hfwd : forward_only cfg).
Context (Hfinish : arg_finish cfg = true).
Context (k fuel : nat) (t n' : Z) (n_a n_d : nat) (q a d : trace) (k1 : nat).
Context (Hsim : servers_simulation cfg k fuel = Finished ((t, n', n_a, n_d, q, a, d), k1)).

(** The service time of a visit is a draw of its own. *)
Lemma visit_use_draw owner s mu c :
  (∀ i c t_d, trace_get d i c = [t_d] → service_draw cfg owner k k1 a i c t_d) →
  arg_mu_wait_time cfg !! s = Some mu → s < stations cfg → c < n_a →
  ∃ j, visit_use a d s c = draw_time mu j ∧ owns owner k k1 j (Service s c).
Proof.
  intros Hdraw Hmu Hs Hc.
  destruct (servers_simulation_one_visit cfg Hcfg Hfwd _ _ _ _ _ _ _ _ _ _ s c Hfinish Hsim Hs Hc)
    as (t_q & t_a & t_d & _ & Ha & Hd).
  destruct (Hdraw s c t_d Hd) as (t_a' & j & mu' & Ha' & Hmu' & -> & Hj).
  rewrite Ha in Ha'. rewrite Hmu in Hmu'. simplify_eq.
  exists j. split; [|done]. unfold visit_use, draw_time. rewrite Ha, Hd. simpl. f_equal. lia.
Qed.

(** The waiting time of a visit is that of the recursion. *)
Lemma visit_wait_lindley s c :
  s < stations cfg → c < n_a → visit_wait q a s c = lindley_wait q d s c.
Proof.
  intros Hs Hc.
  destruct (servers_simulation_one_visit cfg Hcfg Hfwd _ _ _ _ _ _ _ _ _ _ s c Hfinish Hsim Hs Hc)
    as (t_q & t_a & t_d & Hq & Ha & _).
  destruct (servers_simulation_recursion cfg Hcfg Hfwd _ _ _ _ _ _ _ _ _ _ s c t_a Hsim Ha)
    as (t_q' & Hq' & Hrec & _).
  rewrite Hq in Hq'. injection Hq' as <-. unfold visit_wait, lindley_wait. rewrite Ha, Hq. simpl.
  destruct c as [|c']; [subst; by rewrite Z.sub_diag|].
  destruct Hrec as (t_p & -> & ->). simpl. f_equal. lia.
Qed.

(** The means of the run, over the draws and over the recursion. *)
Lemma metrics_by_simulation_samples_of m k' s mu :
  metrics_by_simulation cfg k fuel = Finished (m, k') →
  arg_mu_wait_time cfg !! s = Some mu →
  (∃ ks, length ks = n_a ∧ NoDup ks ∧ Forall (λ j, k ≤ j < k1) ks ∧
         metrics_use_time m !! s = Some (meanQ (draw_time mu <$> ks))) ∧
  metrics_wait_time m !! s = Some (meanQ (lindley_wait q d s <$> seq 0 n_a)).
Proof.
  intros Hm Hmu.
  assert (s < stations cfg) as Hs.
  { apply lookup_lt_Some in Hmu. destruct Hcfg as (_ & _ & Hlen & _). by rewrite <- Hlen. }
  destruct (metrics_by_simulation_visit_means cfg Hcfg Hfwd _ _ _ _ _ _ _ _ _ _ _ _ s
              Hfinish Hsim Hm Hs) as [Hwait Huse].
  destruct (servers_simulation_drawn cfg Hcfg Hfwd _ _ _ _ _ _ _ _ _ _ Hsim) as (owner & Hdraw & _).
  split.
  - destruct (choose_list (λ c j, visit_use a d s c = draw_time mu j ∧
                                   owns owner k k1 j (Service s c)) (seq 0 n_a)) as [ks Hks].
    { intros c [_ Hc]%elem_of_seq. by eapply visit_use_draw. }
    exists ks. split_and!.
    + apply Forall2_length in Hks. by rewrite length_seq in Hks.
    + eapply Forall2_NoDup; [|apply NoDup_seq|done]. intros c c' j [_ Hj] [_ Hj'].
      by injection (owns_inj _ _ _ _ _ _ Hj Hj').
    + eapply Forall2_Forall_r; [done|]. apply Forall_true. by intros c j [_ [_ ?]].
    + rewrite Huse. do 2 f_equal. apply fmap_Forall2_eq. eapply Forall2_impl; [done|].
      by intros c j [? _].
  - rewrite Hwait. do 2 f_equal. apply list_fmap_ext. intros i c [-> Hc]%lookup_seq.
    by apply visit_wait_lindley.
Qed.
End engine_samples.

Section first_station.
Context {R : RandomSource} `{!RandomSourceLaws R}.
Context {PQ : PriorityQueue event} `{!PriorityQueueLaws event_lt PQ}.
Context (cfg : config) (Hcfg : valid_config cfg) (Hfwd : forward_only cfg).

(** The waiting times of two clients in a row at the first station, the
    service of the first and the gap between their admissions. *)
Lemma first_station_waits k fuel t n' n_a n_d q a d k' c t_a' :
  servers_simulation cfg k fuel = Finished ((t, n', n_a, n_d, q, a, d), k') →
  trace_get a 0 (S c) = [t_a'] →
  ∃ t_q t_a t_q' k_s k_a mu,
    trace_get q 0 c = [t_q] ∧ trace_get a 0 c = [t_a] ∧ trace_get q 0 (S c) = [t_q'] ∧
    arg_mu_wait_time cfg !! 0 = Some mu ∧
    (k ≤ k_s < k') ∧ (k ≤ k_a < k') ∧ k_s ≠ k_a ∧
    (t_a' - t_q' = Z.max 0 ((t_a - t_q) + rnd_expovariate k_s mu -
                             rnd_expovariate k_a (arg_lambda_arrival_time cfg)))%Z.
Proof.
  intros Hs Ha'.
  destruct (servers_simulation_recursion cfg Hcfg Hfwd _ _ _ _ _ _ _ _ _ _ 0 (S c) t_a' Hs Ha')
    as (t_q' & Hq' & (t_d & Hd & ->) & _).
  destruct (servers_simulation_drawn cfg Hcfg Hfwd _ _ _ _ _ _ _ _ _ _ Hs) as (owner & Hsv & Had).
  destruct (Hsv 0 c t_d Hd) as (t_a & k_s & mu & Ha & Hmu & -> & [Hks ?]).
  destruct (Had (S c) t_q' Hq') as (k_a & [Hka ?] & t_q & Hq & ->).
  exists t_q, t_a, (t_q + rnd_expovariate k_a (arg_lambda_arrival_time cfg))%Z, k_s, k_a, mu.
  split_and!; try done; try lia. intros ->. by rewrite Hks in Hka.
Qed.
End first_station.

Section sojourn.
Context {R : RandomSource} `{!RandomSourceLaws R}.
Context {PQ : PriorityQueue event} `{!PriorityQueueLaws event_lt PQ}.
Context (cfg : config) (Hcfg : valid_config cfg) (Hfwd : forward_only cfg).
Context (k fuel : nat) (t n' : Z) (n_a n_d : nat) (q a d : trace) (k1 : nat).
Context (Hsim : servers_simulation cfg k fuel = Finished ((t, n', n_a, n_d, q, a, d), k1)).

(** A client that left entered the queue of a station when it completed
    service at the station before. *)
Lemma departed_handover c j :
  c < n_d → j + 1 < stations cfg →
  default 0%Z (head (trace_get q (j + 1) c)) = default 0%Z (head (trace_get d j c)).
Proof.
  intros Hc Hj.
  destruct (servers_simulation_departed cfg Hcfg Hfwd _ _ _ _ _ _ _ _ _ _ c Hsim) as [_ Hall].
  destruct (Hall Hc (j + 1) Hj) as (_ & [t_a Ha]%length_one & _).
  destruct (servers_simulation_recursion cfg Hcfg Hfwd _ _ _ _ _ _ _ _ _ _ (j + 1) c t_a Hsim Ha)
    as (t_q & Hq & _ & Hhand).
  rewrite Nat.add_1_r in *. by rewrite Hq, Hhand.
Qed.

(** The time in the system of a client that left is the sum over the
    stations of its wait and of its service. *)
Lemma system_time_sum m k' c :
  metrics_by_simulation cfg k fuel = Finished (m, k') → c < n_d →
  metrics_system_time m !! c =
    Some (sum_Z ((λ s, (wait_of q a s c + use_of a d s c)%Z) <$> seq 0 (stations cfg))).
Proof.
  intros Hm Hc. pose proof (servers_simulation_departures cfg Hcfg _ _ _ _ _ _ _ _ _ _ Hsim) as Hle.
  destruct (metrics_system_time_path cfg Hcfg Hfwd _ _ _ _ _ _ _ _ _ _ _ _ c Hsim Hm)
    as (t_in & Hin & Hout); [lia|].
  rewrite decide_True in Hout by done. destruct Hout as (t_out & Hout & _ & ->). f_equal.
  rewrite (list_fmap_ext _ (λ s, (default 0 (head (trace_get d s c)) -
                                   default 0 (head (trace_get q s c)))%Z) (seq 0 (stations cfg)));
    [|intros; unfold wait_of, use_of; lia].
  pose proof (stations_pos cfg Hcfg) as Hn.
  destruct (stations cfg) as [|n] eqn:Hst; [lia|].
  rewrite (sum_Z_telescope (λ s, default 0%Z (head (trace_get q s c)))
             (λ s, default 0%Z (head (trace_get d s c)))).
  - simpl in Hout. rewrite Nat.sub_0_r in Hout. by rewrite Hin, Hout.
  - intros j Hj. apply departed_handover; [done|lia].
Qed.
End sojourn.

Section claims.
Context {R : RandomSource} `{!RandomSourceLaws R}.
Context {PQ : PriorityQueue event} `{!PriorityQueueLaws event_lt PQ}.
Context (cfg : config) (Hcfg : valid_config cfg) (Hfwd : forward_only cfg).

(** C9: when no draw sends a client back and [finish] is set, the mean
    service time [metrics_by_simulation] reports for station [s] is the
    mean of [n_a] draws of [random.expovariate(mu_wait_time[s])], one
    per client admitted: the draws are pairwise distinct draws of the
    call, between the cursor it starts with and the cursor
    [servers_simulation] returns. *)
Theorem metrics_by_simulation_service_draws k fuel t n' n_a n_d q a d k1 m k' s mu :
  arg_finish cfg = true →
  servers_simulation cfg k fuel = Finished ((t, n', n_a, n_d, q, a, d), k1) →
  metrics_by_simulation cfg k fuel = Finished (m, k') →
  arg_mu_wait_time cfg !! s = Some mu →
  ∃ ks, length ks = n_a ∧ NoDup ks ∧ Forall (λ j, k ≤ j < k1) ks ∧
        metrics_use_time m !! s = Some (meanQ (draw_time mu <$> ks)).
Proof. intros Hf Hs Hm Hmu. by eapply metrics_by_simulation_samples_of. Qed.

(** C10: when no draw sends a client back and [finish] is set, the mean
    waiting time [metrics_by_simulation] reports for station [s] is the
    mean over the clients admitted of the waiting time of Lindley's
    recursion: [max(0, d[s][c-1] - q[s][c])] for client [c], and nothing
    for the first client. *)
Theorem metrics_by_simulation_lindley_wait k fuel t n' n_a n_d q a d k1 m k' s mu :
  arg_finish cfg = true →
  servers_simulation cfg k fuel = Finished ((t, n', n_a, n_d, q, a, d), k1) →
  metrics_by_simulation cfg k fuel = Finished (m, k') →
  arg_mu_wait_time cfg !! s = Some mu →
  metrics_wait_time m !! s = Some (meanQ (lindley_wait q d s <$> seq 0 n_a)).
Proof. intros Hf Hs Hm Hmu. by eapply metrics_by_simulation_samples_of. Qed.
(** C11: when no draw sends a client back, the waiting times at the
    first station satisfy Lindley's equation in the draws of the
    generator: the wait of a client is the wait of the client before it,
    plus the service time drawn for that client, minus the gap drawn
    between their admissions, or nothing when that is negative.  The two
    draws are distinct draws of the call. *)
Theorem servers_simulation_lindley_equation k fuel t n' n_a n_d q a d k' c t_a' :
  servers_simulation cfg k fuel = Finished ((t, n', n_a, n_d, q, a, d), k') →
  trace_get a 0 (S c) = [t_a'] →
  ∃ t_q t_a t_q' k_s k_a mu,
    trace_get q 0 c = [t_q] ∧ trace_get a 0 c = [t_a] ∧ trace_get q 0 (S c) = [t_q'] ∧
    arg_mu_wait_time cfg !! 0 = Some mu ∧
    (k ≤ k_s < k') ∧ (k ≤ k_a < k') ∧ k_s ≠ k_a ∧
    (t_a' - t_q' = Z.max 0 ((t_a - t_q) + rnd_expovariate k_s mu -
                             rnd_expovariate k_a (arg_lambda_arrival_time cfg)))%Z.
Proof. by apply first_station_waits. Qed.
(** C12: when no draw sends a client back, the time in the system that
    [metrics_by_simulation] reports for a client that left the network
    is the sum, over the stations, of the time it waited in the queue and
    of the time its service took: a client enters the next queue at the
    very time it completes service, so no time passes between stations.
    It holds for drained runs and for runs cut at the horizon. *)
Theorem metrics_by_simulation_system_sum k fuel t n' n_a n_d q a d k1 m k' c :
  servers_simulation cfg k fuel = Finished ((t, n', n_a, n_d, q, a, d), k1) →
  metrics_by_simulation cfg k fuel = Finished (m, k') →
  c < n_d →
  metrics_system_time m !! c =
    Some (sum_Z ((λ s, (wait_of q a s c + use_of a d s c)%Z) <$> seq 0 (stations cfg))).
Proof. intros Hs Hm Hc. by eapply system_time_sum. Qed.
End claims.

Lemma metrics_by_simulation_service_draws_witness :
  ∃ t n' n_a n_d q a d k1 m k' mu,
    servers_simulation (R:=mean_source) (PQ:=list_pq event_lt)
      (at_horizon 60 experiment_6) 0 200 = Finished ((t, n', n_a, n_d, q, a, d), k1) ∧
    metrics_by_simulation (R:=mean_source) (PQ:=list_pq event_lt)
      (at_horizon 60 experiment_6) 0 200 = Finished (m, k') ∧
    arg_mu_wait_time (at_horizon 60 experiment_6) !! 1 = Some mu ∧
    ∃ ks, length ks = n_a ∧ NoDup ks ∧ Forall (λ j, 0 ≤ j < k1) ks ∧
          metrics_use_time m !! 1 = Some (meanQ (draw_time (R:=mean_source) mu <$> ks)).
Proof.
  do 11 eexists. do 3 (split; [vm_compute; reflexivity|]).
  eapply (metrics_by_simulation_service_draws (R:=mean_source) (PQ:=list_pq event_lt)
            (at_horizon 60 experiment_6) (experiment_6_valid 60)
            (mean_source_forward 60) 0 200);
    [done|vm_compute; reflexivity..].
Defined.

Lemma metrics_by_simulation_lindley_wait_witness :
  ∃ t n' n_a n_d q a d k1 m k' mu,
    servers_simulation (R:=mean_source) (PQ:=list_pq event_lt)
      (at_horizon 60 experiment_6) 0 200 = Finished ((t, n', n_a, n_d, q, a, d), k1) ∧
    metrics_by_simulation (R:=mean_source) (PQ:=list_pq event_lt)
      (at_horizon 60 experiment_6) 0 200 = Finished (m, k') ∧
    arg_mu_wait_time (at_horizon 60 experiment_6) !! 1 = Some mu ∧
    metrics_wait_time m !! 1 = Some (meanQ (lindley_wait q d 1 <$> seq 0 n_a)).
Proof.
  do 11 eexists. do 3 (split; [vm_compute; reflexivity|]).
  eapply (metrics_by_simulation_lindley_wait (R:=mean_source) (PQ:=list_pq event_lt)
            (at_horizon 60 experiment_6) (experiment_6_valid 60)
            (mean_source_forward 60) 0 200);
    [done|vm_compute; reflexivity..].
Defined.

Lemma servers_simulation_lindley_equation_witness :
  ∃ t n' n_a n_d q a d k' t_a',
    servers_simulation (R:=mean_source) (PQ:=list_pq event_lt)
      (at_horizon 60 experiment_6) 0 200 = Finished ((t, n', n_a, n_d, q, a, d), k') ∧
    trace_get a 0 2 = [t_a'] ∧
    ∃ t_q t_a t_q' k_s k_a mu,
      trace_get q 0 1 = [t_q] ∧ trace_get a 0 1 = [t_a] ∧ trace_get q 0 2 = [t_q'] ∧
      arg_mu_wait_time (at_horizon 60 experiment_6) !! 0 = Some mu ∧
      (0 ≤ k_s < k') ∧ (0 ≤ k_a < k') ∧ k_s ≠ k_a ∧
      (t_a' - t_q' = Z.max 0 ((t_a - t_q) + rnd_expovariate (RandomSource:=mean_source) k_s mu -
         rnd_expovariate (RandomSource:=mean_source) k_a
           (arg_lambda_arrival_time (at_horizon 60 experiment_6))))%Z.
Proof.
  do 9 eexists. do 2 (split; [vm_compute; reflexivity|]).
  eapply (servers_simulation_lindley_equation (R:=mean_source) (PQ:=list_pq event_lt)
            (at_horizon 60 experiment_6) (experiment_6_valid 60) (mean_source_forward 60) 0 200);
    vm_compute; reflexivity.
Defined.

Lemma metrics_by_simulation_system_sum_witness :
  ∃ t n' n_a n_d q a d k1 m k',
    servers_simulation (R:=mean_source) (PQ:=list_pq event_lt)
      (at_horizon 60 experiment_6) 0 200 = Finished ((t, n', n_a, n_d, q, a, d), k1) ∧
    metrics_by_simulation (R:=mean_source) (PQ:=list_pq event_lt)
      (at_horizon 60 experiment_6) 0 200 = Finished (m, k') ∧
    1 < n_d ∧
    metrics_system_time m !! 1 =
      Some (sum_Z ((λ s, (wait_of q a s 1 + use_of a d s 1)%Z) <$>
                     seq 0 (stations (at_horizon 60 experiment_6)))).
Proof.
  do 10 eexists. do 2 (split; [vm_compute; reflexivity|]). split; [vm_compute; lia|].
  eapply (metrics_by_simulation_system_sum (R:=mean_source) (PQ:=list_pq event_lt)
            (at_horizon 60 experiment_6) (experiment_6_valid 60) (mean_source_forward 60) 0 200);
    [vm_compute; reflexivity..|vm_compute; lia].
Defined.
