(* ===== verification/Controller.v ===== *)
(** * Controller: repeated runs until the estimate settles

    The model of [run_simulation] of [src/sim.ipynb]: the function repeats
    [metrics_by_simulation], records the means of each run, and stops after
    [max_iterations] runs, or after [min_iterations] runs once the standard
    deviation of the times in the system, divided by the number of runs, is
    below [convergence_threshold].  The loop is [while True] with two
    [break]s: one iteration is [iteration], which returns the new state and
    whether a [break] was taken.  The three constants of the function are
    the fields of [control]; [notebook_control] holds the values of the
    notebook. *)

From Stdlib Require Import ZArith QArith Lia.
From stdpp Require Import gmap list.
From S2P Require Import Prelude Rng PriorityQueue Events Machine Engine Experiments.
From S2P Require Import Correctness Termination Feedback Numpy Metrics.

(** The parameters of the control of convergence. *)
Record control : Type := Control {
  min_iterations : nat;
  max_iterations : nat;
  convergence_threshold : Q;
}.

(** [min_iterations = 1000; max_iterations = 5000; convergence_threshold = 0.001] *)
Definition notebook_control : control :=
  {| min_iterations := 1000; max_iterations := 5000; convergence_threshold := 1 # 1000 |}.

(** The local variables of [run_simulation], and the cursor of the random
    generator. *)
Record run_state : Type := RunState {
  iterations : nat;
  run_system_time : list npfloat;
  run_wait_time : list npfloat;
  run_use_time : list npfloat;
  run_rng : nat;
}.

(** The dictionary returned: per metric, the variance and the mean. *)
Record results : Type := Results {
  Wait_Time : npfloat * npfloat;
  Use_Time : npfloat * npfloat;
  System_Time : npfloat * npfloat;
}.

Definition run_init (k : nat) : run_state :=
  {| iterations := 0; run_system_time := []; run_wait_time := [];
     run_use_time := []; run_rng := k |}.

(** What one iteration does with the measurements of its run. *)
Definition record_metrics (ctl : control) (st : run_state) (metrics : Metrics) (k' : nat) :
    run_state * bool :=
  let system_time :=
    run_system_time st ++ [meanQ (inject_Z <$> metrics_system_time metrics)] in
  let wait_time := run_wait_time st ++ [np_mean (metrics_wait_time metrics)] in
  let use_time := run_use_time st ++ [np_mean (metrics_use_time metrics)] in
  let iterations := iterations st + 1 in
  let st' := {| iterations := iterations; run_system_time := system_time;
                run_wait_time := wait_time; run_use_time := use_time;
                run_rng := k' |} in
  if bool_decide (max_iterations ctl ≤ iterations) then (st', true)
  else if bool_decide (min_iterations ctl ≤ iterations) then
    if np_std_over_len_lt system_time (convergence_threshold ctl) then (st', true)
    else (st', false)
  else (st', false).

(** The stopping rule, on the state an iteration leaves. *)
Definition should_stop (ctl : control) (st : run_state) : bool :=
  bool_decide (max_iterations ctl ≤ iterations st) ||
  (bool_decide (min_iterations ctl ≤ iterations st) &&
   np_std_over_len_lt (run_system_time st) (convergence_threshold ctl)).

(** What the iterations keep: one entry per run in each list. *)
Record run_ok (st : run_state) : Prop := {
  run_ok_system : length (run_system_time st) = iterations st;
  run_ok_wait : length (run_wait_time st) = iterations st;
  run_ok_use : length (run_use_time st) = iterations st;
}.

(** What holds when the loop breaks. *)
Definition run_done (ctl : control) (st : run_state) : Prop :=
  1 ≤ iterations st ∧
  (max_iterations ctl ≤ iterations st ∨
   min_iterations ctl ≤ iterations st ∧
   np_std_over_len_lt (run_system_time st) (convergence_threshold ctl) = true).


Section controller.
Context {R : RandomSource} {PQ : PriorityQueue event}.

(** The body of [while True]: the new state, and whether the loop ends. *)
Definition iteration (ctl : control) (cfg : config) (sim_fuel : nat) (st : run_state) :
    loop_result (run_state * bool) :=
  '(metrics, k') ← metrics_by_simulation cfg (run_rng st) sim_fuel;
  mret (record_metrics ctl st metrics k').

Definition run_results (st : run_state) : results :=
  {| Wait_Time := (np_var (run_wait_time st), np_mean (run_wait_time st));
     Use_Time := (np_var (run_use_time st), np_mean (run_use_time st));
     System_Time := (np_var (run_system_time st), np_mean (run_system_time st)) |}.

(** The loop of [run_simulation]. *)
Definition run_loop (ctl : control) (cfg : config) (sim_fuel fuel : nat) (k : nat) :
    loop_result run_state :=
  do_loop (iteration ctl cfg sim_fuel) fuel (run_init k).

(** The state after [j] runs, whatever the stopping rule says. *)
Definition runs_after (ctl : control) (cfg : config) (sim_fuel j : nat) (k : nat) :
    loop_result run_state :=
  iterate_body (iteration ctl cfg sim_fuel) j (run_init k).

(** [run_simulation] with the constants [ctl]. *)
Definition run_simulation_with (ctl : control) (cfg : config) (sim_fuel fuel : nat) (k : nat) :
    loop_result (results * nat) :=
  st ← run_loop ctl cfg sim_fuel fuel k;
  mret (run_results st, run_rng st).

(** [run_simulation(time, n, lambda_arrival_time, mu_wait_time, p, finish)] *)
Definition run_simulation (cfg : config) (sim_fuel fuel : nat) (k : nat) :
    loop_result (results * nat) :=
  run_simulation_with notebook_control cfg sim_fuel fuel k.
End controller.

(** Two runs at least, three at most. *)
Definition short_control : control :=
  {| min_iterations := 2; max_iterations := 3; convergence_threshold := 1 # 1000 |}.

Definition closed_config : config :=
  {| arg_time := 0; arg_n := 1; arg_lambda_arrival_time := 1 # 7;
     arg_mu_wait_time := [1 # 4]%Q; arg_p := [0]%Q; arg_finish := false |}.

(** * Lemmas *)

Section controller_lemmas.
Context {R : RandomSource} {PQ : PriorityQueue event}.
Context (ctl : control) (cfg : config) (sim_fuel : nat).

Lemma record_metrics_spec st metrics k' st' stop :
  record_metrics ctl st metrics k' = (st', stop) →
  iterations st' = iterations st + 1 ∧ run_rng st' = k' ∧
  (run_ok st → run_ok st') ∧
  (stop = true → run_done ctl st') ∧
  (stop = false → iterations st' < max_iterations ctl).
Proof.
  unfold record_metrics, run_done. intros Hr.
  assert (run_ok st → run_ok (fst (record_metrics ctl st metrics k'))) as Hok.
  { intros [? ? ?]. unfold record_metrics.
    repeat case_match; split; simpl; rewrite length_app; simpl; lia. }
  unfold record_metrics in Hok.
  repeat case_bool_decide; try case_match; simplify_eq; simpl in *;
    split_and!; try done; try lia; intros _; try lia; split; try lia; eauto.
Qed.

(** The state an iteration leaves, whether it breaks or not. *)
Lemma record_metrics_fst st metrics k' :
  (record_metrics ctl st metrics k').1 =
  {| iterations := iterations st + 1;
     run_system_time := run_system_time st ++ [meanQ (inject_Z <$> metrics_system_time metrics)];
     run_wait_time := run_wait_time st ++ [np_mean (metrics_wait_time metrics)];
     run_use_time := run_use_time st ++ [np_mean (metrics_use_time metrics)];
     run_rng := k' |}.
Proof. unfold record_metrics. by repeat case_match. Qed.

(** An iteration breaks when the stopping rule holds of the state it leaves. *)
Lemma record_metrics_snd st metrics k' :
  (record_metrics ctl st metrics k').2 = should_stop ctl (record_metrics ctl st metrics k').1.
Proof.
  rewrite record_metrics_fst. unfold record_metrics, should_stop. simpl.
  by repeat case_match.
Qed.

Lemma iteration_Finished st st' stop :
  iteration ctl cfg sim_fuel st = Finished (st', stop) →
  ∃ metrics k', metrics_by_simulation cfg (run_rng st) sim_fuel = Finished (metrics, k') ∧
                record_metrics ctl st metrics k' = (st', stop).
Proof.
  unfold iteration. intros ([metrics k'] & Hm & [= Hr])%loop_bind_Finished. eauto.
Qed.

(** The loop of [run_simulation] ends after at least one and at most
    [max_iterations] runs (one run when [max_iterations] is zero), with one entry per run in each
    list, and for one of the two reasons of the code. *)
Theorem run_loop_done fuel k st :
  run_loop ctl cfg sim_fuel fuel k = Finished st →
  run_ok st ∧ run_done ctl st ∧ iterations st ≤ Nat.max 1 (max_iterations ctl).
Proof.
  apply (do_loop_inv _
    (λ st, run_ok st ∧ (iterations st = 0 ∨ iterations st < max_iterations ctl))
    (λ st, run_ok st ∧ run_done ctl st ∧ iterations st ≤ Nat.max 1 (max_iterations ctl))).
  - intros s1 s2 stop [Hok Hit] (metrics & k' & _ & Hr)%iteration_Finished.
    destruct (record_metrics_spec _ _ _ _ _ Hr) as (Hi & _ & Hok' & Hstop & Hcont).
    destruct stop; [|split; [by apply Hok'|right; by apply Hcont]].
    split_and!; [by apply Hok'|by apply Hstop|lia].
  - split; [by split|by left].
Qed.

Lemma iteration_stop st st' stop :
  iteration ctl cfg sim_fuel st = Finished (st', stop) →
  stop = should_stop ctl st' ∧ iterations st' = iterations st + 1.
Proof.
  intros (metrics & k' & _ & Hr)%iteration_Finished.
  pose proof (record_metrics_snd st metrics k') as Hsnd.
  pose proof (record_metrics_fst st metrics k') as Hfst.
  rewrite Hr in Hsnd, Hfst. simpl in *. by rewrite Hfst at 2.
Qed.

Lemma runs_after_iterations j k st :
  runs_after ctl cfg sim_fuel j k = Finished st → iterations st = j.
Proof.
  unfold runs_after. revert st. induction j as [|j IH]; intros st; [by intros [= <-]|].
  intros (s1 & stop & Hj%IH & [_ Hi]%iteration_stop)%iterate_body_S. lia.
Qed.

(** The loop returns the state after the first run after which the
    stopping rule holds. *)
Lemma run_loop_first fuel k st :
  run_loop ctl cfg sim_fuel fuel k = Finished st →
  runs_after ctl cfg sim_fuel (iterations st) k = Finished st ∧
  should_stop ctl st = true ∧
  ∀ j st_j, 1 ≤ j < iterations st → runs_after ctl cfg sim_fuel j k = Finished st_j →
            should_stop ctl st_j = false.
Proof.
  intros (j & s1 & _ & Hit & Hlast & Hfirst)%do_loop_first.
  destruct (iteration_stop _ _ _ Hlast) as [Hstop Hiter].
  rewrite (runs_after_iterations j k s1 Hit) in Hiter. rewrite Hiter, Nat.add_1_r.
  split_and!; [apply iterate_body_S; eauto|done|].
  intros [|j'] st_j Hj; [lia|]. intros (s2 & stop & Hit2 & Hb2)%iterate_body_S.
  destruct (Hfirst j' s2 ltac:(lia) Hit2) as [s3 Hb3]. rewrite Hb2 in Hb3.
  injection Hb3 as -> ->. by destruct (iteration_stop _ _ _ Hb2) as [<- _].
Qed.

(** C34: the loop of [run_simulation] ends with the first run after which
    the stopping rule holds ([max_iterations] runs are done, or
    [min_iterations] runs are done and the deviation of the times in the
    system, divided by the number of runs, is below the threshold): it
    returns the state after that run, and after no earlier run did the
    rule hold.  In particular it stops after exactly [min_iterations]
    runs when the rule holds there. *)
Theorem run_loop_first_stop fuel k st :
  run_loop ctl cfg sim_fuel fuel k = Finished st →
  runs_after ctl cfg sim_fuel (iterations st) k = Finished st ∧
  should_stop ctl st = true ∧
  ∀ j st_j, 1 ≤ j < iterations st → runs_after ctl cfg sim_fuel j k = Finished st_j →
            should_stop ctl st_j = false.
Proof. apply run_loop_first. Qed.

(** When the test of convergence holds after [min_iterations] runs, the
    loop stops there. *)
Lemma run_loop_stops_at_min fuel k st st_min :
  1 ≤ min_iterations ctl ≤ max_iterations ctl →
  run_loop ctl cfg sim_fuel fuel k = Finished st →
  runs_after ctl cfg sim_fuel (min_iterations ctl) k = Finished st_min →
  np_std_over_len_lt (run_system_time st_min) (convergence_threshold ctl) = true →
  iterations st = min_iterations ctl.
Proof.
  intros Hmin (_ & Hstop & Hfirst)%run_loop_first Hit Htest.
  pose proof (runs_after_iterations _ _ _ Hit) as Hj.
  destruct (decide (min_iterations ctl < iterations st)) as [Hlt|Hge].
  - assert (should_stop ctl st_min = false) as Hno
      by (apply (Hfirst (min_iterations ctl)); [lia|done]).
    unfold should_stop in Hno. rewrite Htest, Hj in Hno.
    rewrite (bool_decide_true (min_iterations ctl ≤ _)) in Hno by lia.
    by rewrite orb_true_r in Hno.
  - unfold should_stop in Hstop. repeat case_bool_decide; simpl in *; try done; lia.
Qed.

(** If every run returns, the loop ends within [max_iterations] iterations. *)
Lemma run_loop_terminates fuel k :
  (∀ k, ∃ metrics k', metrics_by_simulation cfg k sim_fuel = Finished (metrics, k')) →
  max_iterations ctl ≤ fuel → 0 < fuel →
  ∃ st, run_loop ctl cfg sim_fuel fuel k = Finished st.
Proof.
  intros Hsim Hmax Hfuel.
  apply (do_loop_terminates _
    (λ st, iterations st = 0 ∨ iterations st < max_iterations ctl)
    (λ st, max_iterations ctl - iterations st - 1)); [|by left|simpl; lia].
  intros s1 Hs1. destruct (Hsim (run_rng s1)) as (metrics & k' & Hm).
  destruct (record_metrics ctl s1 metrics k') as [s2 stop] eqn:Hr.
  exists s2, stop. unfold iteration. rewrite Hm. simpl. rewrite Hr.
  destruct (record_metrics_spec _ _ _ _ _ Hr) as (Hi & _ & _ & _ & Hcont).
  split; [done|]. intros Hstop. specialize (Hcont Hstop). split; [by right|lia].
Qed.
End controller_lemmas.

(** ** The calls of the notebook *)

Section run_simulation_correct.
Context {R : RandomSource} `{!RandomSourceLaws R}.
Context {PQ : PriorityQueue event} `{!PriorityQueueLaws event_lt PQ}.

(** If every run of the simulation returns, [run_simulation] returns,
    within [max_iterations] iterations of its loop. *)
Lemma run_simulation_returns cfg sim_fuel fuel k :
  (∀ k, ∃ metrics k', metrics_by_simulation cfg k sim_fuel = Finished (metrics, k')) →
  max_iterations notebook_control ≤ fuel →
  ∃ r k', run_simulation cfg sim_fuel fuel k = Finished (r, k').
Proof.
  intros Hsim Hfuel.
  destruct (run_loop_terminates notebook_control cfg sim_fuel fuel k Hsim Hfuel) as [st Hst].
  { simpl in Hfuel. lia. }
  exists (run_results st), (run_rng st).
  unfold run_simulation, run_simulation_with. by rewrite Hst.
Qed.

(** The runs return when the gaps are positive and the feedback is
    bounded. *)
Lemma run_simulation_returns_feedback cfg ks sim_fuel fuel k :
  valid_config cfg → positive_gaps cfg → bounded_feedback cfg ks →
  feedback_fuel cfg ks ≤ sim_fuel → max_iterations notebook_control ≤ fuel →
  ∃ r k', run_simulation cfg sim_fuel fuel k = Finished (r, k').
Proof.
  intros Hcfg Hgaps Hks Hsim Hfuel. apply run_simulation_returns; [|done].
  intros k0.
  destruct (servers_simulation_returns_feedback cfg Hcfg ks Hgaps Hks k0 sim_fuel Hsim)
    as (out & k' & Hs).
  destruct (metrics_by_simulation_Finished cfg Hcfg k0 sim_fuel out k' Hs) as (m & Hm & _).
  by exists m, k'.
Qed.

Lemma run_simulation_no_exn ctl cfg sim_fuel fuel k e :
  valid_config cfg → run_simulation_with ctl cfg sim_fuel fuel k ≠ Failed e.
Proof.
  intros Hcfg [Hl|(st & _ & ?)]%loop_bind_Failed; [|done].
  revert Hl. apply (do_loop_safe _ (λ _, True)); [done| |done].
  intros st e' _ [Hm|([m k'] & _ & ?)]%loop_bind_Failed; [|done].
  by eapply metrics_by_simulation_no_exn.
Qed.

(** C35: when every arrival gap is at least one tick and at most the
    draws [ks] send a client back, [run_simulation] on a valid
    configuration returns: each of its runs returns within
    [(time + 1) * 3 * n * (1 + length ks)] iterations, and its own loop
    ends within [max_iterations] = 5000 iterations. *)
Theorem run_simulation_terminates cfg ks sim_fuel fuel k :
  valid_config cfg → positive_gaps cfg → bounded_feedback cfg ks →
  feedback_fuel cfg ks ≤ sim_fuel → max_iterations notebook_control ≤ fuel →
  ∃ r k', run_simulation cfg sim_fuel fuel k = Finished (r, k').
Proof. apply run_simulation_returns_feedback. Qed.

(** C36: for a valid configuration [run_simulation], with any constants,
    raises no exception. *)
Theorem run_simulation_safe ctl cfg sim_fuel fuel k e :
  valid_config cfg → run_simulation_with ctl cfg sim_fuel fuel k ≠ Failed e.
Proof. apply run_simulation_no_exn. Qed.
End run_simulation_correct.

(** A run that admits nobody has no time in the system to average: its
    mean is [nan], the test of convergence fails, and the loop runs
    [max_iterations] times and reports [nan]. *)
Lemma record_metrics_nan ctl st metrics k' st' stop :
  metrics_system_time metrics = [] →
  record_metrics ctl st metrics k' = (st', stop) →
  NaN ∈ run_system_time st' ∧ iterations st' = iterations st + 1 ∧ run_rng st' = k' ∧
  stop = bool_decide (max_iterations ctl ≤ iterations st').
Proof.
  intros Hm. unfold record_metrics. rewrite Hm. simpl.
  unfold np_std_over_len_lt. rewrite np_var_nan by set_solver.
  repeat case_bool_decide; intros [= <- <-]; simpl;
    (split_and!; [set_solver|done..|by rewrite ?bool_decide_true, ?bool_decide_false]).
Qed.

Section no_admission.
Context {R : RandomSource} {PQ : PriorityQueue event}.
Context (ctl : control) (cfg : config) (sim_fuel : nat).
Context (Hf : arg_finish cfg = false) (Ht : (arg_time cfg ≤ 0)%Z).
Context (Hl : ¬ (arg_lambda_arrival_time cfg == 0)%Q).

(** Before a run of such a call the generator has been read once per
    run and the bound on the runs is not reached; the loop ends when it
    is. *)
Lemma run_loop_nan fuel k st :
  run_loop ctl cfg sim_fuel fuel k = Finished st →
  NaN ∈ run_system_time st ∧ iterations st = Nat.max 1 (max_iterations ctl) ∧
  run_rng st = k + iterations st.
Proof.
  apply (do_loop_inv _
    (λ st, run_rng st = k + iterations st ∧
           (iterations st = 0 ∨ iterations st < max_iterations ctl))
    (λ st, NaN ∈ run_system_time st ∧ iterations st = Nat.max 1 (max_iterations ctl) ∧
           run_rng st = k + iterations st)); [|simpl; split; [lia|by left]].
  intros s1 s2 stop [Hk Hit] (metrics & k' & Hm & Hr)%iteration_Finished.
  destruct (metrics_by_simulation_closed cfg (run_rng s1) sim_fuel Hf Ht Hl) as (m & Hm' & Hs).
  rewrite Hm' in Hm. injection Hm as <- <-.
  destruct (record_metrics_nan _ _ _ _ _ _ Hs Hr) as (Hnan & Hs2 & Hk2 & ->).
  case_bool_decide; split_and?; try done; lia.
Qed.

(** C39: with [finish] unset and a horizon that is not positive, so that no
    run admits a client, [run_simulation] returns after [max_iterations]
    runs (after one when [max_iterations] is zero), each of which reads
    the generator once, and reports [nan] for the variance and the mean
    of the time in the system. *)
Theorem run_simulation_no_admission fuel k :
  max_iterations ctl ≤ fuel → 0 < fuel →
  ∃ r k', run_simulation_with ctl cfg sim_fuel fuel k = Finished (r, k') ∧
          System_Time r = (NaN, NaN) ∧ k' = k + Nat.max 1 (max_iterations ctl).
Proof.
  intros Hfuel Hpos.
  destruct (run_loop_terminates ctl cfg sim_fuel fuel k) as [st Hst]; [|done..|].
  { intros k0. destruct (metrics_by_simulation_closed cfg k0 sim_fuel Hf Ht Hl) as (m & ? & _).
    by exists m, (S k0). }
  destruct (run_loop_nan fuel k st Hst) as (Hnan & Hit & Hk).
  exists (run_results st), (run_rng st). unfold run_simulation_with. rewrite Hst.
  split_and!; [done| |lia]. simpl. rewrite np_var_nan by done.
  by rewrite (proj2 (np_mean_nan _) (or_intror Hnan)).
Qed.
End no_admission.

(** * Concrete runs *)

Lemma run_loop_done_witness :
  ∃ st, run_loop (R:=mean_source) (PQ:=list_pq event_lt) short_control
          (at_horizon 60 experiment_6) 200 10 0 = Finished st ∧
        run_ok st ∧ run_done short_control st ∧ iterations st ≤ 3.
Proof.
  eexists. split; [vm_compute; reflexivity|].
  apply (run_loop_done (R:=mean_source) (PQ:=list_pq event_lt) short_control
           (at_horizon 60 experiment_6) 200 10 0).
  vm_compute; reflexivity.
Defined.

Lemma run_simulation_terminates_witness :
  ∃ r k', run_simulation (R:=feedback_source) (PQ:=list_pq event_lt) experiment_6
            (feedback_fuel experiment_6 (seq 0 12)) 5000 0 = Finished (r, k').
Proof.
  apply (run_simulation_terminates (R:=feedback_source) (PQ:=list_pq event_lt)
           (at_horizon 5000 experiment_6) (seq 0 12) _ _ _ (experiment_6_valid 5000)
           (feedback_source_gaps 5000) (feedback_source_bounded 5000)); done.
Defined.

Lemma run_simulation_safe_witness :
  run_simulation_with (R:=mean_source) (PQ:=list_pq event_lt) short_control
    (at_horizon 60 experiment_6) 200 10 0 ≠ Failed TypeError.
Proof. apply run_simulation_safe, experiment_6_valid. Defined.

Lemma run_simulation_no_admission_witness :
  ∃ r k', run_simulation_with (R:=mean_source) (PQ:=list_pq event_lt) short_control
            closed_config 10 3 0 = Finished (r, k') ∧
          System_Time r = (NaN, NaN) ∧ k' = 0 + Nat.max 1 (max_iterations short_control).
Proof.
  apply (run_simulation_no_admission (R:=mean_source) (PQ:=list_pq event_lt)); try done.
  simpl. lia.
Defined.

Lemma run_loop_first_stop_witness :
  ∃ st,
    run_loop (R:=mean_source) (PQ:=list_pq event_lt) short_control
      (at_horizon 60 experiment_6) 200 10 0 = Finished st ∧
    runs_after (R:=mean_source) (PQ:=list_pq event_lt) short_control
      (at_horizon 60 experiment_6) 200 (iterations st) 0 = Finished st ∧
    should_stop short_control st = true ∧
    ∀ j st_j, 1 ≤ j < iterations st →
      runs_after (R:=mean_source) (PQ:=list_pq event_lt) short_control
        (at_horizon 60 experiment_6) 200 j 0 = Finished st_j →
      should_stop short_control st_j = false.
Proof.
  eexists. split; [vm_compute; reflexivity|].
  apply (run_loop_first_stop (R:=mean_source) (PQ:=list_pq event_lt) short_control
           (at_horizon 60 experiment_6) 200 10 0).
  vm_compute; reflexivity.
Defined.
