(* ===== verification/Divergence.v ===== *)
(** * Divergence: a draining run that does not end

    [Termination] and [Feedback] prove that [servers_simulation] returns
    when finitely many draws send a client back.  The hypothesis cannot
    be dropped.  A feedback probability of 1 is a valid argument, and
    at a station [j] that is neither the first nor the last it sends
    every client back: [random.uniform(0, 1)] is never above 1.  No
    client then gets past station [j], none leaves the network, and with
    [finish] set the event clock never empties: the loop runs for ever,
    whatever the draws.

    [held j s] states that no pending event is for a station after [j];
    it is kept by every step that does not route a client forward from
    [j] ([mstep_held]), and such steps leave a pending event
    ([mstep_pending]).  In the model a call that does not return is
    [OutOfFuel] for every fuel ([servers_simulation_never_drains]);
    [run_simulation] passes [finish] on and hangs with its first run. *)

From Stdlib Require Import ZArith QArith Lia.
From stdpp Require Import gmap list.
From S2P Require Import Prelude Rng PriorityQueue Events Machine Engine Experiments.
From S2P Require Import Refinement Correctness Termination Identities.
From S2P Require Import Numpy Metrics Controller.

(** Station [j], neither the first nor the last, sends every client
    back: [p[j]] is at least 1. *)
Definition sends_back (cfg : config) (j : nat) : Prop :=
  0 < j ∧ j + 1 < stations cfg ∧ ∃ p_j, arg_p cfg !! j = Some p_j ∧ (1 <= p_j)%Q.

(** The step does not route a client forward from station [j]. *)
Definition held_label (j : nat) (l : label) : Prop :=
  match l with
  | Finish _ _ i (Some next) => i = j → next < j
  | _ => True
  end.

(** No pending event is for a station after [j]. *)
Abbreviation upto j := (Forall (λ x : event, ev_server x ≤ j)).

Definition held (j : nat) (s : mstate) : Prop := upto j (m_pending s).

(** Three stations, the second of which sends every client back. *)
Definition closed_loop : config :=
  {| arg_time := 5; arg_n := 3; arg_lambda_arrival_time := 1 # 7;
     arg_mu_wait_time := [1 # 4; 1 # 2; 1]%Q; arg_p := [0; 1; 0]%Q;
     arg_finish := true |}.

(** * Lemmas *)

Section machine.
Context (n : nat) (horizon : Z) (j : nat) (Hj : j + 1 < n).

Lemma upto_start_if_idle t c i q : i ≤ j → upto j (start_if_idle t c i q).
Proof. destruct q; simpl; [by rewrite Forall_singleton|by intros]. Qed.

Lemma upto_start_next t i q : i ≤ j → upto j (start_next t i q).
Proof. destruct q; simpl; [by intros|by rewrite Forall_singleton]. Qed.

Lemma held_takes s x rest : held j s → takes s x rest → ev_server x ≤ j ∧ upto j rest.
Proof. unfold held. intros Hs [Hp _]. by rewrite Hp, Forall_cons in Hs. Qed.

Lemma minit_held gap : held j (minit n gap).
Proof. unfold held. simpl. rewrite Forall_singleton. ev_simpl. lia. Qed.

(** The events a step adds are for the station of the event it takes,
    for the first station, or for the station it routes the client to. *)
Lemma mstep_held l s s' : held_label j l → held j s → mstep n horizon l s s' → held j s'.
Proof.
  intros Hl Hs Hst. unfold held.
  inv_mstep Hst;
    match goal with Ht : takes _ _ _ |- _ => destruct (held_takes _ _ _ Hs Ht) as [Hi Hrest] end;
    match goal with Hp : _ ≡ₚ _ |- _ => rewrite Hp end; ev_simpl;
    rewrite ?Forall_app, ?Forall_cons; repeat split;
    auto using upto_start_if_idle, upto_start_next.
  - case_decide; [rewrite Forall_singleton; ev_simpl; lia|done].
  - ev_simpl. destruct (decide (i = j)) as [->|]; [specialize (Hl eq_refl)|]; lia.
Qed.

Lemma joined_not_idle s i queue_i c pend t n_a n_d q a d :
  m_queue s !! i = Some queue_i →
  ¬ stations_ok (MState t pend n_a n_d q a d (<[i := queue_i ++ [c]]> (m_queue s))) ∨ pend ≠ [].
Proof.
  intros Hq. destruct pend; [left|by right]. intros Hok.
  apply (stations_ok_nil _ i (queue_i ++ [c])) in Hok; [by destruct queue_i|done|].
  simpl. apply list_lookup_insert_eq. by eapply lookup_lt_Some.
Qed.

(** A step that serves nobody at the last station leaves an event
    pending. *)
Lemma mstep_pending l s s' :
  stations_ok s' → held j s → mstep n horizon l s s' → m_pending s' ≠ [].
Proof.
  intros Hok Hs Hst.
  inv_mstep Hst;
    match goal with Ht : takes _ _ _ |- _ => destruct (held_takes _ _ _ Hs Ht) as [Hi _] end;
    ev_simpl; try lia;
    try (by edestruct joined_not_idle as [Hno|Hp]; [..|exact Hp]);
    intros ->; match goal with Hp : [] ≡ₚ _ |- _ => apply Permutation_nil in Hp end.
  - done.
  - by destruct (start_next t i (tail queue_i)).
Qed.
End machine.

Section engine.
Context {R : RandomSource} `{!RandomSourceLaws R}.
Context {PQ : PriorityQueue event} `{!PriorityQueueLaws event_lt PQ}.
Context (cfg : config) (Hcfg : valid_config cfg).
Context (j : nat) (Hback : sends_back cfg j).

(** At station [j] the draw is never above the probability. *)
Lemma next_server_held k next k' : next_server cfg k j = Ok (next, k') → next < j.
Proof.
  destruct Hback as (Hj & _ & p_j & Hp & Hone).
  unfold next_server. rewrite bool_decide_false by lia. simpl.
  intros (p & Hp'%py_index_Ok & Hn)%bind_Ok. simplify_eq.
  rewrite (proj2 (Qltb_ge _ _)) in Hn
    by (eapply Qle_trans; [by apply rnd_uniform_range|done]).
  unfold random_choice in Hn. destruct (seq 0 j) eqn:Hs; [done|]. rewrite <- Hs in Hn.
  apply bind_Ok in Hn as (x & Hx%py_index_Ok & [= <- _]). apply lookup_seq in Hx. lia.
Qed.

Lemma event_label_held st x l : event_label cfg st x = Ok l → held_label j l.
Proof.
  destruct x as [t [[[] c] i]]; simpl.
  - case_bool_decide; [|by intros [= <-]]. by intros ([gap k'] & _ & [= <-])%bind_Ok.
  - by intros [= <-].
  - case_bool_decide; [by intros [= <-]|].
    intros ([next k'] & Hn & [= <-])%bind_Ok. simpl. intros ->. by eapply next_server_held.
Qed.

Context (Hfinish : arg_finish cfg = true).

(** With [finish] set the loop goes on while an event is pending. *)
Lemma pending_loop_cond st :
  pq_wf (st_events st) → m_pending (abs st) ≠ [] → loop_cond cfg st = true.
Proof.
  intros Hwf Hpend. unfold loop_cond. rewrite Hfinish. simpl.
  apply negb_true_iff, not_true_is_false. intros He. apply Hpend.
  by apply (pq_empty_items (ltb:=event_lt)).
Qed.

(** An iteration from a state with a pending event and nothing past
    station [j] ends in such a state. *)
Lemma loop_body_held st st' :
  loop_inv cfg st → held j (abs st) → loop_body cfg st = Ok st' →
  loop_inv cfg st' ∧ held j (abs st') ∧ m_pending (abs st') ≠ [].
Proof.
  intros [Hwf [ls Hrun]] Hheld Hb. destruct Hback as (_ & Hj & _).
  destruct (loop_body_refines cfg Hcfg st st' Hwf Hb) as (l & Hl & Hst & Hwf').
  pose proof (mrun_snoc _ _ _ _ _ _ Hrun Hst) as Hrun'.
  split; [split; [done|by exists (ls ++ [l])]|]. split.
  - apply (mstep_held (stations cfg) (arg_time cfg) j Hj l (abs st)); [|done..].
    apply bind_Ok in Hl as ([x ev] & _ & Hl). by eapply event_label_held.
  - apply (mstep_pending (stations cfg) (arg_time cfg) j Hj l (abs st)); [|done..].
    by destruct (mrun_minv _ _ (stations_pos cfg Hcfg) _ _ Hrun').
Qed.

Lemma run_never_ends fuel st :
  loop_inv cfg st → held j (abs st) → m_pending (abs st) ≠ [] → run cfg fuel st = OutOfFuel.
Proof.
  revert st. unfold run.
  induction fuel as [|fuel IH]; intros st Hinv Hheld Hpend; simpl;
    rewrite pending_loop_cond by (done || apply Hinv); [done|].
  destruct (loop_inv_safe cfg Hcfg st Hinv) as [st1 Hb]; [apply pending_loop_cond; [apply Hinv|done]|].
  rewrite Hb. by apply IH; apply (loop_body_held st st1).
Qed.

(** The call does not return. *)
Lemma servers_simulation_diverges k fuel : servers_simulation cfg k fuel = OutOfFuel.
Proof.
  unfold servers_simulation. destruct (init_state cfg k) as [st0|e] eqn:Hi.
  - simpl. destruct (init_state_refines cfg Hcfg k st0 Hi) as (gap & _ & Habs & _).
    rewrite run_never_ends; [done|by eapply init_state_inv|rewrite Habs..].
    + apply minit_held, Hback.
    + done.
  - unfold init_state in Hi. rewrite random_expovariate_pos in Hi by apply Hcfg. done.
Qed.

(** Nor does [run_simulation], whose first run it is. *)
Lemma run_simulation_diverges sim_fuel fuel k :
  run_simulation cfg sim_fuel fuel k = OutOfFuel.
Proof.
  unfold run_simulation, run_simulation_with, run_loop. destruct fuel as [|fuel]; [done|].
  simpl. unfold iteration, metrics_by_simulation. by rewrite servers_simulation_diverges.
Qed.

(** C4: with [finish] set, a feedback probability of 1 at a station
    that is neither the first nor the last keeps [servers_simulation]
    from returning: every client is sent back from that station, none
    leaves the network, and the loop finds a pending event at every
    iteration, for every sequence of draws.  The call neither returns nor
    raises, whatever the number of iterations it is allowed, and
    [run_simulation] does not get past its first run. *)
Theorem servers_simulation_never_drains k fuel fuel' :
  servers_simulation cfg k fuel = OutOfFuel ∧
  run_simulation cfg fuel fuel' k = OutOfFuel.
Proof. split; [apply servers_simulation_diverges|apply run_simulation_diverges]. Qed.
End engine.

Lemma closed_loop_valid : valid_config closed_loop.
Proof. repeat split; simpl; try done; repeat constructor; done. Qed.

Lemma closed_loop_sends_back : sends_back closed_loop 1.
Proof. repeat split; simpl; try lia. by exists 1%Q. Qed.

Lemma servers_simulation_never_drains_witness :
  servers_simulation (R:=mean_source) (PQ:=list_pq event_lt) closed_loop 0 1000 = OutOfFuel ∧
  run_simulation (R:=mean_source) (PQ:=list_pq event_lt) closed_loop 1000 5000 0 = OutOfFuel.
Proof.
  apply (servers_simulation_never_drains (R:=mean_source) (PQ:=list_pq event_lt)
           closed_loop closed_loop_valid 1 closed_loop_sends_back eq_refl).
Defined.
