(* ===== verification/Replications.v ===== *)
(** * Replications: what [run_simulation] accumulates

    [run_simulation] repeats [metrics_by_simulation] and appends the
    means of each run to three lists.  The generator is never seeded
    again: a run starts with the generator as the run before left it.

    [replications] is the chain of the runs of a call, each with the
    cursor it starts with, its measurements and the cursor it leaves;
    [accumulate] is what the three lists hold after them.  The loop of
    [run_simulation] returns the accumulation of such a chain
    ([run_loop_replications]).  A run makes at least one draw, so the
    runs of a chain use blocks of draws that follow one another without
    overlap ([replications_lookup], [replications_apart]): no draw enters
    two replications.

    With [Samples] the entries accumulated are, for a drained run without
    feedback, means of draws of the block of the run
    ([replication_service_draws]). *)

From Stdlib Require Import ZArith QArith Lia.
From stdpp Require Import gmap list.
From S2P Require Import Prelude Rng PriorityQueue Events Machine Engine Experiments.
From S2P Require Import Correctness Termination Feedback Numpy Metrics Means Samples Controller.

(** One replication: the cursor of the generator it starts with, its
    measurements, the cursor it leaves. *)
Record replication : Type := Replication {
  rep_start : nat;
  rep_metrics : Metrics;
  rep_end : nat;
}.

(** What a replication appends to [system_time], [wait_time] and
    [use_time]. *)
Definition rep_system (r : replication) : npfloat :=
  meanQ (inject_Z <$> metrics_system_time (rep_metrics r)).

Definition rep_wait (r : replication) : npfloat := np_mean (metrics_wait_time (rep_metrics r)).

Definition rep_use (r : replication) : npfloat := np_mean (metrics_use_time (rep_metrics r)).

(** The local variables of [run_simulation] after the replications [rs]
    of a call that starts with the cursor [k]. *)
Definition accumulate (k : nat) (rs : list replication) : run_state :=
  {| iterations := length rs;
     run_system_time := rep_system <$> rs;
     run_wait_time := rep_wait <$> rs;
     run_use_time := rep_use <$> rs;
     run_rng := default k (rep_end <$> last rs) |}.

Section replications.
Context {R : RandomSource} {PQ : PriorityQueue event}.
Context (cfg : config) (sim_fuel : nat).

(** The runs of a call from the cursor [k] to the cursor [k']: each run
    starts with the cursor the run before it leaves. *)
Inductive replications : nat → list replication → nat → Prop :=
  | replications_nil k : replications k [] k
  | replications_snoc k rs lo m hi :
      replications k rs lo →
      metrics_by_simulation cfg lo sim_fuel = Finished (m, hi) →
      replications k (rs ++ [Replication lo m hi]) hi.
End replications.

(** * Lemmas *)

Lemma accumulate_snoc k rs r :
  accumulate k (rs ++ [r]) =
  {| iterations := iterations (accumulate k rs) + 1;
     run_system_time := run_system_time (accumulate k rs) ++ [rep_system r];
     run_wait_time := run_wait_time (accumulate k rs) ++ [rep_wait r];
     run_use_time := run_use_time (accumulate k rs) ++ [rep_use r];
     run_rng := rep_end r |}.
Proof. unfold accumulate. simpl. by rewrite !fmap_app, length_app, last_snoc. Qed.

Section cursor.
Context {R : RandomSource} {PQ : PriorityQueue event} (cfg : config).

(** The loop of a run does not move the cursor back. *)
Lemma run_cursor fuel st st' : run cfg fuel st = Finished st' → st_rng st ≤ st_rng st'.
Proof.
  intros Hrun.
  apply (while_loop_inv (loop_cond cfg) (loop_body cfg) (λ s, st_rng st ≤ st_rng s) fuel st st');
    [|done..].
  intros s1 s2 Hs _ Hb%loop_body_cursor_mono. lia.
Qed.

(** A run makes at least one draw: the first arrival. *)
Lemma servers_simulation_cursor k fuel out k' :
  servers_simulation cfg k fuel = Finished (out, k') → k < k'.
Proof.
  unfold servers_simulation.
  intros (st0 & Hi%lift_result_Finished &
          (st & Hrun%run_cursor & [= _ <-])%loop_bind_Finished)%loop_bind_Finished.
  apply bind_Ok in Hi as ([gap k1] & (_ & _ & ->)%random_expovariate_Ok & [= <-]).
  simpl in Hrun. lia.
Qed.

Lemma metrics_by_simulation_cursor k fuel m k' :
  metrics_by_simulation cfg k fuel = Finished (m, k') → k < k'.
Proof.
  unfold metrics_by_simulation.
  intros ([out k1] & Hs%servers_simulation_cursor &
          (m' & _ & [= _ <-])%loop_bind_Finished)%loop_bind_Finished.
  done.
Qed.
End cursor.

Section chain.
Context {R : RandomSource} {PQ : PriorityQueue event}.
Context (ctl : control) (cfg : config) (sim_fuel : nat).

Lemma replications_cursor k rs k' : replications cfg sim_fuel k rs k' → k ≤ k'.
Proof. induction 1 as [|k rs lo m hi _ IH Hm%metrics_by_simulation_cursor]; lia. Qed.

Lemma replications_last k rs k' :
  replications cfg sim_fuel k rs k' → run_rng (accumulate k rs) = k'.
Proof. destruct 1; simpl; [done|]. by rewrite last_snoc. Qed.

(** A replication of the chain is a run of [metrics_by_simulation] on a
    block of draws of the call. *)
Lemma replications_lookup k rs k' j r :
  replications cfg sim_fuel k rs k' → rs !! j = Some r →
  metrics_by_simulation cfg (rep_start r) sim_fuel = Finished (rep_metrics r, rep_end r) ∧
  k ≤ rep_start r ∧ rep_start r < rep_end r ∧ rep_end r ≤ k'.
Proof.
  induction 1 as [|k rs lo m hi Hrs IH Hm]; [done|].
  pose proof (replications_cursor _ _ _ Hrs). pose proof (metrics_by_simulation_cursor _ _ _ _ _ Hm).
  intros [Hj|[_ [_ <-]%list_lookup_singleton_Some]]%lookup_app_Some.
  - destruct (IH Hj) as [? ?]. split; [done|lia].
  - simpl. split; [done|lia].
Qed.

(** The blocks of two replications are apart: the earlier ends before the
    later starts. *)
Lemma replications_apart k rs k' j j' r r' :
  replications cfg sim_fuel k rs k' → j < j' → rs !! j = Some r → rs !! j' = Some r' →
  rep_end r ≤ rep_start r'.
Proof.
  induction 1 as [|k rs lo m hi Hrs IH Hm]; [done|]. intros Hlt Hj Hj'.
  apply lookup_app_Some in Hj' as [Hj'|[Hlen Hj']].
  - apply IH; [done| |done]. apply lookup_lt_Some in Hj'. by rewrite lookup_app_l in Hj by lia.
  - apply list_lookup_singleton_Some in Hj' as [Hz <-]. simpl.
    rewrite lookup_app_l in Hj by lia. destruct (replications_lookup _ _ _ _ _ Hrs Hj) as [_ ?]. lia.
Qed.

(** The state after [j] runs is the accumulation of a chain of [j]
    replications. *)
Lemma runs_after_replications j k st :
  runs_after ctl cfg sim_fuel j k = Finished st →
  ∃ rs, replications cfg sim_fuel k rs (run_rng st) ∧ length rs = j ∧ st = accumulate k rs.
Proof.
  unfold runs_after. revert st. induction j as [|j IH]; intros st.
  - intros [= <-]. exists []. split_and!; [constructor|done..].
  - intros (s1 & stop & (rs & Hrs & Hlen & ->)%IH &
            (m & k' & Hm & Hr)%iteration_Finished)%iterate_body_S.
    pose proof (record_metrics_fst ctl (accumulate k rs) m k') as Hfst. rewrite Hr in Hfst.
    simpl in Hfst. exists (rs ++ [Replication (run_rng (accumulate k rs)) m k']).
    rewrite Hfst, accumulate_snoc. simpl. split_and!; [|rewrite length_app; simpl; lia|done].
    by constructor.
Qed.

(** The loop of [run_simulation] returns the accumulation of a chain of
    replications. *)
Lemma run_loop_replications fuel k st :
  run_loop ctl cfg sim_fuel fuel k = Finished st →
  ∃ rs, replications cfg sim_fuel k rs (run_rng st) ∧ 1 ≤ length rs ∧ st = accumulate k rs.
Proof.
  intros (j & s1 & _ & Hit & Hlast & _)%do_loop_first.
  destruct (runs_after_replications (S j) k st) as (rs & Hrs & Hlen & Hst).
  { apply iterate_body_S. eauto. }
  exists rs. split_and!; [done|lia|done].
Qed.
End chain.

Section results.
Context {R : RandomSource} `{!RandomSourceLaws R}.
Context {PQ : PriorityQueue event} `{!PriorityQueueLaws event_lt PQ}.
Context (ctl : control) (cfg : config) (sim_fuel : nat).

(** The dictionary returned is that of a chain of replications. *)
Lemma run_simulation_chain fuel k res k' :
  run_simulation_with ctl cfg sim_fuel fuel k = Finished (res, k') →
  ∃ rs, replications cfg sim_fuel k rs k' ∧ 1 ≤ length rs ∧ res = run_results (accumulate k rs).
Proof.
  intros (st & (rs & Hrs & Hlen & ->)%run_loop_replications & [= <- <-])%loop_bind_Finished.
  by exists rs.
Qed.

(** The mean service time a replication measures at a station is the
    mean of draws of its block. *)
Lemma replication_draws k rs k' j r s mu :
  valid_config cfg → forward_only cfg → arg_finish cfg = true →
  replications cfg sim_fuel k rs k' → rs !! j = Some r →
  arg_mu_wait_time cfg !! s = Some mu →
  ∃ ks, NoDup ks ∧ Forall (λ i, rep_start r ≤ i < rep_end r) ks ∧
        metrics_use_time (rep_metrics r) !! s = Some (meanQ (draw_time mu <$> ks)).
Proof.
  intros Hcfg Hfwd Hf Hrs Hj Hmu. destruct (replications_lookup _ _ _ _ _ _ _ Hrs Hj) as [Hm _].
  pose proof Hm as ([[[[[[[t n'] n_a] n_d] q] a] d] k1] & Hs &
                    (m' & _ & [= _ <-])%loop_bind_Finished)%loop_bind_Finished.
  destruct (metrics_by_simulation_samples_of cfg Hcfg Hfwd Hf _ _ _ _ _ _ _ _ _ _ Hs _ _ s mu Hm Hmu)
    as [(ks & _ & Hnd & Hin & Huse) _].
  by exists ks.
Qed.

(** C13: the dictionary [run_simulation] returns is computed from a chain
    of at least one replication: the lists it reduces hold, per
    replication, the means of the measurements of a run of
    [metrics_by_simulation].  The first run starts with the generator as
    the call finds it and every other run as the run before it left it;
    every run makes a draw, so the draws of two replications are apart
    and no draw enters two of them. *)
Theorem run_simulation_replications fuel k res k' :
  run_simulation_with ctl cfg sim_fuel fuel k = Finished (res, k') →
  ∃ rs, replications cfg sim_fuel k rs k' ∧ 1 ≤ length rs ∧
    Wait_Time res = (np_var (rep_wait <$> rs), np_mean (rep_wait <$> rs)) ∧
    Use_Time res = (np_var (rep_use <$> rs), np_mean (rep_use <$> rs)) ∧
    System_Time res = (np_var (rep_system <$> rs), np_mean (rep_system <$> rs)) ∧
    (∀ j r, rs !! j = Some r →
       metrics_by_simulation cfg (rep_start r) sim_fuel = Finished (rep_metrics r, rep_end r) ∧
       k ≤ rep_start r ∧ rep_start r < rep_end r ∧ rep_end r ≤ k') ∧
    (∀ j j' r r', j < j' → rs !! j = Some r → rs !! j' = Some r' → rep_end r ≤ rep_start r').
Proof.
  intros (rs & Hrs & Hlen & ->)%run_simulation_chain. exists rs. split_and!; [done..| |].
  - intros j r. by apply (replications_lookup cfg sim_fuel k rs k').
  - intros j j' r r'. by apply (replications_apart cfg sim_fuel k rs k').
Qed.

(** C14: when no draw sends a client back and [finish] is set, the mean
    service time a replication of [run_simulation] measures at a station
    is the sample mean of pairwise distinct draws of
    [random.expovariate(mu_wait_time[s])] of its own block of draws:
    the entries [run_simulation] averages are computed from draws that
    no other replication uses. *)
Theorem replication_service_draws fuel k res k' s mu :
  valid_config cfg → forward_only cfg → arg_finish cfg = true →
  run_simulation_with ctl cfg sim_fuel fuel k = Finished (res, k') →
  arg_mu_wait_time cfg !! s = Some mu →
  ∃ rs, replications cfg sim_fuel k rs k' ∧
    Use_Time res = (np_var (rep_use <$> rs), np_mean (rep_use <$> rs)) ∧
    ∀ j r, rs !! j = Some r →
      ∃ ks, NoDup ks ∧ Forall (λ i, rep_start r ≤ i < rep_end r) ks ∧
            metrics_use_time (rep_metrics r) !! s = Some (meanQ (draw_time mu <$> ks)).
Proof.
  intros Hcfg Hfwd Hf (rs & Hrs & Hlen & ->)%run_simulation_chain Hmu.
  exists rs. split_and!; [done..|]. intros j r Hj. by eapply replication_draws.
Qed.
End results.

(** * Concrete runs *)

Lemma run_simulation_replications_witness :
  ∃ res k',
    run_simulation_with (R:=mean_source) (PQ:=list_pq event_lt) short_control
      (at_horizon 60 experiment_6) 200 10 0 = Finished (res, k') ∧
    ∃ rs, replications (R:=mean_source) (PQ:=list_pq event_lt)
            (at_horizon 60 experiment_6) 200 0 rs k' ∧
          1 ≤ length rs ∧ Use_Time res = (np_var (rep_use <$> rs), np_mean (rep_use <$> rs)).
Proof.
  do 2 eexists. split; [vm_compute; reflexivity|].
  edestruct (run_simulation_replications (R:=mean_source) (PQ:=list_pq event_lt) short_control
               (at_horizon 60 experiment_6) 200 10 0) as (rs & ? & ? & _ & ? & _);
    [vm_compute; reflexivity|].
  by exists rs.
Defined.

Lemma replication_service_draws_witness :
  ∃ res k' mu,
    run_simulation_with (R:=mean_source) (PQ:=list_pq event_lt) short_control
      (at_horizon 60 experiment_6) 200 10 0 = Finished (res, k') ∧
    arg_mu_wait_time (at_horizon 60 experiment_6) !! 1 = Some mu ∧
    ∃ rs, replications (R:=mean_source) (PQ:=list_pq event_lt)
            (at_horizon 60 experiment_6) 200 0 rs k' ∧
      Use_Time res = (np_var (rep_use <$> rs), np_mean (rep_use <$> rs)) ∧
      ∀ j r, rs !! j = Some r →
        ∃ ks, NoDup ks ∧ Forall (λ i, rep_start r ≤ i < rep_end r) ks ∧
              metrics_use_time (rep_metrics r) !! 1 =
                Some (meanQ (draw_time (R:=mean_source) mu <$> ks)).
Proof.
  do 3 eexists. do 2 (split; [vm_compute; reflexivity|]).
  eapply (replication_service_draws (R:=mean_source) (PQ:=list_pq event_lt) short_control
            (at_horizon 60 experiment_6) 200 10 0);
    [apply (experiment_6_valid 60)|apply (mean_source_forward 60)|done|
     vm_compute; reflexivity..].
Defined.
