(* ===== verification/Estimates.v ===== *)
(** * Estimates: what [run_simulation] reports

    [run_simulation] returns, for the waiting time, the service time and
    the time in the system, the variance and the mean of the means of its
    runs.  This file follows the three lists through the loop
    ([estimates_ok], [system_ok]) and shows that the numbers reported are
    [nan] or not negative: the variances always, the mean waiting and
    service times for every valid configuration, the mean time in the
    system when no client is sent back. *)

From Stdlib Require Import ZArith QArith Lia.
From stdpp Require Import gmap list.
From S2P Require Import Prelude Rng PriorityQueue Events Machine Engine Experiments.
From S2P Require Import Correctness Termination Numpy Metrics SystemTime Controller.

(** The means of the runs so far are not negative. *)
Record estimates_ok (st : run_state) : Prop := {
  estimates_wait : Forall np_nonneg (run_wait_time st);
  estimates_use : Forall np_nonneg (run_use_time st);
}.

Definition system_ok (st : run_state) : Prop := Forall np_nonneg (run_system_time st).

(** * Lemmas *)

Lemma snoc_np_nonneg l x : Forall np_nonneg l → np_nonneg x → Forall np_nonneg (l ++ [x]).
Proof. intros Hl Hx. apply Forall_app. by split; [|apply Forall_singleton]. Qed.

Lemma mean_inject_Z_nonneg l :
  Forall (λ x, (0 ≤ x)%Z) l → np_nonneg (meanQ (inject_Z <$> l)).
Proof.
  intros Hl. apply meanQ_np_nonneg, Forall_fmap. eapply Forall_impl; [done|].
  intros x Hx. by apply inject_Z_nonneg.
Qed.

Section estimates.
Context {R : RandomSource} `{!RandomSourceLaws R}.
Context {PQ : PriorityQueue event} `{!PriorityQueueLaws event_lt PQ}.
Context (ctl : control) (cfg : config) (Hcfg : valid_config cfg) (sim_fuel : nat).

(** The state and the measurements of an iteration that returns. *)
Lemma iteration_inv st st' stop :
  iteration ctl cfg sim_fuel st = Finished (st', stop) →
  ∃ metrics k', metrics_by_simulation cfg (run_rng st) sim_fuel = Finished (metrics, k') ∧
                st' = (record_metrics ctl st metrics k').1.
Proof. intros (metrics & k' & Hm & Hr)%iteration_Finished. exists metrics, k'. by rewrite Hr. Qed.

Lemma iteration_estimates st st' stop :
  estimates_ok st → iteration ctl cfg sim_fuel st = Finished (st', stop) → estimates_ok st'.
Proof.
  intros [Hw Hu] (metrics & k' & Hm & ->)%iteration_inv. rewrite record_metrics_fst.
  destruct (metrics_by_simulation_means cfg Hcfg _ _ _ _ Hm).
  split; simpl; by apply snoc_np_nonneg, np_mean_nonneg.
Qed.

Lemma run_loop_estimates fuel k st :
  run_loop ctl cfg sim_fuel fuel k = Finished st → estimates_ok st.
Proof.
  apply (do_loop_inv _ estimates_ok estimates_ok); [|by split].
  intros s1 s2 stop Hs1 Hit. destruct stop; by eapply iteration_estimates.
Qed.

(** C37: for a valid configuration, with or without feedback, the
    variances [run_simulation] reports and the means it reports for the waiting time and the service time
    are [nan] or not negative, whatever its constants. *)
Theorem run_simulation_nonneg fuel k r k' :
  run_simulation_with ctl cfg sim_fuel fuel k = Finished (r, k') →
  np_nonneg (Wait_Time r).1 ∧ np_nonneg (Wait_Time r).2 ∧
  np_nonneg (Use_Time r).1 ∧ np_nonneg (Use_Time r).2 ∧ np_nonneg (System_Time r).1.
Proof.
  intros (st & [Hw Hu]%run_loop_estimates & [= <- _])%loop_bind_Finished. simpl.
  split_and!; auto using np_var_nonneg, np_mean_nonneg.
Qed.

Section forward.
Context (Hfwd : forward_only cfg).

Lemma iteration_system st st' stop :
  system_ok st → iteration ctl cfg sim_fuel st = Finished (st', stop) → system_ok st'.
Proof.
  intros Hs (metrics & k' & Hm & ->)%iteration_inv. rewrite record_metrics_fst.
  apply snoc_np_nonneg; [done|]. by eapply mean_inject_Z_nonneg, metrics_system_time_nonneg.
Qed.

Lemma run_loop_system fuel k st :
  run_loop ctl cfg sim_fuel fuel k = Finished st → system_ok st.
Proof.
  apply (do_loop_inv _ system_ok system_ok); [|by constructor].
  intros s1 s2 stop Hs1 Hit. destruct stop; by eapply iteration_system.
Qed.

(** C38: when no draw sends a client back, the mean time in the system
    [run_simulation] reports is [nan] or not negative, for runs that are
    drained and for runs that are cut at the horizon. *)
Theorem run_simulation_system_nonneg fuel k r k' :
  run_simulation_with ctl cfg sim_fuel fuel k = Finished (r, k') →
  np_nonneg (System_Time r).2.
Proof.
  intros (st & Hs%run_loop_system & [= <- _])%loop_bind_Finished. simpl.
  by apply np_mean_nonneg.
Qed.
End forward.
End estimates.

Lemma run_simulation_nonneg_witness :
  ∃ r k',
    run_simulation_with (R:=mean_source) (PQ:=list_pq event_lt) short_control
      (at_horizon 60 experiment_6) 200 10 0 = Finished (r, k') ∧
    np_nonneg (Wait_Time r).1 ∧ np_nonneg (Wait_Time r).2 ∧
    np_nonneg (Use_Time r).1 ∧ np_nonneg (Use_Time r).2 ∧ np_nonneg (System_Time r).1.
Proof.
  do 2 eexists. split; [vm_compute; reflexivity|].
  eapply (run_simulation_nonneg (R:=mean_source) (PQ:=list_pq event_lt) short_control
            (at_horizon 60 experiment_6) (experiment_6_valid 60) 200 10 0).
  vm_compute; reflexivity.
Defined.

Lemma run_simulation_system_nonneg_witness :
  ∃ r k',
    run_simulation_with (R:=mean_source) (PQ:=list_pq event_lt) short_control
      (at_horizon 60 experiment_6) 200 10 0 = Finished (r, k') ∧
    np_nonneg (System_Time r).2.
Proof.
  do 2 eexists. split; [vm_compute; reflexivity|].
  eapply (run_simulation_system_nonneg (R:=mean_source) (PQ:=list_pq event_lt) short_control
            (at_horizon 60 experiment_6) (experiment_6_valid 60) 200
            (mean_source_forward 60) 10 0).
  vm_compute; reflexivity.
Defined.
