(* ===== verification/Regression.v ===== *)
(** * Regression: the second notebook

    The model of [src/servers_regression.ipynb]: three generators of
    random variates written with [random.uniform] and the [math] module, an
    enum of event kinds with integer values, and [simulation], a tandem of
    [n] stations without feedback whose events are the tuples
    [(t, e, c, i)] with the kind as an integer.

    The [math] module is a parameter ([MathLib]).  Times are rationals.
    [generate_exponential] and [generate_bernoulli] call [random.uniform]
    without arguments, which the library rejects: both raise [TypeError],
    and so does [simulation], whose loop starts with a call of
    [generate_exponential].  The theorems state this, and what the
    generator that is called correctly, [generate_poisson], computes:
    the number of draws before their product falls to [exp(-lambd)]
    ([generate_poisson_spec]), when there is such a draw within the
    fuel. *)

From Stdlib Require Import ZArith QArith Lia.
From stdpp Require Import gmap list.
From S2P Require Import Prelude Rng PriorityQueue.

(** The functions of [math] the notebook calls. *)
Class MathLib : Type := {
  (** [math.log(x, base)]: [ValueError] outside the domain *)
  math_log : Q → Q → result Q;
  (** [math.exp(x)] *)
  math_exp : Q → Q;
  (** [math.e] *)
  math_e : Q;
}.

(** [class EventType(Enum)] of the second notebook: the values are written
    out, and the simulation uses the integers. *)
Inductive IntEventType : Set :=
  | ASIGNED
  | ARRIVAL
  | FINISH.

Definition IntEventType_value (e : IntEventType) : Z :=
  match e with
  | ASIGNED => 1
  | ARRIVAL => 2
  | FINISH => 3
  end.

(** A stand-in for [math] with two values of [exp]: 1 for an argument that
    is not negative, 1/2 below. *)
Definition coarse_math : MathLib :=
  {| math_log _ _ := Raise ValueError;
     math_exp x := (if Qle_bool 0 x then 1 else 1 # 2)%Q;
     math_e := 3 |}.

(** An event [(t, e, c, i)]. *)
Abbreviation event4 := (Q * Z * nat * nat)%type.

(** Python's [<] on the tuples [(t, e, c, i)]. *)
Definition event4_lt (x y : event4) : bool :=
  let '(t1, e1, c1, i1) := x in
  let '(t2, e2, c2, i2) := y in
  if negb (Qeq_bool t1 t2) then Qltb t1 t2
  else if bool_decide (e1 ≠ e2) then (e1 <? e2)%Z
  else if bool_decide (c1 ≠ c2) then c1 <? c2
  else i1 <? i2.

(** [x / y] on floats. *)
Definition py_div (x y : Q) : result Q :=
  if Qeq_bool y 0 then Raise ZeroDivisionError else Ok (x / y)%Q.

Section generators.
Context {R : RandomSource} {M : MathLib}.

(** [math.log(1 - random.uniform(), math.e) / -lambd] *)
Definition generate_exponential (k : nat) (lambd : Q) : result (Q * nat) :=
  '(u, k') ← random_uniform k [];
  l ← math_log (1 - u) math_e;
  x ← py_div l (- lambd);
  Ok (x, k').

(** [1 if random.uniform() < p else 0] *)
Definition generate_bernoulli (k : nat) (p : Q) : result (nat * nat) :=
  '(u, k') ← random_uniform k [];
  Ok (if Qltb u p then 1 else 0, k').

(** The local variables of [generate_poisson], and the cursor of the
    generator. *)
Record poisson_state : Type := PoissonState {
  poisson_k : nat;
  poisson_p : Q;
  poisson_rng : nat;
}.

(** [k += 1; p *= random.uniform(0, 1); if p <= L: return] *)
Definition poisson_body (L : Q) (st : poisson_state) : loop_result (poisson_state * bool) :=
  '(u, k') ← lift_result (random_uniform (poisson_rng st) [0; 1]%Q);
  let k := poisson_k st + 1 in
  let p := (poisson_p st * u)%Q in
  mret ({| poisson_k := k; poisson_p := p; poisson_rng := k' |}, Qle_bool p L).

(** [generate_poisson(lambd)]: the number of draws before the product of
    the draws falls to [exp(-lambd)]. *)
Definition generate_poisson (k : nat) (lambd : Q) (fuel : nat) : loop_result (nat * nat) :=
  let L := math_exp (- lambd) in
  st ← do_loop (poisson_body L) fuel {| poisson_k := 0; poisson_p := 1; poisson_rng := k |};
  mret (poisson_k st - 1, poisson_rng st).

(** The product of the [j] draws from the cursor [k] on, as the loop
    multiplies them. *)
Fixpoint draws_product (k j : nat) : Q :=
  match j with
  | 0 => 1
  | S j' => draws_product k j' * rnd_uniform (k + j') 0 1
  end.

(** The local variables of [generate_poisson] after [j] iterations. *)
Definition poisson_after (k j : nat) : poisson_state :=
  {| poisson_k := j; poisson_p := draws_product k j; poisson_rng := k + j |}.
End generators.

Section simulation.
Context {R : RandomSource} {M : MathLib} {PQ : PriorityQueue event4}.

(** The local variables of [simulation]. *)
Record sim_state : Type := SimState {
  sim_t : Q;
  sim_events : pq PQ;
  sim_n_a : nat;
  sim_n_d : nat;
  sim_a : list (gmap nat Q);
  sim_d : list (gmap nat Q);
  sim_queue : list (list nat);
  sim_rng : nat;
}.

Definition sim_init (n : Z) (k : nat) : sim_state :=
  {| sim_t := 0; sim_events := pq_new; sim_n_a := 0; sim_n_d := 0;
     sim_a := replicate (Z.to_nat n) ∅; sim_d := replicate (Z.to_nat n) ∅;
     sim_queue := replicate (Z.to_nat n) []; sim_rng := k |}.

(** [e == 1]: the client joins the queue of station [i]. *)
Definition sim_on_asigned (st : sim_state) (events : pq PQ) (t : Q) (c i : nat) :
    result sim_state :=
  queue_i ← py_index (sim_queue st) i;
  let index := if bool_decide (i ≠ 0) then c else sim_n_a st in
  let events1 :=
    if bool_decide (length queue_i = 0) then pq_put (t, 2%Z, index, i) events else events in
  Ok {| sim_t := t; sim_events := events1;
        sim_n_a := if bool_decide (i = 0) then sim_n_a st + 1 else sim_n_a st;
        sim_n_d := sim_n_d st; sim_a := sim_a st; sim_d := sim_d st;
        sim_queue := <[i := queue_i ++ [index]]> (sim_queue st);
        sim_rng := sim_rng st |}.

(** [e == 2]: the service starts; its end is scheduled. *)
Definition sim_on_arrival (lambda_wait_time : Q) (st : sim_state) (events : pq PQ)
    (t : Q) (c i : nat) : result sim_state :=
  a_i ← py_index (sim_a st) i;
  '(duration, k') ← generate_exponential (sim_rng st) lambda_wait_time;
  Ok {| sim_t := t; sim_events := pq_put ((t + duration)%Q, 3%Z, c, i) events;
        sim_n_a := sim_n_a st; sim_n_d := sim_n_d st;
        sim_a := <[i := <[c := t]> a_i]> (sim_a st); sim_d := sim_d st;
        sim_queue := sim_queue st; sim_rng := k' |}.

(** [e == 3]: the service ends; the client leaves or moves to the next
    station. *)
Definition sim_on_finish (n : Z) (st : sim_state) (events : pq PQ)
    (t : Q) (c i : nat) : result sim_state :=
  queue_i ← py_index (sim_queue st) i;
  let queue_i1 := if bool_decide (0 < length queue_i) then tail queue_i else queue_i in
  let events1 :=
    match queue_i1 with
    | c' :: _ => pq_put (t, 2%Z, c', i) events
    | [] => events
    end in
  d_i ← py_index (sim_d st) i;
  let d' := <[i := <[c := t]> d_i]> (sim_d st) in
  let queue' := <[i := queue_i1]> (sim_queue st) in
  if bool_decide (Z.of_nat i = n - 1)%Z then
    Ok {| sim_t := t; sim_events := events1;
          sim_n_a := sim_n_a st; sim_n_d := sim_n_d st + 1;
          sim_a := sim_a st; sim_d := d'; sim_queue := queue'; sim_rng := sim_rng st |}
  else
    Ok {| sim_t := t; sim_events := pq_put (t, 1%Z, c, i + 1) events1;
          sim_n_a := sim_n_a st; sim_n_d := sim_n_d st;
          sim_a := sim_a st; sim_d := d'; sim_queue := queue'; sim_rng := sim_rng st |}.

(** One iteration of [while(t < 864)]. *)
Definition sim_body (n : Z) (lambda_arrival_time lambda_wait_time : Q) (st : sim_state) :
    result sim_state :=
  '(gap, k1) ← generate_exponential (sim_rng st) lambda_arrival_time;
  let events1 := pq_put ((sim_t st + gap)%Q, 1%Z, 0, 0) (sim_events st) in
  '((t, e, c, i), events2) ← pq_get events1;
  let st1 := {| sim_t := t; sim_events := events2;
                sim_n_a := sim_n_a st; sim_n_d := sim_n_d st;
                sim_a := sim_a st; sim_d := sim_d st;
                sim_queue := sim_queue st; sim_rng := k1 |} in
  if bool_decide (e = 1)%Z then sim_on_asigned st1 events2 t c i
  else if bool_decide (e = 2)%Z then sim_on_arrival lambda_wait_time st1 events2 t c i
  else if bool_decide (e = 3)%Z then sim_on_finish n st1 events2 t c i
  else Ok st1.

(** [t < 864] *)
Definition sim_cond (st : sim_state) : bool := Qltb (sim_t st) 864.

(** [simulation(n, lambda_arrival_time, lambda_wait_time)]: returns [None]. *)
Definition simulation (n : Z) (lambda_arrival_time lambda_wait_time : Q) (k fuel : nat) :
    loop_result (unit * nat) :=
  st ← while_loop sim_cond (sim_body n lambda_arrival_time lambda_wait_time) fuel (sim_init n k);
  mret (tt, sim_rng st).
End simulation.

Arguments sim_state {PQ}.

(** * Lemmas *)

Section regression_lemmas.
Context {R : RandomSource} {M : MathLib}.

(** [generate_exponential] raises [TypeError] for every argument: it
    calls [random.uniform] without the two bounds. *)
Lemma generate_exponential_TypeError k lambd :
  generate_exponential k lambd = Raise TypeError.
Proof. done. Qed.

(** [generate_bernoulli] raises [TypeError] for every argument. *)
Lemma generate_bernoulli_TypeError k p : generate_bernoulli k p = Raise TypeError.
Proof. done. Qed.

(** [simulation] raises [TypeError] in the first iteration of its loop,
    whatever its arguments: the loop is entered at time 0 and begins with
    a call of [generate_exponential]. *)
Lemma simulation_TypeError {PQ : PriorityQueue event4} n lambda_arrival_time lambda_wait_time
    k fuel :
  simulation n lambda_arrival_time lambda_wait_time k (S fuel) = Failed TypeError.
Proof. done. Qed.

Lemma poisson_body_Finished L st :
  poisson_body L st =
  Finished ({| poisson_k := poisson_k st + 1;
               poisson_p := (poisson_p st * rnd_uniform (poisson_rng st) 0 1)%Q;
               poisson_rng := S (poisson_rng st) |},
            Qle_bool (poisson_p st * rnd_uniform (poisson_rng st) 0 1) L).
Proof. done. Qed.

(** The counter of [generate_poisson] counts the draws. *)
Lemma poisson_loop_draws L fuel st st' :
  do_loop (poisson_body L) fuel st = Finished st' →
  1 ≤ poisson_k st' ∧ poisson_k st' - poisson_k st = poisson_rng st' - poisson_rng st ∧
  poisson_k st < poisson_k st' ∧ poisson_rng st < poisson_rng st'.
Proof.
  revert st. induction fuel as [|fuel IH]; intros st; simpl; [done|].
  destruct (Qle_bool _ _).
  - intros [= <-]. simpl. lia.
  - intros Hl%IH. simpl in Hl. lia.
Qed.

Lemma poisson_after_0 k :
  poisson_after k 0 = {| poisson_k := 0; poisson_p := 1; poisson_rng := k |}.
Proof. unfold poisson_after. simpl. by rewrite Nat.add_0_r. Qed.

(** One iteration from the state after [j] iterations. *)
Lemma poisson_body_after L k j :
  poisson_body L (poisson_after k j) =
  Finished (poisson_after k (S j), Qle_bool (draws_product k (S j)) L).
Proof.
  rewrite poisson_body_Finished. unfold poisson_after. simpl.
  by rewrite Nat.add_1_r, Nat.add_succ_r.
Qed.

(** The loop from the state after [i] iterations ends after the first
    iteration [x + 1] above [i] at which the product of the draws is at
    most [L], if the fuel reaches it. *)
Lemma poisson_loop_spec L k fuel i st' :
  do_loop (poisson_body L) fuel (poisson_after k i) = Finished st' ↔
  ∃ x, st' = poisson_after k (S x) ∧ i ≤ x < i + fuel ∧
       Qle_bool (draws_product k (S x)) L = true ∧
       ∀ j, i < j ≤ x → Qle_bool (draws_product k j) L = false.
Proof.
  revert i. induction fuel as [|fuel IH]; intros i.
  { split; [done|]. intros (x & _ & ? & _). lia. }
  cbn [do_loop]. rewrite poisson_body_after. destruct (Qle_bool (draws_product k (S i)) L) eqn:HL.
  - split.
    + intros [= <-]. exists i. split_and!; [done|lia..|done|]. intros j Hj. lia.
    + intros (x & -> & Hx & _ & Hfirst). destruct (decide (x = i)) as [->|Hne]; [done|].
      rewrite (Hfirst (S i)) in HL by lia. done.
  - rewrite IH. split; intros (x & -> & Hx & Hlast & Hfirst); exists x.
    + split_and!; [done|lia..|done|]. intros j Hj.
      destruct (decide (j = S i)) as [->|]; [done|]. apply Hfirst. lia.
    + assert (x ≠ i) by (intros ->; by rewrite Hlast in HL).
      split_and!; [done|lia..|done|]. intros j Hj. apply Hfirst. lia.
Qed.

(** [generate_poisson] returns the number of draws it made, less one:
    the cursor of the generator advances by the value returned plus one. *)
Lemma generate_poisson_draws k lambd fuel x k' :
  generate_poisson k lambd fuel = Finished (x, k') → k' = k + x + 1.
Proof.
  unfold generate_poisson.
  intros (st & Hl%poisson_loop_draws & [= <- <-])%loop_bind_Finished. simpl in Hl. lia.
Qed.

(** What [generate_poisson] returns, and when. *)
Lemma poisson_returns k lambd fuel x k' :
  generate_poisson k lambd fuel = Finished (x, k') ↔
  x < fuel ∧ k' = k + x + 1 ∧
  Qle_bool (draws_product k (S x)) (math_exp (- lambd)) = true ∧
  ∀ j, 1 ≤ j ≤ x → Qle_bool (draws_product k j) (math_exp (- lambd)) = false.
Proof.
  unfold generate_poisson. rewrite <- poisson_after_0. split.
  - intros (st & (x0 & -> & Hx & Hlast & Hfirst)%poisson_loop_spec & [= <- <-])%loop_bind_Finished.
    simpl. rewrite Nat.sub_0_r. split_and!; [lia..|done|]. intros j Hj. apply Hfirst. lia.
  - intros (Hx & -> & Hlast & Hfirst).
    assert (do_loop (poisson_body (math_exp (- lambd))) fuel (poisson_after k 0) =
            Finished (poisson_after k (S x))) as ->.
    { apply poisson_loop_spec. exists x. split_and!; [done|lia..|done|].
      intros j Hj. apply Hfirst. lia. }
    simpl. do 2 f_equal; lia.
Qed.

(** C40: [generate_poisson(lambd)] returns [x] exactly when the product of
    the first [x + 1] draws is at most [exp(-lambd)] and the product of
    fewer draws is not: it counts the draws before the first whose
    running product falls to [exp(-lambd)], and reads [x + 1] draws.  A
    sequence of draws whose products all stay above [exp(-lambd)] (draws
    of 1 for a positive rate) keeps the loop running. *)
Theorem generate_poisson_spec k lambd fuel x k' :
  generate_poisson k lambd fuel = Finished (x, k') ↔
  x < fuel ∧ k' = k + x + 1 ∧
  Qle_bool (draws_product k (S x)) (math_exp (- lambd)) = true ∧
  ∀ j, 1 ≤ j ≤ x → Qle_bool (draws_product k j) (math_exp (- lambd)) = false.
Proof. apply poisson_returns. Qed.

(** The loop raises nothing. *)
Lemma poisson_loop_no_exn L fuel st e : do_loop (poisson_body L) fuel st ≠ Failed e.
Proof.
  revert st. induction fuel as [|fuel IH]; intros st; simpl; [done|].
  destruct (Qle_bool _ _); [done|apply IH].
Qed.

(** Draws whose products all stay above [exp(-lambd)] keep
    [generate_poisson] running, whatever the fuel. *)
Lemma generate_poisson_runs_on k lambd fuel :
  (∀ j, 1 ≤ j → Qle_bool (draws_product k j) (math_exp (- lambd)) = false) →
  generate_poisson k lambd fuel = OutOfFuel.
Proof.
  intros Habove. destruct (generate_poisson k lambd fuel) as [[x k']|e|] eqn:Hg; [| |done].
  - pose proof (proj1 (poisson_returns k lambd fuel x k') Hg) as (_ & _ & Hlast & _).
    rewrite Habove in Hlast by lia. done.
  - unfold generate_poisson in Hg. apply loop_bind_Failed in Hg as [Hl|(st & _ & ?)]; [|done].
    by apply poisson_loop_no_exn in Hl.
Qed.

(** When [exp(-lambd)] is at least 1 (a rate that is not positive) and
    the draws are in [[0, 1]], [generate_poisson] returns 0 after one
    draw. *)
Lemma generate_poisson_zero `{!RandomSourceLaws R} k lambd fuel :
  (1 <= math_exp (- lambd))%Q →
  generate_poisson k lambd (S fuel) = Finished (0, S k).
Proof.
  intros HL. unfold generate_poisson. simpl.
  destruct (rnd_uniform_range k 0 1) as [_ Hu]; [done|].
  assert (Qle_bool (1 * rnd_uniform k 0 1) (math_exp (- lambd)) = true) as ->; [|done].
  apply Qle_bool_iff. rewrite Qmult_1_l. by apply (Qle_trans _ 1).
Qed.
End regression_lemmas.

(** * Concrete runs *)

Lemma generate_poisson_draws_witness :
  ∃ x k', generate_poisson (R:=tape_source [] [1; 1 # 2; 1 # 3]%Q []) (M:=coarse_math) 0 1 10
          = Finished (x, k') ∧ k' = 0 + x + 1.
Proof.
  do 2 eexists. split; [vm_compute; reflexivity|].
  apply (generate_poisson_draws (R:=tape_source [] [1; 1 # 2; 1 # 3]%Q []) (M:=coarse_math)
           0 1 10).
  vm_compute; reflexivity.
Defined.

Lemma generate_poisson_zero_witness :
  generate_poisson (R:=mean_source) (M:=coarse_math) 0 0 1 = Finished (0, 1).
Proof. by apply (generate_poisson_zero (R:=mean_source) (M:=coarse_math)). Defined.

(** With [exp(-1)] taken as 1/2 and the draws 1, 1/2, 1/3: the product
    falls to 1/2 with the second draw, and [generate_poisson(1)] returns
    1 after two draws. *)
Lemma generate_poisson_spec_witness :
  generate_poisson (R:=tape_source [] [1; 1 # 2; 1 # 3]%Q []) (M:=coarse_math) 0 1 10
  = Finished (1, 2).
Proof.
  apply (generate_poisson_spec (R:=tape_source [] [1; 1 # 2; 1 # 3]%Q []) (M:=coarse_math)).
  split_and!; [lia|done|done|]. intros j Hj. by replace j with 1 by lia.
Defined.
