(* ===== verification/Analysis.v ===== *)
(** * Analysis: the notebook's mathematical model and the tables it prints

    [src/sim.ipynb] ends with an analytic model of the network without
    feedback: each station is an M/M/1 queue with arrival rate [lambda] and
    service rate [mu], the mean number of clients is
    [L = rho / (1 - rho)], the mean time in the station is [W = L / lambda],
    and the time in a tandem is the sum over its stations.  The notebook
    compares these numbers with the tables its experiments print.

    This file holds the formulas ([rho], [mm1_L], [mm1_W], [tandem_W]),
    the tables as the notebook records them ([observed_1] to
    [observed_6], the values of the dictionary [run_simulation] returns),
    the rows the experiments build from a dictionary ([rows]), and the
    arithmetic of the comparison.

    But for [rows], which is a line of the code cells, the file is about
    markdown and recorded output: it is kept beside the model of the
    program, and no theorem on the program depends on it. *)

From Stdlib Require Import ZArith QArith Qabs Lia Lqa.
From stdpp Require Import list strings.
From S2P Require Import Prelude Numpy Controller.

(** [rho = lambda / mu] *)
Definition rho (lambda mu : Q) : Q := lambda / mu.

(** [L = rho / (1 - rho)] *)
Definition mm1_L (lambda mu : Q) : Q := rho lambda mu / (1 - rho lambda mu).

(** [W = L / lambda] *)
Definition mm1_W (lambda mu : Q) : Q := mm1_L lambda mu / lambda.

(** [W = sum W_i]: a tandem of stations with the rates [mus], without
    feedback. *)
Definition tandem_W (lambda : Q) (mus : list Q) : Q := sumQ (mm1_W lambda <$> mus).

(** [rows = [[key, results[key][0], results[key][1]] for key in results.keys()]] *)
Definition rows (r : results) : list (string * npfloat * npfloat) :=
  [("Wait Time", (Wait_Time r).1, (Wait_Time r).2);
   ("Use Time", (Use_Time r).1, (Use_Time r).2);
   ("System Time", (System_Time r).1, (System_Time r).2)]%string.

(** The table of experiment 1. *)
Definition observed_1 : results :=
  {| Wait_Time := (Val 1.37076, Val 5.2906);
     Use_Time := (Val 0.0216868, Val 3.99966);
     System_Time := (Val 1.58225, Val 9.29026) |}.

(** The table of experiment 2. *)
Definition observed_2 : results :=
  {| Wait_Time := (Val 0.0205612, Val 0.805365);
     Use_Time := (Val 0.00597103, Val 2.00619);
     System_Time := (Val 0.038323, Val 2.81156) |}.

(** The table of experiment 3. *)
Definition observed_3 : results :=
  {| Wait_Time := (Val 0.000964449, Val 0.16406);
     Use_Time := (Val 0.00139607, Val 0.998959);
     System_Time := (Val 0.00329972, Val 1.16302) |}.

(** The table of experiment 4. *)
Definition observed_4 : results :=
  {| Wait_Time := (Val 0.152452, Val 2.07582);
     Use_Time := (Val 0.00333339, Val 2.3319);
     System_Time := (Val 1.60077, Val 13.2232) |}.

(** The table of experiment 5. *)
Definition observed_5 : results :=
  {| Wait_Time := (Val 0.170564, Val 2.08028);
     Use_Time := (Val 0.00342769, Val 2.33386);
     System_Time := (Val 1.78648, Val 13.2424) |}.

(** The table of experiment 6. *)
Definition observed_6 : results :=
  {| Wait_Time := (Val 9756430, Val 28655.5);
     Use_Time := (Val 0.0000474257, Val 2.33328);
     System_Time := (Val 57233800, Val 69075.4) |}.

(** The mean of the time in the system a table reports. *)
Definition system_mean (r : results) : Q :=
  match (System_Time r).2 with
  | Val x => x
  | NaN => 0
  end.

(** [x] and [y] differ by less than [eps]. *)
Definition close (eps x y : Q) : Prop := (Qabs (x - y) < eps)%Q.

(** * Lemmas *)

Lemma sumQ_app l1 l2 : (sumQ (l1 ++ l2) == sumQ l1 + sumQ l2)%Q.
Proof. induction l1 as [|x l1 IH]; simpl; [lra|]. rewrite IH. lra. Qed.

#[export] Instance sumQ_perm : Proper ((≡ₚ) ==> Qeq) sumQ.
Proof.
  induction 1 as [|x l1 l2 _ IH|x y l|l1 l2 l3 _ IH1 _ IH2]; simpl; lra.
Qed.

(** [L = lambda / (mu - lambda)] *)
Lemma mm1_L_closed lambda mu :
  ¬ (mu == 0)%Q → ¬ (mu == lambda)%Q → (mm1_L lambda mu == lambda / (mu - lambda))%Q.
Proof. intros Hmu Hne. unfold mm1_L, rho. field. split; [lra|done]. Qed.

(** The mean time in an M/M/1 station, [W = L / lambda] with
    [L = rho / (1 - rho)], is [1 / (mu - lambda)], as the notebook states. *)
Theorem mm1_W_closed lambda mu :
  ¬ (lambda == 0)%Q → ¬ (mu == 0)%Q → ¬ (mu == lambda)%Q →
  (mm1_W lambda mu == 1 / (mu - lambda))%Q.
Proof.
  intros Hl Hmu Hne. unfold mm1_W, mm1_L, rho. field. split_and!; [lra|done|done].
Qed.

(** The time in a tandem without feedback does not depend on the order
    of its stations: the notebook observes it of experiments 4 and 5, the
    model has it exactly. *)
Theorem tandem_W_perm lambda mus mus' :
  mus ≡ₚ mus' → (tandem_W lambda mus == tandem_W lambda mus')%Q.
Proof. intros Hp. unfold tandem_W. by rewrite Hp. Qed.

(** The numbers of the notebook's model: [L = 4/3] and [W = 28/3] for
    experiment 1, and [W = 28/3 + 14/5 + 7/6 = 133/10] for the tandem of
    experiments 4 and 5, where the notebook, adding rounded terms, states
    13.29. *)
Lemma model_numbers :
  (mm1_L (1 # 7) (1 # 4) == 4 # 3)%Q ∧ (mm1_W (1 # 7) (1 # 4) == 28 # 3)%Q ∧
  (tandem_W (1 # 7) [1 # 4; 1 # 2; 1]%Q == 133 # 10)%Q ∧
  (tandem_W (1 # 7) [1; 1 # 2; 1 # 4]%Q == 133 # 10)%Q.
Proof. by vm_compute. Qed.

(** A faster station keeps a client for a shorter time: the notebook
    reads it off experiments 1, 2 and 3. *)
Lemma mm1_W_faster lambda mu mu' :
  (0 < lambda)%Q → (lambda < mu)%Q → (mu < mu')%Q →
  (mm1_W lambda mu' < mm1_W lambda mu)%Q.
Proof.
  intros Hl Hmu Hmu'. rewrite !mm1_W_closed by lra.
  apply Qlt_shift_div_l; [lra|].
  assert (1 / (mu' - lambda) * (mu - lambda) == (mu - lambda) / (mu' - lambda))%Q as ->
    by (field; lra).
  apply Qlt_shift_div_r; lra.
Qed.

(** The tables of experiments 1 to 5 agree with the model within
    one tenth of a time unit, and the table of experiment 6 (feedback with
    probability 1/10) reports a mean time in the system more than five
    thousand times the model's. *)
Theorem model_and_tables :
  close (1 # 10) (system_mean observed_1) (mm1_W (1 # 7) (1 # 4)) ∧
  close (1 # 10) (system_mean observed_2) (mm1_W (1 # 7) (1 # 2)) ∧
  close (1 # 10) (system_mean observed_3) (mm1_W (1 # 7) 1) ∧
  close (1 # 10) (system_mean observed_4) (tandem_W (1 # 7) [1 # 4; 1 # 2; 1]%Q) ∧
  close (1 # 10) (system_mean observed_5) (tandem_W (1 # 7) [1; 1 # 2; 1 # 4]%Q) ∧
  (5000 * tandem_W (1 # 7) [1 # 4; 1 # 2; 1]%Q < system_mean observed_6)%Q.
Proof. by vm_compute. Qed.

(** The rows of a table are its three metrics, in the order the dictionary
    was built. *)
Lemma rows_keys r : (λ row, row.1.1) <$> rows r = ["Wait Time"; "Use Time"; "System Time"]%string.
Proof. done. Qed.

Lemma tandem_W_perm_witness :
  (tandem_W (1 # 7) [1 # 4; 1 # 2; 1]%Q == tandem_W (1 # 7) [1; 1 # 2; 1 # 4]%Q)%Q.
Proof.
  apply tandem_W_perm. etrans; [apply Permutation_swap|].
  etrans; [apply perm_skip, Permutation_swap|]. apply Permutation_swap.
Defined.

Lemma mm1_W_closed_witness : (mm1_W (1 # 7) (1 # 4) == 1 / ((1 # 4) - (1 # 7)))%Q.
Proof. by apply mm1_W_closed. Defined.
