(* ===== verification/Tabulate.v ===== *)
(** * Tabulate: the tables the experiments print

    Every experiment of [src/sim.ipynb] ends with
    [print(tabulate(rows, headers=["Metric", "Variance", "Expected value"],
    tablefmt="grid"))], and the notebook records what was printed.  This
    file models the call: the formatting of a float with the general
    format of Python ([format_g], six significant digits), the columns of
    [tabulate] (a column of numbers is aligned on the decimal point and to
    the right, a column of text to the left, a column is at least two
    characters wider than its header), and the grid that is drawn around
    them ([tabulate_grid]).  [printed_1] to [printed_6] are the tables as
    the notebook records them, one string per line, without the newline
    that ends each.

    The lemmas show that the digits printed are six significant digits
    of the value, correctly rounded ([significand_spec]), that the lines
    of a table have one length ([tabulate_grid_lines]), and that the
    model prints the six recorded tables ([print_table_observed]).

    [tabulate] is a library the notebook only calls: it is modelled from
    its documented behaviour, for rows that have one cell per header and
    for text cells that do not read as numbers and have no space at
    their ends (the library strips them).  A float is a rational
    here, so [format_g] rounds the value itself to six digits, where
    Python rounds the binary number nearest to it. *)

From Stdlib Require Import ZArith QArith Qround Qpower Lia Lqa Ascii String.
From stdpp Require Import list strings.
From S2P Require Import Prelude Numpy Controller Analysis.

Local Open Scope string_scope.

(** ** Strings *)

(** [c * n] *)
Fixpoint str_repeat (c : ascii) (n : nat) : string :=
  match n with
  | 0 => ""
  | S n' => String c (str_repeat c n')
  end.

(** [s.rjust(w)] *)
Definition pad_left (w : nat) (s : string) : string :=
  str_repeat " " (w - String.length s) +:+ s.

(** [s.ljust(w)] *)
Definition pad_right (w : nat) (s : string) : string :=
  s +:+ str_repeat " " (w - String.length s).

(** The number of characters after the last [c] of [s]. *)
Fixpoint after_last (c : ascii) (s : string) : option nat :=
  match s with
  | "" => None
  | String c' s' =>
      match after_last c s' with
      | Some k => Some k
      | None => if decide (c' = c) then Some (String.length s') else None
      end
  end.

(** [s] without the zeros at its end. *)
Fixpoint strip_zeros (s : string) : string :=
  match s with
  | "" => ""
  | String c s' =>
      match strip_zeros s' with
      | "" => if decide (c = "0"%char) then "" else String c ""
      | r => String c r
      end
  end.

(** ** The general format of a float *)

(** The decimal digit [n]. *)
Definition digit (n : Z) : ascii := ascii_of_nat (48 + Z.to_nat n).

Fixpoint digits_go (fuel : nat) (n : Z) (acc : string) : string :=
  match fuel with
  | 0 => acc
  | S fuel' =>
      let acc' := String (digit (n mod 10)) acc in
      if (n <? 10)%Z then acc' else digits_go fuel' (n / 10) acc'
  end.

(** [str(n)] for an integer that is not negative. *)
Definition digits (n : Z) : string := digits_go (S (Z.to_nat (Z.log2 n))) n "".

(** The nearest integer, the even one of two that are equally near. *)
Definition round_half_even (x : Q) : Z :=
  let f := Qfloor x in
  match (x - inject_Z f ?= 1 # 2)%Q with
  | Lt => f
  | Gt => (f + 1)%Z
  | Eq => if Z.even f then f else (f + 1)%Z
  end.

(** The decimal exponent of a positive number at least 1: the [e] with
    [10^e <= x < 10^(e+1)], counted up from [e]. *)
Fixpoint exponent_up (fuel : nat) (x : Q) (e : Z) : Z :=
  match fuel with
  | 0 => e
  | S fuel' => if Qle_bool 10 x then exponent_up fuel' (x / 10) (e + 1) else e
  end.

(** The decimal exponent of a positive number below 1, counted down. *)
Fixpoint exponent_down (fuel : nat) (x : Q) (e : Z) : Z :=
  match fuel with
  | 0 => e
  | S fuel' => if Qle_bool 1 x then e else exponent_down fuel' (x * 10) (e - 1)
  end.

(** The decimal exponent of a positive number. *)
Definition exponent10 (x : Q) : Z :=
  if Qle_bool 1 x then exponent_up (S (Z.to_nat (Z.log2 (Qnum x)))) x 0
  else exponent_down (S (Z.to_nat (Z.log2 (Z.pos (Qden x))))) x 0.

(** The six digits [ds] with the decimal point after the digit of
    [10^e], without exponent. *)
Definition fixed (ds : string) (e : Z) : string :=
  if (0 <=? e)%Z then
    let k := S (Z.to_nat e) in
    match strip_zeros (substring k (String.length ds - k) ds) with
    | "" => substring 0 k ds
    | frac => substring 0 k ds +:+ "." +:+ frac
    end
  else "0." +:+ str_repeat "0" (Z.to_nat (- e - 1)) +:+ strip_zeros ds.

(** The six digits [ds] with the exponent [e]. *)
Definition scientific (ds : string) (e : Z) : string :=
  let mantissa :=
    match strip_zeros (substring 1 (String.length ds - 1) ds) with
    | "" => substring 0 1 ds
    | frac => substring 0 1 ds +:+ "." +:+ frac
    end in
  mantissa +:+ "e" +:+ (if (e <? 0)%Z then "-" else "+") +:+
  (if (Z.abs e <? 10)%Z then "0" else "") +:+ digits (Z.abs e).

(** The six significant digits of a positive [x], as an integer, and
    its decimal exponent: [x] is [m * 10^(e - 5)] rounded. *)
Definition significand (x : Q) : Z * Z :=
  let e0 := exponent10 x in
  let m0 := round_half_even (x * Qpower 10 (5 - e0)) in
  if (m0 =? 1000000)%Z then (100000, e0 + 1)%Z else (m0, e0).

(** [format(x, "g")] for a positive [x]: without exponent when the
    exponent is at least [-4] and below the precision. *)
Definition format_positive (x : Q) : string :=
  let '(m, e) := significand x in
  if ((-4 <=? e) && (e <? 6))%Z then fixed (digits m) e else scientific (digits m) e.

(** [format(x, "g")] *)
Definition format_g (x : Q) : string :=
  match (x ?= 0)%Q with
  | Eq => "0"
  | Gt => format_positive x
  | Lt => "-" +:+ format_positive (- x)
  end.

(** ** The columns of a table *)

(** A cell: a string or a float. *)
Inductive cell : Type :=
  | Text (s : string)
  | Number (x : npfloat).

Definition is_number (c : cell) : bool :=
  match c with
  | Number _ => true
  | Text _ => false
  end.

(** The text of a cell: a float in the general format. *)
Definition format_cell (c : cell) : string :=
  match c with
  | Text s => s
  | Number (Val x) => format_g x
  | Number NaN => "nan"
  end.

(** The characters of a number after its decimal point, or after its
    exponent mark when it has no point; [-1] when it has neither. *)
Definition afterpoint (s : string) : Z :=
  match after_last "." s with
  | Some k => Z.of_nat k
  | None =>
      match after_last "e" s with
      | Some k => Z.of_nat k
      | None => -1
      end
  end.

(** The largest number of a list, for lists that are not empty. *)
Definition max_Z (l : list Z) : Z := foldr Z.max (default 0%Z (head l)) l.

(** A column of numbers aligned on the decimal point. *)
Definition align_decimal (strings : list string) : list string :=
  let decimals := afterpoint <$> strings in
  zip_with (λ s d, s +:+ str_repeat " " (Z.to_nat (max_Z decimals - d))) strings decimals.

(** A column aligned and padded to its width, at least [minwidth]. *)
Definition align_column (numeric : bool) (minwidth : nat) (strings : list string) :
    list string :=
  let strings' := if numeric then align_decimal strings else strings in
  let maxwidth := max_list (minwidth :: (String.length <$> strings')) in
  (if numeric then pad_left maxwidth else pad_right maxwidth) <$> strings'.

(** The header of a column, aligned as the column. *)
Definition align_header (numeric : bool) (width : nat) (header : string) : string :=
  if numeric then pad_left width header else pad_right width header.

(** Column [j] of the rows. *)
Definition column (rows : list (list cell)) (j : nat) : list cell :=
  omap (λ row, row !! j) rows.

(** A column of numbers: one that is not empty and holds no text. *)
Definition numeric_column (col : list cell) : bool :=
  bool_decide (col ≠ []) && forallb is_number col.

(** ** The grid *)

(** A line of the grid: [+----+----+]. *)
Definition grid_line (fill : ascii) (widths : list nat) : string :=
  "+" +:+ String.concat "+" ((λ w, str_repeat fill (w + 2)) <$> widths) +:+ "+".

(** A row of the grid: [| a | b |]. *)
Definition grid_row (cells : list string) : string :=
  "|" +:+ String.concat "|" ((λ c, " " +:+ c +:+ " ") <$> cells) +:+ "|".

(** The layout of a column: its width, its header and its cells. *)
Definition layout (header : string) (col : list cell) : nat * string * list string :=
  let numeric := numeric_column col in
  let aligned := align_column numeric (String.length header + 2) (format_cell <$> col) in
  let width := max_list ((String.length header + 2) :: (String.length <$> aligned)) in
  (width, align_header numeric width header, aligned).

(** A column laid out for [n] rows. *)
Definition column_ok (n : nat) (c : nat * string * list string) : Prop :=
  String.length c.1.2 = c.1.1 ∧ Forall (λ s, String.length s = c.1.1) c.2 ∧ length c.2 = n.

(** The lines of the grid below the header. *)
Definition grid_body (widths : list nat) (body : list (list string)) : list string :=
  match body with
  | [] => [grid_line "-" widths]
  | _ => body ≫= λ row, [grid_row row; grid_line "-" widths]
  end.

(** [tabulate(rows, headers=headers, tablefmt="grid")], line by line. *)
Definition tabulate_grid (headers : list string) (rows : list (list cell)) : list string :=
  let cols := imap (λ j header, layout header (column rows j)) headers in
  let widths := (λ c, c.1.1) <$> cols in
  let body := (λ i, omap (λ c, c.2 !! i) cols) <$> seq 0 (length rows) in
  [grid_line "-" widths; grid_row ((λ c, c.1.2) <$> cols); grid_line "=" widths] ++
  grid_body widths body.

(** ** The tables of the experiments *)

(** The cells of a row of [rows]. *)
Definition row_cells (row : string * npfloat * npfloat) : list cell :=
  [Text row.1.1; Number row.1.2; Number row.2].

(** [print(tabulate(rows, headers=["Metric", "Variance", "Expected value"],
    tablefmt="grid"))]: the lines printed. *)
Definition print_table (r : results) : list string :=
  tabulate_grid ["Metric"; "Variance"; "Expected value"] (row_cells <$> rows r).
(** The table printed by experiment 1. *)
Definition printed_1 : list string :=
  ["+-------------+------------+------------------+";
   "| Metric      |   Variance |   Expected value |";
   "+=============+============+==================+";
   "| Wait Time   |  1.37076   |          5.2906  |";
   "+-------------+------------+------------------+";
   "| Use Time    |  0.0216868 |          3.99966 |";
   "+-------------+------------+------------------+";
   "| System Time |  1.58225   |          9.29026 |";
   "+-------------+------------+------------------+"].

(** The table printed by experiment 2. *)
Definition printed_2 : list string :=
  ["+-------------+------------+------------------+";
   "| Metric      |   Variance |   Expected value |";
   "+=============+============+==================+";
   "| Wait Time   | 0.0205612  |         0.805365 |";
   "+-------------+------------+------------------+";
   "| Use Time    | 0.00597103 |         2.00619  |";
   "+-------------+------------+------------------+";
   "| System Time | 0.038323   |         2.81156  |";
   "+-------------+------------+------------------+"].

(** The table printed by experiment 3. *)
Definition printed_3 : list string :=
  ["+-------------+-------------+------------------+";
   "| Metric      |    Variance |   Expected value |";
   "+=============+=============+==================+";
   "| Wait Time   | 0.000964449 |         0.16406  |";
   "+-------------+-------------+------------------+";
   "| Use Time    | 0.00139607  |         0.998959 |";
   "+-------------+-------------+------------------+";
   "| System Time | 0.00329972  |         1.16302  |";
   "+-------------+-------------+------------------+"].

(** The table printed by experiment 4. *)
Definition printed_4 : list string :=
  ["+-------------+------------+------------------+";
   "| Metric      |   Variance |   Expected value |";
   "+=============+============+==================+";
   "| Wait Time   | 0.152452   |          2.07582 |";
   "+-------------+------------+------------------+";
   "| Use Time    | 0.00333339 |          2.3319  |";
   "+-------------+------------+------------------+";
   "| System Time | 1.60077    |         13.2232  |";
   "+-------------+------------+------------------+"].

(** The table printed by experiment 5. *)
Definition printed_5 : list string :=
  ["+-------------+------------+------------------+";
   "| Metric      |   Variance |   Expected value |";
   "+=============+============+==================+";
   "| Wait Time   | 0.170564   |          2.08028 |";
   "+-------------+------------+------------------+";
   "| Use Time    | 0.00342769 |          2.33386 |";
   "+-------------+------------+------------------+";
   "| System Time | 1.78648    |         13.2424  |";
   "+-------------+------------+------------------+"].

(** The table printed by experiment 6. *)
Definition printed_6 : list string :=
  ["+-------------+-------------+------------------+";
   "| Metric      |    Variance |   Expected value |";
   "+=============+=============+==================+";
   "| Wait Time   | 9.75643e+06 |      28655.5     |";
   "+-------------+-------------+------------------+";
   "| Use Time    | 4.74257e-05 |          2.33328 |";
   "+-------------+-------------+------------------+";
   "| System Time | 5.72338e+07 |      69075.4     |";
   "+-------------+-------------+------------------+"].

(** * Lemmas *)

Local Close Scope string_scope.

(** ** Lengths *)

Lemma length_append s1 s2 : String.length (s1 +:+ s2) = String.length s1 + String.length s2.
Proof. induction s1 as [|c s1 IH]; simpl; [done|]. by rewrite IH. Qed.

Lemma length_str_repeat c n : String.length (str_repeat c n) = n.
Proof. induction n; simpl; congruence. Qed.

Lemma length_pad_left w s : String.length (pad_left w s) = w `max` String.length s.
Proof. unfold pad_left. rewrite length_append, length_str_repeat. lia. Qed.

Lemma length_pad_right w s : String.length (pad_right w s) = w `max` String.length s.
Proof. unfold pad_right. rewrite length_append, length_str_repeat. lia. Qed.

Lemma length_concat sep l :
  String.length (String.concat sep l) =
  sum_list (String.length <$> l) + (length l - 1) * String.length sep.
Proof.
  induction l as [|s [|s' l] IH]; simpl in *; [done|lia|].
  rewrite !length_append, IH. lia.
Qed.

Lemma max_list_ge x l : x ∈ l → x ≤ max_list l.
Proof. induction 1; simpl; lia. Qed.

(** ** Columns *)

Lemma max_list_const w minwidth (l : list string) (f : string → nat) :
  minwidth ≤ w → (l = [] → w = minwidth) → (∀ s, s ∈ l → f s = w) →
  max_list (minwidth :: (f <$> l)) = w.
Proof.
  intros Hm Hnil Hf. simpl. destruct l as [|s0 l]; [simpl; rewrite Hnil by done; lia|].
  clear Hnil. revert s0 Hf. induction l as [|s l IH]; intros s0 Hf; simpl.
  - rewrite (Hf s0) by left. lia.
  - rewrite (Hf s0) by left. specialize (IH s ltac:(intros; apply Hf; by right)).
    simpl in IH. lia.
Qed.

(** Strings padded to the width of the widest have that width. *)
Lemma pad_column_width (pad : nat → string → string) minwidth strings :
  (∀ w s, String.length (pad w s) = w `max` String.length s) →
  let w := max_list (minwidth :: (String.length <$> strings)) in
  Forall (λ s, String.length s = max_list (minwidth :: (String.length <$> (pad w <$> strings))))
    (pad w <$> strings).
Proof.
  intros Hpad w.
  assert (∀ s, s ∈ strings → String.length (pad w s) = w) as Hw.
  { intros s Hs. rewrite Hpad. assert (String.length s ≤ w); [|lia].
    apply max_list_ge. right. by apply list_elem_of_fmap_2. }
  rewrite <- list_fmap_compose, (max_list_const w);
    [|apply max_list_ge; left|intros ->; unfold w; simpl; lia|done].
  apply Forall_fmap, Forall_forall. intros s Hs. by apply Hw.
Qed.

(** The cells of an aligned column have the width of the column. *)
Lemma align_column_width numeric minwidth strings :
  length (align_column numeric minwidth strings) = length strings ∧
  Forall (λ s, String.length s =
               max_list (minwidth :: (String.length <$> align_column numeric minwidth strings)))
    (align_column numeric minwidth strings).
Proof.
  unfold align_column. destruct numeric.
  - split; [|apply pad_column_width, length_pad_left].
    unfold align_decimal. by rewrite length_fmap, length_zip_with, length_fmap, Nat.min_id.
  - split; [by rewrite length_fmap|apply pad_column_width, length_pad_right].
Qed.

(** The header and the cells of a column have its width. *)
Lemma layout_width header col :
  let '(width, head, cells) := layout header col in
  String.length head = width ∧ Forall (λ s, String.length s = width) cells ∧
  length cells = length col ∧ String.length header + 2 ≤ width.
Proof.
  unfold layout.
  destruct (align_column_width (numeric_column col) (String.length header + 2) (format_cell <$> col))
    as [Hlen Hw].
  set (w := max_list _) in *.
  assert (String.length header + 2 ≤ w) by (apply max_list_ge; left).
  split_and!; [|done|by rewrite Hlen, length_fmap|done].
  unfold align_header. destruct (numeric_column col);
    rewrite ?length_pad_left, ?length_pad_right; lia.
Qed.

(** ** The grid *)

Lemma length_grid_line fill widths :
  String.length (grid_line fill widths) =
  2 + sum_list ((λ w, w + 2) <$> widths) + (length widths - 1).
Proof.
  unfold grid_line. rewrite !length_append, length_concat, length_fmap, <- list_fmap_compose.
  rewrite (list_fmap_ext _ (λ w, w + 2) widths) by (intros; simpl; apply length_str_repeat).
  simpl. lia.
Qed.

Lemma length_grid_row cells :
  String.length (grid_row cells) =
  2 + sum_list ((λ w, w + 2) <$> (String.length <$> cells)) + (length cells - 1).
Proof.
  unfold grid_row. rewrite !length_append, length_concat, length_fmap, <- !list_fmap_compose.
  rewrite (list_fmap_ext _ ((λ w, w + 2) ∘ String.length) cells); [simpl; lia|].
  intros i c _. simpl. rewrite !length_append. simpl. lia.
Qed.

(** A row whose cells have the widths of the columns is as long as the
    lines of the grid. *)
Lemma length_grid_row_line fill cells widths :
  String.length <$> cells = widths →
  String.length (grid_row cells) = String.length (grid_line fill widths).
Proof. intros <-. by rewrite length_grid_row, length_grid_line, length_fmap. Qed.

Lemma length_column rows j :
  Forall (λ row : list cell, j < length row) rows → length (column rows j) = length rows.
Proof.
  unfold column. induction 1 as [|row rows Hj _ IH]; simpl; [done|].
  destruct (lookup_lt_is_Some_2 row j Hj) as [c ->]. simpl. f_equal. apply IH.
Qed.

Lemma layout_columns headers rows :
  Forall (λ row, length row = length headers) rows →
  Forall (column_ok (length rows)) (imap (λ j header, layout header (column rows j)) headers).
Proof.
  intros Hrows. apply Forall_lookup. intros j c [header [Hh ->]]%list_lookup_imap_Some.
  pose proof (layout_width header (column rows j)) as Hw.
  destruct (layout header (column rows j)) as [[width head] cells].
  destruct Hw as (? & ? & Hlen & _). split_and!; [done..|]. simpl.
  rewrite Hlen. apply length_column. eapply Forall_impl; [done|].
  intros row ->. by eapply lookup_lt_Some.
Qed.

(** Row [i] of the columns has their widths. *)
Lemma body_row_widths n (cols : list (nat * string * list string)) i :
  Forall (column_ok n) cols → i < n →
  String.length <$> omap (λ c, c.2 !! i) cols = (λ c, c.1.1) <$> cols.
Proof.
  intros Hcols Hi. induction Hcols as [|c cols (_ & Hw & Hn) _ IH]; simpl; [done|].
  destruct (lookup_lt_is_Some_2 c.2 i) as [s Hs]; [lia|]. rewrite Hs. simpl.
  f_equal; [|apply IH]. rewrite Forall_forall in Hw. by eapply Hw, list_elem_of_lookup_2.
Qed.

Lemma heads_widths n (cols : list (nat * string * list string)) :
  Forall (column_ok n) cols →
  String.length <$> ((λ c, c.1.2) <$> cols) = (λ c, c.1.1) <$> cols.
Proof.
  rewrite <- list_fmap_compose. intros Hcols. apply list_fmap_ext.
  intros i c Hc. rewrite Forall_lookup in Hcols. by destruct (Hcols i c Hc).
Qed.

(** The lines below the header: two per row, one when there is no row,
    all of the width of the grid. *)
Lemma grid_body_lines widths body :
  Forall (λ row, String.length <$> row = widths) body →
  length (grid_body widths body) = 1 `max` (2 * length body) ∧
  Forall (λ line, String.length line = String.length (grid_line "-" widths))
    (grid_body widths body).
Proof.
  intros Hbody. assert (∀ body' : list (list string),
    Forall (λ row, String.length <$> row = widths) body' →
    length (body' ≫= λ row, [grid_row row; grid_line "-" widths]) = 2 * length body' ∧
    Forall (λ line, String.length line = String.length (grid_line "-" widths))
      (body' ≫= λ row, [grid_row row; grid_line "-" widths])) as Hall.
  { induction 1 as [|row body' Hrow _ [IHn IHw]]; [done|].
    rewrite bind_cons, length_app, Forall_app, IHn. split; [simpl; lia|]. split; [|done].
    repeat constructor. by apply length_grid_row_line. }
  destruct body as [|row body]; [by repeat constructor|].
  destruct (Hall _ Hbody) as [Hn Hw]. unfold grid_body. rewrite Hn. split; [simpl; lia|done].
Qed.

(** A table has three lines for its header and two per row; all its
    lines have the same length. *)
Lemma tabulate_grid_lines headers rows :
  Forall (λ row, length row = length headers) rows →
  length (tabulate_grid headers rows) = 3 + 1 `max` (2 * length rows) ∧
  ∃ w, Forall (λ line, String.length line = w) (tabulate_grid headers rows).
Proof.
  intros Hcols%layout_columns. unfold tabulate_grid.
  set (cols := imap _ headers) in *. set (widths := (λ c, c.1.1) <$> cols).
  destruct (grid_body_lines widths
              ((λ i, omap (λ c, c.2 !! i) cols) <$> seq 0 (length rows))) as [Hn Hw].
  { apply Forall_fmap, Forall_forall. intros i [_ Hi]%elem_of_seq.
    by apply (body_row_widths (length rows)). }
  rewrite length_fmap, length_seq in Hn. split; [simpl; lia|].
  exists (String.length (grid_line "-" widths)). repeat constructor; [| |done].
  - apply length_grid_row_line. by eapply heads_widths.
  - by rewrite !length_grid_line.
Qed.

(** ** The six digits *)

Section six_digits.
Local Open Scope Q_scope.

Lemma pow10_pos e : 0 < 10 ^ e.
Proof. by apply Qpower_0_lt. Qed.

Lemma pow10_succ e : 10 ^ (e + 1) == 10 * 10 ^ e.
Proof. rewrite Qpower_plus by done. change (10 ^ 1) with 10. ring. Qed.

Lemma pow10_pred e : 10 * 10 ^ (e - 1) == 10 ^ e.
Proof. rewrite <- pow10_succ. by replace (e - 1 + 1)%Z with e by lia. Qed.

(** A number between 1 and 10 has the exponent of its scale. *)
Lemma exponent_here x e :
  1 <= x → x < 10 → 10 ^ e <= x * 10 ^ e ∧ x * 10 ^ e < 10 ^ (e + 1).
Proof. intros H1 H10. rewrite pow10_succ. pose proof (pow10_pos e). split; nra. Qed.

Lemma exponent_up_spec fuel x e :
  1 <= x → x < inject_Z (10 ^ Z.of_nat fuel) →
  10 ^ exponent_up fuel x e <= x * 10 ^ e ∧ x * 10 ^ e < 10 ^ (exponent_up fuel x e + 1).
Proof.
  revert x e. induction fuel as [|fuel IH]; intros x e H1 Hlt.
  - change (inject_Z (10 ^ Z.of_nat 0)) with 1 in Hlt. lra.
  - simpl. destruct (Qle_bool 10 x) eqn:H10.
    + apply Qle_bool_iff in H10. rewrite Nat2Z.inj_succ, Z.pow_succ_r, inject_Z_mult in Hlt by lia.
      destruct (IH (x / 10) (e + 1)%Z) as [Hlo Hhi].
      * apply Qle_shift_div_l; lra.
      * apply Qlt_shift_div_r; [lra|]. rewrite Qmult_comm. exact Hlt.
      * rewrite pow10_succ in Hlo, Hhi.
        assert (x / 10 * (10 * 10 ^ e) == x * 10 ^ e) as Hx by (by field).
        by rewrite Hx in Hlo, Hhi.
    + apply exponent_here; [done|]. apply Qnot_le_lt. intros Hle%Qle_bool_iff. congruence.
Qed.

Lemma exponent_down_spec fuel x e :
  0 < x → x < 10 → 1 <= x * inject_Z (10 ^ Z.of_nat fuel) →
  10 ^ exponent_down fuel x e <= x * 10 ^ e ∧ x * 10 ^ e < 10 ^ (exponent_down fuel x e + 1).
Proof.
  revert x e. induction fuel as [|fuel IH]; intros x e H0 H10 Hge.
  - change (inject_Z (10 ^ Z.of_nat 0)) with 1 in Hge. apply exponent_here; lra.
  - simpl. destruct (Qle_bool 1 x) eqn:H1; [apply Qle_bool_iff in H1; by apply exponent_here|].
    assert (x < 1) as Hx1 by (apply Qnot_le_lt; intros Hle%Qle_bool_iff; congruence).
    rewrite Nat2Z.inj_succ, Z.pow_succ_r, inject_Z_mult in Hge by lia.
    change (inject_Z 10) with 10 in Hge.
    destruct (IH (x * 10) (e - 1)%Z) as [Hlo Hhi]; [lra|lra|by rewrite <- Qmult_assoc|].
    assert (x * 10 * 10 ^ (e - 1) == x * 10 ^ e) as Hx by (rewrite <- (pow10_pred e); ring).
    by rewrite Hx in Hlo, Hhi.
Qed.

(** A positive number is at most its numerator and at least the inverse
    of its denominator. *)
Lemma Q_num_den x :
  0 < x → x <= inject_Z (Qnum x) ∧ 1 <= x * inject_Z (Z.pos (Qden x)).
Proof.
  destruct x as [a b]. unfold Qlt, Qle. simpl. intros Ha. split; nia.
Qed.

(** A power of ten above a positive integer. *)
Lemma pow10_log2 n : (0 < n)%Z → (n < 10 ^ Z.of_nat (S (Z.to_nat (Z.log2 n))))%Z.
Proof.
  intros Hn. destruct (Z.log2_spec n Hn) as [_ Hlt]. pose proof (Z.log2_nonneg n).
  rewrite Nat2Z.inj_succ, Z2Nat.id by done. eapply Z.lt_le_trans; [done|].
  apply Z.pow_le_mono_l. lia.
Qed.

(** The decimal exponent of a positive number. *)
Lemma exponent10_spec x :
  0 < x → 10 ^ exponent10 x <= x ∧ x < 10 ^ (exponent10 x + 1).
Proof.
  intros Hx. destruct (Q_num_den x Hx) as [Hnum Hden]. unfold exponent10.
  assert (x * 10 ^ 0 == x) as H0 by (change (10 ^ 0) with 1; ring).
  destruct (Qle_bool 1 x) eqn:H1.
  - apply Qle_bool_iff in H1.
    destruct (exponent_up_spec (S (Z.to_nat (Z.log2 (Qnum x)))) x 0) as [Hlo Hhi];
      [done| |by rewrite H0 in Hlo, Hhi].
    eapply Qle_lt_trans; [done|]. rewrite <- Zlt_Qlt. apply pow10_log2.
    rewrite Zlt_Qlt. change (inject_Z 0) with 0. lra.
  - assert (x < 1) as Hx1 by (apply Qnot_le_lt; intros Hle%Qle_bool_iff; congruence).
    destruct (exponent_down_spec (S (Z.to_nat (Z.log2 (Z.pos (Qden x))))) x 0) as [Hlo Hhi];
      [done|lra| |by rewrite H0 in Hlo, Hhi].
    pose proof (pow10_log2 (Z.pos (Qden x)) ltac:(done)) as Hlt. rewrite Zlt_Qlt in Hlt. nra.
Qed.

(** The integer chosen is within one half of the number. *)
Lemma round_half_even_spec x :
  x - (1 # 2) <= inject_Z (round_half_even x) ∧ inject_Z (round_half_even x) <= x + (1 # 2).
Proof.
  unfold round_half_even. cbv zeta. pose proof (Qfloor_le x). pose proof (Qlt_floor x) as Hlt.
  rewrite inject_Z_plus in Hlt. change (inject_Z 1) with 1 in Hlt.
  destruct (Qcompare_spec (x - inject_Z (Qfloor x)) (1 # 2)); [destruct (Z.even _)|..];
    rewrite ?inject_Z_plus; change (inject_Z 1) with 1; split; lra.
Qed.

(** The digits [format(x, "g")] prints: six of them, the first not
    zero, and the number they denote differs from [x] by at most half a
    unit of the last. *)
Lemma significand_spec x :
  0 < x →
  let '(m, e) := significand x in
  (100000 <= m < 1000000)%Z ∧
  inject_Z m * 10 ^ (e - 5) - (1 # 2) * 10 ^ (e - 5) <= x ∧
  x <= inject_Z m * 10 ^ (e - 5) + (1 # 2) * 10 ^ (e - 5).
Proof.
  intros Hx. unfold significand. destruct (exponent10_spec x Hx) as [Hlo Hhi].
  set (e0 := exponent10 x) in *. pose proof (pow10_pos (e0 - 5)) as Hq.
  pose proof (round_half_even_spec (x * 10 ^ (5 - e0))) as [Hr1 Hr2].
  set (m0 := round_half_even _) in *.
  assert (x * 10 ^ (5 - e0) * 10 ^ (e0 - 5) == x) as Hy.
  { rewrite <- Qmult_assoc, <- Qpower_plus by done.
    replace (5 - e0 + (e0 - 5))%Z with 0%Z by lia. change (10 ^ 0) with 1. ring. }
  assert (10 ^ e0 == 100000 * 10 ^ (e0 - 5)) as He0.
  { change 100000 with (10 ^ 5). rewrite <- Qpower_plus by done. by replace (5 + (e0 - 5))%Z with e0 by lia. }
  assert (10 ^ (e0 + 1 - 5) == 10 * 10 ^ (e0 - 5)) as He1.
  { rewrite <- pow10_succ. by replace (e0 - 5 + 1)%Z with (e0 + 1 - 5)%Z by lia. }
  rewrite pow10_succ, He0 in Hhi. rewrite He0 in Hlo.
  set (y := x * 10 ^ (5 - e0)) in *. set (q := 10 ^ (e0 - 5)) in *.
  assert (100000 <= y ∧ y < 1000000) as [Hy1 Hy2] by (split; nra).
  assert (100000 <= m0 <= 1000000)%Z as Hm.
  { assert (99999 < m0)%Z by (rewrite Zlt_Qlt; change (inject_Z 99999) with 99999; lra).
    assert (m0 < 1000001)%Z by (rewrite Zlt_Qlt; change (inject_Z 1000001) with 1000001; lra).
    lia. }
  destruct (Z.eqb_spec m0 1000000) as [Hm0|Hm0].
  - rewrite Hm0 in *. rewrite He1. change (inject_Z 1000000) with 1000000 in *.
    change (inject_Z 100000) with 100000. split; [done|]. split; nra.
  - fold q. split; [lia|]. split; nra.
Qed.
End six_digits.

(** ** The tables of the experiments *)

(** The table an experiment prints is a grid of nine lines of one
    length, whatever [run_simulation] returned ([nan] included): a line,
    the headers, a line of [=], and a row and a line for each of the
    three metrics. *)
Lemma print_table_lines r :
  length (print_table r) = 9 ∧
  ∃ w, Forall (λ line, String.length line = w) (print_table r).
Proof.
  unfold print_table.
  destruct (tabulate_grid_lines ["Metric"; "Variance"; "Expected value"]%string
              (row_cells <$> rows r)) as [Hn Hw]; [by repeat constructor|].
  by rewrite Hn.
Qed.

(** The model prints the tables of the six experiments as the
    notebook records them, character by character: the rows built from
    the dictionary, the numbers in the general format with six
    significant digits, the columns aligned on the decimal point and the
    grid around them. *)
Lemma print_table_observed :
  print_table observed_1 = printed_1 ∧ print_table observed_2 = printed_2 ∧
  print_table observed_3 = printed_3 ∧ print_table observed_4 = printed_4 ∧
  print_table observed_5 = printed_5 ∧ print_table observed_6 = printed_6.
Proof. by vm_compute. Qed.
