(* ===== verification/Notebook.v ===== *)
(** * Notebook: the cells of the experiments

    The six experiments of [src/sim.ipynb] are six cells of the same
    shape: [results = run_simulation(...)], the rows built from the
    dictionary, and [print(tabulate(rows, ...))].  [experiment_cell] is
    such a cell, from the arguments of the call to the lines printed;
    [notebook] is the six cells run in the order of the notebook on one
    interpreter, so that each call of [run_simulation] goes on with the
    random generator where the cell before it left it.

    The theorems compose those of the components: a cell raises nothing
    on a valid configuration, and it prints a table of nine lines of one
    length whenever its runs end, which they do under the hypotheses of
    [Feedback]; so does the notebook. *)

From Stdlib Require Import ZArith QArith Lia.
From stdpp Require Import gmap list.
From S2P Require Import Prelude Rng PriorityQueue Events Machine Engine Experiments.
From S2P Require Import Correctness Termination Feedback Numpy Metrics Controller.
From S2P Require Import Analysis Tabulate.

Section cells.
Context {R : RandomSource} {PQ : PriorityQueue event}.

(** A cell of an experiment: the lines it prints, and the cursor of the
    generator after it. *)
Definition experiment_cell (cfg : config) (sim_fuel fuel k : nat) :
    loop_result (list String.string * nat) :=
  '(results, k') ← run_simulation cfg sim_fuel fuel k;
  mret (print_table results, k').

(** The cells of the six experiments. *)
Definition cell_1 := experiment_cell experiment_1.
Definition cell_2 := experiment_cell experiment_2.
Definition cell_3 := experiment_cell experiment_3.
Definition cell_4 := experiment_cell experiment_4.
Definition cell_5 := experiment_cell experiment_5.
Definition cell_6 := experiment_cell experiment_6.

(** Cells run one after the other on one interpreter: the generator goes
    on from a cell to the next. *)
Fixpoint run_cells (cells : list (nat → nat → nat → loop_result (list String.string * nat)))
    (sim_fuel fuel k : nat) : loop_result (list (list String.string) * nat) :=
  match cells with
  | [] => mret ([], k)
  | cell :: cells' =>
      '(table, k1) ← cell sim_fuel fuel k;
      '(tables, k2) ← run_cells cells' sim_fuel fuel k1;
      mret (table :: tables, k2)
  end.

(** The notebook: the six cells in its order. *)
Definition notebook (sim_fuel fuel k : nat) : loop_result (list (list String.string) * nat) :=
  run_cells [cell_1; cell_2; cell_3; cell_4; cell_5; cell_6] sim_fuel fuel k.
End cells.

(** A table as an experiment prints it: nine lines of one length. *)
Definition table_ok (table : list String.string) : Prop :=
  length table = 9 ∧ ∃ w, Forall (λ line, String.length line = w) table.

(** What the runs of a cell need to end: gaps of one tick at least,
    feedback on the draws [ks] at most, and fuel for each run. *)
Definition cell_ends {R : RandomSource} (ks : list nat) (sim_fuel : nat) (cfg : config) : Prop :=
  valid_config cfg ∧ positive_gaps cfg ∧ bounded_feedback cfg ks ∧
  feedback_fuel cfg ks ≤ sim_fuel.

(** * Lemmas *)

Section cells_lemmas.
Context {R : RandomSource} `{!RandomSourceLaws R}.
Context {PQ : PriorityQueue event} `{!PriorityQueueLaws event_lt PQ}.

Lemma experiment_cell_no_exn cfg sim_fuel fuel k e :
  valid_config cfg → experiment_cell cfg sim_fuel fuel k ≠ Failed e.
Proof.
  intros Hcfg [Hr|([r k'] & _ & ?)]%loop_bind_Failed; [|done].
  by apply run_simulation_no_exn in Hr.
Qed.

Lemma experiment_cell_returns cfg ks sim_fuel fuel k :
  cell_ends ks sim_fuel cfg → max_iterations notebook_control ≤ fuel →
  ∃ table k', experiment_cell cfg sim_fuel fuel k = Finished (table, k') ∧ table_ok table.
Proof.
  intros (Hcfg & Hgaps & Hks & Hsim) Hfuel.
  destruct (run_simulation_returns_feedback cfg ks sim_fuel fuel k) as (r & k' & Hr); [done..|].
  exists (print_table r), k'. unfold experiment_cell. rewrite Hr. split; [done|].
  apply print_table_lines.
Qed.

Lemma run_cells_no_exn cells sim_fuel fuel k e :
  Forall (λ cell, ∀ k e, cell sim_fuel fuel k ≠ Failed e) cells →
  run_cells cells sim_fuel fuel k ≠ Failed e.
Proof.
  intros Hcells. revert k. induction Hcells as [|cell cells Hcell _ IH]; intros k; [done|]. simpl.
  intros [Hc|([table k1] & _ & [Hr|([tables k2] & _ & ?)]%loop_bind_Failed)]%loop_bind_Failed;
    [by apply Hcell in Hc|by apply IH in Hr|done].
Qed.

Lemma run_cells_returns cells sim_fuel fuel k :
  Forall (λ cell, ∀ k, ∃ table k', cell sim_fuel fuel k = Finished (table, k') ∧ table_ok table)
    cells →
  ∃ tables k', run_cells cells sim_fuel fuel k = Finished (tables, k') ∧
               length tables = length cells ∧ Forall table_ok tables.
Proof.
  intros Hcells. revert k. induction Hcells as [|cell cells Hcell _ IH]; intros k.
  - by exists [], k.
  - destruct (Hcell k) as (table & k1 & Hc & Ht). destruct (IH k1) as (tables & k2 & Hr & Hlen & Hts).
    exists (table :: tables), k2. simpl. rewrite Hc. simpl. rewrite Hr. simpl.
    split_and!; [done|by rewrite Hlen|by constructor].
Qed.

Lemma notebook_cells sim_fuel fuel k :
  notebook sim_fuel fuel k = run_cells (experiment_cell <$> experiments) sim_fuel fuel k.
Proof. done. Qed.

(** The experiments run to time 5000 on three stations at most, which
    bounds the fuel of their runs. *)
Lemma experiments_size cfg :
  cfg ∈ experiments → arg_time cfg = 5000%Z ∧ stations cfg ≤ 3.
Proof.
  unfold experiments. intros Hcfg.
  repeat (apply elem_of_cons in Hcfg as [->|Hcfg]); try by apply elem_of_nil in Hcfg.
  all: split; [reflexivity|vm_compute; lia].
Qed.

Lemma experiments_fuel ks cfg :
  cfg ∈ experiments → feedback_fuel cfg ks ≤ Z.to_nat 45009 * (1 + length ks).
Proof.
  intros [Htime Hn]%experiments_size. unfold feedback_fuel, enough_fuel. rewrite Htime.
  apply Nat.mul_le_mono_r. lia.
Qed.

(** C18: the six cells of the experiments, run in the order of the
    notebook on one generator, raise no exception; and when every
    arrival gap drawn is at least one tick and at most the draws [ks]
    send a client back, the notebook prints six tables of nine lines,
    the lines of a table of one length: every run ends within
    [45009 * (1 + length ks)] iterations of the loop of
    [servers_simulation], every call of [run_simulation] within 5000
    runs. *)
Theorem notebook_prints ks sim_fuel fuel k :
  (∀ e, notebook sim_fuel fuel k ≠ Failed e) ∧
  ((∀ cfg, cfg ∈ experiments → positive_gaps cfg ∧ bounded_feedback cfg ks) →
   Z.to_nat 45009 * (1 + length ks) ≤ sim_fuel → 5000 ≤ fuel →
   ∃ tables k', notebook sim_fuel fuel k = Finished (tables, k') ∧
                length tables = 6 ∧ Forall table_ok tables).
Proof.
  rewrite notebook_cells. split.
  - intros e. apply run_cells_no_exn, Forall_fmap. eapply Forall_impl; [apply experiments_valid|].
    intros cfg Hcfg k' e'. by apply experiment_cell_no_exn.
  - intros Hexp Hsim Hfuel.
    destruct (run_cells_returns (experiment_cell <$> experiments) sim_fuel fuel k)
      as (tables & k' & Hr & Hlen & Hts); [|by exists tables, k'].
    apply Forall_fmap, Forall_forall. intros cfg Hcfg k'.
    destruct (Hexp cfg Hcfg) as [Hgaps Hks]. apply (experiment_cell_returns cfg ks); [|done].
    split_and!; [|done..|etrans; [by apply experiments_fuel|done]].
    pose proof experiments_valid as Hv. rewrite Forall_forall in Hv. by apply Hv.
Qed.
End cells_lemmas.

Lemma mean_source_experiments cfg :
  cfg ∈ experiments →
  positive_gaps (R:=mean_source) cfg ∧ bounded_feedback (R:=mean_source) cfg [].
Proof.
  unfold experiments. intros Hcfg.
  repeat (apply elem_of_cons in Hcfg as [->|Hcfg]); try by apply elem_of_nil in Hcfg.
  all: split; [by intros k|intros k _ i p_i _ Hp; simpl in Hp];
    destruct i as [|[|[|i]]]; simplify_eq/=; done.
Qed.

Lemma notebook_prints_witness :
  ∃ tables k',
    notebook (R:=mean_source) (PQ:=list_pq event_lt) (Z.to_nat 45009) 5000 0 = Finished (tables, k') ∧
    length tables = 6 ∧ Forall table_ok tables.
Proof.
  apply (proj2 (notebook_prints (R:=mean_source) (PQ:=list_pq event_lt) [] (Z.to_nat 45009) 5000 0));
    [apply mean_source_experiments|cbn [length]; lia|lia].
Defined.
