(* ===== verification/Traffic.v ===== *)
(** * Traffic: the rates of the stations when clients are sent back

    The last part of the analytic model of [src/sim.ipynb] is about the
    network with feedback.  It states the arrival rate of every station,
    [lambda_0 = lambda] and
    [lambda_i = lambda_(i-1) + sum_(j=i+1)^n p lambda_j], treats every
    station as an M/M/1 queue with that rate, and adds that the rates
    cannot be computed "because the recursion goes forward and backward".

    The first part of this file holds these equations ([traffic]) and
    the time in the system they give ([feedback_W]).  The system is
    triangular when read from the last station: [shares] computes the
    rates as multiples of the rate of the last station, [traffic_rates]
    scales them to the external rate, and the result is the only
    solution.

    The equations are prose of the notebook, not code: the file is kept
    beside the model of the program, as [Analysis].  What the code does
    with the clients it sends back is in [Flow]. *)

From Stdlib Require Import ZArith QArith Qabs Lia Lqa.
From stdpp Require Import list.
From S2P Require Import Prelude Numpy Controller Analysis.

(** [lambda_i], [0] beyond the last station. *)
Definition rate (lams : list Q) (i : nat) : Q := default 0%Q (lams !! i).

(** [sum_(j=i+1)^n p lambda_j] *)
Definition fed_back (p : Q) (lams : list Q) (i : nat) : Q :=
  sumQ ((λ x, p * x)%Q <$> drop (S i) lams).

(** [lambda_0 = lambda] and
    [lambda_i = lambda_(i-1) + sum_(j=i+1)^n p lambda_j] *)
Definition traffic (lambda p : Q) (lams : list Q) : Prop :=
  ∀ i, i < length lams →
    (rate lams i == match i with
                    | 0%nat => lambda
                    | S i' => rate lams i' + fed_back p lams i
                    end)%Q.

(** [W = sum W_i] with [W_i = L_i / lambda_i] and
    [L_i = rho_i / (1 - rho_i)]. *)
Definition feedback_W (lams mus : list Q) : Q :=
  sumQ (zip_with mm1_W lams mus).

(** The rate of a station as a multiple of the rate of the last one,
    given the multiples [cs] of the stations after it. *)
Definition share (p : Q) (cs : list Q) : Q :=
  match cs with
  | [] => 1
  | c :: cs' => c - p * sumQ cs'
  end.

(** The rates of [n] stations as multiples of the rate of the last. *)
Fixpoint shares (p : Q) (n : nat) : list Q :=
  match n with
  | 0 => []
  | S n' => share p (shares p n') :: shares p n'
  end.

(** The rates of [n] stations with the external rate [lambda]. *)
Definition traffic_rates (lambda p : Q) (n : nat) : list Q :=
  (λ c, lambda / rate (shares p n) 0 * c)%Q <$> shares p n.

(** The equations without the external rate. *)
Definition balanced (p : Q) (lams : list Q) : Prop :=
  ∀ i, S i < length lams → (rate lams (S i) == rate lams i + fed_back p lams (S i))%Q.

(** * Lemmas *)

Lemma sumQ_scale k l : (sumQ ((λ x, k * x)%Q <$> l) == k * sumQ l)%Q.
Proof. induction l as [|x l IH]; simpl; [ring|]. rewrite IH. ring. Qed.

Lemma sumQ_Forall2 l1 l2 : Forall2 Qeq l1 l2 → (sumQ l1 == sumQ l2)%Q.
Proof. induction 1 as [|x y l1 l2 Hxy _ IH]; simpl; [done|]. by rewrite Hxy, IH. Qed.

Lemma Forall2_Qeq_fmap (f g : Q → Q) l1 l2 :
  (∀ x y, (x == y)%Q → (f x == g y)%Q) → Forall2 Qeq l1 l2 → Forall2 Qeq (f <$> l1) (g <$> l2).
Proof. intros Hfg. induction 1; constructor; auto. Qed.

Lemma rate_scale k l i : (rate ((λ x, k * x)%Q <$> l) i == k * rate l i)%Q.
Proof.
  unfold rate. rewrite list_lookup_fmap. destruct (l !! i); simpl; ring.
Qed.

Lemma fed_back_scale p k l i :
  (fed_back p ((λ x, k * x)%Q <$> l) i == k * fed_back p l i)%Q.
Proof.
  unfold fed_back. rewrite <- fmap_drop, !sumQ_scale. ring.
Qed.

Lemma length_shares p n : length (shares p n) = n.
Proof. induction n; simpl; congruence. Qed.

(** The multiples satisfy the equations of the stations after the first. *)
Lemma shares_balanced p n : balanced p (shares p n).
Proof.
  induction n as [|n IH]; intros i Hi; simpl in *; [lia|].
  rewrite length_shares in Hi. destruct i as [|i].
  - destruct n as [|n]; [lia|]. unfold rate, fed_back. simpl. rewrite sumQ_scale, drop_0. ring.
  - apply (IH i). rewrite length_shares. lia.
Qed.

Lemma balanced_scale p k l : balanced p l → balanced p ((λ x, k * x)%Q <$> l).
Proof.
  intros Hl i Hi. rewrite length_fmap in Hi.
  rewrite !rate_scale, fed_back_scale, (Hl i Hi). ring.
Qed.

Lemma balanced_tail p a l : balanced p (a :: l) → balanced p l.
Proof. intros Hl i Hi. apply (Hl (S i)). simpl. lia. Qed.

(** The equations are those of the stations after the first and the
    external rate at the first. *)
Lemma traffic_balanced lambda p lams :
  traffic lambda p lams ↔ balanced p lams ∧ (0 < length lams → (rate lams 0 == lambda)%Q).
Proof.
  split.
  - intros Ht. split; [intros i Hi; apply (Ht (S i) Hi)|apply (Ht 0)].
  - intros [Hb H0] [|i] Hi; [by apply H0|]. by apply Hb.
Qed.

(** The rates computed from the last station solve the equations. *)
Lemma traffic_rates_solve lambda p n :
  ¬ (rate (shares p n) 0 == 0)%Q → traffic lambda p (traffic_rates lambda p n).
Proof.
  intros Hc. apply traffic_balanced. split; [apply balanced_scale, shares_balanced|].
  intros _. unfold traffic_rates. rewrite rate_scale. by field.
Qed.

(** A solution of the equations of the stations after the first is a
    multiple of [shares]. *)
Lemma balanced_shares p lams :
  balanced p lams → ∃ x, Forall2 Qeq lams ((λ c, x * c)%Q <$> shares p (length lams)).
Proof.
  induction lams as [|a [|b l] IH]; intros Hl.
  - by exists 0%Q.
  - exists a. repeat constructor. simpl. ring.
  - destruct (IH (balanced_tail p a _ Hl)) as [x Hx]. exists x.
    specialize (Hl 0 ltac:(simpl; lia)). unfold rate, fed_back in Hl. simpl in Hl.
    rewrite drop_0, sumQ_scale in Hl. simpl in Hx |- *.
    apply Forall2_cons in Hx as Hbx. destruct Hbx as [Hb Hs%sumQ_Forall2].
    rewrite sumQ_scale in Hs. constructor; [|done]. rewrite Hb, Hs in Hl.
    apply (Qplus_inj_r _ _ (p * (x * sumQ (shares p (length l))))). rewrite <- Hl. ring.
Qed.

(** The equations have no other solution. *)
Lemma traffic_rates_only lambda p lams :
  ¬ (rate (shares p (length lams)) 0 == 0)%Q → traffic lambda p lams →
  Forall2 Qeq lams (traffic_rates lambda p (length lams)).
Proof.
  intros Hc [Hb H0]%traffic_balanced. destruct (balanced_shares p lams Hb) as [x Hx].
  destruct lams as [|a l]; [constructor|]. specialize (H0 ltac:(simpl; lia)).
  assert (x == lambda / rate (shares p (length (a :: l))) 0)%Q as Hxl.
  { apply Forall2_cons_inv_l in Hx as (y & l' & Ha & _ & Hy). unfold rate in H0 |- *. simpl in *.
    injection Hy as <- _. rewrite <- H0, Ha. by field. }
  etrans; [done|]. apply Forall2_Qeq_fmap; [|by apply Forall_Forall2_diag, Forall_true].
  intros c c' ->. by rewrite Hxl.
Qed.

(** Without feedback every station has the external rate. *)
Lemma shares_zero n : Forall (λ c, c == 1)%Q (shares 0 n).
Proof.
  induction n as [|n IH]; simpl; constructor; [|done].
  destruct IH as [|c cs Hc _]; simpl; [done|]. rewrite Hc. ring.
Qed.

Lemma traffic_rates_zero lambda n :
  Forall (λ x, x == lambda)%Q (traffic_rates lambda 0 n).
Proof.
  unfold traffic_rates, rate. apply Forall_fmap.
  destruct (shares_zero n) as [|c cs Hc Hcs]; [done|]. cbn [lookup list_lookup default].
  assert (∀ x, x == 1 → lambda / c * x == lambda)%Q as Hx.
  { intros x ->. rewrite Hc. by field. }
  constructor; [by apply Hx|]. eapply Forall_impl; [done|]. intros x. apply Hx.
Qed.

#[export] Instance mm1_W_proper : Proper (Qeq ==> Qeq ==> Qeq) mm1_W.
Proof. intros x x' Hx y y' Hy. unfold mm1_W, mm1_L, rho. by rewrite Hx, Hy. Qed.

(** Without feedback the time in the system is that of the tandem. *)
Lemma feedback_W_zero lambda mus :
  (feedback_W (traffic_rates lambda 0 (length mus)) mus == tandem_W lambda mus)%Q.
Proof.
  unfold feedback_W, tandem_W. pose proof (traffic_rates_zero lambda (length mus)) as Hl.
  assert (length (traffic_rates lambda 0 (length mus)) = length mus) as Hlen
    by (unfold traffic_rates; by rewrite length_fmap, length_shares).
  revert Hl Hlen. generalize (traffic_rates lambda 0 (length mus)). intros lams Hl.
  revert mus. induction Hl as [|x lams Hx _ IH]; intros [|mu mus] Hlen; simplify_eq/=; [done|].
  by rewrite Hx, IH.
Qed.

(** The rates of three stations. *)
Lemma traffic_rates_3 lambda p :
  ¬ (p == 1)%Q →
  Forall2 Qeq (traffic_rates lambda p 3) [lambda; lambda / (1 - p); lambda / (1 - p)]%Q.
Proof.
  intros Hp. unfold traffic_rates, rate. simpl.
  repeat constructor; field; intros E; apply Hp; lra.
Qed.

(** The numbers of the model for experiment 6 (three stations, feedback
    with probability 1/10): the rates are [1/7], [10/63] and [10/63],
    the time in the system is [28/3 + 126/43 + 63/53], below 13.5, and
    the table of the experiment reports a mean more than five thousand
    times that. *)
Theorem feedback_model_numbers :
  Forall2 Qeq (traffic_rates (1 # 7) (1 # 10) 3) [1 # 7; 10 # 63; 10 # 63]%Q ∧
  (feedback_W (traffic_rates (1 # 7) (1 # 10) 3) [1 # 4; 1 # 2; 1] ==
     (28 # 3) + (126 # 43) + (63 # 53))%Q ∧
  (feedback_W (traffic_rates (1 # 7) (1 # 10) 3) [1 # 4; 1 # 2; 1] < 27 # 2)%Q ∧
  (5000 * feedback_W (traffic_rates (1 # 7) (1 # 10) 3) [1 # 4; 1 # 2; 1] <
     system_mean observed_6)%Q.
Proof. split; [by repeat constructor|by vm_compute]. Qed.

(** According to the equations more clients arrive at the last station
    than from outside, although every client that leaves the network
    leaves it there and was admitted once. *)
Lemma traffic_rates_gain lambda p :
  (0 < lambda)%Q → (0 < p < 1)%Q → (lambda < rate (traffic_rates lambda p 3) 2)%Q.
Proof.
  intros Hl [Hp0 Hp1]. unfold traffic_rates, rate. simpl.
  assert (lambda / (1 - p * 0 - p * (1 + 0)) * 1 == lambda / (1 - p))%Q as -> by (field; lra).
  apply Qlt_shift_div_l; [lra|]. nra.
Qed.

(** The traffic equations of the notebook's model with feedback
    determine the rates of the stations, although the notebook states
    that they cannot be computed: the rates [traffic_rates] computes from
    the last station backward solve the equations, and every solution
    is equal to them, whenever the multiple of the first station is not
    [0]. *)
Lemma traffic_rates_spec lambda p n :
  ¬ (rate (shares p n) 0 == 0)%Q →
  traffic lambda p (traffic_rates lambda p n) ∧
  ∀ lams, length lams = n → traffic lambda p lams →
    Forall2 Qeq lams (traffic_rates lambda p n).
Proof.
  intros Hc. split; [by apply traffic_rates_solve|].
  intros lams <-. by apply traffic_rates_only.
Qed.

Lemma traffic_rates_spec_witness :
  traffic (1 # 7) (1 # 10) (traffic_rates (1 # 7) (1 # 10) 3) ∧
  ∀ lams, length lams = 3 → traffic (1 # 7) (1 # 10) lams →
    Forall2 Qeq lams (traffic_rates (1 # 7) (1 # 10) 3).
Proof. apply (traffic_rates_spec (1 # 7) (1 # 10) 3). by vm_compute. Defined.
